(* ===== verification/_CoqProject ===== *)
-Q . S2P
Prelude.v
PyFloat.v
FloatSign.v
FloatExact.v
FloatRound.v
FloatValid.v
PyStr.v
FloatParse.v
FloatFormat.v
FloatPrint.v
PyValue.v
Config.v
Normalizer.v
Dates.v
Age.v
Filter.v
Summarizer.v
Thresholds.v
Sorting.v
Coroutine.v
Http.v
Scan.v
Chat.v
Handlers.v
Search.v
App.v
Polling.v
