(* ===== verification/Prelude.v ===== *)
(** * pulse-memecoin-bot: a verification development

    ** The program

    src/memecoin_bot.py is a Telegram bot.  On [/trending] and [/new]
    it fetches a listing of liquidity pools from GeckoTerminal, turns
    every record of the JSON answer into a text block and four metrics
    ([summarize_pool], with the helpers [usd] and [hours_since]), keeps
    the records that pass four fixed thresholds
    ([looks_like_memecoin]), sorts them by transaction count and
    liquidity and replies with the first ten ([scan_geckoterminal]).
    On [/search] it asks DexScreener for the pairs matching a term and
    replies with a line for each of the first ten pairs of the
    PulseChain network.  Every handler catches what the request or a
    record raises and replies with an error line.
    The handlers, the scan and the fetch are coroutines ([async def]):
    a command opens a session of the HTTP client, awaits one request
    in it and leaves the session, and awaits each of its replies.
    [main] reads the token of the bot from the environment, registers
    the four handlers and hands them to the polling loop of the
    telegram library, which may run the handlers of several updates
    interleaved.
    The records are whatever the service sends: every field may be
    missing, [null], or of an unexpected type, and the program is
    written in a dynamically typed language, so what it does on such
    input, the exceptions included, is part of its behaviour.

    ** The development, file by file

    The model is a shallow embedding: every function of the source is a
    Rocq function of the same name, on the values Python computes with.
    A file first gives the program, the definitions that translate
    lines of the source, and then the specification, the definitions
    the theorems compare the program with ([eligible], [scan_rows],
    [scan_command_run], [search_run], [commands], [protocol]); the
    specification translates no line.

    - Prelude.v (this file): exceptions as values ([exn]), the monad
      [result] of a call that returns or raises, [try_default] for
      [try: ... except: return d], [traverse] and [for_loop] for loops
      that stop at the first exception, the tactics and the hint
      database [py].
    - PyFloat.v: [float] as IEEE-754 binary64 on the Standard Library's
      [SpecFloat]; conversion from [int], true division, and the exact
      numeric order (through rationals, [nan] unordered) that Python's
      comparisons between [int] and [float] compute.
    - FloatSign.v: rounding keeps the sign of a number and never
      yields [nan].
    - FloatExact.v: an [int] below [2^53] in magnitude converts to a
      [float] of the same value.
    - FloatRound.v: the rounding of [SpecFloat] is faithful: the
      float of a number lies on the same side of every float as the
      number itself; for quotients of integers, quotients of floats
      and decimal numerals.
    - FloatValid.v: every operation on floats returns a binary64
      value: a canonical mantissa and an exponent in range.
    - PyStr.v: [str] as UTF-8 text; [join], [split], iteration, [repr].
    - FloatParse.v: [float(s)] on a string, correctly rounded.
    - FloatFormat.v: the format specs [,.8f], [,.0f], [.1f], [repr] of a
      [float] (shortest digits that read back), [str] of an [int], as
      CPython computes them from the exact decimal expansion.
    - FloatPrint.v: what the language promises of the format specs,
      and that [format_f] keeps the promise: the nearest decimal of
      the precision, its layout, the groups of three.
    - PyValue.v: the values [r.json()] returns ([pyval]) and the
      operations the program applies to them: truthiness, [or], [.get],
      [+], [>=], [<=], [float], iteration, [str], each with the
      exception and the message of CPython 3.11.
    - Config.v: the constants of lines 11 to 22.
    - Normalizer.v: [usd] (lines 27 to 31).
    - Dates.v: [datetime] values and the interface [DateLib] to
      [dateutil.parser.isoparse], with an instance for the examples.
    - Age.v: [hours_since] (lines 33 to 40).
    - Filter.v: the metrics and [looks_like_memecoin] (lines 71 to 77);
      [eligible] is the specification.
    - Summarizer.v: [summarize_pool] (lines 47 to 69).
    - Thresholds.v: the filter on the data of a listing: amounts
      spelled as decimal numerals, integer counts, a creation date;
      amounts spelled with a minus sign.
    - Sorting.v: [list.sort(key=..., reverse=...)] over the interface
      [StrictWeak] of strict weak orders.
    - Coroutine.v: an [async def] as a finite tree [coro E A] that
      returns, raises, or awaits a call of the signature [E] and
      continues with the answer; sequencing ([coro_bind]),
      [try_except], [finally]; the runs of a coroutine ([steps],
      [runs]: the calls with their answers, for every answer), the run
      against one environment ([interp]), the bound on the awaits
      ([within]), resuming as a function ([resume], [replay]), and the
      equivalence of coroutines with the same runs.
    - Http.v: the calls of the network ([netE]: opening a session, a
      request, closing a session), [async_with_client] for
      [async with httpx.AsyncClient() as client] (lines 81 and 129),
      [fetch_json] (lines 42 to 45), the discipline of sessions as the
      state machine [protocol], and the interface [World] (HTTP
      answers, date parser, clock).
    - Scan.v: [scan_geckoterminal] (lines 79 to 90) as a coroutine of
      the network, its loop with the list [results] as state, and its
      specification as a pipeline of list functions.
    - Chat.v: an [update] with its message or [None], a [message]
      with its text or [None]; [update.message.reply_text] as an
      awaited call ([chatE]), or the [AttributeError] of [None];
      a [handler] as a coroutine of the network and the chat ([botE]),
      the interface [Chat], the run of a handler in a world and a chat
      ([run]), and the invariant [tidy] of handlers on sessions.
    - Handlers.v: [start], [trending] and [new] (lines 95 to 119) and
      the specification [scan_command_run] of their runs.
    - Search.v: [search] (lines 121 to 149) and the specification
      [search_run] of its runs.
    - App.v: [BOT_TOKEN] (line 10) over the environment of the
      process, [main] (lines 154 to 160) up to the call of the polling
      loop, with the refusal of an empty token by the library, and
      [program], the module run as a script (lines 163 and 164).
    - Polling.v: [app.run_polling()] (line 161) as a transition system
      on the pool of the tasks started ([step], [polls]), the same as a
      function of the labels ([run_polling]), and the schedule that
      serves one update after the other ([serve]).

    ** What is proved

    - Normalizer: what [usd] returns on every kind of value; it never
      raises.
    - Age: the age is [math.inf] for every value the parser refuses; a
      timestamp without zone counts as UTC; the age depends on the
      instant only; the age of a timestamp that is not in the future
      is not negative, and a timestamp in the future has a negative
      age, a microsecond ahead already; the age is at most 48 exactly
      when at most 48 hours, to the microsecond, have passed; the age
      is a binary64 value.
    - FloatValid, PyValue: the conversions, the division and the
      addition return binary64 values; [.get], [or], [+], [float]
      and iteration keep decoded values well formed ([wf_pyval]:
      distinct keys, floats of the format).
    - FloatRound: a float is the rounding of a number when it is the
      nearest float (ties to even, overflow to infinity); rounding is
      monotone against floats, so a number not above a float is not
      rounded above it, and a number not below is not rounded below.
    - FloatFormat: the decimal expansion the printers work on is the
      exact value of the float; the rounding to a number of digits is
      to the nearest integer, ties to even, and monotone.
    - FloatPrint: for every finite float and every precision [p], the
      text of the format spec is the sign, digits without a zero in
      front and a point with exactly [p] digits, and the digits read
      as the integer nearest to the value scaled by [10^p], the even
      one of two; with the grouping option the digits before the point
      are a first group of one to three and groups of exactly three, a
      comma before each, and the digits are the same without it.
    - Filter: the filter answers [True] exactly on the conjunction of
      the four thresholds, raises exactly when the liquidity passes and
      the transaction count is no number, and the defaults of the
      normalisers fail closed; on integer fields below [2^53] the
      thresholds are the comparisons of the integers themselves.
    - Thresholds: on amounts spelled with at most 12 (liquidity) and 8
      (valuation) digits after the point, integer counts and a
      creation date that parses, the filter decides exactly what the
      thresholds say of the amounts, the counts and the elapsed time:
      no rounding changes the answer.  An amount that is not zero,
      spelled with a minus sign, is normalised to a float below zero,
      which passes the test of the valuation.
    - Summarizer: the metrics as functions of the fields, and that
      they are well formed on a well-formed record ([wf_metrics]);
      the two ways a record cannot be summarised; the summary of an
      empty record; the transaction count of integer counts and of
      counts spelled as strings; the order of the attributes of a
      record does not matter.
    - Sorting: the sort rearranges, orders and is stable in both
      directions; a stable sorted rearrangement is unique, so the
      result is that of any stable algorithm; [reverse=True] is the
      descending stable sort.
    - Coroutine: the laws of sequencing; the runs, the run against an
      environment and the bound on the awaits of each operation; the
      step relation is computed by [replay], so a run is determined by
      the answers.
    - Http: when [fetch_json] returns and which exception it raises;
      [async with] closes the session whether the body returned or
      raised; the session of a command has one request, made with the
      timeout of 15 seconds.
    - Scan: the refinement between the program and the pipeline;
      soundness and completeness of the report with respect to the
      filter; the order and stability of the ranking and that the cut
      keeps the best ten; the number of texts; when the placeholder is
      returned; when and with which exception the scan raises; the
      envelope without [data] and with [data: null].
    - Handlers: the runs of a scanning command are the four runs of
      its specification, whatever the service and the chat answer; the
      two replies when the chat delivers them; what is sent when the
      scan raises and when the chat refuses the report; at most two
      texts are shown, the progress line first; an exception leaves a
      handler only when the chat refused its last reply; the second
      text is never empty.
    - Search: the runs of [/search] are those of its specification;
      the refinement between the loop and a traversal of the pairs;
      the usage reply, for which the service is not asked; pairs of
      other networks are skipped unread; the fields a pair of the
      network must have for a line to be made, and the exception when
      one is missing; the term searched for is never empty.
    - App: the program starts exactly when the token is in the
      environment and not empty, and then each command is registered
      under its own name; every registered command replies once or
      twice and returns when the chat delivers and the update carries
      a message, and raises [AttributeError] without a reply when it
      carries none; in every run it keeps the discipline of sessions,
      asks the service at most once, and finishes within six awaits.
    - Polling: in every execution of the loop for the application
      [main] has built, however the tasks are interleaved, a task is a
      registered handler advanced by its own
      events only (isolation), so a finished task made a complete run
      of its command; every task keeps the discipline of sessions and
      asks the service at most once; an execution with [n] updates has
      at most [7 * n] steps; a task can always be resumed until it
      finishes; the executions are the computations of
      [run_polling]; serving the updates one after the other is an
      execution in which every task finishes and the chat shows what
      [run] says.

    ** Interfaces

    [DateLib] (Dates.v) is what the program assumes of the date parser,
    [World] (Http.v) what it assumes of the network and the clock,
    [Chat] (Chat.v) what it assumes of the telegram library,
    [StrictWeak] (Sorting.v) what the sort assumes of the order.  The
    signatures [netE] and [chatE] say which calls a coroutine may
    await and what can be answered; the theorems on runs hold for
    every answer, and a [World] with a [Chat] is one environment among
    them.  The theorems are proved against the interfaces; the instances
    [iso_extended], [static_world], [open_chat], [limited_chat],
    [StrictWeak_tuple_lt] and [StrictWeak_nat] show that they have
    models and run the examples.

    ** Bounds

    Integers are unbounded ([Z]), as Python's.  Floats have 53 bits of
    precision and the exponent range of binary64.  [repr] of a float
    tries 1 to 17 significant digits; 17 digits always read back, so
    the fuel 17 of [shortest_from] is enough.  [str] of an [int] raises
    beyond 4300 digits, as CPython 3.11 does.  The report has at most
    10 texts.  No definition needs fuel for termination: every loop
    of the program is a loop over a finite list, and no loop contains
    an [await], so a coroutine is a finite tree.  A scan awaits 3
    calls (opening the session, the request, closing the session); a
    command awaits at most 6 (the progress line, the session, the
    reply, and the error line when the reply was refused); an
    execution of the loop with [n] updates has at most [7 * n] steps.
    The thresholds are exact for amounts of at most 12 and 8 digits
    after the point because the floats next to [3000.0] and
    [20000000.0] are [2^-41] and [2^-28] away, less than [10^-12] and
    [10^-8]; the integer part is not bounded.  The age is exact for an
    elapsed time of at least [-2^62] microseconds, more than the
    calendar of [datetime] (years 1 to 9999) spans: the float next to
    [172800.0] seconds is [2^-35] away, less than a microsecond.
    The sign of a negative amount is kept for at most 300 digits
    after the point: an amount that is not zero is then at least
    [10^-300], above the float [2^-1000], so its float is not a zero.

    ** Faithfulness

    The builtin operations were compared with CPython 3.11 on several
    thousand generated inputs (parsing, formatting, [repr], [split],
    arithmetic, comparisons, subscripts and error messages), and the
    composite functions ([summarize_pool] followed by the filter, and
    the body of the loop of [search]) on several hundred generated
    records.  [float(s)] is modelled on ASCII input: a string with
    other characters is refused, where CPython also accepts Unicode
    digits and spaces.  A [dict] is an association list and [.get]
    reads the first binding of a key; decoded JSON has one binding for
    each key.  Opening and closing a session are taken not to raise;
    a request and a reply are answered or raise.  An update carries a
    message or none (the library hands an edited command to the
    handler with [update.message] set to [None]), and the text of a
    message may be absent.  The library refuses an empty token when
    the application is built ([InvalidToken], python-telegram-bot 20
    and later); every other token is accepted there.
    [except Exception] catches every exception of the model:
    cancellation, which it would let pass, does not occur (the program
    cancels nothing).

    ** What is not modelled

    - The imports (lines 1 to 5): the libraries are modelled through
      the interfaces above, at the calls the program makes.
    - The parsing of a command by the telegram library: an update
      comes with the name of its command, and a handler is modelled
      from the point where it is called with the update.
    - What the service makes of a token that is not empty (a wrong
      one is refused when polling starts), and the network traffic of
      polling itself: the loop is modelled from the updates it hands
      to the handlers.
    - The order in which the library resumes the tasks: the loop is
      modelled with every order, so the theorems hold of the order
      the library chooses.
    - The end of the process ([run_polling] returns on a signal): the
      model has no last step. *)

From Stdlib Require Export ZArith String Ascii.
From stdpp Require Export prelude strings.

(** ** Exceptions

    Python exceptions are values: a class and the message [str(e)]
    prints.  Every class below derives from [Exception], so the
    handlers' [except Exception] and the bare [except:] of [usd] catch
    all of them. *)

Inductive exn_class : Set :=
| AttributeError
| TypeError
| ValueError
| KeyError
| OverflowError
| ZeroDivisionError
| TransportError
| HTTPStatusError
| JSONDecodeError
| TelegramError
| InvalidToken.

Record exn : Set := Exn { exn_cls : exn_class; exn_msg : string }.

#[export] Instance exn_class_eq_dec : EqDecision exn_class.
Proof. solve_decision. Defined.

#[export] Instance exn_eq_dec : EqDecision exn.
Proof. solve_decision. Defined.

(** ** The result monad *)

Inductive result (A : Type) : Type :=
| Ok (a : A)
| Raise (e : exn).

Arguments Ok {A} a.
Arguments Raise {A} e.

#[export] Instance result_ret : MRet result := fun A a => Ok a.

#[export] Instance result_bind : MBind result := fun A B f r =>
  match r with
  | Ok a => f a
  | Raise e => Raise e
  end.

#[export] Instance result_fmap : FMap result := fun A B f r =>
  match r with
  | Ok a => Ok (f a)
  | Raise e => Raise e
  end.

#[export] Instance result_eq_dec {A} `{EqDecision A} : EqDecision (result A).
Proof. solve_decision. Defined.

(** [raise c msg] is Python's [raise c(msg)]. *)
Definition raise {A} (c : exn_class) (msg : string) : result A :=
  Raise (Exn c msg).

Arguments Exn exn_cls exn_msg%_string.
Arguments raise {A} c msg%_string.

(** [try: return r except: return d]: the total function the [try]
    block of [usd] and [hours_since] denotes. *)
Definition try_default {A} (r : result A) (d : A) : A :=
  match r with
  | Ok a => a
  | Raise _ => d
  end.

Definition is_ok {A} (r : result A) : bool :=
  match r with Ok _ => true | Raise _ => false end.

(** Evaluate [f] on the elements from left to right and stop at the
    first exception: the shape of a [for] loop whose body can raise. *)
Fixpoint traverse {A B} (f : A -> result B) (l : list A) : result (list B) :=
  match l with
  | [] => Ok []
  | x :: l' =>
      y ← f x;
      ys ← traverse f l';
      Ok (y :: ys)
  end.

Declare Scope py_scope.
Delimit Scope py_scope with py.

(** ** Tactics *)

(** Case analysis on the first [result] that is scrutinised. *)
Ltac case_result :=
  match goal with
  | |- context [mbind _ ?r] => destruct r eqn:?
  | |- context [try_default ?r _] => destruct r eqn:?
  | |- context [match ?r with Ok _ => _ | Raise _ => _ end] => destruct r eqn:?
  end.

Create HintDb py discriminated.

(** ** Laws of the monad *)

Section result_laws.
Context {A B C : Type}.
Implicit Types (r : result A) (f : A -> result B) (g : B -> result C).

Lemma bind_Ok a f : Ok a ≫= f = f a.
Proof. reflexivity. Qed.

Lemma bind_Raise e f : Raise e ≫= f = Raise e.
Proof. reflexivity. Qed.

Lemma bind_ret r : r ≫= mret = r.
Proof. by destruct r. Qed.

Lemma bind_assoc r f g : (r ≫= f) ≫= g = r ≫= (fun a => f a ≫= g).
Proof. by destruct r. Qed.

Lemma bind_Ok_inv r f b :
  r ≫= f = Ok b <-> exists a, r = Ok a /\ f a = Ok b.
Proof.
  destruct r as [a|e]; simpl; naive_solver.
Qed.

Lemma bind_Raise_inv r f e :
  r ≫= f = Raise e <-> r = Raise e \/ exists a, r = Ok a /\ f a = Raise e.
Proof.
  destruct r as [a|e']; simpl; naive_solver.
Qed.

Lemma fmap_Ok_inv (h : A -> B) r b :
  h <$> r = Ok b <-> exists a, r = Ok a /\ b = h a.
Proof.
  destruct r as [a|e]; simpl; naive_solver.
Qed.

Lemma try_default_Ok r d a : r = Ok a -> try_default r d = a.
Proof. by intros ->. Qed.

Lemma try_default_Raise r d e : r = Raise e -> try_default r d = d.
Proof. by intros ->. Qed.

Lemma is_ok_true r : is_ok r = true <-> exists a, r = Ok a.
Proof. destruct r; simpl; naive_solver. Qed.

End result_laws.

#[export] Hint Rewrite @bind_Ok @bind_Raise @bind_ret : py.

(** ** [traverse] *)

Section traverse.
Context {A B : Type} (f : A -> result B).

Lemma traverse_Ok_length l ys : traverse f l = Ok ys -> length ys = length l.
Proof.
  revert ys; induction l as [|x l IH]; intros ys; simpl.
  - by intros [= <-].
  - destruct (f x); [|done]. destruct (traverse f l); [|done].
    intros [= <-]; simpl. by rewrite (IH _ eq_refl).
Qed.

Lemma traverse_Ok_Forall2 l ys :
  traverse f l = Ok ys <-> Forall2 (fun x y => f x = Ok y) l ys.
Proof.
  revert ys; induction l as [|x l IH]; intros ys; simpl.
  - split; [intros [= <-]; constructor | by inversion 1].
  - split.
    + destruct (f x) eqn:Hx; [|done]. destruct (traverse f l) eqn:Hl; [|done].
      intros [= <-]. constructor; [done | by apply IH].
    + inversion 1 as [|? y ? ys' Hx Hl]; subst.
      apply IH in Hl. by rewrite Hx, Hl.
Qed.

Lemma traverse_app l1 l2 :
  traverse f (l1 ++ l2) =
  ys1 ← traverse f l1; ys2 ← traverse f l2; Ok (ys1 ++ ys2).
Proof.
  induction l1 as [|x l1 IH]; simpl.
  - by destruct (traverse f l2).
  - destruct (f x); [|done]. rewrite IH.
    destruct (traverse f l1); [|done]. by destruct (traverse f l2).
Qed.

Lemma traverse_is_ok l :
  Forall (fun y => is_ok (f y) = true) l -> exists ys, traverse f l = Ok ys.
Proof.
  induction 1 as [|x l Hx _ [ys IH]]; simpl; [by eauto|].
  apply is_ok_true in Hx as [y ->]. rewrite IH. simpl. eauto.
Qed.

Lemma traverse_Raise_intro l1 x l2 e :
  Forall (fun y => is_ok (f y) = true) l1 -> f x = Raise e ->
  traverse f (l1 ++ x :: l2) = Raise e.
Proof.
  intros [ys Hys]%traverse_is_ok Hx.
  rewrite traverse_app, Hys. simpl. by rewrite Hx.
Qed.

Lemma traverse_Raise_elim l e :
  traverse f l = Raise e ->
  exists l1 x l2, l = l1 ++ x :: l2 /\ f x = Raise e /\
                  Forall (fun y => is_ok (f y) = true) l1.
Proof.
  induction l as [|x l IH]; simpl; [done|].
  destruct (f x) as [y|e'] eqn:Hx; simpl.
  - destruct (traverse f l); simpl; [done|]. intros [= ->].
    destruct (IH eq_refl) as (l1 & x' & l2 & -> & ? & ?).
    exists (x :: l1), x', l2. split_and!; [done..|].
    constructor; [by rewrite Hx | done].
  - intros [= ->]. exists [], x, l. by split_and!.
Qed.

(** The loop raises exactly the exception of the first element that
    raises. *)
Lemma traverse_Raise l e :
  traverse f l = Raise e <->
  exists l1 x l2, l = l1 ++ x :: l2 /\ f x = Raise e /\
                  Forall (fun y => is_ok (f y) = true) l1.
Proof.
  split; [apply traverse_Raise_elim|].
  intros (l1 & x & l2 & -> & ? & ?). by apply traverse_Raise_intro.
Qed.

(** The same, by position: the first element on which [f] raises. *)
Lemma traverse_Raise_lookup l e :
  traverse f l = Raise e <->
  exists k x, l !! k = Some x /\ f x = Raise e /\
    forall j y, (j < k)%nat -> l !! j = Some y -> is_ok (f y) = true.
Proof.
  rewrite traverse_Raise. split.
  - intros (l1 & x & l2 & -> & Hx & Hl1). exists (length l1), x.
    split_and!; [by rewrite list_lookup_middle | done |].
    intros j y Hj Hy. rewrite lookup_app_l in Hy by done.
    rewrite Forall_forall in Hl1. apply Hl1. by eapply list_elem_of_lookup_2.
  - intros (k & x & Hk & Hx & Hlt). exists (take k l), x, (drop (S k) l).
    split_and!; [by rewrite take_drop_middle | done |].
    apply Forall_forall. intros y [j Hj]%list_elem_of_lookup.
    apply lookup_take_Some in Hj as [? ?]. eauto.
Qed.

End traverse.

(** ** Loops with a state *)

(** [for x in l: s = body(s, x)], stopping at the first exception. *)
Fixpoint for_loop {S A} (body : S -> A -> result S) (s : S) (l : list A) : result S :=
  match l with
  | [] => Ok s
  | x :: l' => s' ← body s x; for_loop body s' l'
  end.

Lemma for_loop_app {S A} (body : S -> A -> result S) s l1 l2 :
  for_loop body s (l1 ++ l2) = s' ← for_loop body s l1; for_loop body s' l2.
Proof.
  revert s; induction l1 as [|x l1 IH]; intros s; simpl; [done|].
  destruct (body s x); simpl; [apply IH | done].
Qed.

(** A loop that appends what it keeps is a traversal followed by a
    selection: [judge] says what an element yields and whether it is
    kept. *)
Lemma for_loop_append {A B} (judge : A -> result (bool * B)) acc l :
  for_loop (fun acc x => judge x ≫= fun j : bool * B =>
              Ok (if j.1 then acc ++ [j.2] else acc)) acc l =
  js ← traverse judge l;
  Ok (acc ++ omap (fun j : bool * B => if j.1 then Some j.2 else None) js).
Proof.
  revert acc; induction l as [|x l IH]; intros acc; simpl.
  - by rewrite app_nil_r.
  - destruct (judge x) as [[[] b]|]; simpl; [| |done]; rewrite IH;
      destruct (traverse judge l); simpl; by rewrite <- ?app_assoc.
Qed.

(** The same for a body that yields a line or skips the element
    ([continue]). *)
Lemma for_loop_collect {A B} (f : A -> result (option B)) acc l :
  for_loop (fun acc x => f x ≫= fun o : option B =>
              Ok (match o with Some b => acc ++ [b] | None => acc end)) acc l =
  os ← traverse f l;
  Ok (acc ++ omap id os).
Proof.
  revert acc; induction l as [|x l IH]; intros acc; simpl.
  - by rewrite app_nil_r.
  - destruct (f x) as [[b|]|]; simpl; [| |done]; rewrite IH;
      destruct (traverse f l); simpl; by rewrite <- ?app_assoc.
Qed.
