(* ===== verification/PyFloat.v ===== *)
(** * PyFloat: Python's [float] and its numeric order

    A Python [float] is an IEEE-754 binary64 value.  It is modelled by
    the Standard Library's [spec_float] at precision 53 and maximal
    exponent 1024, with the library's executable, axiom-free rounding
    ([binary_round_aux]) and arithmetic ([SFadd], [SFdiv]).

    The file holds the conversions the program uses (an [int] to a
    [float], a decimal numeral to a [float], the true division of two
    [int]s that [timedelta.total_seconds] performs, the division of two
    [float]s) and the order of Python's numbers.  Python compares
    [int]s and [float]s by their exact values, so the order is defined
    on [xreal], the extended rationals a number denotes; [nan] compares
    false with everything. *)

From Stdlib Require Import QArith Lqa.
From Stdlib Require Export SpecFloat.
From S2P Require Import Prelude.

#[local] Open Scope Z_scope.

(** ** Binary64 *)

Notation float := spec_float.

Definition prec : Z := 53.
Definition emax : Z := 1024.

(** [0.0], [math.inf] and [nan] *)
Definition f_zero : float := S754_zero false.
Definition f_inf : float := S754_infinity false.
Definition f_nan : float := S754_nan.

#[export] Instance float_eq_dec : EqDecision float.
Proof. solve_decision. Defined.

Definition is_nan (f : float) : bool :=
  match f with S754_nan => true | _ => false end.

Definition is_zero (f : float) : bool :=
  match f with S754_zero _ => true | _ => false end.

(** ** Correctly rounded conversions *)

(** The float nearest to the integer [n] (ties to even); an infinity
    when [n] is out of range. *)
Definition float_of_Z (n : Z) : float := binary_normalize prec emax n 0 false.

(** The float nearest to [num / den], with the sign [neg]. *)
Definition float_of_ratio (neg : bool) (num den : positive) : float :=
  let '(q, e, l) := SFdiv_core_binary prec emax (Zpos num) 0 (Zpos den) 0 in
  binary_round_aux prec emax neg q e l.

(** The float nearest to [d * 10^k], with the sign [neg]: the value of
    a decimal numeral with digits [d] and decimal exponent [k]. *)
Definition float_of_decimal (neg : bool) (d : N) (k : Z) : float :=
  match d with
  | N0 => S754_zero neg
  | Npos p =>
      if 0 <=? k then binary_round prec emax neg (p * Z.to_pos (10 ^ k)) 0
      else float_of_ratio neg p (Z.to_pos (10 ^ (- k)))
  end.

(** ** Python's operations *)

(** [float(n)] for an [int] [n] *)
Definition int_to_float (n : Z) : result float :=
  match float_of_Z n with
  | S754_infinity _ => raise OverflowError "int too large to convert to float"
  | f => Ok f
  end.

(** [a / b] for [int]s [a] and [b]: the quotient, correctly rounded *)
Definition int_true_div (a b : Z) : result float :=
  match a, b with
  | _, Z0 => raise ZeroDivisionError "division by zero"
  | Z0, _ => Ok (S754_zero (b <? 0))
  | (Zpos p | Zneg p), (Zpos q | Zneg q) =>
      match float_of_ratio (xorb (a <? 0) (b <? 0)) p q with
      | S754_infinity _ =>
          raise OverflowError "integer division result too large for a float"
      | f => Ok f
      end
  end.

(** [x / y] for [float]s *)
Definition float_div (x y : float) : result float :=
  if is_zero y then raise ZeroDivisionError "float division by zero"
  else Ok (SFdiv prec emax x y).

(** [x + y] for [float]s *)
Definition float_add (x y : float) : float := SFadd prec emax x y.

(** ** The value of a number *)

Inductive xreal : Set :=
| XNaN
| XNegInf
| XFin (q : Q)
| XPosInf.

Definition Q_of_dyadic (s : bool) (m : positive) (e : Z) : Q :=
  ((if s then -1 else 1) * inject_Z (Zpos m) * 2 ^ e)%Q.

Definition float_val (f : float) : xreal :=
  match f with
  | S754_nan => XNaN
  | S754_infinity s => if s then XNegInf else XPosInf
  | S754_zero _ => XFin 0
  | S754_finite s m e => XFin (Q_of_dyadic s m e)
  end.

Definition Z_val (n : Z) : xreal := XFin (inject_Z n).

(** Three-way comparison; [None] when an operand is [nan]. *)
Definition xcompare (x y : xreal) : option comparison :=
  match x, y with
  | XNaN, _ | _, XNaN => None
  | XFin p, XFin q => Some (p ?= q)%Q
  | XNegInf, XNegInf | XPosInf, XPosInf => Some Eq
  | XNegInf, _ | _, XPosInf => Some Lt
  | XPosInf, _ | _, XNegInf => Some Gt
  end.

(** [x <= y], [x < y] and [x == y] as Python evaluates them *)
Definition xleb (x y : xreal) : bool :=
  match xcompare x y with Some (Lt | Eq) => true | _ => false end.

Definition xltb (x y : xreal) : bool :=
  match xcompare x y with Some Lt => true | _ => false end.

Definition xeqb (x y : xreal) : bool :=
  match xcompare x y with Some Eq => true | _ => false end.

Definition x_is_nan (x : xreal) : bool :=
  match x with XNaN => true | _ => false end.

(** Being the same number: rationals up to [Qeq], [nan] apart. *)
Definition xequiv (x y : xreal) : Prop :=
  match x, y with
  | XFin p, XFin q => (p == q)%Q
  | XNaN, XNaN | XNegInf, XNegInf | XPosInf, XPosInf => True
  | _, _ => False
  end.

(** ** The order of the numbers *)

Section xorder.
Implicit Types x y z : xreal.

Lemma xcompare_Fin p q : xcompare (XFin p) (XFin q) = Some (p ?= q)%Q.
Proof. reflexivity. Qed.

Lemma xleb_Fin p q : xleb (XFin p) (XFin q) = true <-> (p <= q)%Q.
Proof.
  unfold xleb; simpl. rewrite Qle_alt.
  destruct (p ?= q)%Q; naive_solver.
Qed.

Lemma xltb_Fin p q : xltb (XFin p) (XFin q) = true <-> (p < q)%Q.
Proof.
  unfold xltb; simpl. rewrite Qlt_alt.
  destruct (p ?= q)%Q; naive_solver.
Qed.

Lemma xeqb_Fin p q : xeqb (XFin p) (XFin q) = true <-> (p == q)%Q.
Proof.
  unfold xeqb; simpl. rewrite Qeq_alt.
  destruct (p ?= q)%Q; naive_solver.
Qed.

Lemma xleb_nan_l y : xleb XNaN y = false.
Proof. reflexivity. Qed.

Lemma xleb_nan_r x : xleb x XNaN = false.
Proof. by destruct x. Qed.

Lemma xleb_not_nan x y : xleb x y = true -> x_is_nan x = false /\ x_is_nan y = false.
Proof. by destruct x, y. Qed.

Lemma xleb_refl x : x_is_nan x = false -> xleb x x = true.
Proof. destruct x; try done. intros _. apply xleb_Fin. lra. Qed.

Lemma xleb_trans x y z : xleb x y = true -> xleb y z = true -> xleb x z = true.
Proof.
  destruct x, y, z; try done.
  rewrite !xleb_Fin. lra.
Qed.

Lemma xleb_total x y :
  x_is_nan x = false -> x_is_nan y = false -> xleb x y = true \/ xleb y x = true.
Proof.
  destruct x, y; try done; auto.
  intros _ _. rewrite !xleb_Fin. lra.
Qed.

Lemma xltb_xleb x y :
  x_is_nan x = false -> x_is_nan y = false -> xltb x y = negb (xleb y x).
Proof.
  destruct x as [| |p|], y as [| |q|]; try done.
  intros _ _. unfold xltb, xleb; simpl.
  rewrite <- (Qcompare_antisym p q). by destruct (p ?= q)%Q.
Qed.

Lemma xltb_irrefl x : xltb x x = false.
Proof.
  destruct x; try done. apply not_true_is_false. rewrite xltb_Fin. lra.
Qed.

Lemma xltb_trans x y z : xltb x y = true -> xltb y z = true -> xltb x z = true.
Proof.
  destruct x, y, z; try done.
  rewrite !xltb_Fin. lra.
Qed.

Lemma xltb_leb x y : xltb x y = true -> xleb x y = true.
Proof. unfold xltb, xleb. by destruct (xcompare x y) as [[]|]. Qed.

Lemma xeqb_xleb x y : xeqb x y = xleb x y && xleb y x.
Proof.
  destruct x as [| |p|], y as [| |q|]; try done.
  unfold xeqb, xleb; simpl.
  rewrite <- (Qcompare_antisym p q). by destruct (p ?= q)%Q.
Qed.

Lemma xltb_neg_trans x y z :
  x_is_nan x = false -> x_is_nan y = false -> x_is_nan z = false ->
  xltb x y = false -> xltb y z = false -> xltb x z = false.
Proof.
  intros Hx Hy Hz. rewrite !xltb_xleb, !negb_false_iff by done.
  eauto using xleb_trans.
Qed.

(** On numbers, [==] is being neither smaller nor larger. *)
Lemma xeqb_xltb x y :
  x_is_nan x = false -> x_is_nan y = false ->
  xeqb x y = negb (xltb x y) && negb (xltb y x).
Proof.
  intros Hx Hy. rewrite xeqb_xleb, !xltb_xleb, !negb_involutive by done.
  apply andb_comm.
Qed.

Lemma xeqb_equiv x y : xeqb x y = true <-> xequiv x y /\ x_is_nan x = false.
Proof.
  destruct x, y; simpl; try (by naive_solver).
  rewrite xeqb_Fin. naive_solver.
Qed.

#[export] Instance xequiv_equivalence : Equivalence xequiv.
Proof.
  split.
  - intros []; simpl; by try reflexivity.
  - intros [] []; simpl; by try symmetry.
  - intros [] [] []; simpl; try done. apply Qeq_trans.
Qed.

#[export] Instance xcompare_proper : Proper (xequiv ==> xequiv ==> eq) xcompare.
Proof.
  intros [] [] Hx [] [] Hy; simpl in *; try done.
  by rewrite Hx, Hy.
Qed.

#[export] Instance xleb_proper : Proper (xequiv ==> xequiv ==> eq) xleb.
Proof. intros ?? Hx ?? Hy. unfold xleb. by rewrite Hx, Hy. Qed.

#[export] Instance xltb_proper : Proper (xequiv ==> xequiv ==> eq) xltb.
Proof. intros ?? Hx ?? Hy. unfold xltb. by rewrite Hx, Hy. Qed.

End xorder.

#[export] Hint Resolve xleb_refl xleb_trans xltb_leb : py.
#[export] Hint Rewrite xleb_nan_l xleb_nan_r xltb_irrefl : py.

(** ** Values of the conversions on small arguments *)

Lemma float_val_zero s : float_val (S754_zero s) = XFin 0.
Proof. reflexivity. Qed.

Lemma float_val_inf : float_val f_inf = XPosInf.
Proof. reflexivity. Qed.

Lemma float_val_nan f : x_is_nan (float_val f) = is_nan f.
Proof. by destruct f as [| [] | |]. Qed.
