(* ===== verification/FloatSign.v ===== *)
(** * FloatSign: the sign of a rounded result

    Rounding never changes the sign of a number and never produces
    [nan]: the result of a correctly rounded division has the sign the
    exact quotient has, whatever its magnitude rounds to (a zero, a
    finite number or an infinity).  This is what the age of a pool
    needs: the elapsed time divided twice is negative only when the
    elapsed time is. *)

From Stdlib Require Import QArith Qpower Lqa.
From S2P Require Import Prelude PyFloat.

#[local] Open Scope Z_scope.

(** [f] is a number of sign [s] ([true] for minus): a zero, a finite
    number or an infinity, not [nan]. *)
Definition signed (s : bool) (f : float) : Prop :=
  match f with
  | S754_zero s' | S754_infinity s' | S754_finite s' _ _ => s' = s
  | S754_nan => False
  end.

#[export] Instance signed_dec s f : Decision (signed s f).
Proof. destruct f; simpl; apply _. Defined.

(** ** The shifts of the rounding keep a mantissa non-negative *)

Section shifts.

Lemma iter_pos_invariant {A} (P : A -> Prop) (f : A -> A) n x :
  (forall y, P y -> P (f y)) -> P x -> P (iter_pos f n x).
Proof. intros Hf. revert x. induction n as [n IH|n IH|]; simpl; auto. Qed.

Lemma shr_1_nonneg mrs : 0 <= shr_m mrs -> 0 <= shr_m (shr_1 mrs).
Proof. destruct mrs as [[|[p|p|]|[p|p|]] r s]; simpl; lia. Qed.

Lemma shr_nonneg mrs e n : 0 <= shr_m mrs -> 0 <= shr_m (shr mrs e n).1.
Proof.
  intros Hm. destruct n as [|p|p]; simpl; [done| |done].
  by apply (iter_pos_invariant (fun r => 0 <= shr_m r)); [apply shr_1_nonneg|].
Qed.

Lemma shr_record_of_loc_m m l : shr_m (shr_record_of_loc m l) = m.
Proof. by destruct l as [|[]]. Qed.

Lemma shr_fexp_nonneg m e l : 0 <= m -> 0 <= shr_m (shr_fexp prec emax m e l).1.
Proof. intros Hm. unfold shr_fexp. apply shr_nonneg. by rewrite shr_record_of_loc_m. Qed.

Lemma round_nearest_even_nonneg m l : 0 <= m -> 0 <= round_nearest_even m l.
Proof. intros Hm. destruct l as [|[]]; simpl; [done | | done | lia]. destruct (Z.even m); lia. Qed.

End shifts.

(** ** Rounding keeps the sign *)

Section signs.
Implicit Types (s : bool) (f x y : float).

Lemma binary_round_aux_signed s m e l :
  0 <= m -> signed s (binary_round_aux prec emax s m e l).
Proof.
  intros Hm. unfold binary_round_aux.
  pose proof (shr_fexp_nonneg m e l Hm) as H1.
  destruct (shr_fexp prec emax m e l) as [mrs' e']; simpl in H1.
  pose proof (shr_fexp_nonneg _ e' loc_Exact
                (round_nearest_even_nonneg _ (loc_of_shr_record mrs') H1)) as H2.
  destruct (shr_fexp prec emax _ e' loc_Exact) as [mrs'' e'']; simpl in H2.
  destruct (shr_m mrs''); [done | by destruct (_ <=? _) | lia].
Qed.

Lemma SFdiv_core_binary_nonneg m1 e1 m2 e2 :
  0 <= m1 -> 0 < m2 -> 0 <= (SFdiv_core_binary prec emax m1 e1 m2 e2).1.1.
Proof.
  intros H1 H2. unfold SFdiv_core_binary.
  set (s := _ - _ - _). set (m' := match s with Z0 => _ | Zpos _ => _ | Zneg _ => _ end).
  assert (0 <= m') as Hm'.
  { subst m'. destruct s; [done | by apply Z.shiftl_nonneg | done]. }
  pose proof (Z_div_mod m' m2 ltac:(lia)) as Hdm.
  destruct (Z.div_eucl m' m2) as [q r]; simpl. nia.
Qed.

Lemma float_of_ratio_signed s p q : signed s (float_of_ratio s p q).
Proof.
  unfold float_of_ratio.
  pose proof (SFdiv_core_binary_nonneg (Zpos p) 0 (Zpos q) 0 ltac:(lia) ltac:(lia)) as Hq.
  destruct (SFdiv_core_binary _ _ _ _ _ _) as [[m e] l]; simpl in Hq.
  by apply binary_round_aux_signed.
Qed.

(** The quotient of two integers has the sign of the exact
    quotient. *)
Lemma int_true_div_signed a b f :
  int_true_div a b = Ok f -> signed (xorb (a <? 0) (b <? 0)) f.
Proof.
  unfold int_true_div. destruct a as [|p|p], b as [|q|q]; simpl; try done;
    try (by intros [= <-]);
    (match goal with |- context [float_of_ratio ?s ?p ?q] =>
       pose proof (float_of_ratio_signed s p q) as Hs;
       destruct (float_of_ratio s p q); [by intros [= <-] | done | done | by intros [= <-]]
     end).
Qed.

(** The quotient of a number by a finite number other than zero. *)
Lemma float_div_signed x y sx sy my ey f :
  signed sx x -> y = S754_finite sy my ey -> float_div x y = Ok f ->
  signed (xorb sx sy) f.
Proof.
  intros Hx -> [= <-]. destruct x as [s|s| |s m e]; simpl in *; subst; try done.
  pose proof (SFdiv_core_binary_nonneg (Zpos m) e (Zpos my) ey ltac:(lia) ltac:(lia)) as Hq.
  destruct (SFdiv_core_binary _ _ _ _ _ _) as [[mz ez] lz]; simpl in Hq.
  by apply binary_round_aux_signed.
Qed.

(** ** The sign and the order *)

Lemma dyadic_magnitude_nonneg m e : (0 <= inject_Z (Zpos m) * 2 ^ e)%Q.
Proof.
  apply Qmult_le_0_compat; [by unfold Qle; simpl; lia|].
  apply Qlt_le_weak, Qpower_0_lt. reflexivity.
Qed.

Lemma Q_of_dyadic_nonneg m e : (0 <= Q_of_dyadic false m e)%Q.
Proof. pose proof (dyadic_magnitude_nonneg m e). unfold Q_of_dyadic. nra. Qed.

Lemma Q_of_dyadic_nonpos m e : (Q_of_dyadic true m e <= 0)%Q.
Proof. pose proof (dyadic_magnitude_nonneg m e). unfold Q_of_dyadic. nra. Qed.

Lemma signed_nonneg f : signed false f -> xleb (Z_val 0) (float_val f) = true.
Proof.
  destruct f as [s|s| |s m e]; simpl; intros Hs; subst; try done.
  apply xleb_Fin, Q_of_dyadic_nonneg.
Qed.

Lemma signed_nonpos f : signed true f -> xleb (float_val f) (Z_val 0) = true.
Proof.
  destruct f as [s|s| |s m e]; simpl; intros Hs; subst; try done.
  apply xleb_Fin, Q_of_dyadic_nonpos.
Qed.

End signs.
