(* ===== verification/FloatExact.v ===== *)
(** * FloatExact: the integers a float represents exactly

    An [int] of magnitude below [2^53] converts to a [float] without
    rounding.  This is what makes the thresholds of the filter mean what
    they say on the integers of a JSON document: [float(n)] is [n], so
    [float(n) >= 3000] is [n >= 3000].

    The proof follows the conversion: the mantissa is shifted left to
    53 bits, which makes the number canonical, and a canonical number
    is a fixed point of the rounding. *)

From Stdlib Require Import QArith Qpower Qfield Lqa.
From S2P Require Import Prelude PyFloat.

#[local] Open Scope Z_scope.

(** ** The number of bits of a mantissa *)

Section digits.
Implicit Types (m : positive) (k : positive).

Lemma digits2_pos_bounds m :
  2 ^ (Zpos (digits2_pos m) - 1) <= Zpos m < 2 ^ Zpos (digits2_pos m).
Proof.
  induction m as [m IH|m IH|]; simpl digits2_pos; [| |simpl; lia];
    rewrite Pos2Z.inj_succ;
    replace (Z.succ (Zpos (digits2_pos m)) - 1) with (Z.succ (Zpos (digits2_pos m) - 1)) by lia;
    rewrite !Z.pow_succ_r by lia; lia.
Qed.

Lemma digits2_pos_le m n : Zpos m < 2 ^ n -> Zpos (digits2_pos m) <= n.
Proof.
  intros Hm. destruct (digits2_pos_bounds m) as [Hlo _].
  destruct (Z_le_gt_dec (Zpos (digits2_pos m)) n) as [|Hgt]; [done|]. exfalso.
  assert (2 ^ n <= 2 ^ (Zpos (digits2_pos m) - 1)); [|lia].
  apply Z.pow_le_mono_r; lia.
Qed.

(** Shifting left by [k] bits multiplies by [2^k] and adds [k]
    bits. *)
Lemma iter_xO_value m k : Zpos (Pos.iter xO m k) = Zpos m * 2 ^ Zpos k.
Proof.
  induction k as [|k IH] using Pos.peano_ind.
  - simpl. lia.
  - rewrite Pos.iter_succ, Pos2Z.inj_succ, Z.pow_succ_r by lia.
    rewrite Pos2Z.inj_xO, IH. lia.
Qed.

Lemma iter_xO_digits m k :
  digits2_pos (Pos.iter xO m k) = (digits2_pos m + k)%positive.
Proof.
  induction k as [|k IH] using Pos.peano_ind.
  - simpl. lia.
  - rewrite Pos.iter_succ. simpl. rewrite IH. lia.
Qed.

End digits.

(** ** A canonical number is a fixed point of the rounding *)

Section canonical.
Implicit Types (s : bool) (m : positive) (e : Z).

Lemma shr_fexp_canonical m e :
  canonical_mantissa prec emax m e = true ->
  shr_fexp prec emax (Zpos m) e loc_Exact = (Build_shr_record (Zpos m) false false, e).
Proof.
  unfold canonical_mantissa, shr_fexp. intros He%Z.eqb_eq. simpl Zdigits2.
  by rewrite He, Z.sub_diag.
Qed.

Lemma binary_round_aux_canonical s m e :
  canonical_mantissa prec emax m e = true -> e <= emax - prec ->
  binary_round_aux prec emax s (Zpos m) e loc_Exact = S754_finite s m e.
Proof.
  intros Hc He. unfold binary_round_aux.
  rewrite (shr_fexp_canonical m e Hc). simpl. rewrite (shr_fexp_canonical m e Hc). simpl.
  by rewrite (proj2 (Z.leb_le _ _) He).
Qed.

(** The conversion of a mantissa of at most 53 bits: the mantissa is
    shifted left to exactly 53 bits. *)
Lemma binary_round_small s m :
  Zpos m < 2 ^ 53 ->
  exists m' e, binary_round prec emax s m 0 = S754_finite s m' e /\
               e <= 0 /\ Zpos m' = Zpos m * 2 ^ (- e).
Proof.
  intros Hm. pose proof (digits2_pos_le m 53 Hm) as Hd.
  unfold binary_round, shl_align, fexp, emin.
  rewrite Z.add_0_r, Z.sub_0_r.
  replace (Z.max (Zpos (digits2_pos m) - prec) (3 - emax - prec))
    with (Zpos (digits2_pos m) - 53) by (unfold prec, emax; lia).
  destruct (Zpos (digits2_pos m) - 53) as [|p|p] eqn:E; [|lia|].
  - exists m, 0. split_and!; [|done|simpl; lia].
    apply binary_round_aux_canonical; [|done].
    apply Z.eqb_eq. unfold fexp, emin, prec, emax. lia.
  - exists (Pos.iter xO m p), (Zneg p). split_and!; [|lia|by rewrite iter_xO_value].
    apply binary_round_aux_canonical; [|done].
    apply Z.eqb_eq. rewrite iter_xO_digits, Pos2Z.inj_add. unfold fexp, emin, prec, emax. lia.
Qed.

End canonical.

(** ** The value of a converted integer *)

Section values.

Lemma Q_of_dyadic_integer s m' m e :
  e <= 0 -> Zpos m' = Zpos m * 2 ^ (- e) ->
  (Q_of_dyadic s m' e == (if s then -1 else 1) * inject_Z (Zpos m))%Q.
Proof.
  intros He Hm. unfold Q_of_dyadic. rewrite Hm, inject_Z_mult, (Zpower_Qpower 2 (- e)) by lia.
  replace e with (- - e) at 2 by lia. rewrite (Qpower_opp _ (- e)).
  assert (0 < inject_Z 2 ^ (- e))%Q by (apply Qpower_0_lt; reflexivity).
  change (inject_Z 2) with 2%Q in *. field. lra.
Qed.

(** An integer below [2^53] in magnitude converts to the float of the
    same value. *)
Lemma float_of_Z_exact n :
  Z.abs n < 2 ^ 53 -> xequiv (float_val (float_of_Z n)) (Z_val n).
Proof.
  intros Hn. unfold float_of_Z, binary_normalize. destruct n as [|m|m]; [done|..].
  - destruct (binary_round_small false m ltac:(lia)) as (m' & e & -> & He & Hm).
    simpl. rewrite (Q_of_dyadic_integer false m' m e He Hm). ring.
  - destruct (binary_round_small true m ltac:(lia)) as (m' & e & -> & He & Hm).
    simpl. rewrite (Q_of_dyadic_integer true m' m e He Hm).
    change (inject_Z (Zneg m)) with (- inject_Z (Zpos m))%Q. ring.
Qed.

Lemma float_of_Z_finite n :
  Z.abs n < 2 ^ 53 ->
  match float_of_Z n with S754_infinity _ | S754_nan => False | _ => True end.
Proof.
  intros Hn. unfold float_of_Z, binary_normalize. destruct n as [|m|m]; [done|..].
  - by destruct (binary_round_small false m ltac:(lia)) as (m' & e & -> & _).
  - by destruct (binary_round_small true m ltac:(lia)) as (m' & e & -> & _).
Qed.

(** [float(n)] does not raise on such an integer. *)
Lemma int_to_float_exact n :
  Z.abs n < 2 ^ 53 ->
  exists f, int_to_float n = Ok f /\ xequiv (float_val f) (Z_val n).
Proof.
  intros Hn. pose proof (float_of_Z_exact n Hn) as Hv. pose proof (float_of_Z_finite n Hn) as Hf.
  unfold int_to_float. destruct (float_of_Z n); try done; eauto.
Qed.

(** The order of two integers, as numbers. *)
Lemma xleb_Z_val a b : xleb (Z_val a) (Z_val b) = (a <=? b).
Proof.
  apply eq_true_iff_eq. unfold Z_val. by rewrite xleb_Fin, Z.leb_le, <- Zle_Qle.
Qed.

End values.
