(* ===== verification/FloatRound.v ===== *)
(** * FloatRound: a rounded result lies between its neighbours

    The divisions of the program are correctly rounded: the result is
    the float nearest to the exact quotient.  What the comparisons of
    the program need of it is less: the result is one of the two floats
    that enclose the exact quotient, and it is the quotient when the
    quotient is a float.  So rounding never carries a number across a
    float: when the exact quotient is at most (at least) a float [c],
    so is the rounded quotient.

    The proof follows [binary_round_aux] of the Standard Library: the
    shift to 53 bits keeps the exact value between two consecutive
    mantissas, the choice of the nearest takes one of the two, and the
    second shift changes nothing of the value. *)

From Stdlib Require Import QArith Qpower Qfield Lqa.
From S2P Require Import Prelude PyFloat FloatSign FloatExact.

#[local] Open Scope Z_scope.

(** ** Dyadic numbers *)

(** The number [m * 2^e]. *)
Definition dy (m e : Z) : Q := (inject_Z m * 2 ^ e)%Q.

(** A float of the format: at most 53 bits of mantissa, an exponent
    not below the least, and a full mantissa above the least
    exponent. *)
Record format (m e : Z) : Prop := Format {
  format_nonneg : 0 <= m;
  format_bits : m < 2 ^ prec;
  format_emin : emin prec emax <= e;
  format_normal : emin prec emax < e -> 2 ^ (prec - 1) <= m;
}.

(** The exact value [x] lies between the mantissa of [mrs] and the
    next, at the exponent [e]; the two bits of [mrs] say whether it is
    the mantissa itself. *)
Definition inexact (mrs : shr_record) : bool := shr_r mrs || shr_s mrs.

Record encl (x : Q) (mrs : shr_record) (e : Z) : Prop := Encl {
  encl_nonneg : 0 <= shr_m mrs;
  encl_lo : (dy (shr_m mrs) e <= x)%Q;
  encl_hi : (x < dy (shr_m mrs + 1) e)%Q;
  encl_exact : inexact mrs = false -> (x == dy (shr_m mrs) e)%Q;
  encl_strict : inexact mrs = true -> (dy (shr_m mrs) e < x)%Q;
}.

Section dyadic.
Implicit Types (m n e k : Z).

Lemma pow2_pos e : (0 < 2 ^ e)%Q.
Proof. by apply Qpower_0_lt. Qed.

Lemma pow2_add a b : (2 ^ (a + b) == 2 ^ a * 2 ^ b)%Q.
Proof. by apply Qpower_plus. Qed.

Lemma pow2_succ e : (2 ^ (e + 1) == 2 * 2 ^ e)%Q.
Proof. rewrite pow2_add. change (2 ^ 1)%Q with 2%Q. ring. Qed.

Lemma pow2_inject k : 0 <= k -> (inject_Z (2 ^ k) == 2 ^ k)%Q.
Proof. intros Hk. by rewrite Zpower_Qpower. Qed.

Lemma dy_le m n e : (dy m e <= dy n e)%Q <-> m <= n.
Proof. unfold dy. rewrite Qmult_le_r by apply pow2_pos. by rewrite Zle_Qle. Qed.

Lemma dy_lt m n e : (dy m e < dy n e)%Q <-> m < n.
Proof. unfold dy. rewrite Qmult_lt_r by apply pow2_pos. by rewrite Zlt_Qlt. Qed.

Lemma dy_shift m e k : 0 <= k -> (dy m (e + k) == dy (m * 2 ^ k) e)%Q.
Proof.
  intros Hk. unfold dy. rewrite pow2_add, inject_Z_mult, pow2_inject by done. ring.
Qed.

Lemma dy_double m e : (dy (2 * m) e == dy m (e + 1))%Q.
Proof. rewrite (dy_shift m e 1) by lia. by rewrite Z.mul_comm. Qed.

Lemma dy_plus m n e : (dy (m + n) e == dy m e + dy n e)%Q.
Proof. unfold dy. rewrite inject_Z_plus. ring. Qed.

Lemma dy_inj m n e : (dy m e == dy n e)%Q -> m = n.
Proof. intros H. apply Z.le_antisymm; apply (dy_le _ _ e); rewrite H; apply Qle_refl. Qed.

Lemma dy_zero e : (dy 0 e == 0)%Q.
Proof. unfold dy. simpl. ring. Qed.

Lemma dy_exp_mono m e e' : 0 <= m -> e <= e' -> (dy m e <= dy m e')%Q.
Proof.
  intros Hm He. replace e' with (e + (e' - e)) by lia. rewrite dy_shift by lia.
  apply dy_le. assert (1 <= 2 ^ (e' - e)) by (apply Z.pow_le_mono_r with (b := 0); lia). nia.
Qed.

Lemma dy_one_pos e : (0 < dy 1 e)%Q.
Proof. unfold dy. change (inject_Z 1) with 1%Q. pose proof (pow2_pos e). lra. Qed.

End dyadic.

(** ** The shift to the right *)

Section shift.
Implicit Types (x : Q) (mrs : shr_record) (m e n : Z).

Lemma shr_1_spec m r s :
  0 <= m -> shr_1 (Build_shr_record m r s) = Build_shr_record (m / 2) (Z.odd m) (r || s).
Proof.
  intros Hm. destruct m as [|[p|p|]|]; [done| | |done|lia]; unfold shr_1;
    f_equal; try done.
  - apply (Z.div_unique _ _ _ 1); lia.
  - apply (Z.div_unique _ _ _ 0); lia.
Qed.

(** One step of the shift keeps the enclosure, an exponent higher. *)
Lemma shr_1_encl x mrs e : encl x mrs e -> encl x (shr_1 mrs) (e + 1).
Proof.
  destruct mrs as [m r s]. intros [Hm Hlo Hhi Hex Hst]. rewrite shr_1_spec by done.
  unfold inexact in *. simpl in *.
  pose proof (Z.div2_odd m) as Hdiv. rewrite Z.div2_div in Hdiv.
  assert (0 <= m / 2) as Hk by (apply Z.div_pos; lia).
  set (k := m / 2) in *. clearbody k.
  assert (dy m e == dy k (e + 1) + (if Z.odd m then dy 1 e else 0))%Q as Hmk.
  { rewrite Hdiv at 1. rewrite dy_plus, dy_double.
    destruct (Z.odd m); simpl; [reflexivity | unfold dy; ring]. }
  assert (dy (k + 1) (e + 1) == dy k (e + 1) + 2 * dy 1 e)%Q as Hup.
  { rewrite dy_plus, <- (dy_double 1). unfold dy. rewrite inject_Z_mult. ring. }
  rewrite dy_plus in Hhi. pose proof (dy_one_pos e) as H1.
  split; unfold inexact; simpl; rewrite ?Hup; [done|destruct (Z.odd m); lra..| |].
  - intros [Hodd Hrs]%orb_false_elim. rewrite Hodd in Hmk. specialize (Hex Hrs). lra.
  - intros [Hodd|Hrs]%orb_true_elim.
    + rewrite Hodd in Hmk. lra.
    + specialize (Hst Hrs). destruct (Z.odd m); lra.
Qed.

Lemma iter_pos_count {A} (P : Z -> A -> Prop) (f : A -> A) :
  (forall k y, P k y -> P (k + 1) (f y)) ->
  forall (p : positive) k y, P k y -> P (k + Zpos p) (iter_pos f p y).
Proof.
  intros Hf p. induction p as [p IH|p IH|]; intros k y Hy; simpl.
  - replace (k + Zpos p~1) with (k + 1 + Zpos p + Zpos p) by lia. auto.
  - replace (k + Zpos p~0) with (k + Zpos p + Zpos p) by lia. auto.
  - auto.
Qed.

(** The shift by [n] bits keeps the enclosure and divides the mantissa
    by [2^n]. *)
Lemma shr_encl x mrs e n :
  encl x mrs e ->
  encl x (shr mrs e n).1 (shr mrs e n).2 /\
  (shr mrs e n).2 = e + Z.max 0 n /\
  shr_m (shr mrs e n).1 = shr_m mrs / 2 ^ Z.max 0 n.
Proof.
  intros Hx. destruct n as [|p|p]; simpl;
    [by rewrite Z.add_0_r, Z.div_1_r| |by rewrite Z.add_0_r, Z.div_1_r].
  pose proof (iter_pos_count
    (fun k y => 0 <= k /\ encl x y (e + k) /\ shr_m y = shr_m mrs / 2 ^ k) shr_1) as Hit.
  destruct (Hit) with (p := p) (k := 0) (y := mrs) as (_ & Hx' & Hm').
  - intros k y (Hk & Hy & Hm). split_and!; [lia|by rewrite Z.add_assoc; apply shr_1_encl|].
    destruct y as [m r s]. rewrite shr_1_spec by apply Hy. simpl in *.
    rewrite Hm, Z.pow_add_r, Z.div_div by lia. done.
  - split_and!; [done|by rewrite Z.add_0_r|by rewrite Z.div_1_r].
  - by rewrite Z.add_0_l in Hx', Hm'.
Qed.

Lemma Zdigits2_bounds m : 0 < m -> 2 ^ (Zdigits2 m - 1) <= m < 2 ^ Zdigits2 m.
Proof. destruct m as [|p|p]; [lia| |lia]. intros _. apply digits2_pos_bounds. Qed.

Lemma Zdigits2_nonneg m : 0 <= Zdigits2 m.
Proof. by destruct m. Qed.

Lemma Zdigits2_pos m : 0 < m -> 0 < Zdigits2 m.
Proof. by destruct m. Qed.

Lemma Zdigits2_lt m : 0 <= m -> m < 2 ^ Zdigits2 m.
Proof.
  intros Hm. destruct (decide (m = 0)) as [->|]; [done|]. apply Zdigits2_bounds. lia.
Qed.

(** The shift of the rounding brings the mantissa into the format. *)
Lemma shr_fexp_format x m e l :
  encl x (shr_record_of_loc m l) e -> e <= fexp prec emax (Zdigits2 m + e) ->
  encl x (shr_fexp prec emax m e l).1 (shr_fexp prec emax m e l).2 /\
  format (shr_m (shr_fexp prec emax m e l).1) (shr_fexp prec emax m e l).2.
Proof.
  intros Hx He. unfold shr_fexp.
  destruct (shr_encl x _ e (fexp prec emax (Zdigits2 m + e) - e) Hx) as (Hx' & He' & Hm').
  rewrite He' in Hx' |- *. split; [done|]. rewrite Hm', shr_record_of_loc_m.
  pose proof (encl_nonneg _ _ _ Hx) as Hm. rewrite shr_record_of_loc_m in Hm.
  pose proof (Zdigits2_lt m Hm) as Hd. pose proof (Zdigits2_nonneg m) as Hd0.
  set (n := Z.max 0 (fexp prec emax (Zdigits2 m + e) - e)).
  assert (0 <= n /\ Zdigits2 m - prec <= n /\ emin prec emax <= e + n /\
          (emin prec emax < e + n -> n = Zdigits2 m - prec)) as (Hn & Hn1 & Hn2 & Hn3).
  { subst n. unfold fexp in *. lia. }
  assert (0 < 2 ^ n) as Hp by (apply Z.pow_pos_nonneg; lia).
  split; [by apply Z.div_pos|..|done|].
  - apply Z.div_lt_upper_bound; [done|]. rewrite <- Z.pow_add_r by (unfold prec; lia).
    eapply Z.lt_le_trans; [done|]. apply Z.pow_le_mono_r; lia.
  - intros Hnorm. specialize (Hn3 Hnorm). apply Z.div_le_lower_bound; [done|].
    rewrite <- Z.pow_add_r by (unfold prec in *; lia).
    assert (0 < m) as Hm0.
    { destruct (decide (m = 0)) as [->|]; [|lia]. simpl in *. unfold prec in *. lia. }
    destruct (Zdigits2_bounds m Hm0) as [Hlo _].
    replace (n + (prec - 1)) with (Zdigits2 m - 1) by lia. done.
Qed.

End shift.

(** ** The choice of the nearest and the second shift *)

Section rounding.
Implicit Types (x : Q) (mrs : shr_record) (m e : Z) (f : float).

(** The rounding takes the mantissa or the next one, and the mantissa
    itself when the value is exact. *)
Lemma round_nearest_even_cases mrs :
  round_nearest_even (shr_m mrs) (loc_of_shr_record mrs) = shr_m mrs \/
  round_nearest_even (shr_m mrs) (loc_of_shr_record mrs) = shr_m mrs + 1 /\
  inexact mrs = true.
Proof.
  destruct mrs as [m [] []]; unfold inexact; simpl; auto; destruct (Z.even m); auto.
Qed.

Lemma encl_self m e : 0 <= m -> encl (dy m e) (shr_record_of_loc m loc_Exact) e.
Proof.
  intros Hm. split; simpl; [done|apply Qle_refl|apply dy_lt; lia|reflexivity|done].
Qed.

(** A mantissa of the format is left as it is by the shift. *)
Lemma shr_fexp_fixed m e :
  format m e -> shr_fexp prec emax m e loc_Exact = (Build_shr_record m false false, e).
Proof.
  intros [Hm Hb He Hn]. unfold shr_fexp.
  assert (fexp prec emax (Zdigits2 m + e) - e <= 0) as Hs.
  { destruct (decide (m = 0)) as [->|Hm0];
      [change (Zdigits2 0) with 0; unfold fexp, prec in *; lia|].
    destruct m as [|p|p]; [done| |lia]. pose proof (digits2_pos_le p prec Hb) as Hd.
    pose proof (digits2_pos_bounds p) as [_ Hhi]. simpl Zdigits2. unfold fexp.
    destruct (decide (emin prec emax < e)) as [Hlt|]; [|lia].
    specialize (Hn Hlt). assert (prec - 1 < Zpos (digits2_pos p)); [|lia].
    apply (Z.pow_lt_mono_r_iff 2); lia. }
  by destruct (fexp prec emax (Zdigits2 m + e) - e) as [| |]; [|lia|].
Qed.

(** A carry out of the mantissa moves the number to the next
    exponent. *)
Lemma shr_fexp_carry e :
  emin prec emax <= e ->
  shr_fexp prec emax (2 ^ prec) e loc_Exact = (Build_shr_record (2 ^ (prec - 1)) false false, e + 1).
Proof.
  intros He. unfold shr_fexp.
  replace (fexp prec emax (Zdigits2 (2 ^ prec) + e) - e) with 1; [done|].
  change (Zdigits2 (2 ^ prec)) with 54. unfold fexp, prec in *. lia.
Qed.

(** What the second shift makes of the rounded mantissa: a number of
    the format with the same value. *)
Lemma shr_fexp_rounded m e m' :
  format m e -> m' = m \/ m' = m + 1 ->
  exists m3 e3, shr_fexp prec emax m' e loc_Exact = (Build_shr_record m3 false false, e3) /\
                format m3 e3 /\ (dy m3 e3 == dy m' e)%Q.
Proof.
  intros Hf Hm'. destruct (decide (m' = 2 ^ prec)) as [->|Hne].
  - exists (2 ^ (prec - 1)), (e + 1). split_and!; [apply shr_fexp_carry, Hf| |].
    + destruct Hf. split; unfold prec in *; lia.
    + by rewrite <- dy_double.
  - assert (format m' e) as Hf'.
    { destruct Hf as [H1 H2 H3 H4]. split; [lia | lia | done | intros ?%H4; lia]. }
    exists m', e. split_and!; [by apply shr_fexp_fixed | done | reflexivity].
Qed.

(** The result of the rounding is the number [m * 2^e]. *)
Definition rounded (f : float) (m e : Z) : Prop :=
  match f with
  | S754_zero false => m = 0
  | S754_finite false mf ef => (Q_of_dyadic false mf ef == dy m e)%Q
  | S754_infinity false => (dy 1 emax <= dy m e)%Q
  | _ => False
  end.

Lemma binary_round_aux_spec x m e l :
  encl x (shr_record_of_loc m l) e -> e <= fexp prec emax (Zdigits2 m + e) ->
  exists m1 e1 m2,
    format m1 e1 /\ (dy m1 e1 <= x < dy (m1 + 1) e1)%Q /\
    (m2 = m1 \/ m2 = m1 + 1 /\ (dy m1 e1 < x)%Q) /\
    rounded (binary_round_aux prec emax false m e l) m2 e1.
Proof.
  intros Hx He. destruct (shr_fexp_format x m e l Hx He) as [Hx1 Hf1].
  unfold binary_round_aux. destruct (shr_fexp prec emax m e l) as [mrs1 e1]; simpl in *.
  set (m2 := round_nearest_even (shr_m mrs1) (loc_of_shr_record mrs1)).
  exists (shr_m mrs1), e1, m2.
  pose proof (round_nearest_even_cases mrs1) as Hm2. fold m2 in Hm2.
  destruct (shr_fexp_rounded (shr_m mrs1) e1 m2 Hf1 ltac:(tauto)) as (m3 & e3 & -> & Hf3 & Hv).
  split_and!; [done|apply Hx1|apply Hx1| |].
  - destruct Hm2 as [?|[? Hin]]; [by left|right]. split; [done|]. by apply Hx1.
  - simpl. destruct m3 as [|p|p]; [..|destruct Hf3; lia].
    + apply (dy_inj _ _ e1). by rewrite <- Hv, !dy_zero.
    + destruct (e3 <=? emax - prec) eqn:Hle; simpl.
      * rewrite <- Hv. unfold Q_of_dyadic, dy. ring.
      * rewrite <- Hv. apply Z.leb_gt in Hle. destruct Hf3 as [_ _ H3 H4].
        assert (emin prec emax < e3) as Hn by (unfold emin, emax, prec in *; lia).
        specialize (H4 Hn). apply Qle_trans with (dy (2 ^ (prec - 1)) e3); [|by apply dy_le].
        apply Qle_trans with (dy (1 * 2 ^ (prec - 1)) (emax - (prec - 1))).
        { rewrite <- dy_shift by done.
          replace (emax - (prec - 1) + (prec - 1)) with emax by lia. apply Qle_refl. }
        rewrite Z.mul_1_l. apply dy_exp_mono; unfold prec in *; lia.
Qed.

End rounding.

(** ** Rounding does not cross a float *)

Section compare.

(** A number between two consecutive mantissas of the format, and a
    float [mc * 2^ec]: the float is not strictly between the two. *)
Lemma format_compare m1 e1 mc ec x :
  format m1 e1 -> 0 <= mc < 2 ^ prec -> emin prec emax <= ec ->
  (dy m1 e1 <= x < dy (m1 + 1) e1)%Q ->
  ((x <= dy mc ec)%Q ->
   (dy m1 e1 <= dy mc ec)%Q /\ ((dy m1 e1 < x)%Q -> (dy (m1 + 1) e1 <= dy mc ec)%Q)) /\
  ((dy mc ec <= x)%Q -> (dy mc ec <= dy m1 e1)%Q).
Proof.
  intros [H1 H2 H3 H4] Hmc Hec [Hlo Hhi]. destruct (Z_le_gt_dec e1 ec) as [Hle|Hgt].
  - assert (dy mc ec == dy (mc * 2 ^ (ec - e1)) e1)%Q as ->.
    { rewrite <- dy_shift by lia. by replace (e1 + (ec - e1)) with ec by lia. }
    set (M := mc * 2 ^ (ec - e1)). split.
    + intros Hx. split; [apply dy_le, (dy_le _ _ e1); lra|]. intros Hst.
      apply dy_le. assert (m1 < M); [|lia]. apply (dy_lt _ _ e1). lra.
    + intros Hx. apply dy_le. assert (M < m1 + 1); [|lia]. apply (dy_lt _ _ e1). lra.
  - assert (dy mc ec < dy m1 e1)%Q as Hlt.
    { assert (dy m1 e1 == dy (m1 * 2 ^ (e1 - ec)) ec)%Q as ->.
      { rewrite <- dy_shift by lia. by replace (ec + (e1 - ec)) with e1 by lia. }
      apply dy_lt. specialize (H4 ltac:(lia)).
      assert (2 <= 2 ^ (e1 - ec)) by (apply (Z.pow_le_mono_r 2 1); lia).
      change (2 ^ prec) with (2 ^ (prec - 1) * 2) in Hmc. nia. }
    split; [intros Hx; lra | intros _; lra].
Qed.

Context (x : Q) (m e : Z) (l : location).
Context (Hx : encl x (shr_record_of_loc m l) e).
Context (He : e <= fexp prec emax (Zdigits2 m + e)).
Context (mc ec : Z) (Hmc : 0 <= mc < 2 ^ prec) (Hec : emin prec emax <= ec).

(** When the exact value is at most the float [c], so is the rounded
    value, which is then finite. *)
Lemma round_le :
  (dy mc ec < dy 1 emax)%Q -> (x <= dy mc ec)%Q ->
  xleb (float_val (binary_round_aux prec emax false m e l)) (XFin (dy mc ec)) = true.
Proof.
  intros Hfin Hle.
  destruct (binary_round_aux_spec x m e l Hx He) as (m1 & e1 & m2 & Hf & Hx1 & Hm2 & Hr).
  destruct (format_compare m1 e1 mc ec x Hf Hmc Hec Hx1) as [[Hu1 Hu2] _]; [done|].
  assert (dy m2 e1 <= dy mc ec)%Q as Hv by (destruct Hm2 as [->|[-> ?]]; auto).
  destruct (binary_round_aux _ _ _ _ _ _) as [[]|[]| |[] mf ef]; simpl in Hr; try done.
  - subst m2. rewrite dy_zero in Hv. by apply xleb_Fin.
  - lra.
  - apply xleb_Fin. by rewrite Hr.
Qed.

(** When the exact value is at least the float [c], so is the rounded
    value. *)
Lemma round_ge :
  (dy mc ec <= x)%Q ->
  xleb (XFin (dy mc ec)) (float_val (binary_round_aux prec emax false m e l)) = true.
Proof.
  intros Hle.
  destruct (binary_round_aux_spec x m e l Hx He) as (m1 & e1 & m2 & Hf & Hx1 & Hm2 & Hr).
  destruct (format_compare m1 e1 mc ec x Hf Hmc Hec Hx1) as [_ Hl]. specialize (Hl Hle).
  assert (dy mc ec <= dy m2 e1)%Q as Hv.
  { destruct Hm2 as [->|[-> ?]]; [done|]. eapply Qle_trans; [done|]. apply dy_le. lia. }
  destruct (binary_round_aux _ _ _ _ _ _) as [[]|[]| |[] mf ef]; simpl in Hr; try done.
  - subst m2. rewrite dy_zero in Hv. by apply xleb_Fin.
  - apply xleb_Fin. by rewrite Hr.
Qed.

End compare.

(** ** The quotient before it is rounded *)

Section division.
Implicit Types (q r : Z).

Lemma new_location_exact m2 r : new_location m2 r = loc_Exact <-> r = 0.
Proof.
  unfold new_location, new_location_even, new_location_odd.
  destruct (Z.even m2), (Z.eqb_spec r 0); split; done.
Qed.

Lemma inexact_of_loc q l : inexact (shr_record_of_loc q l) = false <-> l = loc_Exact.
Proof. by destruct l as [|[]]. Qed.

(** The quotient of two dyadic numbers, from the integer division. *)
Lemma dy_div m1 e1 m2 e2 e' q r :
  0 < m2 -> e' <= e1 - e2 -> m1 * 2 ^ (e1 - e2 - e') = m2 * q + r ->
  (dy m1 e1 / dy m2 e2 == dy q e' + inject_Z r / inject_Z m2 * 2 ^ e')%Q.
Proof.
  intros Hm2 He' Hdiv. unfold dy.
  assert (2 ^ e1 == 2 ^ (e1 - e2 - e') * 2 ^ e' * 2 ^ e2)%Q as ->.
  { rewrite <- !pow2_add. by replace (e1 - e2 - e' + e' + e2) with e1 by lia. }
  rewrite <- pow2_inject by lia.
  assert (inject_Z m1 * inject_Z (2 ^ (e1 - e2 - e')) == inject_Z m2 * inject_Z q + inject_Z r)%Q
    as Hq by (by rewrite <- !inject_Z_mult, <- inject_Z_plus, Hdiv).
  pose proof (pow2_pos e2). pose proof (pow2_pos e').
  assert (0 < inject_Z m2)%Q by (by rewrite <- (Zlt_Qlt 0)).
  field_simplify_eq; [|split; lra]. nra.
Qed.

Lemma SFdiv_core_binary_encl m1 e1 m2 e2 :
  0 < m1 -> 0 < m2 ->
  encl (dy m1 e1 / dy m2 e2)
       (shr_record_of_loc (SFdiv_core_binary prec emax m1 e1 m2 e2).1.1
                          (SFdiv_core_binary prec emax m1 e1 m2 e2).2)
       (SFdiv_core_binary prec emax m1 e1 m2 e2).1.2.
Proof.
  intros H1 H2. unfold SFdiv_core_binary.
  set (e' := Z.min _ _). assert (e' <= e1 - e2) as He' by (subst e'; lia).
  set (s := e1 - e2 - e') in *.
  assert (match s with Zpos _ => Z.shiftl m1 s | Z0 => m1 | Zneg _ => 0 end = m1 * 2 ^ s) as ->.
  { destruct s eqn:Hs; [lia | by rewrite Z.shiftl_mul_pow2 | lia]. }
  pose proof (Z_div_mod (m1 * 2 ^ s) m2 ltac:(lia)) as Hdm.
  destruct (Z.div_eucl (m1 * 2 ^ s) m2) as [q r]. destruct Hdm as [Hdiv Hr]. simpl.
  pose proof (dy_div m1 e1 m2 e2 e' q r H2 He' Hdiv) as Hx.
  assert (0 <= q) as Hq by (assert (0 < 2 ^ s) by (apply Z.pow_pos_nonneg; lia); nia).
  assert (0 < inject_Z m2)%Q as Hm2 by (by rewrite <- (Zlt_Qlt 0)).
  assert (0 <= inject_Z r / inject_Z m2 < 1)%Q as [Hr0 Hr1].
  { split; [apply Qle_shift_div_l | apply Qlt_shift_div_r]; try done.
    - rewrite Qmult_0_l. rewrite <- (Zle_Qle 0). lia.
    - rewrite Qmult_1_l. rewrite <- Zlt_Qlt. lia. }
  pose proof (pow2_pos e') as Ht.
  split; rewrite ?shr_record_of_loc_m, ?inexact_of_loc, ?new_location_exact, ?Hx; [done|..].
  - nra.
  - rewrite dy_plus. unfold dy at 3. change (inject_Z 1) with 1%Q. nra.
  - intros ->. change (inject_Z 0) with 0%Q. unfold Qdiv. ring.
  - intros Hne. assert (0 < inject_Z r / inject_Z m2)%Q; [|nra].
    apply Qlt_shift_div_l; [done|]. rewrite Qmult_0_l, <- (Zlt_Qlt 0).
    destruct (decide (r = 0)) as [->|]; [|lia].
    by rewrite (proj2 (inexact_of_loc q _) (proj2 (new_location_exact m2 0) eq_refl)) in Hne.
Qed.

(** The quotient has at least 53 bits, or the least exponent: the
    shift of the rounding is to the right. *)
Lemma SFdiv_core_binary_shift m1 e1 m2 e2 :
  0 < m1 -> 0 < m2 ->
  (SFdiv_core_binary prec emax m1 e1 m2 e2).1.2 <=
  fexp prec emax (Zdigits2 (SFdiv_core_binary prec emax m1 e1 m2 e2).1.1 +
                  (SFdiv_core_binary prec emax m1 e1 m2 e2).1.2).
Proof.
  intros H1 H2. unfold SFdiv_core_binary.
  pose proof (Zdigits2_bounds m1 H1) as [Hd1 _]. pose proof (Zdigits2_bounds m2 H2) as [_ Hd2].
  pose proof (Zdigits2_pos m1 H1) as Hp1. pose proof (Zdigits2_pos m2 H2) as Hp2.
  set (d1 := Zdigits2 m1) in *. set (d2 := Zdigits2 m2) in *.
  set (e' := Z.min _ _). set (s := e1 - e2 - e') in *.
  assert (0 <= s) as Hs0 by (subst s e'; lia).
  destruct (decide (e' <= emin prec emax)) as [|Hn].
  { destruct (Z.div_eucl _ _); simpl. unfold fexp. lia. }
  assert (0 <= d1 + s - d2 - 1 /\ e' <= d1 + e1 - (d2 + e2) - prec) as [Hs He'].
  { subst e' s. unfold fexp, prec in *. lia. }
  assert (match s with Zpos _ => Z.shiftl m1 s | Z0 => m1 | Zneg _ => 0 end = m1 * 2 ^ s) as ->.
  { destruct s eqn:E; [lia | by rewrite Z.shiftl_mul_pow2 | unfold prec in *; lia]. }
  pose proof (Z_div_mod (m1 * 2 ^ s) m2 ltac:(lia)) as Hdm.
  destruct (Z.div_eucl (m1 * 2 ^ s) m2) as [q r]. destruct Hdm as [Hdiv Hr]. simpl.
  assert (2 ^ (d1 + s - d2 - 1) <= q) as Hq.
  { assert (2 ^ (d1 + s - d2 - 1) * 2 ^ d2 <= m1 * 2 ^ s) as Hp.
    { rewrite <- Z.pow_add_r by lia.
      replace (d1 + s - d2 - 1 + d2) with (d1 - 1 + s) by lia.
      rewrite Z.pow_add_r by lia.
      apply Z.mul_le_mono_nonneg_r; [apply Z.pow_nonneg|]; lia. }
    assert (0 < 2 ^ (d1 + s - d2 - 1)) by (apply Z.pow_pos_nonneg; lia). nia. }
  assert (d1 + s - d2 - 1 < Zdigits2 q) as Hdq.
  { apply (Z.pow_lt_mono_r_iff 2); [lia|apply Zdigits2_nonneg|].
    eapply Z.le_lt_trans; [done|]. apply Zdigits2_lt.
    assert (0 < 2 ^ (d1 + s - d2 - 1)) by (apply Z.pow_pos_nonneg; lia). lia. }
  unfold fexp. lia.
Qed.

End division.

(** ** The divisions of the program *)

(** The rational [c] is a float: a finite number of the format, not
    negative. *)
Definition representable (c : Q) : Prop :=
  exists mc ec,
    0 <= mc < 2 ^ prec /\ emin prec emax <= ec /\ (dy mc ec < dy 1 emax)%Q /\ (c == dy mc ec)%Q.

Section quotients.
Implicit Types (p q : positive) (c : Q) (s : bool).

Lemma representable_dy mc ec :
  0 <= mc < 2 ^ prec -> emin prec emax <= ec <= emax - prec -> representable (dy mc ec).
Proof.
  intros Hmc Hec. exists mc, ec. split_and!; [lia..| |reflexivity].
  apply Qlt_le_trans with (dy (2 ^ prec) ec); [apply dy_lt; lia|].
  rewrite <- (Z.mul_1_l (2 ^ prec)), <- dy_shift by done. apply dy_exp_mono; lia.
Qed.

(** An integer below [2^53] is a float. *)
Lemma representable_Z n : 0 <= n < 2 ^ prec -> representable (inject_Z n).
Proof.
  intros Hn.
  destruct (representable_dy n 0 Hn ltac:(unfold emin, emax, prec; lia))
    as (mc & ec & Hmc & Hec & Hfin & Hc).
  exists mc, ec. do 3 (split; [done|]). rewrite <- Hc. unfold dy. simpl. ring.
Qed.

Lemma Q_of_dyadic_dy m e : (Q_of_dyadic false m e == dy (Zpos m) e)%Q.
Proof. unfold Q_of_dyadic, dy. ring. Qed.

(** The rounding of a negative number is that of its magnitude. *)
Lemma binary_round_aux_opp s m e l :
  binary_round_aux prec emax (negb s) m e l = SFopp (binary_round_aux prec emax s m e l).
Proof.
  unfold binary_round_aux. destruct (shr_fexp prec emax m e l) as [mrs1 e1].
  destruct (shr_fexp _ _ _ _ _) as [mrs2 e2]. destruct (shr_m mrs2); [done| |done].
  by destruct (_ <=? _).
Qed.

Lemma float_of_ratio_round s p q :
  float_of_ratio s p q =
  binary_round_aux prec emax s
    (SFdiv_core_binary prec emax (Zpos p) 0 (Zpos q) 0).1.1
    (SFdiv_core_binary prec emax (Zpos p) 0 (Zpos q) 0).1.2
    (SFdiv_core_binary prec emax (Zpos p) 0 (Zpos q) 0).2.
Proof. unfold float_of_ratio. by destruct (SFdiv_core_binary _ _ _ _ _ _) as [[? ?] ?]. Qed.

Lemma dy_ratio p q :
  (dy (Zpos p) 0 / dy (Zpos q) 0 == inject_Z (Zpos p) / inject_Z (Zpos q))%Q.
Proof. unfold dy. simpl. by rewrite !Qmult_1_r. Qed.

(** The quotient of two integers does not cross a float. *)
Lemma float_of_ratio_le p q c :
  representable c -> (inject_Z (Zpos p) / inject_Z (Zpos q) <= c)%Q ->
  xleb (float_val (float_of_ratio false p q)) (XFin c) = true.
Proof.
  intros (mc & ec & Hmc & Hec & Hfin & Hc) Hle. rewrite float_of_ratio_round.
  assert (xequiv (XFin c) (XFin (dy mc ec))) as -> by done.
  apply (round_le (dy (Zpos p) 0 / dy (Zpos q) 0));
    [by apply SFdiv_core_binary_encl|by apply SFdiv_core_binary_shift|done..|].
  by rewrite dy_ratio, <- Hc.
Qed.

Lemma float_of_ratio_ge p q c :
  representable c -> (c <= inject_Z (Zpos p) / inject_Z (Zpos q))%Q ->
  xleb (XFin c) (float_val (float_of_ratio false p q)) = true.
Proof.
  intros (mc & ec & Hmc & Hec & Hfin & Hc) Hle. rewrite float_of_ratio_round.
  assert (xequiv (XFin c) (XFin (dy mc ec))) as -> by done.
  apply (round_ge (dy (Zpos p) 0 / dy (Zpos q) 0));
    [by apply SFdiv_core_binary_encl|by apply SFdiv_core_binary_shift|done..|].
  by rewrite dy_ratio, <- Hc.
Qed.

(** The quotient of two positive floats does not cross a float. *)
Lemma SFdiv_round mx ex my ey :
  SFdiv prec emax (S754_finite false mx ex) (S754_finite false my ey) =
  binary_round_aux prec emax false
    (SFdiv_core_binary prec emax (Zpos mx) ex (Zpos my) ey).1.1
    (SFdiv_core_binary prec emax (Zpos mx) ex (Zpos my) ey).1.2
    (SFdiv_core_binary prec emax (Zpos mx) ex (Zpos my) ey).2.
Proof. simpl. by destruct (SFdiv_core_binary _ _ _ _ _ _) as [[? ?] ?]. Qed.

Lemma SFdiv_le mx ex my ey c :
  representable c -> (Q_of_dyadic false mx ex / Q_of_dyadic false my ey <= c)%Q ->
  xleb (float_val (SFdiv prec emax (S754_finite false mx ex) (S754_finite false my ey)))
       (XFin c) = true.
Proof.
  intros (mc & ec & Hmc & Hec & Hfin & Hc) Hle. rewrite SFdiv_round.
  assert (xequiv (XFin c) (XFin (dy mc ec))) as -> by done.
  apply (round_le (dy (Zpos mx) ex / dy (Zpos my) ey));
    [by apply SFdiv_core_binary_encl|by apply SFdiv_core_binary_shift|done..|].
  by rewrite <- !Q_of_dyadic_dy, <- Hc.
Qed.

Lemma SFdiv_ge mx ex my ey c :
  representable c -> (c <= Q_of_dyadic false mx ex / Q_of_dyadic false my ey)%Q ->
  xleb (XFin c)
       (float_val (SFdiv prec emax (S754_finite false mx ex) (S754_finite false my ey))) = true.
Proof.
  intros (mc & ec & Hmc & Hec & Hfin & Hc) Hle. rewrite SFdiv_round.
  assert (xequiv (XFin c) (XFin (dy mc ec))) as -> by done.
  apply (round_ge (dy (Zpos mx) ex / dy (Zpos my) ey));
    [by apply SFdiv_core_binary_encl|by apply SFdiv_core_binary_shift|done..|].
  by rewrite <- !Q_of_dyadic_dy, <- Hc.
Qed.

End quotients.

(** ** Decimal numerals *)

(** The number [d * 10^k]. *)
Definition decimal (d : N) (k : Z) : Q := (inject_Z (Z.of_N d) * 10 ^ k)%Q.

Section decimals.
Implicit Types (p : positive) (d : N) (k : Z) (c : Q).

Lemma shl_align_value mx ex ex' :
  (dy (Zpos (shl_align mx ex ex').1) (shl_align mx ex ex').2 == dy (Zpos mx) ex)%Q.
Proof.
  unfold shl_align. destruct (ex' - ex) as [|n|n] eqn:E; simpl; try reflexivity.
  rewrite iter_xO_value. replace ex with (ex' + Zpos n) by lia. by rewrite dy_shift.
Qed.

Lemma shl_align_shift mx ex :
  (shl_align mx ex (fexp prec emax (Zpos (digits2_pos mx) + ex))).2 <=
  fexp prec emax (Zdigits2 (Zpos (shl_align mx ex (fexp prec emax (Zpos (digits2_pos mx) + ex))).1) +
                  (shl_align mx ex (fexp prec emax (Zpos (digits2_pos mx) + ex))).2).
Proof.
  unfold shl_align. set (E := fexp prec emax _).
  destruct (E - ex) as [|n|n] eqn:Hn; simpl; [subst E; lia..|].
  rewrite iter_xO_digits, Pos2Z.inj_add.
  replace (Zpos (digits2_pos mx) + Zpos n + E) with (Zpos (digits2_pos mx) + ex) by lia.
  subst E. lia.
Qed.

(** The conversion of an integer does not cross a float. *)
Lemma binary_round_le mx ex c :
  representable c -> (dy (Zpos mx) ex <= c)%Q ->
  xleb (float_val (binary_round prec emax false mx ex)) (XFin c) = true.
Proof.
  intros (mc & ec & Hmc & Hec & Hfin & Hc) Hle. unfold binary_round.
  pose proof (shl_align_value mx ex (fexp prec emax (Zpos (digits2_pos mx) + ex))) as Hv.
  pose proof (shl_align_shift mx ex) as Hs.
  destruct (shl_align _ _ _) as [mz ez]; simpl in *.
  assert (xequiv (XFin c) (XFin (dy mc ec))) as -> by done.
  apply (round_le (dy (Zpos mz) ez)); [by apply encl_self|done..|].
  by rewrite Hv, <- Hc.
Qed.

Lemma binary_round_ge mx ex c :
  representable c -> (c <= dy (Zpos mx) ex)%Q ->
  xleb (XFin c) (float_val (binary_round prec emax false mx ex)) = true.
Proof.
  intros (mc & ec & Hmc & Hec & Hfin & Hc) Hle. unfold binary_round.
  pose proof (shl_align_value mx ex (fexp prec emax (Zpos (digits2_pos mx) + ex))) as Hv.
  pose proof (shl_align_shift mx ex) as Hs.
  destruct (shl_align _ _ _) as [mz ez]; simpl in *.
  assert (xequiv (XFin c) (XFin (dy mc ec))) as -> by done.
  apply (round_ge (dy (Zpos mz) ez)); [by apply encl_self|done..|].
  by rewrite Hv, <- Hc.
Qed.

Lemma pow10_inject k : 0 <= k -> (inject_Z (10 ^ k) == 10 ^ k)%Q.
Proof. intros Hk. by rewrite Zpower_Qpower. Qed.

Lemma decimal_integer p k :
  0 <= k -> (dy (Zpos (p * Z.to_pos (10 ^ k))) 0 == decimal (Npos p) k)%Q.
Proof.
  intros Hk. unfold dy, decimal. simpl Z.of_N.
  rewrite Pos2Z.inj_mul, Z2Pos.id, inject_Z_mult, pow10_inject by (try apply Z.pow_pos_nonneg; lia).
  change (2 ^ 0)%Q with 1%Q. ring.
Qed.

Lemma decimal_ratio p k :
  k < 0 ->
  (inject_Z (Zpos p) / inject_Z (Zpos (Z.to_pos (10 ^ (- k)))) == decimal (Npos p) k)%Q.
Proof.
  intros Hk. unfold decimal. simpl Z.of_N.
  rewrite Z2Pos.id, pow10_inject by (try apply Z.pow_pos_nonneg; lia).
  replace k with (- - k) at 2 by lia. by rewrite (Qpower_opp _ (- k)).
Qed.

(** The float of a decimal numeral does not cross a float. *)
Lemma float_of_decimal_le d k c :
  representable c -> (decimal d k <= c)%Q ->
  xleb (float_val (float_of_decimal false d k)) (XFin c) = true.
Proof.
  intros Hc Hle. destruct d as [|p]; simpl.
  - apply xleb_Fin. unfold decimal in Hle. change (inject_Z (Z.of_N 0)) with 0%Q in Hle. lra.
  - destruct (Z.leb_spec 0 k).
    + apply binary_round_le; [done|]. by rewrite decimal_integer.
    + apply float_of_ratio_le; [done|]. by rewrite decimal_ratio.
Qed.

Lemma float_of_decimal_ge d k c :
  representable c -> (c <= decimal d k)%Q ->
  xleb (XFin c) (float_val (float_of_decimal false d k)) = true.
Proof.
  intros Hc Hle. destruct d as [|p]; simpl.
  - apply xleb_Fin. unfold decimal in Hle. change (inject_Z (Z.of_N 0)) with 0%Q in Hle. lra.
  - destruct (Z.leb_spec 0 k).
    + apply binary_round_ge; [done|]. by rewrite decimal_integer.
    + apply float_of_ratio_ge; [done|]. by rewrite decimal_ratio.
Qed.

Lemma decimal_neg d n :
  0 <= n -> (decimal d (- n) == inject_Z (Z.of_N d) / inject_Z (10 ^ n))%Q.
Proof. intros Hn. unfold decimal. by rewrite Qpower_opp, pow10_inject. Qed.

(** A threshold [t] that is a float, against a numeral with [n]
    digits after the point: when the float below [t] is no nearer to
    [t] than [10^-n], the float of the numeral is at least [t] exactly
    when the numeral is. *)
Lemma float_of_decimal_ge_threshold d n t below :
  0 <= n -> representable (inject_Z t) -> representable below ->
  (below < inject_Z t)%Q -> ((inject_Z t - below) * inject_Z (10 ^ n) <= 1)%Q ->
  xleb (Z_val t) (float_val (float_of_decimal false d (- n))) = (t * 10 ^ n <=? Z.of_N d).
Proof.
  intros Hn Ht Hb Hlt Hgap. pose proof (decimal_neg d n Hn) as Hd.
  assert (0 < 10 ^ n) as Hp by (by apply Z.pow_pos_nonneg).
  assert (0 < inject_Z (10 ^ n))%Q as HN by (by rewrite <- (Zlt_Qlt 0)).
  destruct (Z.leb_spec (t * 10 ^ n) (Z.of_N d)) as [Hle|Hgt].
  - apply float_of_decimal_ge; [done|]. rewrite Hd. apply Qle_shift_div_l; [done|].
    by rewrite <- inject_Z_mult, <- Zle_Qle.
  - destruct (xleb (Z_val t) _) eqn:Hx; [exfalso|done].
    assert (xleb (Z_val t) (XFin below) = true) as Hc.
    { eapply xleb_trans; [done|]. apply float_of_decimal_le; [done|]. rewrite Hd.
      apply Qle_shift_div_r; [done|].
      assert (inject_Z (Z.of_N d) + 1 <= inject_Z t * inject_Z (10 ^ n))%Q; [|lra].
      rewrite <- inject_Z_mult. change 1%Q with (inject_Z 1).
      rewrite <- inject_Z_plus, <- Zle_Qle. lia. }
    apply xleb_Fin in Hc. lra.
Qed.

Lemma float_of_decimal_le_threshold d n t above :
  0 <= n -> representable (inject_Z t) -> representable above ->
  (inject_Z t < above)%Q -> ((above - inject_Z t) * inject_Z (10 ^ n) <= 1)%Q ->
  xleb (float_val (float_of_decimal false d (- n))) (Z_val t) = (Z.of_N d <=? t * 10 ^ n).
Proof.
  intros Hn Ht Hb Hlt Hgap. pose proof (decimal_neg d n Hn) as Hd.
  assert (0 < 10 ^ n) as Hp by (by apply Z.pow_pos_nonneg).
  assert (0 < inject_Z (10 ^ n))%Q as HN by (by rewrite <- (Zlt_Qlt 0)).
  destruct (Z.leb_spec (Z.of_N d) (t * 10 ^ n)) as [Hle|Hgt].
  - apply float_of_decimal_le; [done|]. rewrite Hd. apply Qle_shift_div_r; [done|].
    by rewrite <- inject_Z_mult, <- Zle_Qle.
  - destruct (xleb _ (Z_val t)) eqn:Hx; [exfalso|done].
    assert (xleb (XFin above) (Z_val t) = true) as Hc.
    { eapply xleb_trans; [|done]. apply float_of_decimal_ge; [done|]. rewrite Hd.
      apply Qle_shift_div_l; [done|].
      assert (inject_Z t * inject_Z (10 ^ n) + 1 <= inject_Z (Z.of_N d))%Q; [|lra].
      rewrite <- inject_Z_mult. change 1%Q with (inject_Z 1).
      rewrite <- inject_Z_plus, <- Zle_Qle. lia. }
    apply xleb_Fin in Hc. lra.
Qed.

End decimals.
