(* ===== verification/FloatValid.v ===== *)
(** * FloatValid: the floats the program computes are binary64 values

    A [float] of [SpecFloat] is a sign, a mantissa and an exponent; it
    is a number of the format when the mantissa has at most 53 bits,
    the exponent is in range and, above the least exponent, the
    mantissa has all its 53 bits ([valid_binary]).  The printers and
    the comparisons read the value of any mantissa and exponent, so
    that a float is of the format is an invariant to be kept, not a
    property of the type.

    This file shows that every operation of PyFloat.v keeps it: the
    conversions from integers, quotients and decimal numerals, the
    division and the addition return floats of the format, the last
    two on operands of the format. *)

From Stdlib Require Import QArith Lqa.
From S2P Require Import Prelude PyFloat FloatSign FloatExact FloatRound.

#[local] Open Scope Z_scope.

(** [f] is a binary64 value. *)
Definition valid (f : float) : bool := valid_binary prec emax f.

Section format.
Implicit Types (s : bool) (m e : Z) (p : positive) (l : location) (f : float).

(** A mantissa of the format with an exponent in range is canonical. *)
Lemma format_bounded p e :
  format (Zpos p) e -> e <= emax - prec -> bounded prec emax p e = true.
Proof.
  intros [_ Hb He Hn] Hmax. unfold bounded, canonical_mantissa.
  apply andb_true_iff. split; [apply Z.eqb_eq | by apply Z.leb_le].
  pose proof (digits2_pos_le p prec Hb) as Hd. unfold fexp.
  destruct (decide (emin prec emax < e)) as [Hlt|]; [|lia].
  specialize (Hn Hlt). destruct (digits2_pos_bounds p) as [_ Hhi].
  assert (prec - 1 < Zpos (digits2_pos p)); [|lia].
  apply (Z.pow_lt_mono_r_iff 2); lia.
Qed.

Lemma dy_half m e : (dy m e == dy (2 * m) (e - 1))%Q.
Proof. rewrite dy_double. by replace (e - 1 + 1) with e by lia. Qed.

(** Every mantissa with its location encloses some number. *)
Lemma encl_between m l e :
  0 <= m ->
  encl (dy (2 * m + if l is loc_Exact then 0 else 1) (e - 1)) (shr_record_of_loc m l) e.
Proof.
  intros Hm. pose proof (dy_half m e) as H0. pose proof (dy_half (m + 1) e) as H1.
  set (b := if l is loc_Exact then 0 else 1).
  assert (0 <= b <= 1) as Hb by (subst b; destruct l; lia).
  pose proof (proj2 (dy_le (2 * m) (2 * m + b) (e - 1)) ltac:(lia)).
  pose proof (proj2 (dy_lt (2 * m + b) (2 * (m + 1)) (e - 1)) ltac:(lia)).
  split; rewrite ?shr_record_of_loc_m, ?inexact_of_loc; [done|lra|lra|..].
  - intros ->. subst b. by rewrite Z.add_0_r, H0.
  - intros Hl. assert (b = 1) as -> by (subst b; destruct l; [by cbv in Hl|done]).
    pose proof (proj2 (dy_lt (2 * m) (2 * m + 1) (e - 1)) ltac:(lia)). lra.
Qed.

(** The rounding returns a float of the format. *)
Lemma binary_round_aux_valid s m e l :
  0 <= m -> e <= fexp prec emax (Zdigits2 m + e) ->
  valid (binary_round_aux prec emax s m e l) = true.
Proof.
  intros Hm He. destruct (shr_fexp_format _ m e l (encl_between m l e Hm) He) as [_ Hf1].
  unfold binary_round_aux. destruct (shr_fexp prec emax m e l) as [mrs1 e1]; simpl in *.
  set (m2 := round_nearest_even (shr_m mrs1) (loc_of_shr_record mrs1)).
  pose proof (round_nearest_even_cases mrs1) as Hm2. fold m2 in Hm2.
  destruct (shr_fexp_rounded (shr_m mrs1) e1 m2 Hf1 ltac:(tauto)) as (m3 & e3 & -> & Hf3 & _).
  simpl. destruct m3 as [|p|p]; [done| |done].
  destruct (e3 <=? emax - prec) eqn:Hle; [|done].
  apply format_bounded; [done|by apply Z.leb_le].
Qed.

Lemma binary_round_valid s p e : valid (binary_round prec emax s p e) = true.
Proof.
  unfold binary_round. pose proof (shl_align_shift p e) as Hs.
  destruct (shl_align _ _ _) as [mz ez]. by apply binary_round_aux_valid.
Qed.

Lemma binary_normalize_valid m e s : valid (binary_normalize prec emax m e s) = true.
Proof. destruct m; [done|apply binary_round_valid..]. Qed.

End format.

(** ** The operations of PyFloat.v *)

Section operations.
Implicit Types (s : bool) (n a b : Z) (p q : positive) (d : N) (f x y : float).

Lemma float_of_Z_valid n : valid (float_of_Z n) = true.
Proof. apply binary_normalize_valid. Qed.

Lemma float_of_ratio_valid s p q : valid (float_of_ratio s p q) = true.
Proof.
  unfold float_of_ratio.
  pose proof (SFdiv_core_binary_nonneg (Zpos p) 0 (Zpos q) 0 ltac:(lia) ltac:(lia)) as Hq.
  pose proof (SFdiv_core_binary_shift (Zpos p) 0 (Zpos q) 0 ltac:(lia) ltac:(lia)) as Hs.
  destruct (SFdiv_core_binary _ _ _ _ _ _) as [[m e] l]. by apply binary_round_aux_valid.
Qed.

Lemma float_of_decimal_valid s d k : valid (float_of_decimal s d k) = true.
Proof.
  destruct d as [|p]; [done|]. unfold float_of_decimal.
  destruct (0 <=? k); [apply binary_round_valid | apply float_of_ratio_valid].
Qed.

Lemma int_to_float_valid n f : int_to_float n = Ok f -> valid f = true.
Proof.
  unfold int_to_float. pose proof (float_of_Z_valid n) as Hv.
  destruct (float_of_Z n); by intros [= <-].
Qed.

Lemma int_true_div_valid a b f : int_true_div a b = Ok f -> valid f = true.
Proof.
  destruct a as [|p|p], b as [|q|q]; simpl; try by intros [= <-].
  all: match goal with |- context [float_of_ratio ?s ?p ?q] =>
         pose proof (float_of_ratio_valid s p q) as Hv;
         destruct (float_of_ratio s p q); by intros [= <-] end.
Qed.

Lemma SFdiv_valid x y : valid (SFdiv prec emax x y) = true.
Proof.
  destruct x as [sx|sx| |sx mx ex], y as [sy|sy| |sy my ey]; try done. simpl.
  pose proof (SFdiv_core_binary_nonneg (Zpos mx) ex (Zpos my) ey ltac:(lia) ltac:(lia)) as Hq.
  pose proof (SFdiv_core_binary_shift (Zpos mx) ex (Zpos my) ey ltac:(lia) ltac:(lia)) as Hs.
  destruct (SFdiv_core_binary _ _ _ _ _ _) as [[m e] l]. by apply binary_round_aux_valid.
Qed.

Lemma float_div_valid x y f : float_div x y = Ok f -> valid f = true.
Proof. unfold float_div. destruct (is_zero y); [done|]. intros [= <-]. apply SFdiv_valid. Qed.

Lemma float_add_valid x y : valid x = true -> valid y = true -> valid (float_add x y) = true.
Proof.
  intros Hx Hy. unfold float_add.
  destruct x as [[]|[]| |sx mx ex], y as [[]|[]| |sy my ey]; try done.
  apply binary_normalize_valid.
Qed.

End operations.

#[export] Hint Resolve float_of_Z_valid float_of_ratio_valid float_of_decimal_valid
  int_to_float_valid int_true_div_valid float_div_valid float_add_valid : py.
