(* ===== verification/PyStr.v ===== *)
(** * PyStr: Python's [str]

    A [str] is modelled by the bytes of its UTF-8 encoding (a Rocq
    [string]), so that the literals of the source text are the literals
    of the model.  The operations that look at characters instead of
    bytes ([repr], iteration, [split] at white space) decode the
    encoding where it matters.

    [str_repr] is exact on ASCII and Latin-1 text; above U+00FF every
    character is taken to be printable. *)

From S2P Require Import Prelude.

#[local] Open Scope N_scope.

Notation chars := (list ascii).

Definition is_char (c d : ascii) : bool := bool_decide (c = d).

(** ** [sep.join(parts)] *)

Fixpoint join (sep : string) (parts : list string) : string :=
  match parts with
  | [] => ""
  | [p] => p
  | p :: ps => p +:+ sep +:+ join sep ps
  end.

(** ** Iterating over a [str]: its characters, one string each *)

(** A byte [10xxxxxx] continues the character begun before it. *)
Definition is_continuation (c : ascii) : bool :=
  let n := N_of_ascii c in (128 <=? n) && (n <? 192).

Fixpoint utf8_chars_aux (cur : chars) (s : chars) : list chars :=
  match s with
  | [] => [rev cur]
  | c :: r =>
      if is_continuation c then utf8_chars_aux (c :: cur) r
      else rev cur :: utf8_chars_aux [c] r
  end.

Definition str_chars (s : string) : list string :=
  match list_ascii_of_string s with
  | [] => []
  | c :: r => string_of_list_ascii <$> utf8_chars_aux [c] r
  end.

(** ** [repr(s)] *)

Definition hex_digit (n : N) : ascii :=
  ascii_of_N (if n <? 10 then 48 + n else 87 + n).

Definition hex2 (n : N) : chars := [hex_digit (n / 16); hex_digit (n mod 16)].

Definition backslash : ascii := "\".
Definition squote : ascii := "'".
Definition dquote : ascii := ascii_of_N 34.

(** The escaped text between the quotes; [q] is the quote in use. *)
Fixpoint repr_body (q : ascii) (s : chars) : chars :=
  match s with
  | [] => []
  | c :: r =>
      let n := N_of_ascii c in
      if is_char c q || is_char c backslash then backslash :: c :: repr_body q r
      else if n =? 9 then backslash :: "t"%char :: repr_body q r
      else if n =? 10 then backslash :: "n"%char :: repr_body q r
      else if n =? 13 then backslash :: "r"%char :: repr_body q r
      else if (n <? 32) || (n =? 127) then
        backslash :: "x"%char :: hex2 n ++ repr_body q r
      else if n =? 194 then
        (* U+0080 to U+00BF: the controls, the no-break space and the
           soft hyphen are not printable *)
        match r with
        | c2 :: r' =>
            let m := N_of_ascii c2 in
            if (128 <=? m) && (m <=? 160) || (m =? 173) then
              backslash :: "x"%char :: hex2 m ++ repr_body q r'
            else c :: c2 :: repr_body q r'
        | [] => [c]
        end
      else c :: repr_body q r
  end.

(** Single quotes, unless the text has a single quote and no double
    quote. *)
Definition repr_quote (s : chars) : ascii :=
  if bool_decide (squote ∈ s) && negb (bool_decide (dquote ∈ s))
  then dquote else squote.

Definition str_repr (s : string) : string :=
  let cs := list_ascii_of_string s in
  let q := repr_quote cs in
  string_of_list_ascii (q :: repr_body q cs ++ [q]).

(** ** [s.split(maxsplit=1)]: splitting at white space *)

(** The number of bytes of the white-space character [s] begins with,
    [0] when it begins with none.  White space is what [str.isspace]
    accepts: the ASCII characters 9 to 13 and 28 to 32, and U+0085,
    U+00A0, U+1680, U+2000 to U+200A, U+2028, U+2029, U+202F, U+205F
    and U+3000 in their UTF-8 encoding. *)
Definition space_width (s : chars) : nat :=
  match N_of_ascii <$> take 3 s with
  | c :: r =>
      if (9 <=? c) && (c <=? 13) || (28 <=? c) && (c <=? 32) then 1%nat
      else
        match c, r with
        | 194, d :: _ => if (d =? 133) || (d =? 160) then 2%nat else 0%nat
        | 225, [154; 128] => 3%nat
        | 226, [128; d] =>
            if (128 <=? d) && (d <=? 138) || (d =? 168) || (d =? 169) || (d =? 175)
            then 3%nat else 0%nat
        | 226, [129; 159] => 3%nat
        | 227, [128; 128] => 3%nat
        | _, _ => 0%nat
        end
  | [] => 0%nat
  end.

(** [s] without the white space it begins with; [k] bytes of a
    character recognised as white space are still to be dropped. *)
Fixpoint skip_space (k : nat) (s : chars) : chars :=
  match s with
  | [] => []
  | _ :: r =>
      match k with
      | S k' => skip_space k' r
      | O =>
          match space_width s with
          | O => s
          | S k' => skip_space k' r
          end
      end
  end.

(** The word [s] begins with, and what follows it. *)
Fixpoint span_word (s : chars) : chars * chars :=
  match s with
  | [] => ([], [])
  | c :: r =>
      match space_width s with
      | O => let '(w, rest) := span_word r in (c :: w, rest)
      | S _ => ([], s)
      end
  end.

(** [s.split(maxsplit=1)]: no piece when [s] is blank; the first word;
    and, when something other than white space follows it, the rest of
    [s] from there on, its trailing white space included. *)
Definition split_once (s : string) : list string :=
  match skip_space 0 (list_ascii_of_string s) with
  | [] => []
  | s1 =>
      let '(w, r) := span_word s1 in
      match skip_space 0 r with
      | [] => [string_of_list_ascii w]
      | rest => [string_of_list_ascii w; string_of_list_ascii rest]
      end
  end.

(** ** Facts *)

Lemma join_nil sep : join sep [] = "".
Proof. reflexivity. Qed.

Lemma join_singleton sep p : join sep [p] = p.
Proof. reflexivity. Qed.

Lemma join_cons sep p q ps :
  join sep (p :: q :: ps) = p +:+ sep +:+ join sep (q :: ps).
Proof. reflexivity. Qed.

Lemma string_app_cons c (s t : string) : String c s +:+ t = String c (s +:+ t).
Proof. reflexivity. Qed.

Lemma string_app_length (s t : string) :
  String.length (s +:+ t) = (String.length s + String.length t)%nat.
Proof.
  induction s as [|c s IH]; [done|]. rewrite string_app_cons. simpl. by rewrite IH.
Qed.

Lemma string_app_nil_r (s : string) : s +:+ "" = s.
Proof. induction s as [|c s IH]; [done|]. by rewrite string_app_cons, IH. Qed.

Lemma string_app_assoc (s t u : string) : (s +:+ t) +:+ u = s +:+ (t +:+ u).
Proof. induction s as [|c s IH]; [done|]. by rewrite !string_app_cons, IH. Qed.

(** A joined text is empty only if its first part is. *)
Lemma join_nonempty sep p ps : p <> ""%string -> join sep (p :: ps) <> ""%string.
Proof. destruct p as [|c p]; [done|]. intros _. by destruct ps. Qed.

(** The length of a joined text: the parts and one separator between
    two of them. *)
Lemma join_length sep parts :
  String.length (join sep parts) =
  (sum_list (String.length <$> parts) + String.length sep * pred (length parts))%nat.
Proof.
  induction parts as [|p [|q ps] IH]; simpl in *; [lia..|].
  rewrite !string_app_length, IH. lia.
Qed.

#[export] Hint Rewrite string_app_length string_app_nil_r join_length : py.

(** ** Facts on [split] *)

Section split.
Implicit Types (s : chars) (k : nat) (w rest : string).

(** What is left after skipping white space does not begin with white
    space. *)
Lemma skip_space_stops k s :
  skip_space k s = [] \/ space_width (skip_space k s) = 0%nat.
Proof.
  revert k. induction s as [|c s IH]; intros k; [by left|].
  destruct k as [|k]; simpl; [|apply IH].
  destruct (space_width (c :: s)) as [|k] eqn:E; [by right | apply IH].
Qed.

Lemma split_once_cases (t : string) :
  split_once t = [] \/ (exists w, split_once t = [w]) \/
  exists w rest, split_once t = [w; rest] /\
    rest = string_of_list_ascii
             (skip_space 0 (span_word (skip_space 0 (list_ascii_of_string t))).2) /\
    skip_space 0 (span_word (skip_space 0 (list_ascii_of_string t))).2 <> [].
Proof.
  unfold split_once. destruct (skip_space 0 (list_ascii_of_string t)) as [|c s1]; [by left|].
  destruct (span_word (c :: s1)) as [w r]; simpl.
  destruct (skip_space 0 r) as [|c' r'] eqn:E; [right; left; eauto|].
  right; right. by eexists _, _.
Qed.

Lemma split_once_length (t : string) : (length (split_once t) <= 2)%nat.
Proof.
  destruct (split_once_cases t) as [->|[[w ->]|(w & rest & -> & _)]]; simpl; lia.
Qed.

(** The second piece, when there is one, is not empty and does not
    begin with white space. *)
Lemma split_once_second (t : string) w rest more :
  split_once t = w :: rest :: more ->
  more = [] /\ rest <> ""%string /\ space_width (list_ascii_of_string rest) = 0%nat.
Proof.
  destruct (split_once_cases t) as [->|[[w' ->]|(w' & rest' & -> & -> & Hne)]]; [done..|].
  intros [= <- <- <-]. split; [done|].
  rewrite list_ascii_of_string_of_list_ascii. split.
  - intros Hs. apply Hne. by rewrite <- (list_ascii_of_string_of_list_ascii (skip_space _ _)), Hs.
  - by destruct (skip_space_stops 0 (span_word (skip_space 0 (list_ascii_of_string t))).2).
Qed.

End split.
