(* ===== verification/FloatParse.v ===== *)
(** * FloatParse: [float(s)] for a string [s]

    What CPython's [float] does to a [str] built of ASCII characters:
    strip the white space at both ends, check and drop the underscores
    that group digits, then read either a decimal numeral (sign,
    digits, fraction, exponent) or one of [inf], [infinity] and [nan]
    in any case.  The whole string must be consumed.  The value is the
    binary64 number nearest to the numeral ([float_of_decimal]); a
    numeral too large for a float gives an infinity, not an error.

    A string holding a byte above 127 is refused here; CPython first
    rewrites the decimal digits and spaces of other scripts to ASCII.
    The numerals the exchange APIs send are ASCII.

    The section [plain] reads the plain numerals, digits with an
    optional point and more digits: their value is that of all the
    digits, scaled by the number of digits after the point. *)

From S2P Require Import Prelude PyFloat FloatValid PyStr.

#[local] Open Scope Z_scope.

(** ** Character classes *)

Definition is_space (c : ascii) : bool :=
  let n := N_of_ascii c in ((9 <=? n) && (n <=? 13) || (n =? 32))%N.

Definition is_digit (c : ascii) : bool :=
  let n := N_of_ascii c in ((48 <=? n) && (n <=? 57))%N.

Definition digit_val (c : ascii) : N := (N_of_ascii c - 48)%N.

(** ASCII lower case, as [Py_TOLOWER] *)
Definition to_lower (c : ascii) : ascii :=
  let n := N_of_ascii c in
  if ((65 <=? n) && (n <=? 90))%N then ascii_of_N (n + 32) else c.

(** ** Stripping *)

Fixpoint lstrip (s : chars) : chars :=
  match s with
  | c :: s' => if is_space c then lstrip s' else s
  | [] => []
  end.

Definition strip (s : chars) : chars := rev (lstrip (rev (lstrip s))).

(** ** Underscores

    An underscore must stand between two digits; [prev] is the
    character before [s] (NUL at the start). *)
Fixpoint remove_underscores (prev : ascii) (s : chars) : option chars :=
  match s with
  | [] => if is_char prev "_" then None else Some []
  | c :: s' =>
      if is_char c "_" then
        if is_digit prev then remove_underscores c s' else None
      else if is_char prev "_" && negb (is_digit c) then None
      else cons c <$> remove_underscores c s'
  end.

(** ** Numerals *)

(** The longest prefix of digits, and the rest. *)
Fixpoint span_digits (s : chars) : chars * chars :=
  match s with
  | c :: s' =>
      if is_digit c then let '(ds, r) := span_digits s' in (c :: ds, r)
      else ([], s)
  | [] => ([], [])
  end.

Definition digits_val (ds : chars) : N :=
  fold_left (fun acc c => acc * 10 + digit_val c)%N ds 0%N.

Definition parse_sign (s : chars) : bool * chars :=
  match s with
  | c :: r =>
      if is_char c "-" then (true, r)
      else if is_char c "+" then (false, r)
      else (false, s)
  | [] => (false, [])
  end.

(** What follows the mantissa: nothing, or [e], a sign and at least
    one digit. *)
Definition parse_exponent (s : chars) : option Z :=
  match s with
  | [] => Some 0
  | c :: r =>
      if is_char (to_lower c) "e" then
        let '(neg, r1) := parse_sign r in
        match span_digits r1 with
        | ((_ :: _) as ds, []) =>
            Some (if neg then - Z.of_N (digits_val ds) else Z.of_N (digits_val ds))
        | _ => None
        end
      else None
  end.

Definition parse_decimal (s : chars) : option float :=
  let '(neg, s1) := parse_sign s in
  let '(ip, s2) := span_digits s1 in
  let '(fp, s3) :=
    match s2 with
    | c :: r => if is_char c "." then span_digits r else ([], s2)
    | [] => ([], [])
    end in
  match ip ++ fp with
  | [] => None
  | ds =>
      k ← parse_exponent s3;
      Some (float_of_decimal neg (digits_val ds) (k - Z.of_nat (length fp)))
  end.

Definition parse_inf_nan (s : chars) : option float :=
  let '(neg, s1) := parse_sign s in
  let w := string_of_list_ascii (to_lower <$> s1) in
  if bool_decide (w = "inf" \/ w = "infinity")%string then Some (S754_infinity neg)
  else if bool_decide (w = "nan")%string then Some S754_nan
  else None.

(** [float(s)]; [None] stands for the [ValueError]. *)
Definition float_of_string (s : string) : option float :=
  s' ← remove_underscores "000" (strip (list_ascii_of_string s));
  match parse_decimal s' with
  | Some f => Some f
  | None => parse_inf_nan s'
  end.

(** ** Facts *)

Lemma lstrip_app_space s : Forall (fun c => is_space c = true) s -> lstrip s = [].
Proof. induction 1 as [|c s Hc _ IH]; simpl; [done|]. by rewrite Hc. Qed.

Lemma lstrip_idemp s : lstrip (lstrip s) = lstrip s.
Proof.
  induction s as [|c s IH]; simpl; [done|].
  destruct (is_space c) eqn:Hc; [done|]. simpl. by rewrite Hc.
Qed.

Lemma lstrip_suffix s : exists p, s = p ++ lstrip s /\ Forall (fun c => is_space c = true) p.
Proof.
  induction s as [|c s (p & Hp & Hsp)]; simpl.
  - by exists [].
  - destruct (is_space c) eqn:Hc.
    + exists (c :: p). split; [simpl; congruence | by constructor].
    + by exists [].
Qed.

Lemma span_digits_app s ds r :
  span_digits s = (ds, r) -> s = ds ++ r /\ Forall (fun c => is_digit c = true) ds.
Proof.
  revert ds r; induction s as [|c s IH]; simpl; intros ds r.
  - by intros [= <- <-].
  - destruct (is_digit c) eqn:Hc.
    + destruct (span_digits s) as [ds' r'] eqn:Hs. intros [= <- <-].
      destruct (IH _ _ eq_refl) as [-> ?]. split; [done | by constructor].
    + by intros [= <- <-].
Qed.

Lemma span_digits_all ds :
  Forall (fun c => is_digit c = true) ds -> span_digits ds = (ds, []).
Proof. induction 1 as [|c ds Hc _ IH]; simpl; [done|]. by rewrite Hc, IH. Qed.

Lemma digits_val_app ds1 ds2 :
  digits_val (ds1 ++ ds2) =
  (digits_val ds1 * 10 ^ N.of_nat (length ds2) + digits_val ds2)%N.
Proof.
  unfold digits_val. rewrite fold_left_app.
  generalize (fold_left (fun acc c => acc * 10 + digit_val c)%N ds1 0%N) as a.
  induction ds2 as [|c ds2 IH] using rev_ind; intros a; simpl.
  - by rewrite N.mul_1_r, N.add_0_r.
  - rewrite !fold_left_app; simpl. rewrite IH, (IH 0%N), length_app; simpl.
    rewrite Nat2N.inj_add, N.pow_add_r. simpl N.of_nat. lia.
Qed.

(** The empty string and strings of blanks are refused. *)
Lemma float_of_string_blank s :
  Forall (fun c => is_space c = true) (list_ascii_of_string s) ->
  float_of_string s = None.
Proof.
  intros Hs. unfold float_of_string, strip. by rewrite (lstrip_app_space _ Hs).
Qed.

(** ** Plain decimal numerals

    The amounts of a listing are spelled as plain decimal numerals:
    digits, a point, digits.  [float] reads such a string as the float
    of the decimal numeral with those digits. *)

Section plain.
Implicit Types (c : ascii) (s ip fp : chars).

Lemma is_digit_plain c :
  is_digit c = true ->
  is_space c = false /\ is_char c "_" = false /\ is_char c "." = false /\
  is_char c "-" = false /\ is_char c "+" = false.
Proof. destruct c as [[] [] [] [] [] [] [] []]; by vm_compute. Qed.

Lemma strip_no_space s : Forall (fun c => is_space c = false) s -> strip s = s.
Proof.
  intros Hs. unfold strip.
  assert (forall t, Forall (fun c => is_space c = false) t -> lstrip t = t) as Hl.
  { intros t [|c t' Hc _]; simpl; [done | by rewrite Hc]. }
  by rewrite (Hl s), (Hl (rev s)), rev_involutive by (by try apply Forall_rev).
Qed.

Lemma remove_underscores_none prev s :
  is_char prev "_" = false -> Forall (fun c => is_char c "_" = false) s ->
  remove_underscores prev s = Some s.
Proof.
  intros Hp Hs. revert prev Hp. induction Hs as [|c s Hc _ IH]; intros prev Hp; simpl.
  - by rewrite Hp.
  - rewrite Hc, Hp. simpl. by rewrite IH.
Qed.

Lemma span_digits_stop ip c s :
  Forall (fun c => is_digit c = true) ip -> is_digit c = false ->
  span_digits (ip ++ c :: s) = (ip, c :: s).
Proof.
  intros Hip Hc. induction Hip as [|d ip Hd _ IH]; simpl; [by rewrite Hc|].
  by rewrite Hd, IH.
Qed.

(** The digits and the point of a plain numeral are no blanks and no
    underscores. *)
Lemma plain_chars ip fp :
  Forall (fun c => is_digit c = true) ip -> Forall (fun c => is_digit c = true) fp ->
  Forall (fun c => is_space c = false /\ is_char c "_" = false) (ip ++ "."%char :: fp).
Proof.
  intros Hip Hfp. apply Forall_app. split; [|constructor; [done|]];
    (eapply Forall_impl; [done|]); intros c Hc; by destruct (is_digit_plain c Hc) as (? & ? & _).
Qed.

Lemma float_of_string_plain ip fp :
  Forall (fun c => is_digit c = true) ip -> Forall (fun c => is_digit c = true) fp ->
  ip ++ fp <> [] ->
  float_of_string (string_of_list_ascii (ip ++ "."%char :: fp)) =
  Some (float_of_decimal false (digits_val (ip ++ fp)) (- Z.of_nat (length fp))).
Proof.
  intros Hip Hfp Hne. unfold float_of_string.
  pose proof (plain_chars ip fp Hip Hfp) as Hc.
  rewrite list_ascii_of_string_of_list_ascii, strip_no_space;
    [|eapply Forall_impl; [done|]; by intros c [? _]].
  rewrite remove_underscores_none; [|done|eapply Forall_impl; [done|]; by intros c [_ ?]].
  simpl. unfold parse_decimal.
  assert (parse_sign (ip ++ "."%char :: fp) = (false, ip ++ "."%char :: fp)) as ->.
  { destruct Hip as [|d ip Hd _]; [done|]. simpl.
    by destruct (is_digit_plain d Hd) as (_ & _ & _ & -> & ->). }
  rewrite (span_digits_stop ip "." fp Hip) by done. simpl.
  rewrite (span_digits_all fp Hfp). destruct (ip ++ fp) eqn:E; [done|]. by simpl.
Qed.

(** The same without point and fraction. *)
Lemma float_of_string_digits ip :
  Forall (fun c => is_digit c = true) ip -> ip <> [] ->
  float_of_string (string_of_list_ascii ip) = Some (float_of_decimal false (digits_val ip) 0).
Proof.
  intros Hip Hne. unfold float_of_string.
  assert (Forall (fun c => is_space c = false /\ is_char c "_" = false) ip) as Hc.
  { eapply Forall_impl; [done|]. intros c Hc. by destruct (is_digit_plain c Hc) as (? & ? & _). }
  rewrite list_ascii_of_string_of_list_ascii, strip_no_space;
    [|eapply Forall_impl; [done|]; by intros c [? _]].
  rewrite remove_underscores_none; [|done|eapply Forall_impl; [done|]; by intros c [_ ?]].
  simpl. unfold parse_decimal.
  assert (parse_sign ip = (false, ip)) as ->.
  { destruct Hip as [|d ip Hd _]; [done|]. simpl.
    by destruct (is_digit_plain d Hd) as (_ & _ & _ & -> & ->). }
  rewrite (span_digits_all ip Hip), app_nil_r. by destruct ip.
Qed.

(** The same with a minus sign in front. *)
Lemma float_of_string_negative ip fp :
  Forall (fun c => is_digit c = true) ip -> Forall (fun c => is_digit c = true) fp ->
  ip <> [] ->
  float_of_string
    (string_of_list_ascii ("-"%char :: ip ++ if fp is [] then [] else "."%char :: fp)) =
  Some (float_of_decimal true (digits_val (ip ++ fp)) (- Z.of_nat (length fp))).
Proof.
  intros Hip Hfp Hne. unfold float_of_string.
  assert (Forall (fun c => is_space c = false /\ is_char c "_" = false)
            ("-"%char :: ip ++ if fp is [] then [] else "."%char :: fp)) as Hc.
  { constructor; [done|]. destruct fp; [|by apply plain_chars].
    rewrite app_nil_r. eapply Forall_impl; [done|].
    intros c Hc. by destruct (is_digit_plain c Hc) as (? & ? & _). }
  rewrite list_ascii_of_string_of_list_ascii, strip_no_space;
    [|eapply Forall_impl; [done|]; by intros c [? _]].
  rewrite remove_underscores_none; [|done|eapply Forall_impl; [done|]; by intros c [_ ?]].
  simpl. unfold parse_decimal.
  match goal with |- context [parse_sign (?c :: ?l)] =>
    change (parse_sign (c :: l)) with (true, l) end.
  destruct fp as [|c fp].
  - rewrite app_nil_r, (span_digits_all ip Hip), app_nil_r. by destruct ip.
  - remember (c :: fp) as fp' eqn:E'.
    rewrite (span_digits_stop ip "." fp' Hip) by done. simpl.
    rewrite (span_digits_all fp' Hfp). destruct (ip ++ fp') eqn:E; [by destruct ip|].
    by simpl.
Qed.

End plain.

(** ** The float read is a binary64 value *)

Section valid.
Implicit Types (s : chars) (f : float).

Lemma parse_decimal_valid s f : parse_decimal s = Some f -> valid f = true.
Proof.
  unfold parse_decimal. destruct (parse_sign s) as [neg s1].
  destruct (span_digits s1) as [ip s2].
  destruct (match s2 with [] => _ | _ :: _ => _ end) as [fp s3].
  destruct (ip ++ fp); [done|]. destruct (parse_exponent s3); [|done].
  intros [= <-]. apply float_of_decimal_valid.
Qed.

Lemma parse_inf_nan_valid s f : parse_inf_nan s = Some f -> valid f = true.
Proof.
  unfold parse_inf_nan. destruct (parse_sign s) as [neg s1].
  repeat case_bool_decide; by intros [= <-].
Qed.

Lemma float_of_string_valid (t : string) f : float_of_string t = Some f -> valid f = true.
Proof.
  unfold float_of_string. destruct (remove_underscores _ _) as [s'|]; [simpl|done].
  destruct (parse_decimal s') eqn:E; [intros [= <-]; by eapply parse_decimal_valid|].
  apply parse_inf_nan_valid.
Qed.

End valid.
