(* ===== verification/FloatFormat.v ===== *)
(** * FloatFormat: printing numbers

    [format(x, ",.8f")], [format(x, ".1f")] and [repr(x)] for a
    [float], and [str(n)] for an [int], as CPython 3.11 prints them.

    A finite binary64 number [m * 2^e] is a decimal fraction: with
    [e < 0] it is [m * 5^(-e) / 10^(-e)].  Both printers work on this
    exact decimal expansion, so every rounding below is a rounding of
    the exact value.  The fixed-point printer rounds to the requested
    number of fractional digits, ties to even.  [repr] prints the
    shortest digit string that [float] reads back as the same number
    and, among several, the one nearest to it.

    The definitions follow the computation of CPython; what the
    format specs promise of the text is stated and proved in
    FloatPrint.v. *)

From Stdlib Require Import DecimalString ZifyNat QArith Qpower Qfield Lqa.
From S2P Require Import Prelude PyFloat PyStr FloatParse.

#[local] Open Scope Z_scope.

(** ** Integers *)

(** The decimal digits of a natural number, ["0"] for zero. *)
Definition N_digits (n : N) : string := NilZero.string_of_uint (N.to_uint n).

(** The limit CPython puts on the conversion of an [int] to text. *)
Definition INT_MAX_STR_DIGITS : nat := 4300.

(** [str(n)] for an [int] *)
Definition int_str (n : Z) : result string :=
  let ds := N_digits (Z.abs_N n) in
  if (INT_MAX_STR_DIGITS <? String.length ds)%nat then
    raise ValueError
      ("Exceeds the limit (4300 digits) for integer string conversion; " +:+
       "use sys.set_int_max_str_digits() to increase the limit")
  else Ok (if n <? 0 then "-" +:+ ds else ds).

(** ** The exact decimal expansion of a finite float *)

(** [|x| = D * 10^e10] with [(D, e10) = decimal_of m e]. *)
Definition decimal_of (m : positive) (e : Z) : Z * Z :=
  if 0 <=? e then (Zpos m * 2 ^ e, 0) else (Zpos m * 5 ^ (- e), e).

(** [a / b] rounded to the nearest integer, ties to even ([b > 0]) *)
Definition div_half_even (a b : Z) : Z :=
  let q := a / b in
  match 2 * (a mod b) ?= b with
  | Lt => q
  | Gt => q + 1
  | Eq => if Z.even q then q else q + 1
  end.

(** [D * 10^k] rounded to an integer *)
Definition scale10 (D k : Z) : Z :=
  if 0 <=? k then D * 10 ^ k else div_half_even D (10 ^ (- k)).

(** ** Fixed-point notation: the presentation type [f] *)

Definition zeros (n : nat) : string := string_of_list_ascii (replicate n "0"%char).

(** [s] with zeros on the left up to [width] characters *)
Definition zero_pad (width : nat) (s : string) : string :=
  zeros (width - String.length s) +:+ s.

(** Commas between groups of three digits, counted from the right:
    [cnt] digits of the current group are already out. *)
Fixpoint group3_rev (cnt : nat) (rev_digits : chars) : chars :=
  match rev_digits with
  | [] => []
  | c :: r =>
      if (cnt =? 3)%nat then ","%char :: c :: group3_rev 1 r
      else c :: group3_rev (S cnt) r
  end.

Definition group3 (s : string) : string :=
  string_of_list_ascii (rev (group3_rev 0 (rev (list_ascii_of_string s)))).

Definition sign_str (s : bool) : string := if s then "-" else "".

(** The digits of the rounded magnitude [n = |x| * 10^p], laid out with
    [p] digits after the point. *)
Definition fixed_digits (grouping : bool) (p : nat) (n : Z) : string :=
  let ip := N_digits (Z.to_N (n / 10 ^ Z.of_nat p)) in
  let ip := if grouping then group3 ip else ip in
  match p with
  | O => ip
  | _ => ip +:+ "." +:+ zero_pad p (N_digits (Z.to_N (n mod 10 ^ Z.of_nat p)))
  end.

(** [format(x, ".<p>f")], and [format(x, ",.<p>f")] with [grouping] *)
Definition format_f (grouping : bool) (p : nat) (x : float) : string :=
  match x with
  | S754_nan => "nan"
  | S754_infinity s => sign_str s +:+ "inf"
  | S754_zero s => sign_str s +:+ fixed_digits grouping p 0
  | S754_finite s m e =>
      let '(D, e10) := decimal_of m e in
      sign_str s +:+ fixed_digits grouping p (scale10 D (e10 + Z.of_nat p))
  end.

(** ** [repr]: the shortest digits that read back *)

(** Does the numeral [c * 10^k] read back as [m * 2^e]? *)
Definition reads_back (m : positive) (e : Z) (c k : Z) : bool :=
  bool_decide (float_of_decimal false (Z.to_N c) k = S754_finite false m e).

(** The candidate with [n] digits, if one reads back: the numeral just
    below the value, the one just above, or the nearer of the two.  [D]
    has [L] digits, [n < L], and [decpt = L + e10]. *)
Definition candidate (m : positive) (e : Z) (D : Z) (L n : nat) (decpt : Z)
    : option Z :=
  let unit := 10 ^ Z.of_nat (L - n) in
  let lo := D / unit in
  let hi := lo + 1 in
  let k := decpt - Z.of_nat n in
  match reads_back m e lo k, reads_back m e hi k with
  | true, true =>
      match 2 * (D mod unit) ?= unit with
      | Lt => Some lo
      | Gt => Some hi
      | Eq => Some (if Z.even lo then lo else hi)
      end
  | true, false => Some lo
  | false, true => Some hi
  | false, false => None
  end.

(** Try 1, 2, ... digits; with all [L] digits the value is exact. *)
Fixpoint shortest_from (m : positive) (e : Z) (D : Z) (L : nat) (decpt : Z)
    (n fuel : nat) : Z * Z :=
  match fuel with
  | O => (D, decpt - Z.of_nat L)
  | S fuel' =>
      if (L <=? n)%nat then (D, decpt - Z.of_nat L)
      else
        match candidate m e D L n decpt with
        | Some c => (c, decpt - Z.of_nat n)
        | None => shortest_from m e D L decpt (S n) fuel'
        end
  end.

Fixpoint strip_zeros_rev (rev_digits : chars) : chars :=
  match rev_digits with
  | c :: r => if is_char c "0" then strip_zeros_rev r else rev_digits
  | [] => []
  end.

(** The digits of the shortest numeral, without trailing zeros, and the
    position of the decimal point: the value is [0.digits * 10^decpt]. *)
Definition shortest_digits (m : positive) (e : Z) : string * Z :=
  let '(D, e10) := decimal_of m e in
  let L := String.length (N_digits (Z.to_N D)) in
  let '(c, k) := shortest_from m e D L (Z.of_nat L + e10) 1 17 in
  let ds := N_digits (Z.to_N c) in
  (string_of_list_ascii (rev (strip_zeros_rev (rev (list_ascii_of_string ds)))),
   Z.of_nat (String.length ds) + k).

(** The exponent of the scientific notation: a sign and at least two
    digits. *)
Definition exp_str (x : Z) : string :=
  "e" +:+ (if x <? 0 then "-" else "+") +:+ zero_pad 2 (N_digits (Z.abs_N x)).

(** The layout of [repr]: scientific notation when the decimal point
    would stand more than 16 digits to the right or more than 3 zeros
    to the left of the digits. *)
Definition repr_layout (ds : string) (decpt : Z) : string :=
  let n := String.length ds in
  if (decpt <=? -4) || (16 <? decpt) then
    match ds with
    | String d EmptyString => String d (exp_str (decpt - 1))
    | String d r => String d ("." +:+ r +:+ exp_str (decpt - 1))
    | EmptyString => ""
    end
  else if decpt <=? 0 then "0." +:+ zeros (Z.to_nat (- decpt)) +:+ ds
  else if Z.of_nat n <=? decpt then ds +:+ zeros (Z.to_nat decpt - n) +:+ ".0"
  else substring 0 (Z.to_nat decpt) ds +:+ "." +:+
       substring (Z.to_nat decpt) (n - Z.to_nat decpt) ds.

(** [repr(x)], which is also [str(x)] *)
Definition float_repr (x : float) : string :=
  match x with
  | S754_nan => "nan"
  | S754_infinity s => sign_str s +:+ "inf"
  | S754_zero s => sign_str s +:+ "0.0"
  | S754_finite s m e =>
      let '(ds, decpt) := shortest_digits m e in
      sign_str s +:+ repr_layout ds decpt
  end.

(** ** Facts *)

(** *** Rounding to the nearest integer, ties to even *)

Section rounding.
Implicit Types a b q D k : Z.

Lemma div_half_even_nearest a b : 0 < b -> 2 * Z.abs (a - b * div_half_even a b) <= b.
Proof.
  intros Hb. unfold div_half_even.
  pose proof (Z.div_mod a b ltac:(lia)). pose proof (Z.mod_pos_bound a b Hb).
  destruct (Z.compare_spec (2 * (a mod b)) b); [destruct (Z.even (a / b))|..]; nia.
Qed.

Lemma div_half_even_tie a b :
  0 < b -> 2 * Z.abs (a - b * div_half_even a b) = b -> Z.even (div_half_even a b) = true.
Proof.
  intros Hb. unfold div_half_even.
  pose proof (Z.div_mod a b ltac:(lia)). pose proof (Z.mod_pos_bound a b Hb).
  destruct (Z.compare_spec (2 * (a mod b)) b); [|nia..].
  destruct (Z.even (a / b)) eqn:He; [done|]. intros _.
  by rewrite Z.even_add, He.
Qed.

(** An exact quotient is returned as it is. *)
Lemma div_half_even_exact q b : 0 < b -> div_half_even (q * b) b = q.
Proof.
  intros Hb. unfold div_half_even. rewrite Z.mod_mul, Z.div_mul by lia.
  by destruct (Z.compare_spec (2 * 0) b); [lia | | lia].
Qed.

(** The rounding is monotone: a larger number is not printed as a
    smaller one. *)
Lemma div_half_even_mono a a' b : 0 < b -> a <= a' -> div_half_even a b <= div_half_even a' b.
Proof.
  intros Hb Ha.
  pose proof (div_half_even_nearest a b Hb) as H1.
  pose proof (div_half_even_nearest a' b Hb) as H2.
  destruct (Z_le_gt_dec (div_half_even a b) (div_half_even a' b)) as [|Hgt]; [done|].
  exfalso.
  assert (div_half_even a b = div_half_even a' b + 1 /\ a = a' /\
          2 * Z.abs (a - b * div_half_even a b) = b /\
          2 * Z.abs (a' - b * div_half_even a' b) = b) as (Hq & _ & T1 & T2) by nia.
  apply div_half_even_tie in T1, T2; [|done..].
  rewrite Hq, Z.even_add, T2 in T1. done.
Qed.

End rounding.

(** *** Grouping by thousands *)

Section grouping.
Implicit Types (l : chars) (cnt : nat).

Definition is_comma (c : ascii) : Prop := c = ","%char.

#[export] Instance is_comma_dec c : Decision (is_comma c).
Proof. unfold is_comma. apply _. Defined.

(** [s] without its commas *)
Definition ungroup (s : string) : string :=
  string_of_list_ascii (filter (fun c => ~ is_comma c) (list_ascii_of_string s)).

Lemma group3_rev_filter cnt l :
  Forall (fun c => ~ is_comma c) l ->
  filter (fun c => ~ is_comma c) (group3_rev cnt l) = l.
Proof.
  intros Hl. revert cnt. induction Hl as [|c l Hc Hl IH]; intros cnt; simpl; [done|].
  destruct (cnt =? 3)%nat.
  - rewrite filter_cons_False by (by intros H; apply H).
    by rewrite filter_cons_True, IH.
  - by rewrite filter_cons_True, IH.
Qed.

Lemma group3_rev_length cnt l :
  (cnt <= 3)%nat ->
  length (group3_rev cnt l) = (length l + (length l + cnt - 1) / 3)%nat.
Proof.
  revert cnt. induction l as [|c l IH]; intros cnt Hc; cbn [group3_rev length].
  { zify; Z.to_euclidean_division_equations; lia. }
  destruct (Nat.eqb_spec cnt 3) as [->|Hne]; cbn [length]; rewrite IH by lia;
    zify; Z.to_euclidean_division_equations; lia.
Qed.

End grouping.

Section grouping_contract.

Lemma rev_is_reverse {A} (l : list A) : rev l = reverse l.
Proof. unfold reverse. apply rev_alt. Qed.

Lemma string_of_list_ascii_length (l : chars) :
  String.length (string_of_list_ascii l) = length l.
Proof. induction l as [|c l IH]; simpl; [done | by rewrite IH]. Qed.

Lemma list_ascii_of_string_length (s : string) :
  length (list_ascii_of_string s) = String.length s.
Proof. induction s as [|c s IH]; simpl; [done | by rewrite IH]. Qed.

(** Taking the commas out of the grouped digits gives the digits back. *)
Lemma ungroup_group3 s :
  Forall (fun c => ~ is_comma c) (list_ascii_of_string s) -> ungroup (group3 s) = s.
Proof.
  intros Hs. unfold ungroup, group3.
  rewrite list_ascii_of_string_of_list_ascii, !rev_is_reverse, filter_reverse.
  rewrite group3_rev_filter by by apply Forall_reverse.
  by rewrite reverse_involutive, string_of_list_ascii_of_string.
Qed.

(** There is one comma for every three digits after the first. *)
Lemma group3_length s :
  String.length (group3 s) = (String.length s + (String.length s - 1) / 3)%nat.
Proof.
  unfold group3. rewrite string_of_list_ascii_length, length_rev, group3_rev_length by lia.
  rewrite length_rev, list_ascii_of_string_length. f_equal. f_equal. lia.
Qed.

(** The rounding of the format specs: a value [D * 10^k] is
    printed exactly when [k] is not negative, and otherwise as the
    nearest integer, the even one of the two when it lies half way
    between them. *)
Theorem scale10_correct D k :
  (0 <= k -> scale10 D k = D * 10 ^ k) /\
  (k < 0 ->
     2 * Z.abs (D - 10 ^ (- k) * scale10 D k) <= 10 ^ (- k) /\
     (2 * Z.abs (D - 10 ^ (- k) * scale10 D k) = 10 ^ (- k) -> Z.even (scale10 D k) = true)).
Proof.
  unfold scale10. split; intros Hk.
  - by rewrite (proj2 (Z.leb_le 0 k)).
  - rewrite (proj2 (Z.leb_gt 0 k)) by done.
    assert (0 < 10 ^ (- k)) by (apply Z.pow_pos_nonneg; lia).
    split; [by apply div_half_even_nearest | by apply div_half_even_tie].
Qed.

(** The printed number grows with the value: rounding to a fixed
    number of digits never reverses the order of two values. *)
Theorem scale10_mono D D' k : D <= D' -> scale10 D k <= scale10 D' k.
Proof.
  intros HD. unfold scale10. destruct (0 <=? k) eqn:Hk.
  - apply Z.mul_le_mono_nonneg_r; [|done]. apply Z.pow_nonneg. lia.
  - apply div_half_even_mono; [|done]. apply Z.pow_pos_nonneg; lia.
Qed.

End grouping_contract.

Lemma scale10_mono_witness : scale10 12345 (-2) <= scale10 12355 (-2).
Proof. apply scale10_mono. lia. Defined.

(** *** The decimal expansion is exact *)

Section exact.

(** Every finite float is a decimal fraction, and [decimal_of]
    computes it: [m * 2^e] is exactly [D * 10^e10].  The printers
    round this number, not an approximation of it. *)
Lemma decimal_of_exact m e :
  (Q_of_dyadic false m e == inject_Z (decimal_of m e).1 * 10 ^ (decimal_of m e).2)%Q.
Proof.
  unfold decimal_of, Q_of_dyadic. destruct (0 <=? e) eqn:He; simpl fst; simpl snd.
  - apply Z.leb_le in He. rewrite inject_Z_mult, (Zpower_Qpower 2 e He).
    change (inject_Z 2) with 2%Q. change (10 ^ 0)%Q with 1%Q. ring.
  - apply Z.leb_gt in He.
    rewrite inject_Z_mult, (Zpower_Qpower 5 (- e)) by lia.
    replace e with (- - e)%Z at 1 3 by lia. rewrite !(Qpower_opp _ (- e)).
    change 10%Q with (inject_Z 2 * inject_Z 5)%Q. rewrite Qmult_power.
    assert (0 < inject_Z 2 ^ (- e))%Q by (apply Qpower_0_lt; reflexivity).
    assert (0 < inject_Z 5 ^ (- e))%Q by (apply Qpower_0_lt; reflexivity).
    change (inject_Z 2) with 2%Q in *.
    field. split; lra.
Qed.

End exact.
