(* ===== verification/FloatPrint.v ===== *)
(** * FloatPrint: what the fixed-point format prints

    The specification of [format(x, ",.8f")] and the like, and the
    proof that [format_f] of FloatFormat.v meets it.

    - [format_f_nearest]: the text, commas apart, is the sign, the
      digits before the point without a zero in front, and a point
      with exactly [p] digits after it when [p] is not [0]; the digits
      read as the integer nearest to the value scaled by [10^p], the
      even one of two.
    - [format_f_grouped]: with the grouping option, the digits before
      the point are a first group of one to three digits and groups of
      exactly three, a comma before each; without it they are the same
      digits with no comma.

    The digits are read with [digits_val] of FloatParse.v, the reader
    that [float] uses, so the first theorem is a round trip: what
    is printed reads back as the nearest decimal of that scale. *)

From Stdlib Require Import DecimalString DecimalFacts DecimalN ZifyNat.
From Stdlib Require Import QArith Qpower Qfield Lqa Qabs.
From S2P Require Import Prelude PyFloat FloatRound PyStr FloatParse FloatFormat.

#[local] Open Scope Z_scope.

(** ** The specification *)

Notation digits ds := (Forall (fun c => is_digit c = true) ds).

(** Digits without a zero in front, but for ["0"] itself. *)
Definition normal (ds : chars) : Prop :=
  ds = ["0"%char] \/ exists c r, ds = c :: r /\ c <> "0"%char.

(** The point and the digits after it; nothing when [p] is [0]. *)
Definition point_fraction (p : nat) (fp : chars) : chars :=
  match p with O => [] | _ => "."%char :: fp end.

(** [n] is the integer nearest to [x], the even one of two. *)
Definition nearest_even (x : Q) (n : Z) : Prop :=
  (Qabs (x - inject_Z n) <= 1 # 2)%Q /\
  ((Qabs (x - inject_Z n) == 1 # 2)%Q -> Z.even n = true).

(** The digits of [n] laid out with [p] of them after the point. *)
Record fixed_layout (p : nat) (n : Z) (ip fp : chars) : Prop := FixedLayout {
  layout_ip : digits ip;
  layout_fp : digits fp;
  layout_normal : normal ip;
  layout_scale : length fp = p;
  layout_value : Z.of_N (digits_val (ip ++ fp)) = n;
}.

(** ** Text and lists of characters *)

Section text.
Implicit Types (s t : string) (l k : chars).

Lemma list_ascii_of_string_app s t :
  list_ascii_of_string (s +:+ t) = list_ascii_of_string s ++ list_ascii_of_string t.
Proof. induction s as [|c s IH]; [done|]. rewrite string_app_cons. simpl. by rewrite IH. Qed.

Lemma list_ascii_of_string_inj s t : list_ascii_of_string s = list_ascii_of_string t -> s = t.
Proof.
  intros H. rewrite <- (string_of_list_ascii_of_string s), H.
  apply string_of_list_ascii_of_string.
Qed.

Lemma string_of_list_ascii_app l k :
  string_of_list_ascii (l ++ k) = string_of_list_ascii l +:+ string_of_list_ascii k.
Proof.
  apply list_ascii_of_string_inj.
  by rewrite list_ascii_of_string_app, !list_ascii_of_string_of_list_ascii.
Qed.

End text.

(** ** The digits of a number *)

Section digits.
Implicit Types (d : Decimal.uint) (n acc : N) (c : ascii) (ds r : chars) (p : nat).

Notation digit_step := (fun acc c => acc * 10 + digit_val c)%N.

Lemma uint_digits d : digits (list_ascii_of_string (NilEmpty.string_of_uint d)).
Proof. induction d; simpl; by constructor. Qed.

Lemma uint_val_acc d (q : positive) :
  fold_left digit_step (list_ascii_of_string (NilEmpty.string_of_uint d)) (Npos q) =
  Npos (Pos.of_uint_acc d q).
Proof.
  revert q. induction d; intros q; simpl; [done|..]; rewrite <- IHd; f_equal;
    unfold digit_val; simpl; lia.
Qed.

Lemma uint_val d :
  digits_val (list_ascii_of_string (NilEmpty.string_of_uint d)) = N.of_uint d.
Proof.
  unfold digits_val, N.of_uint. induction d; simpl; [done|done|..]; apply (uint_val_acc d).
Qed.

Lemma N_digits_val n : digits_val (list_ascii_of_string (N_digits n)) = n.
Proof.
  unfold N_digits, NilZero.string_of_uint. rewrite <- (Unsigned.of_to n) at 2.
  destruct (N.to_uint n) eqn:E; try (rewrite <- E; apply uint_val). done.
Qed.

Lemma N_digits_digits n : digits (list_ascii_of_string (N_digits n)).
Proof.
  unfold N_digits, NilZero.string_of_uint.
  destruct (N.to_uint n) eqn:E; try (rewrite <- E; apply uint_digits). by repeat constructor.
Qed.

Lemma N_digits_normal n : normal (list_ascii_of_string (N_digits n)).
Proof.
  unfold N_digits, NilZero.string_of_uint.
  pose proof (Unsigned.to_of (N.to_uint n)) as Hd. rewrite Unsigned.of_to in Hd.
  unfold Decimal.unorm in Hd. pose proof (nzhead_nonzero (N.to_uint n)) as Hz.
  destruct (N.to_uint n) as [|d| | | | | | | | |]; [done| |right; by eexists _, _..].
  rewrite nzhead_D0 in Hd, Hz. destruct (Decimal.nzhead d) eqn:E; simplify_eq; [left; reflexivity|].
  exfalso. by apply (Hz u).
Qed.

Lemma digit_val_pos c : is_digit c = true -> c <> "0"%char -> (1 <= digit_val c)%N.
Proof. destruct c as [[] [] [] [] [] [] [] []]; by vm_compute. Qed.

Lemma digits_val_cons c r :
  digits_val (c :: r) = (digit_val c * 10 ^ N.of_nat (length r) + digits_val r)%N.
Proof. change (c :: r) with ([c] ++ r). rewrite digits_val_app. by unfold digits_val. Qed.

Lemma N_digits_length n p : (n < 10 ^ N.of_nat p)%N -> (1 <= p)%nat ->
  (String.length (N_digits n) <= p)%nat.
Proof.
  intros Hn Hp. rewrite <- list_ascii_of_string_length.
  pose proof (N_digits_val n) as Hv. pose proof (N_digits_digits n) as Hd.
  destruct (N_digits_normal n) as [->|(c & r & E & Hc)]; [done|]. rewrite E in *.
  rewrite digits_val_cons in Hv. apply Forall_cons in Hd as [Hd _].
  pose proof (digit_val_pos c Hd Hc). simpl.
  assert (10 ^ N.of_nat (length r) < 10 ^ N.of_nat p)%N as Hlt by nia.
  apply N.pow_lt_mono_r_iff in Hlt; lia.
Qed.

(** Zeros in front do not change the number read. *)
Lemma digits_val_zeros k ds : digits_val (replicate k "0"%char ++ ds) = digits_val ds.
Proof.
  rewrite digits_val_app. replace (digits_val (replicate k "0"%char)) with 0%N; [done|].
  unfold digits_val. induction k as [|k IH]; [done | exact IH].
Qed.

Lemma zero_pad_chars p (s : string) :
  list_ascii_of_string (zero_pad p s) =
  replicate (p - String.length s) "0"%char ++ list_ascii_of_string s.
Proof.
  unfold zero_pad, zeros. by rewrite list_ascii_of_string_app, list_ascii_of_string_of_list_ascii.
Qed.

End digits.

(** ** The layout of [fixed_digits] *)

Section layout.
Implicit Types (n : Z) (p : nat) (ip fp : chars).

Lemma fraction_length p (k : N) :
  (k < 10 ^ N.of_nat p)%N -> (1 <= p)%nat ->
  length (list_ascii_of_string (zero_pad p (N_digits k))) = p.
Proof.
  intros Hk Hp. pose proof (N_digits_length k p Hk Hp).
  rewrite zero_pad_chars, length_app, length_replicate, list_ascii_of_string_length. lia.
Qed.

Lemma fraction_value p (k : N) :
  digits_val (list_ascii_of_string (zero_pad p (N_digits k))) = k.
Proof. by rewrite zero_pad_chars, digits_val_zeros, N_digits_val. Qed.

Lemma fixed_digits_layout p n :
  0 <= n ->
  exists ip fp,
    fixed_layout p n ip fp /\
    forall grouping,
      list_ascii_of_string (fixed_digits grouping p n) =
      (if grouping then list_ascii_of_string (group3 (string_of_list_ascii ip)) else ip) ++
      point_fraction p fp.
Proof.
  intros Hn. set (P := 10 ^ Z.of_nat p). assert (0 < P) as HP by (apply Z.pow_pos_nonneg; lia).
  pose proof (Z.div_mod n P ltac:(lia)) as Hdm. pose proof (Z.mod_pos_bound n P HP) as Hm.
  assert (0 <= n / P) as Hq by (apply Z.div_pos; lia).
  assert (Z.to_N (n mod P) < 10 ^ N.of_nat p)%N as Hlt by (subst P; lia).
  exists (list_ascii_of_string (N_digits (Z.to_N (n / P)))),
         (if p is O then [] else list_ascii_of_string (zero_pad p (N_digits (Z.to_N (n mod P))))).
  split.
  - split; [apply N_digits_digits| |apply N_digits_normal|..].
    + destruct p; [done|]. rewrite zero_pad_chars. apply Forall_app.
      split; [by apply Forall_replicate | apply N_digits_digits].
    + destruct p; [done|]. apply fraction_length; [done|lia].
    + destruct p; [rewrite app_nil_r, N_digits_val; subst P; simpl in *; lia|].
      rewrite digits_val_app, fraction_length, fraction_value, N_digits_val by (done || lia).
      subst P. lia.
  - intros grouping. unfold fixed_digits. fold P. rewrite string_of_list_ascii_of_string.
    destruct p; [by rewrite app_nil_r; destruct grouping|].
    rewrite !list_ascii_of_string_app. by destruct grouping.
Qed.

End layout.

(** ** Rounding to the nearest decimal *)

Section nearest.
Implicit Types (D B n k : Z) (x : Q).

Lemma nearest_even_exact n x : (x == inject_Z n)%Q -> nearest_even x n.
Proof.
  intros Hx. assert (x - inject_Z n == 0)%Q as H0 by lra. split; rewrite H0; [done|].
  by intros [=].
Qed.

Lemma div_half_even_nearest_even D B x :
  0 < B -> (x * inject_Z B == inject_Z D)%Q -> nearest_even x (div_half_even D B).
Proof.
  intros HB Hx. pose proof (div_half_even_nearest D B HB) as Hn.
  pose proof (div_half_even_tie D B HB) as Ht. set (n := div_half_even D B) in *.
  assert (0 < inject_Z B)%Q as Hb by (by rewrite <- (Zlt_Qlt 0)).
  assert ((x - inject_Z n) * inject_Z B == inject_Z (D - B * n))%Q as Hd.
  { unfold Z.sub. rewrite inject_Z_plus, inject_Z_opp, inject_Z_mult. lra. }
  unfold nearest_even. set (a := D - B * n) in *. set (d := (x - inject_Z n)%Q) in *.
  clearbody d a n.
  assert (- inject_Z B <= 2 * inject_Z a <= inject_Z B)%Q as [H1 H2].
  { change 2%Q with (inject_Z 2). rewrite <- inject_Z_mult, <- inject_Z_opp, <- !Zle_Qle. lia. }
  split.
  - apply Qabs_Qle_condition. split; nra.
  - intros He. apply Ht, inject_Z_injective. rewrite inject_Z_mult. change (inject_Z 2) with 2%Q.
    destruct (Z.abs_spec a) as [[Ha ->]|[Ha ->]]; rewrite ?inject_Z_opp.
    + assert (0 <= d)%Q as H0 by (rewrite (Zle_Qle 0) in Ha; change (inject_Z 0) with 0%Q in Ha; nra).
      rewrite (Qabs_pos d H0) in He. nra.
    + assert (d <= 0)%Q as H0 by (rewrite (Zlt_Qlt a 0) in Ha; change (inject_Z 0) with 0%Q in Ha; nra).
      rewrite (Qabs_neg d H0) in He. nra.
Qed.

Lemma pow10_nonzero : ~ (10 == 0)%Q.
Proof. done. Qed.

(** The format spec prints the integer nearest to the scaled value. *)
Lemma scale10_nearest_even (m : positive) e (p : nat) :
  nearest_even (Q_of_dyadic false m e * 10 ^ Z.of_nat p)
               (scale10 (decimal_of m e).1 ((decimal_of m e).2 + Z.of_nat p)).
Proof.
  pose proof (decimal_of_exact m e) as Hx. destruct (decimal_of m e) as [D e10]; simpl in *.
  unfold scale10. destruct (Z.leb_spec 0 (e10 + Z.of_nat p)) as [Hk|Hk].
  - apply nearest_even_exact. rewrite Hx, inject_Z_mult, pow10_inject by done.
    rewrite (Qpower_plus _ _ _ pow10_nonzero). ring.
  - apply div_half_even_nearest_even; [apply Z.pow_pos_nonneg; lia|].
    rewrite Hx, pow10_inject by lia. rewrite <- !Qmult_assoc, <- !(Qpower_plus _ _ _ pow10_nonzero).
    replace (e10 + (Z.of_nat p + - (e10 + Z.of_nat p))) with 0 by lia. change (10 ^ 0)%Q with 1%Q. ring.
Qed.

Lemma scale10_zero k : scale10 0 k = 0.
Proof.
  unfold scale10. destruct (Z.leb_spec 0 k); [done|].
  apply (div_half_even_exact 0), Z.pow_pos_nonneg; lia.
Qed.

Lemma scale10_nonneg D k : 0 <= D -> 0 <= scale10 D k.
Proof. intros HD. rewrite <- (scale10_zero k). by apply scale10_mono. Qed.

Lemma decimal_of_nonneg (m : positive) e : 0 <= (decimal_of m e).1.
Proof.
  unfold decimal_of. destruct (0 <=? e); simpl; apply Z.mul_nonneg_nonneg; try lia;
    apply Z.pow_nonneg; lia.
Qed.

End nearest.

(** ** The groups of three *)

Section grouping.
Implicit Types (l ds first last : chars) (groups : list chars) (c : ascii).

Lemma digit_not_comma c : is_digit c = true -> ~ is_comma c.
Proof. by intros Hc ->. Qed.

Lemma filter_digits ds : digits ds -> filter (fun c => ~ is_comma c) ds = ds.
Proof.
  induction 1 as [|c ds Hc _ IH]; [done|].
  rewrite filter_cons_True by by apply digit_not_comma. by f_equal.
Qed.

Lemma group3_filter ds :
  digits ds ->
  filter (fun c => ~ is_comma c) (list_ascii_of_string (group3 (string_of_list_ascii ds))) = ds.
Proof.
  intros Hd. pose proof (ungroup_group3 (string_of_list_ascii ds)) as E.
  rewrite list_ascii_of_string_of_list_ascii in E.
  specialize (E (Forall_impl _ _ _ Hd digit_not_comma)).
  apply (f_equal list_ascii_of_string) in E.
  unfold ungroup in E. by rewrite !list_ascii_of_string_of_list_ascii in E.
Qed.

(** From the last digit on: groups of three with a comma after each,
    and a last group of one to three digits. *)
Lemma group3_rev_groups (n : nat) l :
  (length l <= n)%nat -> l <> [] ->
  exists groups last,
    l = concat groups ++ last /\
    group3_rev 0 l = flat_map (fun g => g ++ [","%char]) groups ++ last /\
    Forall (fun g => length g = 3%nat) groups /\ (1 <= length last <= 3)%nat.
Proof.
  revert l. induction n as [|n IH]; intros l Hn Hl; [destruct l; [done | simpl in Hn; lia]|].
  destruct l as [|a [|b [|c [|d l]]]]; [done| | | |].
  1-3: match goal with |- context [group3_rev 0 ?l] =>
         exists [], l; simpl; split_and!; (done || lia) end.
  destruct (IH (d :: l)) as (groups & last & E & Eg & Hg & Hlast); [simpl in *; lia|done|].
  exists ([a; b; c] :: groups), last.
  split_and!; [by simpl; rewrite <- E| |by constructor|lia..].
  change (a :: b :: c :: ","%char :: group3_rev 0 (d :: l) =
          flat_map (fun g => g ++ [","%char]) ([a; b; c] :: groups) ++ last).
  by rewrite Eg.
Qed.

Lemma rev_concat_groups groups : rev (concat groups) = concat (rev (map (@rev ascii) groups)).
Proof.
  induction groups as [|g gs IH]; simpl; [done|].
  rewrite rev_app_distr, IH, concat_app. simpl. by rewrite app_nil_r.
Qed.

Lemma rev_flat_map_groups groups :
  rev (flat_map (fun g => g ++ [","%char]) groups) =
  flat_map (cons ","%char) (rev (map (@rev ascii) groups)).
Proof.
  induction groups as [|g gs IH]; simpl; [done|].
  rewrite rev_app_distr, IH, flat_map_app. simpl. rewrite rev_app_distr. simpl.
  by rewrite app_nil_r.
Qed.

(** From the first digit on: a first group of one to three digits,
    then groups of three with a comma before each. *)
Lemma group3_groups ds :
  ds <> [] ->
  exists first groups,
    ds = first ++ concat groups /\
    list_ascii_of_string (group3 (string_of_list_ascii ds)) =
      first ++ flat_map (cons ","%char) groups /\
    (1 <= length first <= 3)%nat /\ Forall (fun g => length g = 3%nat) groups.
Proof.
  intros Hds.
  destruct (group3_rev_groups (length (rev ds)) (rev ds)) as (groups & last & E & Eg & Hg & Hl);
    [done|by intros H%(f_equal (@rev _)); rewrite rev_involutive in H|].
  exists (rev last), (rev (map (@rev _) groups)).
  split_and!; [| |rewrite length_rev; lia..|].
  - by rewrite <- (rev_involutive ds), E, rev_app_distr, rev_concat_groups.
  - unfold group3.
    by rewrite !list_ascii_of_string_of_list_ascii, Eg, rev_app_distr, rev_flat_map_groups.
  - apply Forall_rev, Forall_map. eapply Forall_impl; [done|]. intros g. by rewrite length_rev.
Qed.

End grouping.

(** ** What [format_f] prints *)

Section printing.
Implicit Types (s grouping : bool) (m : positive) (e : Z) (p : nat) (ip fp : chars).

Lemma filter_sign_str s :
  filter (fun c => ~ is_comma c) (list_ascii_of_string (sign_str s)) =
  list_ascii_of_string (sign_str s).
Proof. by destruct s. Qed.

Lemma filter_point_fraction p fp :
  digits fp -> filter (fun c => ~ is_comma c) (point_fraction p fp) = point_fraction p fp.
Proof.
  intros Hf. destruct p; [done|]. simpl.
  by rewrite filter_cons_True, filter_digits by done.
Qed.

(** The text of a finite number: its sign and the layout of the
    scaled and rounded value, the same digits with and without the
    grouping option. *)
Lemma format_f_layout p s m e :
  exists ip fp,
    fixed_layout p (scale10 (decimal_of m e).1 ((decimal_of m e).2 + Z.of_nat p)) ip fp /\
    forall grouping,
      list_ascii_of_string (format_f grouping p (S754_finite s m e)) =
      list_ascii_of_string (sign_str s) ++
      (if grouping then list_ascii_of_string (group3 (string_of_list_ascii ip)) else ip) ++
      point_fraction p fp.
Proof.
  pose proof (decimal_of_nonneg m e) as HD.
  destruct (fixed_digits_layout p _ (scale10_nonneg _ ((decimal_of m e).2 + Z.of_nat p) HD))
    as (ip & fp & Hl & Hc).
  exists ip, fp. split; [done|]. intros grouping. unfold format_f.
  destruct (decimal_of m e) as [D e10]. by rewrite list_ascii_of_string_app, Hc.
Qed.

(** C30: [format(x, ".pf")] and [format(x, ",.pf")] print a finite
    number as its sign, the digits before the point without a zero in
    front and, when [p] is not [0], a point and exactly [p] digits;
    the digits, read as one integer, are the integer nearest to
    [|x| * 10^p], the even one when two are as near.  The commas of
    the grouping option are apart from that. *)
Theorem format_f_nearest grouping p s m e :
  exists ip fp,
    ungroup (format_f grouping p (S754_finite s m e)) =
      sign_str s +:+ string_of_list_ascii (ip ++ point_fraction p fp) /\
    digits ip /\ digits fp /\ normal ip /\ length fp = p /\
    nearest_even (Q_of_dyadic false m e * 10 ^ Z.of_nat p) (Z.of_N (digits_val (ip ++ fp))).
Proof.
  destruct (format_f_layout p s m e) as (ip & fp & [Hi Hf Hn Hp Hv] & Hc).
  exists ip, fp. split_and!; [|done..|rewrite Hv; apply scale10_nearest_even].
  unfold ungroup. rewrite Hc, !filter_app, filter_sign_str, filter_point_fraction by done.
  rewrite string_of_list_ascii_app, string_of_list_ascii_of_string. do 3 f_equal.
  destruct grouping; [by apply group3_filter | by apply filter_digits].
Qed.

(** C38: the thousands separators of [format(x, ",.pf")]: the digits
    before the point are a first group of one, two or three digits
    followed by groups of exactly three digits, with a comma before
    each of these groups and nowhere else; the same number printed
    without the grouping option has the same digits and no comma. *)
Theorem format_f_grouped p s m e :
  exists first groups fp,
    format_f false p (S754_finite s m e) =
      sign_str s +:+ string_of_list_ascii (first ++ concat groups ++ point_fraction p fp) /\
    format_f true p (S754_finite s m e) =
      sign_str s +:+
      string_of_list_ascii (first ++ flat_map (cons ","%char) groups ++ point_fraction p fp) /\
    (1 <= length first <= 3)%nat /\ Forall (fun g => length g = 3%nat) groups /\
    digits (first ++ concat groups ++ fp) /\ length fp = p.
Proof.
  destruct (format_f_layout p s m e) as (ip & fp & [Hi Hf Hn Hp Hv] & Hc).
  destruct (group3_groups ip) as (first & groups & E & Eg & H1 & H3);
    [by destruct Hn as [->|(? & ? & -> & _)]|].
  exists first, groups, fp. split_and!; [| |lia|lia|done| |done].
  - apply list_ascii_of_string_inj.
    by rewrite Hc, list_ascii_of_string_app, list_ascii_of_string_of_list_ascii, E, <- app_assoc.
  - apply list_ascii_of_string_inj.
    by rewrite Hc, list_ascii_of_string_app, list_ascii_of_string_of_list_ascii, Eg, <- app_assoc.
  - rewrite app_assoc, <- E. by apply Forall_app.
Qed.

End printing.

(** [format(1234567.891, ",.2f")] and [format(0.5, ".0f")] *)
Example format_f_examples :
  format_f true 2 <$> float_of_string "1234567.891" = Some "1,234,567.89"%string /\
  format_f false 0 <$> float_of_string "0.5" = Some "0"%string /\
  format_f false 0 <$> float_of_string "1.5" = Some "2"%string /\
  format_f true 1 <$> float_of_string "-1000" = Some "-1,000.0"%string.
Proof. by vm_compute. Qed.
