(* ===== verification/PyValue.v ===== *)
(** * PyValue: the Python values a decoded JSON document is made of

    [r.json()] yields [None], [bool], [int], [float], [str], [list] and
    [dict] (with [str] keys) values; [pyval] is their type.  The
    operations are the ones the program applies to them: truth value
    ([if x], [x or y]), [d.get(k, default)], the subscript [d[k]],
    [x + y], the comparison of a value with an [int] constant,
    membership in a tuple of strings, [float(x)], iteration and the
    conversion to text ([str], [repr]).  Each is total: where Python
    raises, the operation returns the exception. *)

From S2P Require Import Prelude PyFloat FloatValid PyStr FloatParse FloatFormat.

#[local] Open Scope Z_scope.

Inductive pyval : Type :=
| PNone
| PBool (b : bool)
| PInt (n : Z)
| PFloat (f : float)
| PStr (s : string)
| PList (l : list pyval)
| PDict (d : list (string * pyval)).

Notation pydict := (list (string * pyval)).

(** ** Induction over nested values *)

Section pyval_ind.
Variable P : pyval -> Prop.
Hypothesis HNone : P PNone.
Hypothesis HBool : forall b, P (PBool b).
Hypothesis HInt : forall n, P (PInt n).
Hypothesis HFloat : forall f, P (PFloat f).
Hypothesis HStr : forall s, P (PStr s).
Hypothesis HList : forall l, Forall P l -> P (PList l).
Hypothesis HDict : forall d, Forall (fun kv => P kv.2) d -> P (PDict d).

Fixpoint pyval_nested_ind (v : pyval) : P v :=
  match v with
  | PNone => HNone
  | PBool b => HBool b
  | PInt n => HInt n
  | PFloat f => HFloat f
  | PStr s => HStr s
  | PList l =>
      HList l ((fix go (l : list pyval) : Forall P l :=
                  match l with
                  | [] => @List.Forall_nil _ P
                  | v :: l' => @List.Forall_cons _ P v l' (pyval_nested_ind v) (go l')
                  end) l)
  | PDict d =>
      HDict d ((fix go (d : pydict) : Forall (fun kv => P kv.2) d :=
                  match d with
                  | [] => @List.Forall_nil _ _
                  | kv :: d' =>
                      @List.Forall_cons _ (fun kv => P kv.2) kv d' (pyval_nested_ind kv.2) (go d')
                  end) d)
  end.

End pyval_ind.

(** ** Types and truth *)

(** [type(v).__name__] *)
Definition type_name (v : pyval) : string :=
  match v with
  | PNone => "NoneType"
  | PBool _ => "bool"
  | PInt _ => "int"
  | PFloat _ => "float"
  | PStr _ => "str"
  | PList _ => "list"
  | PDict _ => "dict"
  end.

(** [bool(v)] *)
Definition py_truthy (v : pyval) : bool :=
  match v with
  | PNone => false
  | PBool b => b
  | PInt n => negb (n =? 0)
  | PFloat f => negb (is_zero f)
  | PStr s => negb (bool_decide (s = ""%string))
  | PList l => negb (bool_decide (l = []))
  | PDict d => negb (bool_decide (d = []))
  end.

(** [a or b] *)
Definition py_or (a b : pyval) : pyval := if py_truthy a then a else b.

(** ** Dictionaries *)

Fixpoint dict_lookup (k : string) (d : pydict) : option pyval :=
  match d with
  | [] => None
  | (k', v) :: d' => if bool_decide (k' = k) then Some v else dict_lookup k d'
  end.

Definition no_attribute {A} (v : pyval) (attr : string) : result A :=
  raise AttributeError
    ("'" +:+ type_name v +:+ "' object has no attribute '" +:+ attr +:+ "'").

(** [v.get(k, dflt)] *)
Definition py_get (v : pyval) (k : string) (dflt : pyval) : result pyval :=
  match v with
  | PDict d => Ok (default dflt (dict_lookup k d))
  | _ => no_attribute v "get"
  end.

(** [v[k]] for a string [k] *)
Definition py_getitem (v : pyval) (k : string) : result pyval :=
  match v with
  | PDict d =>
      match dict_lookup k d with
      | Some w => Ok w
      | None => raise KeyError (str_repr k)
      end
  | PStr _ => raise TypeError "string indices must be integers, not 'str'"
  | PList _ => raise TypeError "list indices must be integers or slices, not str"
  | _ => raise TypeError ("'" +:+ type_name v +:+ "' object is not subscriptable")
  end.

(** [v == s] for a string [s] *)
Definition py_eq_str (v : pyval) (s : string) : bool :=
  match v with
  | PStr t => bool_decide (t = s)
  | _ => false
  end.

(** [v in (s1, ..., sn)] for a tuple of strings *)
Definition py_in_strs (v : pyval) (ss : list string) : bool :=
  existsb (py_eq_str v) ss.

(** ** Numbers *)

Definition Z_of_bool (b : bool) : Z := if b then 1 else 0.

(** The number a value is, if it is one ([bool] is a subtype of
    [int]). *)
Definition num_val (v : pyval) : option xreal :=
  match v with
  | PBool b => Some (Z_val (Z_of_bool b))
  | PInt n => Some (Z_val n)
  | PFloat f => Some (float_val f)
  | _ => None
  end.

Definition unsupported_operand {A} (op : string) (a b : pyval) : result A :=
  raise TypeError
    ("unsupported operand type(s) for " +:+ op +:+ ": '" +:+ type_name a +:+
     "' and '" +:+ type_name b +:+ "'").

Definition can_only_concatenate {A} (a b : pyval) : result A :=
  raise TypeError
    ("can only concatenate " +:+ type_name a +:+ " (not " +:+
     String dquote (type_name b) +:+ String dquote ") to " +:+ type_name a).

(** [a + b] where [a] is the [int] [n] *)
Definition int_add (n : Z) (a b : pyval) : result pyval :=
  match b with
  | PBool c => Ok (PInt (n + Z_of_bool c))
  | PInt m => Ok (PInt (n + m))
  | PFloat g => x ← int_to_float n; Ok (PFloat (float_add x g))
  | _ => unsupported_operand "+" a b
  end.

(** [a + b] *)
Definition py_add (a b : pyval) : result pyval :=
  match a with
  | PBool c => int_add (Z_of_bool c) a b
  | PInt n => int_add n a b
  | PFloat f =>
      match b with
      | PBool c => Ok (PFloat (float_add f (float_of_Z (Z_of_bool c))))
      | PInt m => y ← int_to_float m; Ok (PFloat (float_add f y))
      | PFloat g => Ok (PFloat (float_add f g))
      | _ => unsupported_operand "+" a b
      end
  | PStr s =>
      match b with
      | PStr t => Ok (PStr (s +:+ t))
      | _ => can_only_concatenate a b
      end
  | PList l =>
      match b with
      | PList l' => Ok (PList (l ++ l'))
      | _ => can_only_concatenate a b
      end
  | _ => unsupported_operand "+" a b
  end.

Definition not_supported {A} (op : string) (a : pyval) : result A :=
  raise TypeError
    ("'" +:+ op +:+ "' not supported between instances of '" +:+
     type_name a +:+ "' and 'int'").

(** [v >= n] and [v <= n] for an [int] constant [n] *)
Definition py_ge_int (v : pyval) (n : Z) : result bool :=
  match num_val v with
  | Some x => Ok (xleb (Z_val n) x)
  | None => not_supported ">=" v
  end.

Definition py_le_int (v : pyval) (n : Z) : result bool :=
  match num_val v with
  | Some x => Ok (xleb x (Z_val n))
  | None => not_supported "<=" v
  end.

(** [float(v)] *)
Definition py_float (v : pyval) : result float :=
  match v with
  | PFloat f => Ok f
  | PInt n => int_to_float n
  | PBool b => Ok (float_of_Z (Z_of_bool b))
  | PStr s =>
      match float_of_string s with
      | Some f => Ok f
      | None => raise ValueError ("could not convert string to float: " +:+ str_repr s)
      end
  | _ =>
      raise TypeError
        ("float() argument must be a string or a real number, not '" +:+
         type_name v +:+ "'")
  end.

(** ** Iteration: the values [for item in v] binds [item] to *)

Definition py_iter (v : pyval) : result (list pyval) :=
  match v with
  | PList l => Ok l
  | PDict d => Ok (PStr <$> d.*1)
  | PStr s => Ok (PStr <$> str_chars s)
  | _ => raise TypeError ("'" +:+ type_name v +:+ "' object is not iterable")
  end.

(** ** Text *)

(** [repr(v)] *)
Fixpoint py_repr (v : pyval) : result string :=
  match v with
  | PNone => Ok "None"%string
  | PBool b => Ok (if b then "True" else "False")%string
  | PInt n => int_str n
  | PFloat f => Ok (float_repr f)
  | PStr s => Ok (str_repr s)
  | PList l =>
      parts ← (fix go (l : list pyval) : result (list string) :=
                 match l with
                 | [] => Ok []
                 | v :: l' => s ← py_repr v; ss ← go l'; Ok (s :: ss)
                 end) l;
      Ok ("[" +:+ join ", " parts +:+ "]")
  | PDict d =>
      parts ← (fix go (d : pydict) : result (list string) :=
                 match d with
                 | [] => Ok []
                 | kv :: d' =>
                     s ← py_repr kv.2; ss ← go d';
                     Ok ((str_repr kv.1 +:+ ": " +:+ s) :: ss)
                 end) d;
      Ok ("{" +:+ join ", " parts +:+ "}")
  end.

(** [str(v)], which is what a replacement field [{v}] of an f-string
    prints *)
Definition py_str (v : pyval) : result string :=
  match v with
  | PStr s => Ok s
  | _ => py_repr v
  end.

(** ** Well-formed values

    What the JSON decoder guarantees: the keys of a [dict] are
    distinct, and a [float] is a binary64 value. *)

Fixpoint wf_pyval (v : pyval) : Prop :=
  match v with
  | PFloat f => valid f = true
  | PList l => (fix go l := match l with [] => True | v :: l' => wf_pyval v /\ go l' end) l
  | PDict d =>
      NoDup d.*1 /\
      (fix go (d : pydict) := match d with [] => True | kv :: d' => wf_pyval kv.2 /\ go d' end) d
  | _ => True
  end.

(** ** Facts *)

Section facts.
Implicit Types (v w a : pyval) (d : pydict) (k : string).

Lemma py_or_truthy a w : py_truthy a = true -> py_or a w = a.
Proof. unfold py_or. by intros ->. Qed.

Lemma py_or_falsy a w : py_truthy a = false -> py_or a w = w.
Proof. unfold py_or. by intros ->. Qed.

(** [x or 0] is never [None], an empty container or an empty string:
    it is [0] or a true value. *)
Lemma py_or_int_cases a n :
  n <> 0 \/ py_truthy a = true -> py_truthy (py_or a (PInt n)) = true.
Proof.
  unfold py_or. destruct (py_truthy a) eqn:Ha; [done|].
  intros [Hn|?]; [|done]. simpl. by apply negb_true_iff, Z.eqb_neq.
Qed.

(** [n or 0] is [n] for an [int]. *)
Lemma py_or_int_zero n : py_or (PInt n) (PInt 0) = PInt n.
Proof. unfold py_or; simpl. by destruct (Z.eqb_spec n 0) as [->|]. Qed.

Lemma dict_lookup_In k d v : dict_lookup k d = Some v -> (k, v) ∈ d.
Proof.
  induction d as [|[k' v'] d IH]; simpl; [done|].
  case_bool_decide as Hk; [intros [= ->]; subst; left | right; auto].
Qed.

Lemma dict_lookup_None k d : dict_lookup k d = None <-> k ∉ d.*1.
Proof.
  induction d as [|[k' v'] d IH]; simpl.
  - split; [intros _; apply not_elem_of_nil | done].
  - rewrite not_elem_of_cons. case_bool_decide; naive_solver.
Qed.

Lemma dict_lookup_NoDup k d v : NoDup d.*1 -> (k, v) ∈ d -> dict_lookup k d = Some v.
Proof.
  induction d as [|[k' v'] d IH]; simpl; [by intros _ ?%elem_of_nil|].
  intros [Hk' Hd]%NoDup_cons [[= <- <-]|Hin]%elem_of_cons.
  - by rewrite bool_decide_eq_true_2.
  - rewrite bool_decide_eq_false_2; [by apply IH|].
    intros ->. apply Hk'. apply list_elem_of_fmap. by exists (k, v).
Qed.

(** The order of the bindings of a well-formed [dict] does not
    matter. *)
Lemma dict_lookup_perm k d d' :
  NoDup d.*1 -> d ≡ₚ d' -> dict_lookup k d = dict_lookup k d'.
Proof.
  intros Hnd Hp. assert (NoDup d'.*1) as Hnd' by (by rewrite <- Hp).
  destruct (dict_lookup k d) as [w|] eqn:E; symmetry.
  - apply dict_lookup_NoDup; [done|]. rewrite <- Hp. by apply dict_lookup_In.
  - apply dict_lookup_None. rewrite <- Hp. by apply dict_lookup_None.
Qed.

Lemma py_get_dict d k dflt : py_get (PDict d) k dflt = Ok (default dflt (dict_lookup k d)).
Proof. reflexivity. Qed.

Lemma py_get_Ok_inv v k dflt w :
  py_get v k dflt = Ok w -> exists d, v = PDict d /\ w = default dflt (dict_lookup k d).
Proof. destruct v; try done. intros [= <-]. eauto. Qed.

Lemma py_get_not_dict v k dflt :
  (forall d, v <> PDict d) ->
  py_get v k dflt =
  raise AttributeError ("'" +:+ type_name v +:+ "' object has no attribute 'get'").
Proof. destruct v; try done. intros H. by destruct (H d). Qed.

Lemma num_val_Some_cases v x :
  num_val v = Some x ->
  (exists b, v = PBool b) \/ (exists n, v = PInt n) \/ (exists f, v = PFloat f).
Proof. destruct v; naive_solver. Qed.

Lemma py_ge_int_Ok v n b :
  py_ge_int v n = Ok b <-> exists x, num_val v = Some x /\ b = xleb (Z_val n) x.
Proof. unfold py_ge_int. destruct (num_val v); naive_solver. Qed.

Lemma py_le_int_Ok v n b :
  py_le_int v n = Ok b <-> exists x, num_val v = Some x /\ b = xleb x (Z_val n).
Proof. unfold py_le_int. destruct (num_val v); naive_solver. Qed.

(** A sum is a number exactly when both operands are numbers that can
    be added without overflow. *)
Lemma py_add_num a w v x :
  py_add a w = Ok v -> num_val v = Some x ->
  is_Some (num_val a) /\ is_Some (num_val w).
Proof.
  destruct a, w; simpl; try done;
    repeat case_result; simpl; intros; simplify_eq/=; eauto.
Qed.

End facts.

(** ** The operations keep values well formed *)

Section wf.
Implicit Types (v w a b dflt : pyval) (d : pydict) (l : list pyval) (k : string) (f : float).

Lemma wf_PList l : wf_pyval (PList l) <-> Forall wf_pyval l.
Proof.
  induction l as [|v l IH]; [by split; [constructor|]|]. rewrite Forall_cons, <- IH. done.
Qed.

Lemma wf_PDict d : wf_pyval (PDict d) <-> NoDup d.*1 /\ Forall (fun kv => wf_pyval kv.2) d.
Proof.
  simpl. apply and_iff_compat_l.
  induction d as [|kv d IH]; [by split; [constructor|]|]. by rewrite Forall_cons, <- IH.
Qed.

Lemma dict_lookup_wf k d v : wf_pyval (PDict d) -> dict_lookup k d = Some v -> wf_pyval v.
Proof.
  intros [_ Hd]%wf_PDict Hk%dict_lookup_In. by apply (proj1 (Forall_forall _ _) Hd (k, v)).
Qed.

Lemma py_get_wf v k dflt w :
  wf_pyval v -> wf_pyval dflt -> py_get v k dflt = Ok w -> wf_pyval w.
Proof.
  intros Hv Hd (d & -> & ->)%py_get_Ok_inv.
  destruct (dict_lookup k d) eqn:E; [by eapply dict_lookup_wf|done].
Qed.

Lemma py_getitem_wf v k w : wf_pyval v -> py_getitem v k = Ok w -> wf_pyval w.
Proof.
  destruct v as [| | | | | |d]; try done. simpl. intros Hd.
  destruct (dict_lookup k d) eqn:E; [|done]. intros [= <-]. by eapply dict_lookup_wf.
Qed.

Lemma py_or_wf a b : wf_pyval a -> wf_pyval b -> wf_pyval (py_or a b).
Proof. unfold py_or. by destruct (py_truthy a). Qed.

Lemma py_add_wf a b v : wf_pyval a -> wf_pyval b -> py_add a b = Ok v -> wf_pyval v.
Proof.
  intros Ha Hb. destruct a, b; cbn [py_add int_add]; try done;
    try (case_result; rewrite ?bind_Ok, ?bind_Raise); try done; intros [= <-];
    try exact I.
  all: try (apply float_add_valid; eauto using float_of_Z_valid, int_to_float_valid).
  apply wf_PList, Forall_app. by split; apply wf_PList.
Qed.

Lemma py_float_valid v f : wf_pyval v -> py_float v = Ok f -> valid f = true.
Proof.
  destruct v as [|c|n|g|s| |]; cbn [py_float wf_pyval]; try done.
  - intros _ [= <-]. apply float_of_Z_valid.
  - intros _. apply int_to_float_valid.
  - by intros ? [= <-].
  - intros _. destruct (float_of_string s) eqn:E; [|done].
    intros [= <-]. by eapply float_of_string_valid.
Qed.

Lemma py_iter_wf v l : wf_pyval v -> py_iter v = Ok l -> Forall wf_pyval l.
Proof.
  destruct v; simpl; try done; intros Hv [= <-]; [|by apply wf_PList|];
    by apply Forall_fmap, Forall_true.
Qed.

End wf.

#[export] Hint Resolve py_or_wf py_get_wf py_add_wf py_float_valid : py.
#[export] Hint Rewrite py_get_dict : py.
#[export] Hint Resolve py_or_truthy py_or_falsy : py.
