(* ===== verification/Config.v ===== *)
(** * Config: the constants of the program

    The configuration block of src/memecoin_bot.py (lines 10 to 22): the
    four thresholds of the eligibility filter, the request timeout and
    the three endpoints.  [BOT_TOKEN] is read from the environment when
    the module is loaded and is a parameter of the handlers' world, not
    a constant. *)

From S2P Require Import Prelude.

#[local] Open Scope Z_scope.

Definition PULSECHAIN_SLUG : string := "pulsechain".

(** minimum liquidity *)
Definition MIN_LIQ_USD : Z := 3000.
(** minimum hourly transactions *)
Definition MIN_1H_TXNS : Z := 20.
(** max fully diluted value *)
Definition MAX_FDV_USD : Z := 20000000.
(** show pools newer than 48 hours *)
Definition MAX_POOL_AGE_HOURS : Z := 48.
Definition HTTP_TIMEOUT : Z := 15.

Definition GT_TRENDING : string :=
  "https://api.geckoterminal.com/api/v2/networks/" +:+ PULSECHAIN_SLUG +:+
  "/trending_pools".

Definition GT_NEW : string :=
  "https://api.geckoterminal.com/api/v2/networks/" +:+ PULSECHAIN_SLUG +:+
  "/new_pools".

Definition DEX_SEARCH : string := "https://api.dexscreener.com/latest/dex/search".

(** The two listing endpoints differ, so the scan of one kind never
    reads the other's listing. *)
Lemma GT_endpoints_distinct : GT_TRENDING <> GT_NEW.
Proof. by vm_compute. Qed.
