(* ===== verification/Normalizer.v ===== *)
(** * Normalizer: [usd]

    [usd(x)] (src/memecoin_bot.py, lines 27 to 31) turns a loosely
    typed field of a record into a [float]: [float(x)] when [x] is a
    true value, [0.0] when it is not, and [0.0] again when [float]
    raises.  It is a total function. *)

From S2P Require Import Prelude PyFloat FloatExact FloatValid PyStr FloatParse PyValue.

#[local] Open Scope Z_scope.

Definition usd (x : pyval) : float :=
  try_default (if py_truthy x then py_float x else Ok f_zero) f_zero.

Section usd.
Implicit Types (x : pyval) (f : float).

(** [usd] is [float] wherever [float] succeeds on a true value, and
    [0.0] everywhere else. *)
Lemma usd_cases x :
  (py_truthy x = true /\ py_float x = Ok (usd x)) \/
  ((py_truthy x = false \/ is_ok (py_float x) = false) /\ usd x = f_zero).
Proof.
  unfold usd. destruct (py_truthy x); [|by right; auto].
  destruct (py_float x); simpl; auto.
Qed.

(** [usd] of a well-formed value is a binary64 value. *)
Lemma usd_valid x : wf_pyval x -> valid (usd x) = true.
Proof.
  intros Hx. destruct (usd_cases x) as [[_ Hf]|[_ ->]]; [by eapply py_float_valid|done].
Qed.

Lemma usd_falsy x : py_truthy x = false -> usd x = f_zero.
Proof. unfold usd. by intros ->. Qed.

Lemma usd_raise x e : py_float x = Raise e -> usd x = f_zero.
Proof. unfold usd. intros ->. by destruct (py_truthy x). Qed.

Lemma usd_float f : usd (PFloat f) = if is_zero f then f_zero else f.
Proof. unfold usd; simpl. by destruct (is_zero f). Qed.

Lemma usd_str_invalid s : float_of_string s = None -> usd (PStr s) = f_zero.
Proof. intros Hs. eapply usd_raise. simpl. by rewrite Hs. Qed.

Lemma usd_str_valid s f : float_of_string s = Some f -> usd (PStr s) = f.
Proof.
  intros Hs. unfold usd; simpl. rewrite Hs. case_bool_decide as Hemp; [|done].
  subst. by vm_compute in Hs.
Qed.

Lemma usd_int n :
  usd (PInt n) = match float_of_Z n with S754_infinity _ => f_zero | f => f end.
Proof.
  unfold usd, py_float, int_to_float; simpl. destruct (Z.eqb_spec n 0) as [->|]; simpl.
  - reflexivity.
  - by destruct (float_of_Z n).
Qed.

(** An [int] below [2^53] in magnitude is normalised to the float of
    the same value. *)
Lemma usd_int_exact n : Z.abs n < 2 ^ 53 -> xequiv (float_val (usd (PInt n))) (Z_val n).
Proof.
  intros Hn. rewrite usd_int.
  pose proof (float_of_Z_exact n Hn) as Hv. pose proof (float_of_Z_finite n Hn) as Hf.
  by destruct (float_of_Z n).
Qed.

(** A value that is no number and no string is normalised to [0.0]. *)
Lemma usd_not_numeric x :
  num_val x = None -> (forall s, x <> PStr s) -> usd x = f_zero.
Proof.
  intros Hn Hs. destruct x; try done; try (by apply usd_falsy);
    try (by unfold usd; simpl; case_match).
  by destruct (Hs s).
Qed.

End usd.

#[export] Hint Rewrite usd_float usd_int : py.
#[export] Hint Resolve usd_falsy usd_str_invalid usd_str_valid : py.

(** ** The contract of the normaliser *)

(** C6: [usd] on each kind of value: [None], lists and dictionaries
    give [0.0]; a [bool] and an [int] are converted, an [int] too large
    for a float gives [0.0]; a [float] is returned as it is (a zero as
    [0.0]); a string gives the number it spells, or [0.0] when it spells
    none.  No input makes it raise. *)
Theorem usd_by_type :
  usd PNone = f_zero /\
  (forall b, usd (PBool b) = if b then float_of_Z 1 else f_zero) /\
  (forall n, usd (PInt n) =
             match float_of_Z n with S754_infinity _ => f_zero | f => f end) /\
  (forall f, usd (PFloat f) = if is_zero f then f_zero else f) /\
  (forall s, usd (PStr s) = default f_zero (float_of_string s)) /\
  (forall l, usd (PList l) = f_zero) /\
  (forall d, usd (PDict d) = f_zero).
Proof.
  split_and!; try done.
  - by intros [].
  - apply usd_int.
  - apply usd_float.
  - intros s. destruct (float_of_string s) eqn:Hs; simpl; auto with py.
  - intros l. apply usd_not_numeric; naive_solver.
  - intros d. apply usd_not_numeric; naive_solver.
Qed.

(** A false value ([None], [0], the empty string, ...) and a value
    [float] refuses (a word, a list, ...) are both normalised to
    [0.0]. *)
Theorem usd_malformed x :
  py_truthy x = false \/ is_ok (py_float x) = false -> usd x = f_zero.
Proof.
  intros [?|Hf]; [by apply usd_falsy|].
  destruct (py_float x) eqn:Hx; [done|]. by eapply usd_raise.
Qed.

Lemma usd_malformed_witness : usd (PStr "n/a") = f_zero.
Proof. apply usd_malformed. right. by vm_compute. Defined.
