(* ===== verification/Dates.v ===== *)
(** * Dates: [datetime] values and the interface to the date parser

    The program parses timestamps with [dateutil.parser.isoparse], a
    library it only calls.  The library is the interface [DateLib]: a
    parser with the one law [hours_since] relies on.

    [iso_extended] is an instance: a parser of the extended ISO 8601
    format with seconds, [YYYY-MM-DDTHH:MM:SS], an optional fraction
    of at most six digits and an optional zone [Z] or [+HH:MM], which
    is the format of the listings.  It shows that the interface has a
    model and it runs the examples; no theorem depends on it except
    through the interface. *)

From S2P Require Import Prelude PyFloat PyStr FloatParse FloatFormat PyValue.

#[local] Open Scope Z_scope.

(** A [datetime]: the wall-clock reading in microseconds since the
    epoch, and the offset from UTC (in microseconds) when the value is
    aware of its zone. *)
Record datetime : Set := DateTime {
  dt_micros : Z;
  dt_offset : option Z;
}.

#[export] Instance datetime_eq_dec : EqDecision datetime.
Proof. solve_decision. Defined.

(** ** The interface *)

Class DateLib : Type := {
  isoparse : pyval -> result datetime;
  (** Only a string parses. *)
  isoparse_str v : (forall s, v <> PStr s) -> is_ok (isoparse v) = false;
}.

(** ** The calendar *)

Definition is_leap (y : Z) : bool :=
  (y mod 4 =? 0) && (negb (y mod 100 =? 0) || (y mod 400 =? 0)).

Definition days_in_month (y m : Z) : Z :=
  if m =? 2 then (if is_leap y then 29 else 28)
  else if (m =? 4) || (m =? 6) || (m =? 9) || (m =? 11) then 30
  else 31.

(** The days from 1970-01-01 to the day [d] of the month [m] of the
    year [y] of the proleptic Gregorian calendar: the years are counted
    from March, in eras of 400 years. *)
Definition days_from_civil (y m d : Z) : Z :=
  let y := if m <=? 2 then y - 1 else y in
  let era := y / 400 in
  let yoe := y - era * 400 in
  let doy := (153 * (if 2 <? m then m - 3 else m + 9) + 2) / 5 + d - 1 in
  let doe := yoe * 365 + yoe / 4 - yoe / 100 + doy in
  era * 146097 + doe - 719468.

Definition micros_of (y m d hh mm ss us : Z) : Z :=
  (((days_from_civil y m d * 24 + hh) * 60 + mm) * 60 + ss) * 10 ^ 6 + us.

(** ** A parser of the extended format *)

(** Exactly [n] digits. *)
Fixpoint take_digits (n : nat) (acc : Z) (s : chars) : option (Z * chars) :=
  match n with
  | O => Some (acc, s)
  | S n' =>
      match s with
      | c :: s' =>
          if is_digit c then take_digits n' (10 * acc + Z.of_N (digit_val c)) s'
          else None
      | [] => None
      end
  end.

Definition expect (c : ascii) (s : chars) : option chars :=
  match s with
  | c' :: s' => if is_char c' c then Some s' else None
  | [] => None
  end.

(** The fraction of a second, in microseconds: [.] and one to six
    digits, or nothing. *)
Definition parse_fraction (s : chars) : option (Z * chars) :=
  match s with
  | c :: s' =>
      if is_char c "." then
        let '(ds, r) := span_digits s' in
        let n := length ds in
        if bool_decide (1 <= n <= 6)%nat
        then Some (Z.of_N (digits_val ds) * 10 ^ Z.of_nat (6 - n), r)
        else None
      else Some (0, s)
  | [] => Some (0, s)
  end.

(** The zone: nothing, [Z], or a signed [HH:MM]. *)
Definition parse_zone (s : chars) : option (option Z) :=
  match s with
  | [] => Some None
  | c :: s' =>
      if is_char c "Z" && bool_decide (s' = []) then Some (Some 0)
      else if is_char c "+" || is_char c "-" then
        '(hh, s1) ← take_digits 2 0 s';
        s2 ← expect ":" s1;
        '(mm, s3) ← take_digits 2 0 s2;
        if bool_decide (s3 = []) && (hh <? 24) && (mm <? 60) then
          let off := (hh * 60 + mm) * 60 * 10 ^ 6 in
          Some (Some (if is_char c "-" then - off else off))
        else None
      else None
  end.

Definition parse_iso (s : string) : option datetime :=
  '(y, s) ← take_digits 4 0 (list_ascii_of_string s);
  s ← expect "-" s;
  '(m, s) ← take_digits 2 0 s;
  s ← expect "-" s;
  '(d, s) ← take_digits 2 0 s;
  s ← expect "T" s;
  '(hh, s) ← take_digits 2 0 s;
  s ← expect ":" s;
  '(mm, s) ← take_digits 2 0 s;
  s ← expect ":" s;
  '(ss, s) ← take_digits 2 0 s;
  '(us, s) ← parse_fraction s;
  zone ← parse_zone s;
  if (1 <=? y) && (1 <=? m) && (m <=? 12) && (1 <=? d) && (d <=? days_in_month y m)
     && (hh <? 24) && (mm <? 60) && (ss <? 60)
  then Some (DateTime (micros_of y m d hh mm ss us) zone)
  else None.

Definition iso_extended_parse (v : pyval) : result datetime :=
  match v with
  | PStr s =>
      match parse_iso s with
      | Some dt => Ok dt
      | None => raise ValueError "ISO string too short"
      end
  | _ => raise TypeError "Parser must be a string or character stream"
  end.

Lemma iso_extended_parse_str v :
  (forall s, v <> PStr s) -> is_ok (iso_extended_parse v) = false.
Proof. destruct v; intros Hv; try done. by destruct (Hv s). Qed.

(** The instance is a definition: no theorem picks it up unasked. *)
Definition iso_extended : DateLib :=
  {| isoparse := iso_extended_parse; isoparse_str := iso_extended_parse_str |}.

(** ** The calendar, checked *)

Lemma days_from_civil_epoch : days_from_civil 1970 1 1 = 0.
Proof. reflexivity. Qed.

(** Some days, as the [datetime] module counts them. *)
Lemma days_from_civil_examples :
  days_from_civil 2000 2 29 = 11016 /\
  days_from_civil 2000 3 1 = 11017 /\
  days_from_civil 1900 3 1 = (-25508) /\
  days_from_civil 2024 12 31 = 20088 /\
  days_from_civil 1 1 1 = (-719162) /\
  days_from_civil 9999 12 31 = 2932896.
Proof. by vm_compute. Qed.

Lemma parse_iso_examples :
  parse_iso "2024-05-01T12:30:00Z" = Some (DateTime 1714566600000000 (Some 0)) /\
  parse_iso "2024-05-01T12:30:00" = Some (DateTime 1714566600000000 None) /\
  parse_iso "2024-05-01T14:30:00.25+02:00" =
    Some (DateTime 1714573800250000 (Some 7200000000)) /\
  parse_iso "2023-02-29T00:00:00Z" = None /\
  parse_iso "yesterday" = None.
Proof. by vm_compute. Qed.
