(* ===== verification/Age.v ===== *)
(** * Age: [hours_since]

    [hours_since(dt_iso)] (src/memecoin_bot.py, lines 33 to 40) parses
    a timestamp, takes a timestamp without zone as UTC, and returns the
    hours elapsed since then as a [float]; whatever goes wrong, it
    returns [math.inf].

    [isoparse] is the parser of the interface [DateLib] of Dates.v.
    The instant of the call is a parameter.
    The arithmetic is modelled to the bit: the difference of two
    [datetime]s is a whole number of microseconds, [total_seconds]
    divides it by [10**6] as [int]s, and the division by [3600.0] is a
    [float] division.

    The section [elapsed] relates the float to the time that passed:
    with the rounding theory of FloatRound.v, the age is at most 48
    exactly when at most [FRESH_MICROS] microseconds have passed. *)

From Stdlib Require Import QArith Qpower Lqa.
From S2P Require Import Prelude PyFloat FloatSign FloatExact FloatRound FloatValid.
From S2P Require Import PyStr FloatParse FloatFormat PyValue Dates.

#[local] Open Scope Z_scope.

(** ** The function *)

(** [dt.replace(tzinfo=timezone.utc)] when [dt.tzinfo is None] *)
Definition assume_utc (dt : datetime) : datetime :=
  match dt_offset dt with
  | None => DateTime (dt_micros dt) (Some 0)
  | Some _ => dt
  end.

(** The instant an aware [datetime] denotes, in microseconds UTC. *)
Definition instant (dt : datetime) : Z := dt_micros dt - default 0 (dt_offset dt).

(** [td.total_seconds()] for a [timedelta] of [us] microseconds *)
Definition total_seconds (us : Z) : result float := int_true_div us (10 ^ 6).

(** [3600.0] *)
Definition f_3600 : float := float_of_Z 3600.

(** The age for [us] elapsed microseconds: the two divisions of
    [hours_since], and [math.inf] when one of them raises. *)
Definition hours_of (us : Z) : float :=
  try_default (total_seconds us ≫= fun secs => float_div secs f_3600) f_inf.

(** 48 hours, in microseconds. *)
Definition FRESH_MICROS : Z := 48 * 3600 * 10 ^ 6.

Section hours_since.
Context `{DateLib}.

(** [now] is [datetime.now(timezone.utc)] at the time of the call. *)
Definition hours_since (now : Z) (dt_iso : pyval) : float :=
  try_default
    (dt ← isoparse dt_iso;
     let dt := assume_utc dt in
     secs ← total_seconds (now - instant dt);
     float_div secs f_3600)
    f_inf.

(** ** Facts *)

Lemma instant_assume_utc dt : instant (assume_utc dt) = instant dt.
Proof. by destruct dt as [t [o|]]. Qed.

Lemma assume_utc_idemp dt : assume_utc (assume_utc dt) = assume_utc dt.
Proof. by destruct dt as [t [o|]]. Qed.

Lemma hours_since_raise now v e : isoparse v = Raise e -> hours_since now v = f_inf.
Proof. unfold hours_since. by intros ->. Qed.

Lemma hours_since_not_str now v : (forall s, v <> PStr s) -> hours_since now v = f_inf.
Proof.
  intros Hv. pose proof (isoparse_str v Hv) as Hp.
  destruct (isoparse v) eqn:E; [done|]. by eapply hours_since_raise.
Qed.

Lemma f_3600_finite : exists m e, f_3600 = S754_finite false m e.
Proof. by eexists _, _. Qed.

(** The age of a timestamp that parses: the elapsed microseconds,
    divided twice. *)
Lemma hours_since_parsed now v dt :
  isoparse v = Ok dt ->
  hours_since now v =
  try_default (total_seconds (now - instant dt) ≫= fun secs => float_div secs f_3600) f_inf.
Proof.
  unfold hours_since. intros ->. simpl. by rewrite instant_assume_utc.
Qed.

Lemma hours_since_hours_of now v dt :
  isoparse v = Ok dt -> hours_since now v = hours_of (now - instant dt).
Proof. apply hours_since_parsed. Qed.

(** The age is a binary64 value, whatever the timestamp. *)
Lemma hours_of_valid us : valid (hours_of us) = true.
Proof.
  unfold hours_of, total_seconds.
  destruct (int_true_div us _) as [secs|]; [rewrite bind_Ok|done].
  destruct (float_div secs f_3600) eqn:E; [by eapply float_div_valid|done].
Qed.

Lemma hours_since_valid now v : valid (hours_since now v) = true.
Proof.
  destruct (isoparse v) as [dt|e] eqn:E.
  - rewrite (hours_since_hours_of _ _ _ E). apply hours_of_valid.
  - by rewrite (hours_since_raise _ _ _ E).
Qed.

End hours_since.

(** ** The age and the elapsed time *)

Section elapsed.
Implicit Types (p q : positive) (us : Z).

Lemma f_3600_value : exists m e, f_3600 = S754_finite false m e /\ (Q_of_dyadic false m e == 3600)%Q.
Proof. eexists _, _. split; [reflexivity|]. by vm_compute. Qed.

(** The float that follows [172800.0], and one microsecond more than
    48 hours, in seconds. *)
Lemma after_48_hours_representable : representable (dy (172800 * 2 ^ 35 + 1) (-35)).
Proof. apply representable_dy; unfold prec, emin, emax; lia. Qed.

Lemma after_48_hours (p : positive) :
  172800000000 < Zpos p ->
  (dy (172800 * 2 ^ 35 + 1) (-35) <= inject_Z (Zpos p) / inject_Z (Zpos 1000000))%Q.
Proof.
  intros Hp. apply Qle_shift_div_l; [done|].
  apply Qle_trans with (inject_Z 172800000001); [by vm_compute|].
  rewrite <- Zle_Qle. lia.
Qed.

Lemma int_true_div_pos p q :
  int_true_div (Zpos p) (Zpos q) =
  match float_of_ratio false p q with
  | S754_infinity _ => raise OverflowError "integer division result too large for a float"
  | f => Ok f
  end.
Proof. reflexivity. Qed.

Lemma int_true_div_neg p q :
  int_true_div (Zneg p) (Zpos q) =
  match float_of_ratio false p q with
  | S754_infinity _ => raise OverflowError "integer division result too large for a float"
  | f => Ok (SFopp f)
  end.
Proof.
  unfold int_true_div. change (xorb (Zneg p <? 0) (Zpos q <? 0)) with (negb false).
  rewrite !float_of_ratio_round, (binary_round_aux_opp false).
  by destruct (binary_round_aux _ _ _ _ _ _).
Qed.

Lemma float_div_3600 secs : float_div secs f_3600 = Ok (SFdiv prec emax secs f_3600).
Proof. reflexivity. Qed.

Lemma hours_of_Zpos p :
  hours_of (Zpos p) =
  match float_of_ratio false p 1000000 with
  | S754_infinity _ => f_inf
  | secs => SFdiv prec emax secs f_3600
  end.
Proof.
  unfold hours_of, total_seconds. change (10 ^ 6) with (Zpos 1000000).
  rewrite int_true_div_pos. by destruct (float_of_ratio false p 1000000).
Qed.

Lemma hours_of_Zneg p :
  hours_of (Zneg p) =
  match float_of_ratio false p 1000000 with
  | S754_infinity _ => f_inf
  | secs => SFdiv prec emax (SFopp secs) f_3600
  end.
Proof.
  unfold hours_of, total_seconds. change (10 ^ 6) with (Zpos 1000000).
  rewrite int_true_div_neg. by destruct (float_of_ratio false p 1000000).
Qed.

(** Up to 48 hours the age is at most [48.0]; *)
Lemma hours_of_le p :
  Zpos p <= FRESH_MICROS -> xleb (float_val (hours_of (Zpos p))) (Z_val 48) = true.
Proof.
  unfold FRESH_MICROS. intros Hp. rewrite hours_of_Zpos.
  pose proof (float_of_ratio_signed false p 1000000) as Hs.
  assert (xleb (float_val (float_of_ratio false p 1000000)) (Z_val 172800) = true) as Hle.
  { apply float_of_ratio_le; [apply representable_Z; unfold prec; lia|].
    apply Qle_shift_div_r; [done|]. rewrite <- inject_Z_mult, <- Zle_Qle. lia. }
  destruct (float_of_ratio false p 1000000) as [s|s| |s m e]; simpl in Hs; subst; try done.
  destruct f_3600_value as (m36 & e36 & -> & Hv).
  apply SFdiv_le; [apply representable_Z; unfold prec; lia|].
  apply xleb_Fin in Hle. apply Qle_shift_div_r; [by rewrite Hv|]. rewrite Hv.
  by change (inject_Z 172800) with (inject_Z 48 * 3600)%Q in Hle.
Qed.

(** beyond 48 hours it is more, by one microsecond already. *)
Lemma hours_of_gt p :
  FRESH_MICROS < Zpos p -> xleb (float_val (hours_of (Zpos p))) (Z_val 48) = false.
Proof.
  unfold FRESH_MICROS. intros Hp. rewrite hours_of_Zpos.
  pose proof (float_of_ratio_signed false p 1000000) as Hs.
  pose proof (float_of_ratio_ge p 1000000 _ after_48_hours_representable
                (after_48_hours p Hp)) as Hge.
  destruct (float_of_ratio false p 1000000) as [s|s| |s m e]; simpl in Hs; subst; try done.
  destruct f_3600_value as (m36 & e36 & -> & Hv).
  pose proof (SFdiv_ge m e m36 e36 (dy (48 * 2 ^ 47 + 1) (-47))
                (representable_dy (48 * 2 ^ 47 + 1) (-47) ltac:(unfold prec; lia)
                                  ltac:(unfold prec, emin, emax; lia))) as Hd.
  apply xleb_Fin in Hge.
  destruct (xleb (float_val (SFdiv _ _ _ _)) (Z_val 48)) eqn:Hx; [exfalso|done].
  assert (xleb (XFin (dy (48 * 2 ^ 47 + 1) (-47))) (Z_val 48) = true) as Hc; [|done].
  eapply xleb_trans; [apply Hd|done].
  apply Qle_shift_div_l; [by rewrite Hv|]. rewrite Hv.
  eapply Qle_trans; [|done]. by vm_compute.
Qed.

(** The seconds of up to [2^62] microseconds are a positive float:
    the quotient neither underflows nor overflows. *)
Lemma seconds_finite p :
  Zpos p <= 2 ^ 62 ->
  exists m e, float_of_ratio false p 1000000 = S754_finite false m e /\
              (dy 1 (-20) <= Q_of_dyadic false m e <= dy 1 62)%Q.
Proof.
  intros Hp. pose proof (float_of_ratio_signed false p 1000000) as Hs.
  assert (xleb (XFin (dy 1 (-20))) (float_val (float_of_ratio false p 1000000)) = true) as Hge.
  { apply float_of_ratio_ge; [apply representable_dy; unfold prec, emin, emax; lia|].
    apply Qle_shift_div_l; [done|]. apply Qle_trans with (inject_Z 1); [by vm_compute|].
    rewrite <- Zle_Qle. lia. }
  assert (xleb (float_val (float_of_ratio false p 1000000)) (XFin (dy 1 62)) = true) as Hle.
  { apply float_of_ratio_le; [apply representable_dy; unfold prec, emin, emax; lia|].
    apply Qle_shift_div_r; [done|]. apply Qle_trans with (inject_Z (2 ^ 62)); [|by vm_compute].
    rewrite <- Zle_Qle. lia. }
  destruct (float_of_ratio false p 1000000) as [s|s| |s m e]; simpl in Hs; subst; try done.
  exists m, e. split; [done|]. split; by apply xleb_Fin.
Qed.

(** So are the hours of such seconds. *)
Lemma hours_finite m e :
  (dy 1 (-20) <= Q_of_dyadic false m e <= dy 1 62)%Q ->
  exists m' e', SFdiv prec emax (S754_finite false m e) f_3600 = S754_finite false m' e'.
Proof.
  intros [Hlo Hhi]. destruct f_3600_value as (m36 & e36 & Hf & Hv).
  pose proof (float_div_signed (S754_finite false m e) _ false false m36 e36 _
                eq_refl Hf (float_div_3600 _)) as Hs.
  rewrite Hf in *.
  pose proof (SFdiv_ge m e m36 e36 (dy 1 (-32))
                (representable_dy 1 (-32) ltac:(unfold prec; lia)
                                  ltac:(unfold prec, emin, emax; lia))) as Hge.
  pose proof (SFdiv_le m e m36 e36 (dy 1 62)
                (representable_dy 1 62 ltac:(unfold prec; lia)
                                  ltac:(unfold prec, emin, emax; lia))) as Hle.
  rewrite Hv in Hge, Hle.
  assert (dy 1 (-32) * 3600 <= dy 1 (-20))%Q as H1 by (by vm_compute).
  specialize (Hge ltac:(apply Qle_shift_div_l; [done|lra])).
  specialize (Hle ltac:(apply Qle_shift_div_r; [done|];
                        assert (0 <= dy 1 62)%Q by (by vm_compute); lra)).
  destruct (SFdiv _ _ _ _) as [s|s| |s m' e']; simpl in Hs; subst; try done. eauto.
Qed.

(** The age of a timestamp in the future is a negative float. *)
Lemma hours_of_Zneg_finite p :
  Zpos p <= 2 ^ 62 -> exists m e, hours_of (Zneg p) = S754_finite true m e.
Proof.
  intros Hp. rewrite hours_of_Zneg.
  destruct (seconds_finite p Hp) as (m & e & -> & Hb).
  destruct (hours_finite m e Hb) as (m' & e' & Hh). exists m', e'.
  destruct f_3600_value as (m36 & e36 & Hf & _). rewrite Hf in *.
  change (SFopp (S754_finite false m e)) with (S754_finite true m e).
  rewrite SFdiv_round in Hh. simpl.
  destruct (SFdiv_core_binary _ _ _ _ _ _) as [[mz ez] lz]; simpl in Hh.
  by rewrite (binary_round_aux_opp false), Hh.
Qed.

Lemma Q_of_dyadic_negative m e : (Q_of_dyadic true m e < 0)%Q.
Proof.
  unfold Q_of_dyadic. pose proof (pow2_pos e).
  assert (0 < inject_Z (Zpos m))%Q by (by rewrite <- (Zlt_Qlt 0)). nra.
Qed.

Lemma hours_of_negative p :
  Zpos p <= 2 ^ 62 -> xltb (float_val (hours_of (Zneg p))) (Z_val 0) = true.
Proof.
  intros (m & e & ->)%hours_of_Zneg_finite. apply xltb_Fin, Q_of_dyadic_negative.
Qed.

Lemma hours_of_neg p :
  Zpos p <= 2 ^ 62 -> xleb (float_val (hours_of (Zneg p))) (Z_val 48) = true.
Proof.
  intros Hp. apply xleb_trans with (Z_val 0); [|done].
  by apply xltb_leb, hours_of_negative.
Qed.

(** The age is at most 48 hours exactly when at most 48 hours have
    passed: the two roundings do not move the threshold by a
    microsecond. *)
Lemma hours_of_fresh us :
  - 2 ^ 62 <= us -> xleb (float_val (hours_of us)) (Z_val 48) = (us <=? FRESH_MICROS).
Proof.
  intros Hus. destruct us as [|p|p].
  - done.
  - destruct (Z.leb_spec (Zpos p) FRESH_MICROS); [by apply hours_of_le | by apply hours_of_gt].
  - rewrite hours_of_neg by lia. done.
Qed.

End elapsed.

#[export] Hint Rewrite instant_assume_utc assume_utc_idemp : py.

(** ** The contract of the age *)

Section contract.
Context `{DateLib}.
Implicit Types (now : Z) (v : pyval) (dt : datetime).

(** C12: a timestamp the parser refuses, [None] and every value that
    is no string among them, has the age [math.inf]. *)
Theorem hours_since_unparsable now v :
  is_ok (isoparse v) = false -> hours_since now v = f_inf.
Proof.
  destruct (isoparse v) as [dt|e] eqn:E; [done|]. intros _. by eapply hours_since_raise.
Qed.

(** A timestamp without zone has the age of the same reading
    marked as UTC. *)
Theorem hours_since_naive_utc now v1 v2 t :
  isoparse v1 = Ok (DateTime t None) -> isoparse v2 = Ok (DateTime t (Some 0)) ->
  hours_since now v1 = hours_since now v2.
Proof. intros H1 H2. by rewrite (hours_since_parsed _ _ _ H1), (hours_since_parsed _ _ _ H2). Qed.

(** The age depends on the instant only: two timestamps that
    denote the same instant in different zones have the same age. *)
Theorem hours_since_same_instant now v1 v2 dt1 dt2 :
  isoparse v1 = Ok dt1 -> isoparse v2 = Ok dt2 -> instant dt1 = instant dt2 ->
  hours_since now v1 = hours_since now v2.
Proof.
  intros H1 H2 Hi.
  by rewrite (hours_since_parsed _ _ _ H1), (hours_since_parsed _ _ _ H2), Hi.
Qed.

(** C13: the age of a timestamp that is not in the future is not
    negative and not [nan]: it is zero, a positive number or
    [math.inf]. *)
Theorem hours_since_nonneg now v dt :
  isoparse v = Ok dt -> instant dt <= now ->
  xleb (Z_val 0) (float_val (hours_since now v)) = true.
Proof.
  intros Hp Hle. rewrite (hours_since_parsed _ _ _ Hp). unfold total_seconds.
  destruct (int_true_div _ _) as [secs|] eqn:E1; [rewrite bind_Ok; cbv beta | done].
  apply int_true_div_signed in E1.
  replace (now - instant dt <? 0) with false in E1 by (symmetry; apply Z.ltb_ge; lia).
  destruct (float_div secs f_3600) as [h|] eqn:E2; [cbn [try_default] | done].
  destruct f_3600_finite as (m & e & Hf).
  apply signed_nonneg. exact (float_div_signed _ _ false false m e h E1 Hf E2).
Qed.

(** C14: the age of a pool is at most 48 hours exactly when at most 48
    hours, to the microsecond, lie between its creation and the call.
    The age is a quotient rounded twice, and neither rounding moves
    the threshold: 48 hours and one microsecond is already above
    [48.0].  The bound on the elapsed time holds for every pair of
    dates of the calendar. *)
Theorem hours_since_fresh now v dt :
  isoparse v = Ok dt -> - 2 ^ 62 <= now - instant dt ->
  xleb (float_val (hours_since now v)) (Z_val 48) = (now - instant dt <=? FRESH_MICROS).
Proof. intros Hp Hb. by rewrite (hours_since_hours_of _ _ _ Hp), hours_of_fresh. Qed.

(** C40: a creation date in the future has a negative age: a negative
    number, not zero and not [nan], however near the date is; such a
    pool passes the test of the age. *)
Theorem hours_since_future now v dt :
  isoparse v = Ok dt -> now < instant dt -> - 2 ^ 62 <= now - instant dt ->
  xltb (float_val (hours_since now v)) (Z_val 0) = true /\
  xleb (float_val (hours_since now v)) (Z_val 48) = true.
Proof.
  intros Hp Hlt Hb. rewrite (hours_since_hours_of _ _ _ Hp).
  destruct (now - instant dt) as [|p|p] eqn:E; [lia..|].
  split; [apply hours_of_negative | apply hours_of_neg]; lia.
Qed.

End contract.

(** Two hours after the timestamp the age is [2.0]; one hour
    before it the age is [-1.0]: a timestamp in the future has a
    negative age. *)
Theorem hours_since_examples :
  hours_since (H := iso_extended) 1714566600000000 (PStr "2024-05-01T10:30:00Z") = float_of_Z 2 /\
  hours_since (H := iso_extended) 1714566600000000 (PStr "2024-05-01T13:30:00Z") =
    float_of_Z (-1).
Proof. by vm_compute. Qed.

Lemma hours_since_unparsable_witness :
  hours_since (H := iso_extended) 0 (PStr "yesterday") = f_inf.
Proof. by apply (hours_since_unparsable (H := iso_extended)). Defined.

Lemma hours_since_naive_utc_witness :
  hours_since (H := iso_extended) 1714566600000000 (PStr "2024-05-01T10:30:00") =
  hours_since (H := iso_extended) 1714566600000000 (PStr "2024-05-01T10:30:00Z").
Proof. by apply (hours_since_naive_utc (H := iso_extended)) with 1714559400000000. Defined.

Lemma hours_since_same_instant_witness :
  hours_since (H := iso_extended) 1714566600000000 (PStr "2024-05-01T12:30:00+02:00") =
  hours_since (H := iso_extended) 1714566600000000 (PStr "2024-05-01T10:30:00Z").
Proof.
  by apply (hours_since_same_instant (H := iso_extended)) with
    (DateTime 1714566600000000 (Some 7200000000)) (DateTime 1714559400000000 (Some 0)).
Defined.

Lemma hours_since_nonneg_witness :
  xleb (Z_val 0)
    (float_val (hours_since (H := iso_extended) 1714566600000000 (PStr "2024-05-01T10:30:00Z")))
  = true.
Proof.
  by apply (hours_since_nonneg (H := iso_extended)) with (DateTime 1714559400000000 (Some 0)).
Defined.

Lemma hours_since_fresh_witness :
  xleb (float_val (hours_since (H := iso_extended) 1714732200000001
                     (PStr "2024-05-01T12:30:00+02:00")))
       (Z_val 48) =
  (1714732200000001 - 1714559400000000 <=? FRESH_MICROS).
Proof.
  by apply (hours_since_fresh (H := iso_extended) _ _
              (DateTime 1714566600000000 (Some 7200000000))).
Defined.

Lemma hours_since_future_witness :
  xltb (float_val (hours_since (H := iso_extended) 1714566600000000
                     (PStr "2024-05-01T12:30:00.000001Z")))
       (Z_val 0) = true /\
  xleb (float_val (hours_since (H := iso_extended) 1714566600000000
                     (PStr "2024-05-01T12:30:00.000001Z")))
       (Z_val 48) = true.
Proof.
  by apply (hours_since_future (H := iso_extended) _ _
              (DateTime 1714566600000001 (Some 0))).
Defined.
