(* ===== verification/Filter.v ===== *)
(** * Filter: the metrics of a pool and [looks_like_memecoin]

    [summarize_pool] returns, beside the text, the dictionary
    [{"fdv": fdv, "liq": liq, "txs": txs, "age": age_h}] (line 69); its
    four keys are fixed, so it is the record [metrics].  Three of the
    fields are results of [usd] and [hours_since], hence [float]s; [txs]
    is the sum of two fields of the record as they came, so it can be
    any value.

    [looks_like_memecoin] (lines 71 to 77) is the conjunction of four
    comparisons with the thresholds.  Python's [and] stops at the first
    false operand, so the comparison of [txs], the only one that can
    raise, is evaluated only when the liquidity passes. *)

From S2P Require Import Prelude PyFloat FloatExact FloatValid PyStr FloatParse PyValue.
From S2P Require Import Config Normalizer.

#[local] Open Scope Z_scope.

Record metrics : Type := Metrics {
  fdv : float;
  liq : float;
  txs : pyval;
  age : float;
}.

(** Well-formed metrics: three binary64 values and a well-formed
    count. *)
Definition wf_metrics (m : metrics) : Prop :=
  valid (fdv m) = true /\ valid (liq m) = true /\ wf_pyval (txs m) /\ valid (age m) = true.

(** [a and b] on the results of two comparisons: [b] is looked at only
    when [a] is true. *)
Definition py_and (a b : result bool) : result bool :=
  a ≫= fun x : bool => if x then b else Ok false.

Infix "&&>" := py_and (at level 41, right associativity) : py_scope.

#[local] Open Scope py_scope.

Definition looks_like_memecoin (m : metrics) : result bool :=
  py_ge_int (PFloat (liq m)) MIN_LIQ_USD &&>
  py_ge_int (txs m) MIN_1H_TXNS &&>
  py_le_int (PFloat (fdv m)) MAX_FDV_USD &&>
  py_le_int (PFloat (age m)) MAX_POOL_AGE_HOURS.

(** ** The four conditions, as properties of the numbers *)

Definition liq_ok (m : metrics) : bool := xleb (Z_val MIN_LIQ_USD) (float_val (liq m)).

Definition txs_ok (m : metrics) : bool :=
  match num_val (txs m) with
  | Some x => xleb (Z_val MIN_1H_TXNS) x
  | None => false
  end.

Definition fdv_ok (m : metrics) : bool := xleb (float_val (fdv m)) (Z_val MAX_FDV_USD).

Definition age_ok (m : metrics) : bool :=
  xleb (float_val (age m)) (Z_val MAX_POOL_AGE_HOURS).

(** The specification of the filter: all four hold. *)
Definition eligible (m : metrics) : bool :=
  liq_ok m && txs_ok m && fdv_ok m && age_ok m.

Section py_and.
Implicit Types a b : result bool.

Lemma py_and_true a b : a &&> b = Ok true <-> a = Ok true /\ b = Ok true.
Proof. destruct a as [[]|]; simpl; naive_solver. Qed.

Lemma py_and_false a b :
  a &&> b = Ok false <-> a = Ok false \/ (a = Ok true /\ b = Ok false).
Proof. destruct a as [[]|]; simpl; naive_solver. Qed.

Lemma py_and_raise a b e :
  a &&> b = Raise e <-> a = Raise e \/ (a = Ok true /\ b = Raise e).
Proof. destruct a as [[]|]; simpl; naive_solver. Qed.

Lemma py_and_Ok_l x b : Ok x &&> b = if x then b else Ok false.
Proof. reflexivity. Qed.

End py_and.

#[export] Hint Rewrite py_and_Ok_l : py.

Section filter.
Implicit Types m : metrics.

Lemma py_ge_int_float f n : py_ge_int (PFloat f) n = Ok (xleb (Z_val n) (float_val f)).
Proof. reflexivity. Qed.

Lemma py_le_int_float f n : py_le_int (PFloat f) n = Ok (xleb (float_val f) (Z_val n)).
Proof. reflexivity. Qed.

(** The filter, unfolded to its decision structure. *)
Lemma looks_like_memecoin_unfold m :
  looks_like_memecoin m =
  if liq_ok m then
    b ← py_ge_int (txs m) MIN_1H_TXNS;
    Ok (b && fdv_ok m && age_ok m)
  else Ok false.
Proof.
  unfold looks_like_memecoin, liq_ok, fdv_ok, age_ok.
  rewrite !py_ge_int_float, !py_le_int_float; simpl.
  destruct (xleb _ (float_val (liq m))); [|done].
  destruct (py_ge_int _ _) as [[]|]; simpl; [|done..].
  by destruct (xleb (float_val (fdv m)) _).
Qed.

(** With a numeric transaction count the filter never raises and is
    the conjunction of the four conditions. *)
Lemma looks_like_memecoin_numeric m :
  is_Some (num_val (txs m)) -> looks_like_memecoin m = Ok (eligible m).
Proof.
  intros [x Hx]. rewrite looks_like_memecoin_unfold.
  unfold eligible, txs_ok, py_ge_int. rewrite Hx; simpl.
  by destruct (liq_ok m).
Qed.

End filter.

(** ** The contract of the filter *)

Section contract.
Implicit Types m : metrics.

Lemma looks_like_memecoin_not_numeric m :
  num_val (txs m) = None ->
  looks_like_memecoin m = if liq_ok m then not_supported ">=" (txs m) else Ok false.
Proof.
  intros Hn. rewrite looks_like_memecoin_unfold. unfold py_ge_int. by rewrite Hn.
Qed.

Lemma eligible_numeric m : eligible m = true -> is_Some (num_val (txs m)).
Proof.
  unfold eligible, txs_ok. destruct (num_val (txs m)); [eauto|].
  by rewrite andb_false_r.
Qed.

(** What an accepted pool satisfies; the lemma the scan uses. *)
Lemma accepted_eligible m : looks_like_memecoin m = Ok true -> eligible m = true.
Proof.
  destruct (num_val (txs m)) as [x|] eqn:Hx.
  - rewrite looks_like_memecoin_numeric; [|by eauto]. by intros [= ->].
  - rewrite looks_like_memecoin_not_numeric; [|done]. by destruct (liq_ok m).
Qed.

Lemma eligible_accepted m : eligible m = true -> looks_like_memecoin m = Ok true.
Proof.
  intros He. rewrite looks_like_memecoin_numeric; [by rewrite He|].
  by apply eligible_numeric.
Qed.

(** C3: [looks_like_memecoin] answers [True] exactly when all four
    thresholds hold: liquidity at least 3000, at least 20 transactions
    in the hour, valuation at most 20,000,000 and age at most 48
    hours. *)
Theorem looks_like_memecoin_true_iff m :
  looks_like_memecoin m = Ok true <-> eligible m = true.
Proof. split; [apply accepted_eligible | apply eligible_accepted]. Qed.

(** On integer fields the thresholds mean what they say: a pool
    whose liquidity and valuation are the JSON integers [L] and [F]
    (below [2^53] in magnitude, so that [float] converts them exactly)
    and whose transaction count is the integer [T] is eligible exactly
    when [L >= 3000], [T >= 20], [F <= 20000000] and its age is at most
    48 hours. *)
Theorem eligible_integers F L T a :
  Z.abs F < 2 ^ 53 -> Z.abs L < 2 ^ 53 ->
  eligible (Metrics (usd (PInt F)) (usd (PInt L)) (PInt T) a) =
  (3000 <=? L) && (20 <=? T) && (F <=? 20000000) && xleb (float_val a) (Z_val 48).
Proof.
  intros HF HL. unfold eligible, liq_ok, txs_ok, fdv_ok, age_ok; simpl.
  by rewrite (usd_int_exact F HF), (usd_int_exact L HL), !xleb_Z_val.
Qed.

(** C29: the filter raises exactly when the liquidity passes and the
    transaction count is not a number; the exception is the
    [TypeError] of the comparison with [MIN_1H_TXNS]. *)
Theorem looks_like_memecoin_raise_iff m e :
  looks_like_memecoin m = Raise e <->
  liq_ok m = true /\ num_val (txs m) = None /\
  e = Exn TypeError ("'>=' not supported between instances of '" +:+
                     type_name (txs m) +:+ "' and 'int'").
Proof.
  destruct (num_val (txs m)) as [x|] eqn:Hx.
  - rewrite looks_like_memecoin_numeric; [|by eauto].
    split; [done | by intros (_ & ? & _)].
  - rewrite looks_like_memecoin_not_numeric; [|done].
    destruct (liq_ok m); unfold not_supported, raise; naive_solver.
Qed.

(** The defaults of the normalisers fail closed: a pool whose age
    is unknown (infinite) and a pool whose liquidity is missing (zero)
    are never eligible, whatever the other fields are, and a pool with
    no liquidity is refused without looking at its other fields. *)
Theorem defaults_fail_closed fdv liq txs age :
  eligible (Metrics fdv liq txs f_inf) = false /\
  eligible (Metrics fdv f_zero txs age) = false /\
  looks_like_memecoin (Metrics fdv f_zero txs age) = Ok false.
Proof.
  split_and!.
  - unfold eligible, age_ok; simpl. by rewrite andb_false_r.
  - done.
  - by rewrite looks_like_memecoin_unfold.
Qed.

End contract.

Lemma eligible_integers_witness :
  eligible (Metrics (usd (PInt 1000000)) (usd (PInt 5000)) (PInt 40) (float_of_Z 2)) =
  (3000 <=? 5000) && (20 <=? 40) && (1000000 <=? 20000000) &&
  xleb (float_val (float_of_Z 2)) (Z_val 48).
Proof. apply eligible_integers; by vm_compute. Defined.
