(* ===== verification/Summarizer.v ===== *)
(** * Summarizer: [summarize_pool]

    [summarize_pool(p)] (src/memecoin_bot.py, lines 47 to 69) reads the
    attributes of one pool record, normalises them, and returns the
    text block shown to the user together with the metrics the filter
    and the ranking use.

    The record is any decoded JSON value.  The function raises when the
    record or its [attributes] is no dictionary ([.get] is missing),
    when the two transaction counts cannot be added, and when a number
    is too long to print; it returns in every other case. *)

From S2P Require Import Prelude PyFloat FloatValid PyStr FloatParse FloatFormat PyValue.
From S2P Require Import Config Normalizer Dates Age Filter.

#[local] Open Scope Z_scope.

(** The line feed of the f-string's [\n] *)
Definition nl : string := String (ascii_of_N 10) "".

(** The six lines of the text block, from the printed fields. *)
Definition summary_text (name base quote price liq fdv buys sells txs age url : string)
    : string :=
  "• " +:+ name +:+ " (" +:+ base +:+ ") / " +:+ quote +:+ nl +:+
  "  Price: $" +:+ price +:+ nl +:+
  "  Liquidity: $" +:+ liq +:+ " | FDV: $" +:+ fdv +:+ nl +:+
  "  1h: " +:+ buys +:+ " buys / " +:+ sells +:+ " sells (tx=" +:+ txs +:+ ")" +:+ nl +:+
  "  Age: " +:+ age +:+ "h" +:+ nl +:+
  "  Chart: " +:+ url.

Section summarize_pool.
Context `{DateLib}.

(** [now] is the instant at which the record is summarised. *)
Definition summarize_pool (now : Z) (p : pyval) : result (string * metrics) :=
  attrs ← py_get p "attributes" (PDict []);
  fdv ← usd <$> py_get attrs "fdv_usd" PNone;
  liq ← usd <$> py_get attrs "reserve_in_usd" PNone;
  price ← usd <$> py_get attrs "price_in_usd" PNone;
  buys ← (fun v => py_or v (PInt 0)) <$> py_get attrs "buys_1h" PNone;
  sells ← (fun v => py_or v (PInt 0)) <$> py_get attrs "sells_1h" PNone;
  txs ← py_add buys sells;
  age_h ← hours_since now <$> py_get attrs "pool_created_at" PNone;
  base ← py_get attrs "base_token_symbol" PNone;
  quote ← py_get attrs "quote_token_symbol" PNone;
  url ← py_get attrs "url" PNone;
  name ← (fun v => py_or v base) <$> py_get attrs "base_token_name" PNone;
  s_name ← py_str name;
  s_base ← py_str base;
  s_quote ← py_str quote;
  s_buys ← py_str buys;
  s_sells ← py_str sells;
  s_txs ← py_str txs;
  s_url ← py_str url;
  Ok (summary_text s_name s_base s_quote
        (format_f true 8 price) (format_f true 0 liq) (format_f true 0 fdv)
        s_buys s_sells s_txs (format_f false 1 age_h) s_url,
      Metrics fdv liq txs age_h).

(** ** The specification, field by field *)

(** [attrs.get(k)] on the dictionary [a] *)
Definition field (a : pydict) (k : string) : pyval := default PNone (dict_lookup k a).

(** [attrs.get(k) or 0] *)
Definition count (a : pydict) (k : string) : pyval := py_or (field a k) (PInt 0).

(** [p.get("attributes", {})] on the record [d] *)
Definition attributes (d : pydict) : pyval := default (PDict []) (dict_lookup "attributes" d).

Definition metrics_of (now : Z) (a : pydict) (txs : pyval) : metrics :=
  Metrics (usd (field a "fdv_usd")) (usd (field a "reserve_in_usd")) txs
          (hours_since now (field a "pool_created_at")).

(** The text of a record whose printed fields are given. *)
Definition text_of (now : Z) (a : pydict) (s_name s_base s_quote s_buys s_sells s_txs s_url : string)
    : string :=
  summary_text s_name s_base s_quote
    (format_f true 8 (usd (field a "price_in_usd")))
    (format_f true 0 (usd (field a "reserve_in_usd")))
    (format_f true 0 (usd (field a "fdv_usd")))
    s_buys s_sells s_txs
    (format_f false 1 (hours_since now (field a "pool_created_at"))) s_url.

(** The display name: the name, or the symbol when there is none. *)
Definition display_name (a : pydict) : pyval :=
  py_or (field a "base_token_name") (field a "base_token_symbol").

End summarize_pool.

(** ** Facts *)

Section facts.
Context `{DateLib}.
Implicit Types (p : pyval) (d a : pydict) (now : Z).

(** On a record with a dictionary of attributes the function is a
    sequence of seven conversions to text behind one addition. *)
Lemma summarize_pool_dict now d a :
  attributes d = PDict a ->
  summarize_pool now (PDict d) =
  txs ← py_add (count a "buys_1h") (count a "sells_1h");
  s_name ← py_str (display_name a);
  s_base ← py_str (field a "base_token_symbol");
  s_quote ← py_str (field a "quote_token_symbol");
  s_buys ← py_str (count a "buys_1h");
  s_sells ← py_str (count a "sells_1h");
  s_txs ← py_str txs;
  s_url ← py_str (field a "url");
  Ok (text_of now a s_name s_base s_quote s_buys s_sells s_txs s_url, metrics_of now a txs).
Proof.
  intros Ha. unfold summarize_pool.
  change (py_get (PDict d) "attributes" (PDict [])) with (Ok (attributes d)).
  by rewrite Ha.
Qed.

(** What a summary that returns has computed. *)
Lemma summarize_pool_Ok now d a t (m : metrics) :
  attributes d = PDict a -> summarize_pool now (PDict d) = Ok (t, m) ->
  m = metrics_of now a (txs m) /\
  py_add (count a "buys_1h") (count a "sells_1h") = Ok (txs m).
Proof.
  intros Ha. rewrite (summarize_pool_dict _ _ _ Ha). intros Hs.
  apply bind_Ok_inv in Hs as (x & Hx & Hs).
  repeat (apply bind_Ok_inv in Hs as (? & _ & Hs)). by injection Hs as _ <-.
Qed.

(** With two integer counts, the transaction count is their sum. *)
Lemma summarize_pool_int_txs now d a t (m : metrics) b s :
  attributes d = PDict a ->
  field a "buys_1h" = PInt b -> field a "sells_1h" = PInt s ->
  summarize_pool now (PDict d) = Ok (t, m) ->
  txs m = PInt (b + s).
Proof.
  intros Ha Hb Hs Hm. destruct (summarize_pool_Ok _ _ _ _ _ Ha Hm) as [_ Hx].
  unfold count in Hx. rewrite Hb, Hs, !py_or_int_zero in Hx. by injection Hx as <-.
Qed.

(** Only a dictionary with a dictionary of attributes is summarised. *)
Lemma summarize_pool_Ok_dict now p t (m : metrics) :
  summarize_pool now p = Ok (t, m) -> exists d a, p = PDict d /\ attributes d = PDict a.
Proof.
  intros Hs. unfold summarize_pool in Hs.
  apply bind_Ok_inv in Hs as (v & (d & -> & ->)%py_get_Ok_inv & Hs).
  apply bind_Ok_inv in Hs as (? & (? & (a & Ha & _)%py_get_Ok_inv & _)%fmap_Ok_inv & _).
  exists d, a. by rewrite <- Ha.
Qed.

Lemma attributes_wf d : wf_pyval (PDict d) -> wf_pyval (attributes d).
Proof.
  intros Hd. unfold attributes.
  destruct (dict_lookup _ d) eqn:E; [by eapply dict_lookup_wf|by split; [constructor|]].
Qed.

Lemma field_wf a k : wf_pyval (PDict a) -> wf_pyval (field a k).
Proof.
  intros Ha. unfold field. destruct (dict_lookup k a) eqn:E; [by eapply dict_lookup_wf|done].
Qed.

(** The metrics of a well-formed record are well formed. *)
Lemma summarize_pool_keeps_wf now p t (m : metrics) :
  wf_pyval p -> summarize_pool now p = Ok (t, m) -> wf_metrics m.
Proof.
  intros Hp Hs. destruct (summarize_pool_Ok_dict _ _ _ _ Hs) as (d & a & -> & Ha).
  assert (wf_pyval (PDict a)) as Hwa by (rewrite <- Ha; by apply attributes_wf).
  destruct (summarize_pool_Ok _ _ _ _ _ Ha Hs) as [Hm Hx]. rewrite Hm.
  split_and!; [apply usd_valid, field_wf, Hwa..| |apply hours_since_valid].
  eapply py_add_wf; [..|exact Hx]; by apply py_or_wf; [apply field_wf|].
Qed.

Lemma field_perm a a' k : NoDup a.*1 -> a ≡ₚ a' -> field a k = field a' k.
Proof. intros Hnd Hp. unfold field. by rewrite (dict_lookup_perm k a a'). Qed.

Lemma summarize_pool_not_dict now p :
  (forall d, p <> PDict d) -> summarize_pool now p = no_attribute p "get".
Proof. intros Hp. unfold summarize_pool. rewrite py_get_not_dict by done. reflexivity. Qed.

Lemma summarize_pool_attrs_not_dict now d :
  (forall a, attributes d <> PDict a) ->
  summarize_pool now (PDict d) = no_attribute (attributes d) "get".
Proof.
  intros Ha. unfold summarize_pool.
  change (py_get (PDict d) "attributes" (PDict [])) with (Ok (attributes d)).
  simpl. rewrite (py_get_not_dict _ "fdv_usd") by done. reflexivity.
Qed.

(** Every text opens with the bullet, *)
Lemma summarize_pool_bullet now p t m :
  summarize_pool now p = Ok (t, m) -> exists r, t = "• " +:+ r.
Proof.
  unfold summarize_pool. intros Hs.
  repeat (apply bind_Ok_inv in Hs as (? & _ & Hs)). injection Hs as <- _.
  unfold summary_text. eauto.
Qed.

End facts.

(** ** The contract of the summary *)

Section contract.
Context `{DateLib}.
Implicit Types (p : pyval) (d a : pydict) (now : Z) (m : metrics) (t : string).

(** C7: the metrics of a summary: [fdv] and [liq] are the normalised
    fields, [age] is the age of the creation date, and [txs] is the sum
    of the two counts, each replaced by [0] when it is missing or
    false. *)
Theorem summarize_pool_metrics now d a t m :
  attributes d = PDict a -> summarize_pool now (PDict d) = Ok (t, m) ->
  m = metrics_of now a (txs m) /\
  py_add (count a "buys_1h") (count a "sells_1h") = Ok (txs m).
Proof. apply summarize_pool_Ok. Qed.

(** A record that is no dictionary cannot be summarised: the
    call [p.get] raises [AttributeError]. *)
Theorem summarize_pool_no_get now p :
  (forall d, p <> PDict d) ->
  summarize_pool now p =
  Raise (Exn AttributeError ("'" +:+ type_name p +:+ "' object has no attribute 'get'")).
Proof. apply summarize_pool_not_dict. Qed.

(** C35: a record whose [attributes] is [null] cannot be summarised
    either: the default [{}] stands in for a missing field only. *)
Theorem summarize_pool_attributes_null now d :
  dict_lookup "attributes" d = Some PNone ->
  summarize_pool now (PDict d) =
  Raise (Exn AttributeError "'NoneType' object has no attribute 'get'").
Proof.
  intros Hd. rewrite summarize_pool_attrs_not_dict; unfold attributes; by rewrite Hd.
Qed.

(** The summary of a decoded record does not depend on the order
    in which the service lists the attributes. *)
Theorem summarize_pool_field_order now a a' :
  wf_pyval (PDict a) -> a ≡ₚ a' ->
  summarize_pool now (PDict [("attributes", PDict a)]) =
  summarize_pool now (PDict [("attributes", PDict a')]).
Proof.
  intros [Hnd _] Hp.
  rewrite (summarize_pool_dict now _ a), (summarize_pool_dict now _ a') by done.
  unfold count, display_name, text_of, metrics_of.
  by rewrite !(field_perm a a' _ Hnd Hp).
Qed.

(** A record without any field is summarised all the same: the
    metrics are the defaults (0.0, 0.0, 0 and infinity) and the text
    shows [None] for the missing names. *)
Theorem summarize_pool_empty now :
  summarize_pool now (PDict []) =
  Ok (summary_text "None" "None" "None" "0.00000000" "0" "0" "0" "0" "0" "inf" "None",
      Metrics f_zero f_zero (PInt 0) f_inf).
Proof.
  rewrite (summarize_pool_dict _ _ []) by done; simpl.
  unfold text_of, metrics_of, field; simpl. by rewrite hours_since_not_str.
Qed.

(** With two integer counts, the transaction count is their
    sum. *)
Theorem summarize_pool_int_counts now d a t m b s :
  attributes d = PDict a ->
  field a "buys_1h" = PInt b -> field a "sells_1h" = PInt s ->
  summarize_pool now (PDict d) = Ok (t, m) ->
  txs m = PInt (b + s).
Proof. apply summarize_pool_int_txs. Qed.

(** C19: the metrics of a summary are well formed: the valuation, the
    liquidity and the age are binary64 values, whatever the fields of
    the record hold, and the count of transactions is a well-formed
    value, though not always a number. *)
Theorem summarize_pool_wf now p t m :
  wf_pyval p -> summarize_pool now p = Ok (t, m) -> wf_metrics m.
Proof. apply summarize_pool_keeps_wf. Qed.

(** C36: the count of transactions need not be a number: when the
    two counts are spelled as strings, the count is their
    concatenation, a string. *)
Theorem summarize_pool_txs_str now d a t m b s :
  attributes d = PDict a ->
  field a "buys_1h" = PStr b -> field a "sells_1h" = PStr s -> b <> "" -> s <> "" ->
  summarize_pool now (PDict d) = Ok (t, m) ->
  txs m = PStr (b +:+ s) /\ num_val (txs m) = None.
Proof.
  intros Ha Hb Hs Hbe Hse Hm. destruct (summarize_pool_Ok _ _ _ _ _ Ha Hm) as [_ Hx].
  unfold count in Hx. rewrite Hb, Hs in Hx.
  rewrite !py_or_truthy in Hx by (simpl; by rewrite bool_decide_eq_false_2).
  injection Hx as <-. done.
Qed.

End contract.

Lemma summarize_pool_metrics_witness :
  Metrics f_zero f_zero (PStr "34") f_inf =
    metrics_of (H := iso_extended) 0 [("buys_1h", PStr "3"); ("sells_1h", PStr "4")] (PStr "34") /\
  py_add (count [("buys_1h", PStr "3"); ("sells_1h", PStr "4")] "buys_1h")
         (count [("buys_1h", PStr "3"); ("sells_1h", PStr "4")] "sells_1h") = Ok (PStr "34").
Proof.
  by apply (summarize_pool_metrics (H := iso_extended) 0
              [("attributes", PDict [("buys_1h", PStr "3"); ("sells_1h", PStr "4")])]
              [("buys_1h", PStr "3"); ("sells_1h", PStr "4")]
              (summary_text "None" "None" "None" "0.00000000" "0" "0" "3" "4" "34" "inf" "None")).
Defined.

Lemma summarize_pool_no_get_witness :
  summarize_pool (H := iso_extended) 0 (PList []) =
  Raise (Exn AttributeError "'list' object has no attribute 'get'").
Proof. by apply (summarize_pool_no_get (H := iso_extended) 0 (PList [])). Defined.

Lemma summarize_pool_attributes_null_witness :
  summarize_pool (H := iso_extended) 0 (PDict [("attributes", PNone)]) =
  Raise (Exn AttributeError "'NoneType' object has no attribute 'get'").
Proof.
  by apply (summarize_pool_attributes_null (H := iso_extended) 0 [("attributes", PNone)]).
Defined.

Lemma summarize_pool_int_counts_witness : PInt 40 = PInt (30 + 10).
Proof.
  apply (summarize_pool_int_counts (H := iso_extended) 5
           [("attributes", PDict [("buys_1h", PInt 30); ("sells_1h", PInt 10)])]
           [("buys_1h", PInt 30); ("sells_1h", PInt 10)]
           (summary_text "None" "None" "None" "0.00000000" "0" "0" "30" "10" "40" "inf" "None")
           (Metrics f_zero f_zero (PInt 40) f_inf)); by vm_compute.
Defined.

Lemma summarize_pool_field_order_witness :
  summarize_pool (H := iso_extended) 0
    (PDict [("attributes", PDict [("buys_1h", PInt 3); ("sells_1h", PInt 4)])]) =
  summarize_pool (H := iso_extended) 0
    (PDict [("attributes", PDict [("sells_1h", PInt 4); ("buys_1h", PInt 3)])]).
Proof.
  apply (summarize_pool_field_order (H := iso_extended)); [|apply perm_swap].
  split; [|done]. simpl. apply NoDup_cons; split; [set_solver|]. apply NoDup_singleton.
Defined.

Lemma summarize_pool_wf_witness :
  wf_metrics (Metrics f_zero f_zero (PStr "34") f_inf).
Proof.
  apply (summarize_pool_wf (H := iso_extended) 0
           (PDict [("attributes", PDict [("buys_1h", PStr "3"); ("sells_1h", PStr "4")])])
           (summary_text "None" "None" "None" "0.00000000" "0" "0" "3" "4" "34" "inf" "None"));
    [|by vm_compute].
  split; [repeat constructor; set_solver|]. split; [|done]. split; [|done].
  repeat constructor; set_solver.
Defined.

Lemma summarize_pool_txs_str_witness :
  txs (Metrics f_zero f_zero (PStr "34") f_inf) = PStr ("3" +:+ "4") /\
  num_val (txs (Metrics f_zero f_zero (PStr "34") f_inf)) = None.
Proof.
  by apply (summarize_pool_txs_str (H := iso_extended) 0
              [("attributes", PDict [("buys_1h", PStr "3"); ("sells_1h", PStr "4")])]
              [("buys_1h", PStr "3"); ("sells_1h", PStr "4")]
              (summary_text "None" "None" "None" "0.00000000" "0" "0" "3" "4" "34" "inf" "None")).
Defined.
