(* ===== verification/Thresholds.v ===== *)
(** * Thresholds: what the filter decides on the data of a listing

    The filter compares floats: the liquidity and the valuation are
    [float]s of the amounts a listing spells as decimal numerals, and
    the age is the elapsed time divided twice.  Every one of these
    floats is a rounded number, so a comparison of the float with a
    threshold is not by itself a comparison of the amount.

    This file shows that it is, on the data of a listing: for a
    liquidity with at most 12 digits after the point, a valuation with
    at most 8 and a creation date that parses, the filter accepts a
    pool exactly when the liquidity is at least 3000, the transactions
    are at least 20, the valuation is at most 20,000,000 and at most
    48 hours, to the microsecond, have passed since the creation.  The
    thresholds are floats, and rounding does not carry a number across
    a float (FloatRound.v); an amount of that many digits that is not
    the threshold is farther from it than the float next to it.

    The last section is on amounts spelled with a minus sign: [usd]
    keeps the sign, so the metrics can be below zero, and a valuation
    below zero passes its test. *)

From Stdlib Require Import QArith Qpower Lqa.
From S2P Require Import Prelude PyFloat FloatSign FloatExact FloatRound PyStr FloatParse.
From S2P Require Import PyValue Config Normalizer Dates Age Filter Summarizer.

#[local] Open Scope Z_scope.

(** ** Amounts *)

(** An amount as a listing spells it: the digits [ip] and, when there
    is a fraction, a point and the digits [fp]. *)
Definition amount (ip fp : chars) : pyval :=
  PStr (string_of_list_ascii (ip ++ if fp is [] then [] else "."%char :: fp)).

(** The same amount with a minus sign in front. *)
Definition negative_amount (ip fp : chars) : pyval :=
  PStr (string_of_list_ascii
          ("-"%char :: ip ++ if fp is [] then [] else "."%char :: fp)).

(** The amount, in units of [10^-(length fp)]. *)
Definition units (ip fp : chars) : Z := Z.of_N (digits_val (ip ++ fp)).

(** The number of digits after the point. *)
Definition scale (fp : chars) : Z := Z.of_nat (length fp).

(** A numeral with at most [n] digits after the point. *)
Record numeral (n : Z) (ip fp : chars) : Prop := Numeral {
  numeral_ip : Forall (fun c => is_digit c = true) ip;
  numeral_fp : Forall (fun c => is_digit c = true) fp;
  numeral_nonempty : ip <> [];
  numeral_scale : scale fp <= n;
}.

(** The record of a pool with 5000 dollars of liquidity, 30 buys and
    10 sells, a valuation of a million and two hours of age. *)
Definition demo_attributes : pydict :=
  [("reserve_in_usd", PStr "5000"); ("buys_1h", PInt 30); ("sells_1h", PInt 10);
   ("fdv_usd", PStr "1000000"); ("pool_created_at", PStr "2024-05-01T10:30:00Z")].

Section thresholds.
Implicit Types (d : N) (n T : Z) (ip fp : chars).

Lemma usd_amount n ip fp :
  numeral n ip fp ->
  usd (amount ip fp) = float_of_decimal false (digits_val (ip ++ fp)) (- scale fp).
Proof.
  intros [Hip Hfp Hne _]. apply usd_str_valid. unfold amount, scale.
  destruct fp as [|c fp]; [rewrite app_nil_r; by apply float_of_string_digits|].
  apply float_of_string_plain; [done..|]. by destruct ip.
Qed.

(** The gap between a threshold and the float next to it is at most
    [10^-n]. *)
Lemma gap_scale (g : Q) n k :
  0 <= n <= k -> (0 <= g)%Q -> (g * inject_Z (10 ^ k) <= 1)%Q -> (g * inject_Z (10 ^ n) <= 1)%Q.
Proof.
  intros Hn Hg Hk. assert (inject_Z (10 ^ n) <= inject_Z (10 ^ k))%Q as Hle.
  { rewrite <- Zle_Qle. apply Z.pow_le_mono_r; lia. }
  nra.
Qed.

(** The liquidity: the float below [3000.0] is [2^-41] away. *)
Lemma liq_threshold d n :
  0 <= n <= 12 ->
  xleb (Z_val MIN_LIQ_USD) (float_val (float_of_decimal false d (- n))) =
  (MIN_LIQ_USD * 10 ^ n <=? Z.of_N d).
Proof.
  intros Hn.
  apply (float_of_decimal_ge_threshold d n MIN_LIQ_USD (dy (3000 * 2 ^ 41 - 1) (-41)));
    [lia|apply representable_Z; unfold MIN_LIQ_USD, prec; lia
    |apply representable_dy; unfold prec, emin, emax; lia|by vm_compute|].
  by apply (gap_scale _ n 12); [lia|vm_compute..].
Qed.

(** The valuation: the float above [20000000.0] is [2^-28] away. *)
Lemma fdv_threshold d n :
  0 <= n <= 8 ->
  xleb (float_val (float_of_decimal false d (- n))) (Z_val MAX_FDV_USD) =
  (Z.of_N d <=? MAX_FDV_USD * 10 ^ n).
Proof.
  intros Hn.
  apply (float_of_decimal_le_threshold d n MAX_FDV_USD (dy (20000000 * 2 ^ 28 + 1) (-28)));
    [lia|apply representable_Z; unfold MAX_FDV_USD, prec; lia
    |apply representable_dy; unfold prec, emin, emax; lia|by vm_compute|].
  by apply (gap_scale _ n 8); [lia|vm_compute..].
Qed.

End thresholds.

(** ** The filter on the data of a listing *)

Section exact.
Context `{DateLib}.
Implicit Types (a : pydict) (now T : Z) (v : pyval) (dt : datetime).

(** The filter on a record whose amounts are numerals, whose count of
    transactions is the integer [T] and whose creation date parses. *)
Lemma eligible_amounts now a T fi ff li lf dt :
  field a "fdv_usd" = amount fi ff -> numeral 8 fi ff ->
  field a "reserve_in_usd" = amount li lf -> numeral 12 li lf ->
  isoparse (field a "pool_created_at") = Ok dt -> - 2 ^ 62 <= now - instant dt ->
  eligible (metrics_of now a (PInt T)) =
  (MIN_LIQ_USD * 10 ^ scale lf <=? units li lf) && (MIN_1H_TXNS <=? T) &&
  (units fi ff <=? MAX_FDV_USD * 10 ^ scale ff) && (now - instant dt <=? FRESH_MICROS).
Proof.
  intros Hf Hnf Hl Hnl Hdt Hb. unfold eligible, liq_ok, txs_ok, fdv_ok, age_ok, metrics_of.
  simpl. rewrite Hf, Hl, (usd_amount 8 fi ff Hnf), (usd_amount 12 li lf Hnl).
  rewrite liq_threshold, fdv_threshold, xleb_Z_val
    by (unfold scale; destruct Hnf, Hnl; unfold scale in *; lia).
  change MAX_POOL_AGE_HOURS with 48.
  by rewrite (hours_since_hours_of _ _ _ Hdt), (hours_of_fresh _ Hb).
Qed.

(** C4: the filter decides what its thresholds say, on the data of a
    listing.  For a pool whose liquidity and valuation are decimal
    numerals (at most 12 and 8 digits after the point), whose counts of
    buys and sells are the integers [B] and [S] and whose creation date
    parses, the filter does not raise, and it accepts the pool exactly
    when the liquidity is at least 3000, [B + S] is at least 20, the
    valuation is at most 20,000,000 and the pool was created at most
    48 hours ago, to the microsecond.  No rounding of the floats in
    between changes the answer. *)
Theorem filter_exact now d a t m B S fi ff li lf dt :
  attributes d = PDict a ->
  field a "fdv_usd" = amount fi ff -> numeral 8 fi ff ->
  field a "reserve_in_usd" = amount li lf -> numeral 12 li lf ->
  field a "buys_1h" = PInt B -> field a "sells_1h" = PInt S ->
  isoparse (field a "pool_created_at") = Ok dt -> - 2 ^ 62 <= now - instant dt ->
  summarize_pool now (PDict d) = Ok (t, m) ->
  looks_like_memecoin m =
  Ok ((MIN_LIQ_USD * 10 ^ scale lf <=? units li lf) && (MIN_1H_TXNS <=? B + S) &&
      (units fi ff <=? MAX_FDV_USD * 10 ^ scale ff) && (now - instant dt <=? FRESH_MICROS)).
Proof.
  intros Ha Hf Hnf Hl Hnl HB HS Hdt Hb Hs.
  pose proof (summarize_pool_int_txs _ _ _ _ _ _ _ Ha HB HS Hs) as Ht.
  destruct (summarize_pool_Ok _ _ _ _ _ Ha Hs) as [-> _]. rewrite Ht.
  rewrite looks_like_memecoin_numeric by (simpl; eauto).
  by rewrite (eligible_amounts now a _ fi ff li lf dt).
Qed.

End exact.

(** ** Amounts below zero *)

Section negative.
Implicit Types (d : N) (n k : Z) (ip fp : chars) (f : float).

Lemma binary_round_opp m e :
  binary_round prec emax true m e = SFopp (binary_round prec emax false m e).
Proof.
  unfold binary_round. destruct (shl_align _ _ _) as [mz ez].
  apply (binary_round_aux_opp false).
Qed.

(** The float of a numeral with a minus sign is the opposite of the
    float of the numeral. *)
Lemma float_of_decimal_opp d k :
  float_of_decimal true d k = SFopp (float_of_decimal false d k).
Proof.
  destruct d as [|p]; [done|]. unfold float_of_decimal.
  destruct (0 <=? k); [apply binary_round_opp|].
  rewrite !float_of_ratio_round. apply (binary_round_aux_opp false).
Qed.

Lemma float_val_opp_negative f :
  xltb (Z_val 0) (float_val f) = true -> xltb (float_val (SFopp f)) (Z_val 0) = true.
Proof.
  destruct f as [[]|[]| |[] m e]; try done.
  - intros Hf%xltb_Fin. pose proof (Q_of_dyadic_nonpos m e).
    change (inject_Z 0) with 0%Q in Hf. lra.
  - intros _. apply xltb_Fin, Q_of_dyadic_negative.
Qed.

(** [2^-1000] is a float below every amount of at most 300 digits
    after the point that is not zero. *)
Lemma tiny_below d n :
  (0 < d)%N -> 0 <= n <= 300 -> (dy 1 (-1000) <= decimal d (- n))%Q.
Proof.
  intros Hd Hn. rewrite decimal_neg by lia.
  assert (0 < 10 ^ n <= 2 ^ 1000) as [Hp Hle].
  { split; [apply Z.pow_pos_nonneg; lia|].
    apply Z.le_trans with (10 ^ 300); [apply Z.pow_le_mono_r; lia|].
    apply Z.leb_le. by vm_compute. }
  assert (dy 1 (-1000) * inject_Z (2 ^ 1000) == 1)%Q as Hc.
  { unfold dy. rewrite pow2_inject, <- Qmult_assoc, <- pow2_add by lia. reflexivity. }
  pose proof (dy_one_pos (-1000)) as Hc0.
  rewrite Zlt_Qlt in Hp. rewrite Zle_Qle in Hle. change (inject_Z 0) with 0%Q in Hp.
  assert (1 <= inject_Z (Z.of_N d))%Q as H1 by (rewrite <- (Zle_Qle 1); lia).
  apply Qle_shift_div_l; [done|]. nra.
Qed.

Lemma float_of_decimal_positive d n :
  (0 < d)%N -> 0 <= n <= 300 ->
  xltb (Z_val 0) (float_val (float_of_decimal false d (- n))) = true.
Proof.
  intros Hd Hn. pose proof (dy_one_pos (-1000)) as Hc0.
  pose proof (float_of_decimal_ge d (- n) (dy 1 (-1000))
                (representable_dy 1 (-1000) ltac:(unfold prec; lia)
                   ltac:(unfold prec, emin, emax; lia))
                (tiny_below d n Hd Hn)) as Hle.
  destruct (float_val _) as [| |q|]; try done.
  apply xltb_Fin. apply xleb_Fin in Hle. change (inject_Z 0) with 0%Q. lra.
Qed.

(** C39: [usd] keeps the sign of an amount.  For every numeral that
    is not zero, with at most 300 digits after the point and a minus
    sign in front, [usd] returns a float below zero (a finite one or
    [-inf]), not [0.0]: the metrics are not bounded below by zero, and
    a valuation below zero passes the test [fdv <= MAX_FDV_USD]. *)
Theorem usd_negative ip fp :
  numeral 300 ip fp -> 0 < units ip fp ->
  xltb (float_val (usd (negative_amount ip fp))) (Z_val 0) = true /\
  xleb (float_val (usd (negative_amount ip fp))) (Z_val MAX_FDV_USD) = true.
Proof.
  intros [Hip Hfp Hne Hs] Hu. unfold negative_amount.
  rewrite (usd_str_valid _ _ (float_of_string_negative ip fp Hip Hfp Hne)), float_of_decimal_opp.
  assert (xltb (float_val (SFopp (float_of_decimal false (digits_val (ip ++ fp))
                                   (- Z.of_nat (length fp))))) (Z_val 0) = true) as Hn.
  { apply float_val_opp_negative, float_of_decimal_positive; unfold units, scale in *; lia. }
  split; [done|]. apply xleb_trans with (Z_val 0); [by apply xltb_leb | done].
Qed.

End negative.

Lemma filter_exact_witness :
  looks_like_memecoin
    (metrics_of (H := iso_extended) 1714566600000000 demo_attributes (PInt 40)) =
  Ok ((3000 * 10 ^ 0 <=? 5000) && (20 <=? 30 + 10) && (1000000 <=? 20000000 * 10 ^ 0) &&
      (1714566600000000 - 1714559400000000 <=? FRESH_MICROS)).
Proof.
  apply (filter_exact (H := iso_extended) 1714566600000000
           [("attributes", PDict demo_attributes)] demo_attributes
           (text_of (H := iso_extended) 1714566600000000 demo_attributes
              "None" "None" "None" "30" "10" "40" "None")
           _ 30 10 (list_ascii_of_string "1000000") [] (list_ascii_of_string "5000") []
           (DateTime 1714559400000000 (Some 0)));
    try (split; [repeat constructor..|done|by vm_compute]); by vm_compute.
Defined.

Lemma usd_negative_witness :
  xltb (float_val (usd (PStr "-5.25"))) (Z_val 0) = true /\
  xleb (float_val (usd (PStr "-5.25"))) (Z_val MAX_FDV_USD) = true.
Proof.
  apply (usd_negative (list_ascii_of_string "5") (list_ascii_of_string "25"));
    [split; [repeat constructor..|done|by vm_compute] | by vm_compute].
Defined.
