(* ===== verification/Sorting.v ===== *)
(** * Sorting: [list.sort(key=..., reverse=...)]

    Python's [list.sort] computes the key of every element, orders the
    elements by [<] on the keys with a stable algorithm, and, with
    [reverse=True], reverses the list before and after so that elements
    with equal keys keep their original order.

    [py_sort] is that function with insertion as the stable algorithm.
    Which stable algorithm runs makes no difference to the result as
    long as [<] is a strict weak order on the keys at hand: this file
    proves that a stable, sorted rearrangement of a list is unique
    ([stable_sorted_unique]), and that [py_sort] is one.  The order is
    an interface, the class [StrictWeak]: the ranking order of the scan
    is an instance on the keys that are numbers. *)

From stdpp Require Import sorting.
From S2P Require Import Prelude.

(** ** The interface: a strict weak order on the keys that are [ok] *)

Class StrictWeak {K : Type} (lt : K -> K -> bool) (ok : K -> Prop) : Prop := {
  sw_irrefl k : ok k -> lt k k = false;
  sw_trans k1 k2 k3 :
    ok k1 -> ok k2 -> ok k3 -> lt k1 k2 = true -> lt k2 k3 = true -> lt k1 k3 = true;
  sw_neg_trans k1 k2 k3 :
    ok k1 -> ok k2 -> ok k3 -> lt k1 k2 = false -> lt k2 k3 = false -> lt k1 k3 = false;
}.

Section py_sort.
Context {A K : Type} (lt : K -> K -> bool) (key : A -> K).

(** ** The sort *)

(** Insert [x], which stood before every element of [l], into the
    ascending list [l]: behind the elements that are smaller, before
    the first that is not. *)
Fixpoint insert (x : A) (l : list A) : list A :=
  match l with
  | [] => [x]
  | y :: l' => if lt (key y) (key x) then y :: insert x l' else x :: y :: l'
  end.

Fixpoint sort_asc (l : list A) : list A :=
  match l with
  | [] => []
  | x :: l' => insert x (sort_asc l')
  end.

Definition py_sort (rev : bool) (l : list A) : list A :=
  if rev then reverse (sort_asc (reverse l)) else sort_asc l.

(** The descending stable sort written directly: the reference
    [py_sort true] is compared with. *)
Fixpoint insert_desc (x : A) (l : list A) : list A :=
  match l with
  | [] => [x]
  | y :: l' => if lt (key x) (key y) then y :: insert_desc x l' else x :: y :: l'
  end.

Fixpoint sort_desc (l : list A) : list A :=
  match l with
  | [] => []
  | x :: l' => insert_desc x (sort_desc l')
  end.

(** ** What a sort promises *)

(** [x] may stand before [y] in an ascending (descending) list. *)
Definition asc (x y : A) : Prop := lt (key y) (key x) = false.
Definition desc (x y : A) : Prop := lt (key x) (key y) = false.

(** Keys that [<] does not tell apart. *)
Definition same_key (k : K) (x : A) : Prop :=
  lt k (key x) = false /\ lt (key x) k = false.

#[export] Instance same_key_dec k x : Decision (same_key k x).
Proof. unfold same_key. apply _. Defined.

(** ** Rearrangement: no hypothesis on the order *)

Lemma insert_perm x l : insert x l ≡ₚ x :: l.
Proof.
  induction l as [|y l IH]; simpl; [done|].
  destruct (lt (key y) (key x)); [|done]. by rewrite IH, Permutation_swap.
Qed.

Lemma sort_asc_perm l : sort_asc l ≡ₚ l.
Proof. induction l as [|x l IH]; simpl; [done|]. by rewrite insert_perm, IH. Qed.

Lemma py_sort_perm rev l : py_sort rev l ≡ₚ l.
Proof.
  destruct rev; simpl; [|apply sort_asc_perm].
  by rewrite reverse_Permutation, sort_asc_perm, reverse_Permutation.
Qed.

Lemma py_sort_length rev l : length (py_sort rev l) = length l.
Proof. apply Permutation_length, py_sort_perm. Qed.

Lemma py_sort_elem_of rev l x : x ∈ py_sort rev l <-> x ∈ l.
Proof. by rewrite py_sort_perm. Qed.

Lemma py_sort_nil rev : py_sort rev [] = [].
Proof. by destruct rev. Qed.

(** ** Order and stability of the ascending sort, on keys that are [ok] *)

Section ordered.
Context (ok : K -> Prop) `{!StrictWeak lt ok}.

Definition oks (l : list A) : Prop := Forall (fun x => ok (key x)) l.

(** [l1] and [l2] list the elements of every class of keys in the same
    order. *)
Definition stable (l1 l2 : list A) : Prop :=
  forall k, ok k -> filter (same_key k) l1 = filter (same_key k) l2.

Lemma sw_asym k1 k2 : ok k1 -> ok k2 -> lt k1 k2 = true -> lt k2 k1 = false.
Proof.
  intros H1 H2 H12. destruct (lt k2 k1) eqn:H21; [|done].
  by rewrite <- (sw_irrefl k1 H1), <- (sw_trans k1 k2 k1 H1 H2 H1 H12 H21).
Qed.

Lemma same_key_refl x : ok (key x) -> same_key (key x) x.
Proof. intros ?. split; by apply sw_irrefl. Qed.

Lemma same_key_trans k x y :
  ok k -> ok (key x) -> ok (key y) ->
  same_key k x -> same_key (key x) y -> same_key k y.
Proof.
  intros ??? [??] [??].
  split; [apply (sw_neg_trans k (key x) (key y)) | apply (sw_neg_trans (key y) (key x) k)];
    done.
Qed.

Lemma oks_perm l1 l2 : l1 ≡ₚ l2 -> oks l1 -> oks l2.
Proof. unfold oks. by intros ->. Qed.

Lemma insert_sorted x l :
  ok (key x) -> oks l -> StronglySorted asc l -> StronglySorted asc (insert x l).
Proof.
  intros Hx Hl Hs. induction Hs as [|y l Hs IH Hy]; simpl.
  - repeat constructor.
  - apply Forall_cons in Hl as [Hoy Hl].
    destruct (lt (key y) (key x)) eqn:Hyx.
    + constructor; [by apply IH|]. rewrite insert_perm. constructor; [|done].
      by apply sw_asym.
    + constructor; [by constructor|]. constructor; [done|].
      rewrite Forall_forall in Hy. apply Forall_forall. intros z Hz.
      eapply (sw_neg_trans _ (key y)); eauto; [|by apply Hy].
      by eapply Forall_forall in Hl.
Qed.

Lemma sort_asc_sorted l : oks l -> StronglySorted asc (sort_asc l).
Proof.
  induction 1 as [|x l Hx Hl IH]; simpl; [constructor|].
  apply insert_sorted; [done | by eapply oks_perm; [symmetry; apply sort_asc_perm|] | done].
Qed.

Lemma insert_stable k x l :
  ok k -> ok (key x) -> oks l ->
  filter (same_key k) (insert x l) = filter (same_key k) (x :: l).
Proof.
  intros Hk Hx Hl. induction Hl as [|y l Hy Hl IH]; simpl; [done|].
  destruct (lt (key y) (key x)) eqn:Hyx; [|done].
  rewrite (filter_cons _ y), IH, !(filter_cons _ x), (filter_cons _ y).
  destruct (decide (same_key k x)) as [Hkx|]; [|done].
  destruct (decide (same_key k y)) as [Hky|]; [|done].
  assert (lt (key y) (key x) = false); [|congruence].
  destruct Hkx, Hky. by apply (sw_neg_trans (key y) k (key x)).
Qed.

Lemma sort_asc_stable l : oks l -> stable (sort_asc l) l.
Proof.
  intros Hl k Hk. induction Hl as [|x l Hx Hl IH]; simpl; [done|].
  rewrite insert_stable, !(filter_cons _ x), IH; [done..|].
  eapply oks_perm; [symmetry; apply sort_asc_perm | done].
Qed.

(** A stable, sorted rearrangement is unique.  [R] is [asc] or
    [desc]. *)
Lemma stable_sorted_unique (R : relation A) l1 l2 :
  (forall x, ok (key x) -> R x x) ->
  (forall x y, R x y -> R y x -> same_key (key x) y) ->
  oks l1 -> l1 ≡ₚ l2 -> StronglySorted R l1 -> StronglySorted R l2 ->
  stable l1 l2 -> l1 = l2.
Proof.
  intros Hrefl Hsame Hok. revert l2.
  induction Hok as [|x1 l1 Hx1 Hok IH]; intros l2 Hp H1 H2 Hst.
  { by apply Permutation_nil_l in Hp. }
  destruct l2 as [|x2 l2]; [by apply Permutation_nil_r in Hp|].
  inversion H1 as [|?? H1' Hall1]; inversion H2 as [|?? H2' Hall2]; subst.
  rewrite Forall_forall in Hall1, Hall2.
  assert (R x1 x2) as H12.
  { assert (x2 ∈ x1 :: l1) as [->|?]%elem_of_cons by (rewrite Hp; left); auto. }
  assert (R x2 x1) as H21.
  { assert (x1 ∈ x2 :: l2) as [->|?]%elem_of_cons by (rewrite <- Hp; left); auto. }
  pose proof (Hst (key x1) Hx1) as Hf.
  rewrite !filter_cons, !decide_True in Hf by auto using same_key_refl.
  injection Hf as <- _. f_equal.
  apply IH; [by eapply Permutation_cons_inv | done..|].
  intros k Hk. specialize (Hst k Hk). rewrite !filter_cons in Hst.
  by destruct (decide (same_key k x1)); simplify_eq.
Qed.

End ordered.

End py_sort.

Arguments oks {A K} key ok l.
Arguments stable {A K} lt key ok l1 l2.

(** ** The descending direction

    [sort_desc] is [sort_asc] for the converse order, so what holds of
    one holds of the other. *)

Section directions.
Context {A K : Type} (lt : K -> K -> bool) (key : A -> K).
Context (ok : K -> Prop) `{!StrictWeak lt ok}.

#[export] Instance StrictWeak_flip : StrictWeak (flip lt) ok.
Proof.
  split; unfold flip.
  - apply sw_irrefl.
  - intros k1 k2 k3 ??? H12 H23. by apply (sw_trans k3 k2 k1).
  - intros k1 k2 k3 ??? H12 H23. by apply (sw_neg_trans k3 k2 k1).
Qed.

Lemma insert_desc_flip x l : insert_desc lt key x l = insert (flip lt) key x l.
Proof. induction l as [|y l IH]; simpl; [done|]. by rewrite IH. Qed.

Lemma sort_desc_flip l : sort_desc lt key l = sort_asc (flip lt) key l.
Proof.
  induction l as [|x l IH]; simpl; [done|]. by rewrite IH, insert_desc_flip.
Qed.

Lemma same_key_flip k x : same_key (flip lt) key k x <-> same_key lt key k x.
Proof. unfold same_key, flip. tauto. Qed.

Lemma filter_same_key_flip k (l : list A) :
  filter (same_key (flip lt) key k) l = filter (same_key lt key k) l.
Proof. apply list_filter_iff. intros x. apply same_key_flip. Qed.

Lemma stable_flip l1 l2 : stable (flip lt) key ok l1 l2 <-> stable lt key ok l1 l2.
Proof. unfold stable. by setoid_rewrite filter_same_key_flip. Qed.

Lemma StronglySorted_reverse (R : relation A) l :
  StronglySorted R (reverse l) <-> StronglySorted (flip R) l.
Proof.
  induction l as [|x l IH]; [by rewrite reverse_nil; split; constructor|].
  rewrite reverse_cons, StronglySorted_app, IH. split.
  - intros (Hlx & Hl & _). constructor; [done|].
    apply Forall_forall. intros y Hy. apply Hlx; [by rewrite elem_of_reverse | by left].
  - inversion 1 as [|?? Hl Hx]; subst. split_and!; [|done|repeat constructor].
    intros y ? Hy ->%list_elem_of_singleton. rewrite elem_of_reverse in Hy.
    rewrite Forall_forall in Hx. by apply Hx.
Qed.

(** The output of [py_sort] is in order, *)
Lemma py_sort_sorted (rev : bool) l :
  oks key ok l ->
  StronglySorted (if rev then desc lt key else asc lt key) (py_sort lt key rev l).
Proof.
  intros Hl. destruct rev; simpl; [|by eapply sort_asc_sorted].
  apply StronglySorted_reverse.
  change (StronglySorted (asc lt key) (sort_asc lt key (reverse l))).
  eapply sort_asc_sorted; [done|]. by eapply oks_perm; [symmetry; apply reverse_Permutation|].
Qed.

(** lists equal keys in the order of the input, in either direction, *)
Lemma py_sort_stable (rev : bool) l :
  oks key ok l -> stable lt key ok (py_sort lt key rev l) l.
Proof.
  intros Hl. destruct rev; simpl; [|by eapply sort_asc_stable].
  intros k Hk. rewrite filter_reverse, (sort_asc_stable lt key ok), filter_reverse;
    [by rewrite reverse_involutive | | done].
  by eapply oks_perm; [symmetry; apply reverse_Permutation|].
Qed.

Lemma sorted_relations (rev : bool) :
  let R := if rev then desc lt key else asc lt key in
  (forall x, ok (key x) -> R x x) /\
  (forall x y, R x y -> R y x -> same_key lt key (key x) y).
Proof.
  destruct rev; simpl; unfold asc, desc, same_key;
    (split; [intros; by apply (sw_irrefl (ok:=ok)) | by auto]).
Qed.

(** and is the only list that does both: whatever stable algorithm
    sorts the list, the result is [py_sort]. *)
Lemma py_sort_unique (rev : bool) l l' :
  oks key ok l -> l' ≡ₚ l ->
  StronglySorted (if rev then desc lt key else asc lt key) l' ->
  stable lt key ok l' l ->
  l' = py_sort lt key rev l.
Proof.
  intros Hl Hp Hs Hst. destruct (sorted_relations rev) as [Hrefl Hsame].
  eapply (stable_sorted_unique lt key ok); [exact Hrefl | exact Hsame | ..].
  - by eapply oks_perm; [symmetry|].
  - by rewrite py_sort_perm.
  - done.
  - by apply py_sort_sorted.
  - intros k Hk. by rewrite Hst, py_sort_stable.
Qed.

End directions.

(** ** The contract of the sort *)

(** [list.sort(key=..., reverse=...)] rearranges the list, puts it
    in ascending order of the keys, descending with [reverse=True], and
    keeps elements with equal keys in their original order, in both
    directions. *)
Theorem py_sort_spec {A K} (lt : K -> K -> bool) (key : A -> K) ok
    `{!StrictWeak lt ok} (rev : bool) l :
  oks key ok l ->
  py_sort lt key rev l ≡ₚ l /\
  StronglySorted (if rev then desc lt key else asc lt key) (py_sort lt key rev l) /\
  stable lt key ok (py_sort lt key rev l) l.
Proof.
  intros Hl. split_and!;
    [apply py_sort_perm | by apply (py_sort_sorted lt key ok) | by apply py_sort_stable].
Qed.

(** Sorting with [reverse=True], which reverses the list, sorts it
    upwards and reverses the result, is the stable sort in descending
    order. *)
Theorem py_sort_reverse_desc {A K} (lt : K -> K -> bool) (key : A -> K) ok
    `{!StrictWeak lt ok} l :
  oks key ok l -> py_sort lt key true l = sort_desc lt key l.
Proof.
  intros Hl. symmetry. rewrite sort_desc_flip.
  apply (py_sort_unique lt key ok true); [done | apply sort_asc_perm | |].
  - by apply (sort_asc_sorted (flip lt) key ok).
  - apply stable_flip. by apply (sort_asc_stable (flip lt) key ok).
Qed.

(** ** Building orders *)

(** Two comparisons that agree on the [ok] keys are strict weak orders
    together. *)
Lemma StrictWeak_ext {K} (lt lt' : K -> K -> bool) (ok : K -> Prop) :
  (forall k1 k2, ok k1 -> ok k2 -> lt' k1 k2 = lt k1 k2) ->
  StrictWeak lt ok -> StrictWeak lt' ok.
Proof.
  intros Heq Hsw. split.
  - intros k Hk. rewrite Heq by done. by apply sw_irrefl.
  - intros k1 k2 k3 H1 H2 H3. rewrite !Heq by done. by apply sw_trans.
  - intros k1 k2 k3 H1 H2 H3. rewrite !Heq by done. by apply sw_neg_trans.
Qed.

(** The lexicographic order of pairs: by the first component, and by
    the second among pairs whose first components are not told apart. *)
Definition lex {K1 K2} (lt1 : K1 -> K1 -> bool) (lt2 : K2 -> K2 -> bool)
    (a b : K1 * K2) : bool :=
  lt1 a.1 b.1 || (negb (lt1 b.1 a.1) && lt2 a.2 b.2).

Section lex.
Context {K1 K2 : Type} (lt1 : K1 -> K1 -> bool) (lt2 : K2 -> K2 -> bool).
Context (ok1 : K1 -> Prop) (ok2 : K2 -> Prop).
Context `{!StrictWeak lt1 ok1, !StrictWeak lt2 ok2}.

Definition ok_pair (k : K1 * K2) : Prop := ok1 k.1 /\ ok2 k.2.

#[local] Ltac sw_facts a b c :=
  pose proof (sw_trans (lt:=lt1) a.1 b.1 c.1);
  pose proof (sw_neg_trans (lt:=lt1) a.1 b.1 c.1);
  pose proof (sw_neg_trans (lt:=lt1) a.1 c.1 b.1);
  pose proof (sw_neg_trans (lt:=lt1) b.1 a.1 c.1);
  pose proof (sw_neg_trans (lt:=lt1) b.1 c.1 a.1);
  pose proof (sw_neg_trans (lt:=lt1) c.1 a.1 b.1);
  pose proof (sw_neg_trans (lt:=lt1) c.1 b.1 a.1);
  pose proof (sw_trans (lt:=lt2) a.2 b.2 c.2);
  pose proof (sw_neg_trans (lt:=lt2) a.2 b.2 c.2);
  repeat match goal with
         | H : ?P -> _, H' : ?P |- _ => specialize (H H')
         end.

#[local] Ltac sw_cases a b c :=
  destruct (lt1 a.1 b.1), (lt1 b.1 a.1), (lt1 b.1 c.1), (lt1 c.1 b.1),
    (lt1 a.1 c.1), (lt1 c.1 a.1), (lt2 a.2 b.2), (lt2 b.2 c.2), (lt2 a.2 c.2);
  simpl; intros; try done; intuition congruence.

#[export] Instance StrictWeak_lex : StrictWeak (lex lt1 lt2) ok_pair.
Proof.
  split; unfold lex, ok_pair.
  - intros k [H1 H2]. by rewrite (sw_irrefl (lt:=lt1)), (sw_irrefl (lt:=lt2)).
  - intros a b c [??] [??] [??]. sw_facts a b c. sw_cases a b c.
  - intros a b c [??] [??] [??]. sw_facts a b c. sw_cases a b c.
Qed.

End lex.

(** ** The contract, on an example *)

(** The order of the natural numbers. *)
#[export] Instance StrictWeak_nat : StrictWeak Nat.ltb (fun _ => True).
Proof.
  split; intros *; rewrite ?Nat.ltb_lt, ?Nat.ltb_ge; lia.
Qed.

Lemma py_sort_spec_witness :
  let l := [(1, "a"); (2, "b"); (1, "c")]%nat in
  py_sort Nat.ltb fst true l ≡ₚ l /\
  StronglySorted (desc Nat.ltb fst) (py_sort Nat.ltb fst true l) /\
  stable Nat.ltb fst (fun _ => True) (py_sort Nat.ltb fst true l) l.
Proof.
  apply (py_sort_spec Nat.ltb fst (fun _ => True) true). repeat constructor.
Defined.

Lemma py_sort_reverse_desc_witness :
  py_sort Nat.ltb fst true [(1, "a"); (2, "b"); (1, "c")]%nat =
  sort_desc Nat.ltb fst [(1, "a"); (2, "b"); (1, "c")]%nat.
Proof.
  apply (py_sort_reverse_desc Nat.ltb fst (fun _ => True)). repeat constructor.
Defined.
