(* ===== verification/Coroutine.v ===== *)
(** * Coroutine: the [async def] functions of the program

    Six functions of src/memecoin_bot.py are coroutines: [fetch_json],
    [scan_geckoterminal] and the four handlers.  A coroutine runs until
    it reaches an [await], is suspended there, and goes on when the
    event loop hands it the answer.  Between two [await]s nothing else
    runs.

    A coroutine is modelled as the finite tree of its suspension
    points: it has returned or raised ([Return]), or it awaits a call
    and continues with the answer ([Await]).  The trees are finite
    because every loop of the program is a loop over a finite list and
    no loop contains an [await].

    What can be awaited is a parameter ([effects]), so the type of a
    coroutine says what it may do: [scan_geckoterminal] talks to the
    network and cannot reply to the chat.

    The file gives the operations on coroutines that Python's syntax
    denotes (sequencing, [try]/[except], [finally]), and three ways of
    running one: a step relation whose labels are the calls with their
    answers ([steps]), the complete runs ([runs]), and the run against
    an environment that answers every call ([interp]).  When calls
    can be compared the step relation is the function [replay]. *)

From S2P Require Import Prelude.

(** ** What a coroutine awaits *)

(** The calls a coroutine may await, and the type of the answer to
    each. *)
Record effects : Type := Effects {
  call : Type;
  answers : call -> Type;
}.

Inductive coro (E : effects) (A : Type) : Type :=
| Return (r : result A)
| Await (c : call E) (k : answers E c -> coro E A).

Arguments Return {E A} r.
Arguments Await {E A} c k.

(** A call together with the answer it got. *)
Record event (E : effects) : Type := Event {
  event_call : call E;
  event_answer : answers E event_call;
}.

Arguments Event {E} _ _.
Arguments event_call {E} _.
Arguments event_answer {E} _.

(** ** The operations *)

Section operations.
Context {E : effects}.

(** Run [p], then [k] on its outcome, whether [p] returned or
    raised. *)
Fixpoint and_then {A B} (k : result A -> coro E B) (p : coro E A) : coro E B :=
  match p with
  | Return r => k r
  | Await c k' => Await c (fun x => and_then k (k' x))
  end.

#[export] Instance coro_ret : MRet (coro E) := fun A a => Return (Ok a).

(** [a = await p; k(a)]: an exception of [p] skips [k]. *)
#[export] Instance coro_bind : MBind (coro E) := fun A B k =>
  and_then (fun r => match r with Ok a => k a | Raise e => Return (Raise e) end).

(** A call that awaits nothing. *)
Definition lift {A} (r : result A) : coro E A := Return r.

(** [await c] *)
Definition await (c : call E) : coro E (answers E c) :=
  Await c (fun x => Return (Ok x)).

(** [try: body except Exception as e: handle(e)] *)
Definition try_except {A} (body : coro E A) (handle : exn -> coro E A) : coro E A :=
  and_then (fun r => match r with Ok a => Return (Ok a) | Raise e => handle e end) body.

(** [try: body finally: fin]: [fin] runs on every way out of [body],
    and the outcome is that of [body] unless [fin] raises. *)
Definition finally {A} (body : coro E A) (fin : coro E unit) : coro E A :=
  and_then (fun r => fin;; Return r) body.

(** ** Running a coroutine *)

(** [steps p evs p']: the coroutine [p] is resumed with the answers of
    [evs], one after the other, and is then [p']. *)
Inductive steps {A} : coro E A -> list (event E) -> coro E A -> Prop :=
| steps_nil p : steps p [] p
| steps_cons c k x evs p' :
    steps (k x) evs p' -> steps (Await c k) (Event c x :: evs) p'.

(** [runs p evs r]: resumed with the answers of [evs], the coroutine
    finishes with the outcome [r] and has awaited exactly the calls of
    [evs]. *)
Fixpoint runs {A} (p : coro E A) (evs : list (event E)) (r : result A) : Prop :=
  match p with
  | Return r' => evs = [] /\ r = r'
  | Await c k => exists x evs', evs = Event c x :: evs' /\ runs (k x) evs' r
  end.

(** An environment that answers every call, the same call always in
    the same way. *)
Definition oracle : Type := forall c : call E, answers E c.

(** The run of [p] against the environment [o]: the calls with their
    answers, and the outcome. *)
Fixpoint interp {A} (o : oracle) (p : coro E A) : list (event E) * result A :=
  match p with
  | Return r => ([], r)
  | Await c k => let er := interp o (k (o c)) in (Event c (o c) :: er.1, er.2)
  end.

(** The answers of [evs] are those of [o]. *)
Definition answered_by (o : oracle) (evs : list (event E)) : Prop :=
  Forall (fun ev => event_answer ev = o (event_call ev)) evs.

(** [p] finishes after at most [n] awaits, whatever the answers. *)
Fixpoint within {A} (n : nat) (p : coro E A) {struct p} : Prop :=
  match p with
  | Return _ => True
  | Await c k =>
      match n with
      | O => False
      | S n' => forall x, within n' (k x)
      end
  end.

(** Two coroutines with the same runs. *)
#[export] Instance coro_equiv {A} : Equiv (coro E A) := fun p q =>
  forall evs r, runs p evs r <-> runs q evs r.

End operations.

Arguments oracle E : clear implicits.

(** *** Resuming as a function

    When the calls can be compared, resuming a coroutine is a partial
    function: the event must answer the call the coroutine awaits. *)

Section resume.
Context {E : effects} `{!EqDecision (call E)}.

(** The answer of the event [ev], when [ev] is an event of the call
    [c]. *)
Definition answer_to (c : call E) (ev : event E) : option (answers E c) :=
  match decide (event_call ev = c) with
  | left e => Some (eq_rect _ (answers E) (event_answer ev) _ e)
  | right _ => None
  end.

Definition resume {A} (p : coro E A) (ev : event E) : option (coro E A) :=
  match p with
  | Return _ => None
  | Await c k => k <$> answer_to c ev
  end.

Fixpoint replay {A} (p : coro E A) (evs : list (event E)) : option (coro E A) :=
  match evs with
  | [] => Some p
  | ev :: evs => p' ← resume p ev; replay p' evs
  end.

End resume.

(** ** Steps and runs *)

Section runs.
Context {E : effects} {A : Type}.
Implicit Types (p q : coro E A) (evs : list (event E)) (r : result A) (o : oracle E).

Lemma steps_app p evs1 p' evs2 p'' :
  steps p evs1 p' -> steps p' evs2 p'' -> steps p (evs1 ++ evs2) p''.
Proof. induction 1; simpl; eauto using @steps. Qed.

(** One more resumption at the end of a sequence of steps. *)
Lemma steps_snoc p evs c k x :
  steps p evs (Await c k) -> steps p (evs ++ [Event c x]) (k x).
Proof. intros Hs. eapply steps_app; [done|]. apply steps_cons, steps_nil. Qed.

Lemma runs_steps p evs r : runs p evs r -> steps p evs (Return r).
Proof.
  revert evs. induction p as [r'|c k IH]; simpl; intros evs.
  - intros [-> ->]. apply steps_nil.
  - intros (x & evs' & -> & Hr). apply steps_cons. eauto.
Qed.

Lemma steps_runs_app p evs p' evs' r :
  steps p evs p' -> runs p' evs' r -> runs p (evs ++ evs') r.
Proof. induction 1; simpl; eauto. Qed.

(** The complete runs are the sequences of steps that end in
    [Return]. *)
Lemma steps_runs p evs r : steps p evs (Return r) <-> runs p evs r.
Proof.
  split; [|apply runs_steps]. intros Hs.
  rewrite <- (app_nil_r evs). by eapply steps_runs_app.
Qed.

(** A coroutine that has returned stays as it is. *)
Lemma steps_Return r evs p' : steps (Return r) evs p' -> evs = [] /\ p' = Return r.
Proof. by inversion 1. Qed.

(** The run against an environment is one of the runs. *)
Lemma interp_runs o p : runs p (interp o p).1 (interp o p).2.
Proof. induction p as [r|c k IH]; simpl; eauto. Qed.

Lemma interp_answered_by o p : answered_by o (interp o p).1.
Proof.
  induction p as [r|c k IH]; simpl; [apply List.Forall_nil|].
  apply List.Forall_cons; [done | apply IH].
Qed.

(** It is the only run in which the environment answers. *)
Lemma runs_answered_by o p evs r :
  runs p evs r -> answered_by o evs -> interp o p = (evs, r).
Proof.
  revert evs. induction p as [r'|c k IH]; simpl; intros evs.
  - by intros [-> ->] _.
  - intros (x & evs' & -> & Hr) [Hx Hevs]%Forall_cons. simpl in Hx. subst x.
    by rewrite (IH _ _ Hr Hevs).
Qed.

Lemma within_mono n m p : (n <= m)%nat -> within n p -> within m p.
Proof.
  revert n m. induction p as [r|c k IH]; intros n m Hnm; simpl; [done|].
  destruct n as [|n]; [done|]. destruct m as [|m]; [lia|].
  intros Hk x. apply (IH x n m); [lia | done].
Qed.

(** A coroutine always has a run: it cannot block. *)
Lemma runs_exists o p : exists evs r, runs p evs r.
Proof. eexists _, _. apply (interp_runs o). Qed.

End runs.

(** ** The step relation is a function *)

Section replay.
Context {E : effects} `{!EqDecision (call E)} {A : Type}.
Implicit Types (p : coro E A) (ev : event E) (evs : list (event E)).

Lemma answer_to_Event c (x : answers E c) : answer_to c (Event c x) = Some x.
Proof.
  unfold answer_to; simpl. destruct (decide (c = c)) as [e|]; [|done].
  by rewrite (proof_irrel e eq_refl).
Qed.

Lemma answer_to_Some c ev x : answer_to c ev = Some x -> ev = Event c x.
Proof.
  unfold answer_to. destruct ev as [c' x']; simpl.
  destruct (decide (c' = c)) as [->|]; [|done]. by intros [= <-].
Qed.

Lemma resume_Await c (k : answers E c -> coro E A) x : resume (Await c k) (Event c x) = Some (k x).
Proof. simpl. by rewrite answer_to_Event. Qed.

Lemma resume_Some p ev p' :
  resume p ev = Some p' <-> exists c k x, p = Await c k /\ ev = Event c x /\ p' = k x.
Proof.
  split.
  - destruct p as [r|c k]; simpl; [done|].
    destruct (answer_to c ev) as [x|] eqn:Hx; [|done]. intros [= <-].
    apply answer_to_Some in Hx. by exists c, k, x.
  - intros (c & k & x & -> & -> & ->). apply resume_Await.
Qed.

(** [replay] computes the step relation. *)
Lemma replay_steps p evs p' : replay p evs = Some p' <-> steps p evs p'.
Proof.
  split.
  - revert p. induction evs as [|ev evs IH]; intros p; simpl.
    + intros [= <-]. apply steps_nil.
    + destruct (resume p ev) as [p1|] eqn:Hr; [|done]; simpl.
      apply resume_Some in Hr as (c & k & x & -> & -> & ->). intros Hs.
      by apply steps_cons, IH.
  - induction 1 as [p|c k x evs p' _ IH]; simpl; [done|]. by rewrite answer_to_Event.
Qed.

(** A coroutine resumed with the same answers is the same coroutine
    afterwards, and a run has one outcome. *)
Lemma steps_deterministic p evs p1 p2 : steps p evs p1 -> steps p evs p2 -> p1 = p2.
Proof. rewrite <- !replay_steps. congruence. Qed.

Lemma replay_runs p evs r : replay p evs = Some (Return r) <-> runs p evs r.
Proof. by rewrite replay_steps, steps_runs. Qed.

Lemma runs_deterministic p evs r1 r2 : runs p evs r1 -> runs p evs r2 -> r1 = r2.
Proof. rewrite <- !replay_runs. congruence. Qed.

End replay.

(** ** Equivalence *)

Section equiv.
Context {E : effects}.

#[export] Instance coro_equivalence {A} : Equivalence (≡@{coro E A}).
Proof.
  split.
  - by intros p evs r.
  - intros p q Hpq evs r. by rewrite (Hpq evs r).
  - intros p q s Hpq Hqs evs r. by rewrite (Hpq evs r), (Hqs evs r).
Qed.

#[export] Instance runs_proper {A} : Proper ((≡) ==> (=) ==> (=) ==> iff) (@runs E A).
Proof. intros p q Hpq evs ? <- r ? <-. apply Hpq. Qed.

#[export] Instance interp_proper {A} (o : oracle E) : Proper ((≡) ==> (=)) (@interp E A o).
Proof.
  intros p q Hpq. symmetry. rewrite (surjective_pairing (interp o p)).
  apply runs_answered_by; [|apply interp_answered_by]. apply Hpq, interp_runs.
Qed.

Lemma Await_equiv {A} c (k k' : answers E c -> coro E A) :
  (forall x, k x ≡ k' x) -> Await c k ≡ Await c k'.
Proof.
  intros Hk evs r; simpl. split; intros (x & evs' & -> & Hr); exists x, evs';
    (split; [done|]); by apply (Hk x).
Qed.

End equiv.

(** ** Sequencing *)

Section and_then.
Context {E : effects} {A B : Type}.
Implicit Types (p : coro E A) (k : result A -> coro E B) (o : oracle E).

(** A run of [and_then k p] is a run of [p] followed by a run of [k]
    on its outcome. *)
Lemma runs_and_then k p evs r' :
  runs (and_then k p) evs r' <->
  exists evs1 r evs2, runs p evs1 r /\ runs (k r) evs2 r' /\ evs = evs1 ++ evs2.
Proof.
  revert evs. induction p as [r|c k' IH]; intros evs; simpl.
  - split; [intros Hr; by exists [], r, evs|].
    by intros (? & ? & ? & [-> ->] & ? & ->).
  - split.
    + intros (x & evs' & -> & (evs1 & r & evs2 & ? & ? & ->)%IH).
      exists (Event c x :: evs1), r, evs2. split_and!; [by eauto | done..].
    + intros (? & r & evs2 & (x & evs1 & -> & ?) & ? & ->).
      exists x, (evs1 ++ evs2). split; [done|]. apply IH. by exists evs1, r, evs2.
Qed.

Lemma interp_and_then o k p :
  interp o (and_then k p) =
  ((interp o p).1 ++ (interp o (k (interp o p).2)).1, (interp o (k (interp o p).2)).2).
Proof.
  induction p as [r|c k' IH]; simpl; [by destruct (interp o (k r))|].
  by rewrite IH.
Qed.

Lemma within_and_then n m k p :
  within n p -> (forall r, within m (k r)) -> within (n + m) (and_then k p).
Proof.
  revert n. induction p as [r|c k' IH]; intros n; simpl.
  - intros _ Hk. apply (within_mono m); [lia | apply Hk].
  - destruct n as [|n]; [done|]. simpl. eauto.
Qed.

#[export] Instance and_then_proper :
  Proper (pointwise_relation _ (≡) ==> (≡) ==> (≡)) (@and_then E A B).
Proof.
  intros k k' Hk p q Hpq evs r. rewrite !runs_and_then.
  split; intros (evs1 & r1 & evs2 & ? & ? & ->); exists evs1, r1, evs2;
    (split_and!; [by apply Hpq | by apply (Hk r1) | done]).
Qed.

End and_then.

(** ** The equations of the operations *)

Section equations.
Context {E : effects}.
Implicit Types (o : oracle E) (e : exn).

Lemma within_await (c : call E) : within 1 (await c).
Proof. by intros x. Qed.

Lemma within_bind {A B} n m (p : coro E A) (k : A -> coro E B) :
  within n p -> (forall a, within m (k a)) -> within (n + m) (p ≫= k).
Proof. intros Hp Hk. apply within_and_then; [done|]. by intros [a|e]. Qed.

Lemma within_try_except {A} n m (body : coro E A) handle :
  within n body -> (forall e, within m (handle e)) -> within (n + m) (try_except body handle).
Proof. intros Hp Hk. apply within_and_then; [done|]. by intros [a|e]. Qed.

Lemma within_finally {A} n m (body : coro E A) fin :
  within n body -> within m fin -> within (n + m) (finally body fin).
Proof.
  intros Hp Hf. apply within_and_then; [done|]. intros r.
  rewrite <- (Nat.add_0_r m). by apply within_bind.
Qed.

(** A sequence of steps of a coroutine that finishes within [n]
    awaits has at most [n] steps. *)
Lemma steps_within {A} n (p p' : coro E A) evs :
  within n p -> steps p evs p' -> (length evs <= n)%nat /\ within (n - length evs) p'.
Proof.
  intros Hp Hs. revert n Hp. induction Hs as [p|c k x evs p' _ IH]; intros n Hp; simpl.
  - rewrite Nat.sub_0_r. split; [lia | done].
  - destruct n as [|n]; [done|]. destruct (IH n (Hp x)). split; [lia | done].
Qed.

Lemma interp_bind {A B} o (p : coro E A) (k : A -> coro E B) :
  interp o (p ≫= k) =
  match (interp o p).2 with
  | Ok a => ((interp o p).1 ++ (interp o (k a)).1, (interp o (k a)).2)
  | Raise e => ((interp o p).1, Raise e)
  end.
Proof.
  unfold mbind, coro_bind. rewrite interp_and_then.
  destruct (interp o p).2; simpl; [done|]. by rewrite app_nil_r.
Qed.

Lemma interp_try_except {A} o (body : coro E A) handle :
  interp o (try_except body handle) =
  match (interp o body).2 with
  | Ok a => ((interp o body).1, Ok a)
  | Raise e => ((interp o body).1 ++ (interp o (handle e)).1, (interp o (handle e)).2)
  end.
Proof.
  unfold try_except. rewrite interp_and_then.
  destruct (interp o body).2; simpl; [|done]. by rewrite app_nil_r.
Qed.

Lemma interp_finally {A} o (body : coro E A) fin :
  interp o (finally body fin) =
  ((interp o body).1 ++ (interp o fin).1,
   match (interp o fin).2 with Ok _ => (interp o body).2 | Raise e => Raise e end).
Proof.
  unfold finally. rewrite interp_and_then, interp_bind. simpl.
  destruct (interp o fin).2; simpl; [|done]. by rewrite app_nil_r.
Qed.

Lemma runs_bind {A B} (p : coro E A) (k : A -> coro E B) evs r :
  runs (p ≫= k) evs r <->
  (exists evs1 a evs2, runs p evs1 (Ok a) /\ runs (k a) evs2 r /\ evs = evs1 ++ evs2) \/
  (exists e, runs p evs (Raise e) /\ r = Raise e).
Proof.
  unfold mbind, coro_bind. rewrite runs_and_then. split.
  - intros (evs1 & [a|e] & evs2 & Hp & Hk & ->); [left; by eauto 6|].
    destruct Hk as [-> ->]. rewrite app_nil_r. by eauto.
  - intros [(evs1 & a & evs2 & ? & ? & ->)|(e & ? & ->)]; [by eauto 6|].
    exists evs, (Raise e), []. by rewrite app_nil_r.
Qed.

Lemma runs_try_except {A} (body : coro E A) handle evs r :
  runs (try_except body handle) evs r <->
  (exists a, runs body evs (Ok a) /\ r = Ok a) \/
  (exists evs1 e evs2, runs body evs1 (Raise e) /\ runs (handle e) evs2 r /\
                       evs = evs1 ++ evs2).
Proof.
  unfold try_except. rewrite runs_and_then. split.
  - intros (evs1 & [a|e] & evs2 & Hp & Hk & ->); [|right; by eauto 6].
    destruct Hk as [-> ->]. rewrite app_nil_r. by eauto.
  - intros [(a & ? & ->)|(evs1 & e & evs2 & ? & ? & ->)]; [|by eauto 6].
    exists evs, (Ok a), []. by rewrite app_nil_r.
Qed.

Lemma runs_await (c : call E) evs r :
  runs (await c) evs r <-> exists x, evs = [Event c x] /\ r = Ok x.
Proof.
  simpl. split.
  - intros (x & ? & -> & -> & ->). eauto.
  - intros (x & -> & ->). by exists x, [].
Qed.

Lemma lift_bind {A B} (r0 : result A) (k : A -> coro E B) :
  lift r0 ≫= k = match r0 with Ok a => k a | Raise e => lift (Raise e) end.
Proof. reflexivity. Qed.

Lemma runs_lift_bind {A B} (r0 : result A) (k : A -> coro E B) evs r :
  runs (lift r0 ≫= k) evs r <->
  match r0 with
  | Ok a => runs (k a) evs r
  | Raise e => evs = [] /\ r = Raise e
  end.
Proof. by destruct r0. Qed.

(** The laws of the monad, up to the equivalence. *)
Lemma coro_bind_ret_l {A B} (a : A) (k : A -> coro E B) : mret a ≫= k = k a.
Proof. reflexivity. Qed.

Lemma coro_bind_ret_r {A} (p : coro E A) : p ≫= mret ≡ p.
Proof.
  induction p as [[a|e]|c k IH]; [done..|]. by apply Await_equiv.
Qed.

Lemma coro_bind_assoc {A B C} (p : coro E A) (f : A -> coro E B) (g : B -> coro E C) :
  (p ≫= f) ≫= g ≡ p ≫= (fun a => f a ≫= g).
Proof.
  induction p as [[a|e]|c k IH]; [done..|]. by apply Await_equiv.
Qed.

End equations.

(** ** Coroutines of two kinds of calls *)

(** The calls of [E] and the calls of [F]. *)
Definition sum_effects (E F : effects) : effects :=
  Effects (call E + call F)
    (fun c => match c with inl c => answers E c | inr c => answers F c end).

Section embed.
Context {E F : effects}.

(** A coroutine of [E] awaited by a coroutine that may also await the
    calls of [F]. *)
Fixpoint embed_l {A} (p : coro E A) : coro (sum_effects E F) A :=
  match p with
  | Return r => Return r
  | Await c k => Await (E := sum_effects E F) (inl c) (fun x => embed_l (k x))
  end.

Definition event_l (ev : event E) : event (sum_effects E F) :=
  Event (E := sum_effects E F) (inl (event_call ev)) (event_answer ev).

Definition event_r (ev : event F) : event (sum_effects E F) :=
  Event (E := sum_effects E F) (inr (event_call ev)) (event_answer ev).

(** The events of the calls of [E] among events of both kinds. *)
Definition events_l (evs : list (event (sum_effects E F))) : list (event E) :=
  omap (fun ev =>
    match event_call ev as c return answers (sum_effects E F) c -> option (event E) with
    | inl c => fun x => Some (Event c x)
    | inr _ => fun _ => None
    end (event_answer ev)) evs.

Definition events_r (evs : list (event (sum_effects E F))) : list (event F) :=
  omap (fun ev =>
    match event_call ev as c return answers (sum_effects E F) c -> option (event F) with
    | inl _ => fun _ => None
    | inr c => fun x => Some (Event c x)
    end (event_answer ev)) evs.

Definition sum_oracle (o1 : oracle E) (o2 : oracle F) : oracle (sum_effects E F) :=
  fun c => match c with inl c => o1 c | inr c => o2 c end.

Lemma runs_embed_l {A} (p : coro E A) evs r :
  runs (embed_l p) evs r <-> exists evs', evs = event_l <$> evs' /\ runs p evs' r.
Proof.
  revert evs. induction p as [r'|c k IH]; intros evs; simpl.
  - split; [intros [-> ->]; by exists [] | by intros (? & -> & -> & ->)].
  - split.
    + intros (x & ? & -> & (evs' & -> & ?)%IH). exists (Event c x :: evs'). eauto.
    + intros (? & -> & x & evs' & -> & ?). exists x, (event_l <$> evs').
      split; [done|]. apply IH. eauto.
Qed.

Lemma interp_embed_l {A} o1 o2 (p : coro E A) :
  interp (sum_oracle o1 o2) (embed_l p) = (event_l <$> (interp o1 p).1, (interp o1 p).2).
Proof. induction p as [r|c k IH]; simpl; [done|]. by rewrite IH. Qed.

Lemma within_embed_l {A} n (p : coro E A) : within n p -> within n (embed_l p).
Proof.
  revert n. induction p as [r|c k IH]; intros n; simpl; [done|].
  destruct n; [done|]. eauto.
Qed.

Lemma events_l_app evs1 evs2 : events_l (evs1 ++ evs2) = events_l evs1 ++ events_l evs2.
Proof. apply omap_app. Qed.

Lemma events_r_app evs1 evs2 : events_r (evs1 ++ evs2) = events_r evs1 ++ events_r evs2.
Proof. apply omap_app. Qed.

Lemma events_l_event_l (evs : list (event E)) : events_l (event_l <$> evs) = evs.
Proof. induction evs as [|[c x] evs IH]; csimpl; [done|]. by rewrite IH. Qed.

Lemma events_r_event_l (evs : list (event E)) : events_r (event_l <$> evs) = [].
Proof. induction evs as [|[c x] evs IH]; csimpl; done. Qed.

End embed.

#[export] Hint Resolve within_await within_embed_l : py.
