(* ===== verification/Http.v ===== *)
(** * Http: the network, the session of a command, and [fetch_json]

    The program talks to two services through [httpx].  A command
    opens a session ([async with httpx.AsyncClient() as client]),
    makes one request in it ([fetch_json], src/memecoin_bot.py, lines
    42 to 45) and leaves the session, which closes it on every way
    out.

    Opening a session, a request and closing a session are the calls
    of the network ([netE]) a coroutine awaits.  The answer to a
    request is a response or an exception: a timeout, a refused
    connection.  [protocol] is the discipline of a session as a state
    machine over the events of a command, and [single_request] what a
    command may ask: one request in one session, with the timeout of
    15 seconds, not repeated.

    The class [World] is an environment in which a call is always
    answered in the same way; it also holds the date parser and the
    clock (the instant at which the i-th record of a listing is
    summarised).  The theorems on what a command computes are stated
    in a world; the theorems on sessions hold for every answer. *)

From S2P Require Import Prelude PyFloat PyStr FloatParse FloatFormat PyValue.
From S2P Require Import Config Dates Coroutine.

#[local] Open Scope Z_scope.

(** ** The calls *)

(** The part of an HTTP response the program looks at. *)
Record response : Type := Response {
  raise_for_status : result unit;
  json : result pyval;
}.

(** A session, as the environment names it. *)
Definition client : Type := nat.

Inductive net_call : Type :=
| AsyncClient
| Get (c : client) (url : string) (params : list (string * string)) (timeout : Z)
| Close (c : client).

#[export] Instance net_call_eq_dec : EqDecision net_call.
Proof. solve_decision. Defined.

(** [httpx.AsyncClient()] entered by [async with] answers with the
    session; [client.get] answers with a response or raises; leaving
    the [async with] block closes the session. *)
Definition netE : effects :=
  Effects net_call (fun c =>
    match c with
    | AsyncClient => client
    | Get _ _ _ _ => result response
    | Close _ => unit
    end).

(** The three events of the network. *)
Definition Opened (c : client) : event netE := Event (E := netE) AsyncClient c.

Definition Got (c : client) (url : string) (params : list (string * string)) (timeout : Z)
    (a : result response) : event netE :=
  Event (E := netE) (Get c url params timeout) a.

Definition Closed (c : client) : event netE := Event (E := netE) (Close c) tt.

(** ** The program *)

(** [async with httpx.AsyncClient() as client: body] *)
Definition async_with_client {A} (body : client -> coro netE A) : coro netE A :=
  c ← await (E := netE) AsyncClient;
  finally (body c) (await (E := netE) (Close c)).

(** [await client.get(url, params=params, timeout=timeout)]: the
    response, or the exception of the transport. *)
Definition client_get (c : client) (url : string) (params : list (string * string))
    (timeout : Z) : coro netE response :=
  Await (E := netE) (Get c url params timeout) Return.

Definition fetch_json (c : client) (url : string) (params : list (string * string))
    : coro netE pyval :=
  r ← client_get c url params HTTP_TIMEOUT;
  lift (raise_for_status r);;
  lift (json r).

(** ** The specification *)

(** What [fetch_json] makes of the answer to its request. *)
Definition decoded (a : result response) : result pyval :=
  r ← a;
  raise_for_status r;;
  json r.

(** The events of a session of [c] in which [reqs] happened. *)
Definition session (c : client) (reqs : list (event netE)) : list (event netE) :=
  Opened c :: reqs ++ [Closed c].

(** The discipline of sessions, as a state machine: the state is the
    session that is open, if any.  A session is opened when none is
    open; a request is made in the open session; the open session is
    closed.  Anything else is a violation ([None]). *)
Definition protocol_step (st : option client) (ev : event netE) : option (option client) :=
  match event_call ev as c return answers netE c -> option (option client) with
  | AsyncClient => fun c => if st is None then Some (Some c) else None
  | Get c _ _ _ => fun _ => if bool_decide (st = Some c) then Some st else None
  | Close c => fun _ => if bool_decide (st = Some c) then Some None else None
  end (event_answer ev).

Fixpoint protocol (st : option client) (evs : list (event netE)) : option (option client) :=
  match evs with
  | [] => Some st
  | ev :: evs' => st' ← protocol_step st ev; protocol st' evs'
  end.

(** Every session was closed and no request was made outside a
    session. *)
Definition sessions_closed (evs : list (event netE)) : Prop :=
  protocol None evs = Some None.

(** What a command may do on the network: nothing, or one session
    with one request to one of [urls], made with the timeout of 15
    seconds and not repeated. *)
Definition single_request (urls : list string) (evs : list (event netE)) : Prop :=
  evs = [] \/
  exists c url params a,
    url ∈ urls /\ evs = session c [Got c url params HTTP_TIMEOUT a].

#[export] Instance sessions_closed_dec evs : Decision (sessions_closed evs).
Proof. unfold sessions_closed. apply _. Defined.

(** ** The world *)

Class World : Type := {
  world_dates :: DateLib;
  (** the answer to [client.get(url, params=params, timeout=timeout)] *)
  http_get : string -> list (string * string) -> Z -> result response;
  (** the clock when the i-th record is reached *)
  now_at : nat -> Z;
}.

Section world.
Context `{World}.

(** The world answers the calls of the network; every session is
    session [0]. *)
Definition world_oracle : oracle netE := fun c =>
  match c with
  | AsyncClient => 0%nat
  | Get _ url params timeout => http_get url params timeout
  | Close _ => tt
  end.

(** What a coroutine returns or raises in the world. *)
Definition returned {A} (p : coro netE A) : result A := (interp world_oracle p).2.

(** What the world answers to the request of [fetch_json]. *)
Definition fetched (url : string) (params : list (string * string)) : result pyval :=
  decoded (http_get url params HTTP_TIMEOUT).

End world.

(** ** [fetch_json] *)

Section fetch_json.
Implicit Types (c : client) (url : string) (params : list (string * string)).
Implicit Types (a : result response) (evs : list (event netE)).

(** [fetch_json] returns the decoded body exactly when the request
    is answered, the status is a success and the body decodes. *)
Lemma decoded_Ok a v :
  decoded a = Ok v <->
  exists r, a = Ok r /\ raise_for_status r = Ok () /\ json r = Ok v.
Proof.
  unfold decoded. destruct a as [r|]; simpl.
  - destruct (raise_for_status r) as [[]|] eqn:E; simpl.
    + split; [by eauto | by intros (? & [= <-] & _ & ?)].
    + split; [done | intros (? & [= <-] & ? & _); congruence].
  - split; [done | by intros (? & ? & _)].
Qed.

(** [fetch_json] raises exactly the exception of the first of the
    three steps that fails: the request, the check of the status, the
    decoding of the body. *)
Lemma decoded_Raise a e :
  decoded a = Raise e <->
  a = Raise e \/
  exists r, a = Ok r /\
            (raise_for_status r = Raise e \/
             raise_for_status r = Ok () /\ json r = Raise e).
Proof.
  unfold decoded. destruct a as [r|]; simpl.
  - destruct (raise_for_status r) as [[]|] eqn:E; simpl.
    + split; [intros ?; right; exists r; auto | intros [?|(? & [= <-] & [?|[_ ?]])]; congruence].
    + split; [intros [= <-]; right; exists r; auto | intros [?|(? & [= <-] & [?|[? _]])]; congruence].
  - split; [intros [= <-]; by left | intros [?|(? & ? & _)]; congruence].
Qed.

(** [fetch_json] makes one request, with the timeout of 15 seconds,
    and returns what the answer decodes to. *)
Lemma fetch_json_runs c url params evs r :
  runs (fetch_json c url params) evs r <->
  exists a, evs = [Got c url params HTTP_TIMEOUT a] /\ r = decoded a.
Proof.
  unfold fetch_json, client_get, decoded; simpl. split.
  - intros (a & ? & -> & Hr). exists a. destruct a as [r'|e]; simpl in *.
    + destruct (raise_for_status r') as [[]|]; simpl in *; by destruct Hr as [-> ->].
    + by destruct Hr as [-> ->].
  - intros (a & -> & ->). exists a, []. split; [done|]. destruct a as [r'|e]; simpl; [|done].
    by destruct (raise_for_status r') as [[]|].
Qed.

Lemma fetch_json_within c url params : within 1 (fetch_json c url params).
Proof.
  intros [r|e]; simpl; [|done]. by destruct (raise_for_status r) as [[]|].
Qed.

End fetch_json.

(** ** The discipline of sessions *)

Section protocol.
Implicit Types (st : option client) (evs : list (event netE)) (c : client).

Lemma protocol_app st evs1 evs2 :
  protocol st (evs1 ++ evs2) = st' ← protocol st evs1; protocol st' evs2.
Proof.
  revert st. induction evs1 as [|ev evs1 IH]; intros st; simpl; [done|].
  destruct (protocol_step st ev); simpl; [apply IH | done].
Qed.

(** A run that keeps the discipline kept it at every moment. *)
Lemma protocol_prefix st evs1 evs2 :
  is_Some (protocol st (evs1 ++ evs2)) -> is_Some (protocol st evs1).
Proof. rewrite protocol_app. by destruct (protocol st evs1). Qed.

(** A session whose requests are all made in it keeps the
    discipline. *)
Lemma protocol_session c reqs :
  protocol (Some c) reqs = Some (Some c) -> sessions_closed (session c reqs).
Proof.
  intros Hr. unfold sessions_closed, session; simpl.
  rewrite protocol_app, Hr; simpl. unfold protocol_step; simpl.
  by rewrite bool_decide_true.
Qed.

Lemma protocol_Got c url params timeout a :
  protocol (Some c) [Got c url params timeout a] = Some (Some c).
Proof. simpl. unfold protocol_step; simpl. by rewrite bool_decide_true. Qed.

Lemma single_request_closed urls evs : single_request urls evs -> sessions_closed evs.
Proof.
  intros [->|(c & url & params & a & _ & ->)]; [done|]. apply protocol_session, protocol_Got.
Qed.

Lemma single_request_mono urls urls' evs :
  urls ⊆ urls' -> single_request urls evs -> single_request urls' evs.
Proof.
  intros Hsub [->|(c & url & params & a & Hin & ->)]; [by left|right].
  exists c, url, params, a. split; [by apply Hsub | done].
Qed.

End protocol.

(** ** Sessions *)

Section sessions.
Context {A : Type}.
Implicit Types (body : client -> coro netE A) (evs : list (event netE)) (c : client).

(** A run of [async with] is a session around a run of the body: the
    session is closed whether the body returns or raises, and the
    outcome is that of the body. *)
Lemma async_with_client_runs body evs r :
  runs (async_with_client body) evs r <->
  exists c evs', runs (body c) evs' r /\ evs = session c evs'.
Proof.
  unfold async_with_client, session. rewrite runs_bind.
  setoid_rewrite (runs_await (E := netE)). unfold finally.
  setoid_rewrite runs_and_then. setoid_rewrite runs_bind.
  setoid_rewrite (runs_await (E := netE)). split.
  - intros [(? & c & ? & (? & -> & [= <-]) & (evs' & r' & ? & Hb & Hc & ->) & ->)|
            (? & (? & _ & [=]) & _)].
    destruct Hc as [(? & [] & ? & ([] & -> & _) & [-> ->] & ->)|(? & (? & _ & [=]) & _)].
    by exists c, evs'.
  - intros (c & evs' & Hr & ->). left. exists [Opened c], c, (evs' ++ [Closed c]).
    split_and!; [by exists c | | done].
    exists evs', r, [Closed c]. split_and!; [done | | done].
    left. exists [Closed c], (), []. split_and!; [by exists () | done..].
Qed.

Lemma async_with_client_within n body :
  (forall c, within n (body c)) -> within (S (n + 1)) (async_with_client body).
Proof.
  intros Hb. unfold async_with_client. apply (within_bind 1); [apply within_await|].
  intros c. apply within_finally; [done | apply (within_await (E := netE))].
Qed.

(** In a world the session is session [0]. *)
Lemma async_with_client_interp `{World} body :
  interp world_oracle (async_with_client body) =
  (session 0%nat (interp world_oracle (body 0%nat)).1, (interp world_oracle (body 0%nat)).2).
Proof.
  unfold async_with_client, session. rewrite interp_bind; simpl.
  by rewrite interp_finally.
Qed.

End sessions.

(** The session of a command: one request in it, and the outcome is
    what the answer decodes to. *)
Lemma fetch_session_runs url params evs (r : result pyval) :
  runs (async_with_client (fun c => fetch_json c url params)) evs r <->
  exists c a, evs = session c [Got c url params HTTP_TIMEOUT a] /\ r = decoded a.
Proof.
  rewrite async_with_client_runs. setoid_rewrite fetch_json_runs. split.
  - intros (c & ? & (a & -> & ->) & ->). by exists c, a.
  - intros (c & a & -> & ->). exists c. eexists. split; [by exists a | done].
Qed.

Lemma fetch_session_closed url params evs (r : result pyval) :
  runs (async_with_client (fun c => fetch_json c url params)) evs r -> sessions_closed evs.
Proof. intros (c & a & -> & _)%fetch_session_runs. apply protocol_session, protocol_Got. Qed.

(** C10: [async with] releases the session on every path.  When the
    body makes its requests in the session it is given, every run of
    the block is one session, opened before the body and closed after
    it, whether the body returns or raises; and the block ends as the
    body ended. *)
Theorem async_with_client_closes {A} (body : client -> coro netE A) evs (r : result A) :
  (forall c reqs r', runs (body c) reqs r' -> protocol (Some c) reqs = Some (Some c)) ->
  runs (async_with_client body) evs r ->
  sessions_closed evs /\
  exists c reqs, evs = Opened c :: reqs ++ [Closed c] /\ runs (body c) reqs r.
Proof.
  intros Hbody (c & reqs & Hr & ->)%async_with_client_runs. split.
  - eapply protocol_session, Hbody, Hr.
  - by exists c, reqs.
Qed.


#[export] Hint Resolve fetch_json_within : py.

(** ** In a world *)

Section returned.
Context `{World}.

(** What a coroutine returns in the world is the outcome of its run
    in which the world answers. *)
Lemma returned_runs {A} (p : coro netE A) :
  exists evs, runs p evs (returned p) /\ answered_by world_oracle evs.
Proof. eexists. split; [apply interp_runs | apply interp_answered_by]. Qed.

(** In such a run the answer to the request of a session is that of
    the world. *)
Lemma answered_by_session c url params timeout a :
  answered_by world_oracle (session c [Got c url params timeout a]) ->
  a = http_get url params timeout.
Proof. by intros [_ [Ha _]%Forall_cons]%Forall_cons. Qed.

Lemma fetch_session_returned url params :
  returned (async_with_client (fun c => fetch_json c url params)) = fetched url params.
Proof.
  destruct (returned_runs (async_with_client (fun c => fetch_json c url params)))
    as (evs & (c & a & -> & ->)%fetch_session_runs & Ha).
  by rewrite (answered_by_session _ _ _ _ _ Ha).
Qed.

End returned.

(** ** Worlds for the examples *)

(** A response with status 200 and the body [v]. *)
Definition ok_response (v : pyval) : response := Response (Ok ()) (Ok v).

(** A response with an error status: [raise_for_status] raises. *)
Definition error_response (msg : string) : response :=
  Response (raise HTTPStatusError msg) (Ok PNone).

(** The world in which the service answers [answer url] whatever the
    parameters, the clock stands at [now], and timestamps are in the
    extended ISO format. *)
Definition static_world (answer : string -> result response) (now : Z) : World :=
  {| world_dates := iso_extended;
     http_get url _ _ := answer url;
     now_at _ := now |}.

(** ** On an example *)

(** The request of session [7] times out: the session is closed all
    the same, and the block raises the exception of the request. *)
Lemma async_with_client_closes_witness :
  sessions_closed
    [Opened 7%nat; Got 7%nat DEX_SEARCH [("q", "doge")]%string HTTP_TIMEOUT
                 (raise TransportError "timed out"); Closed 7%nat] /\
  exists c reqs,
    [Opened 7%nat; Got 7%nat DEX_SEARCH [("q", "doge")]%string HTTP_TIMEOUT
       (raise TransportError "timed out"); Closed 7%nat] = Opened c :: reqs ++ [Closed c] /\
    runs (fetch_json c DEX_SEARCH [("q", "doge")]%string) reqs
         (raise TransportError "timed out").
Proof.
  apply (async_with_client_closes (fun c => fetch_json c DEX_SEARCH [("q", "doge")]%string)).
  - intros c reqs r' (a & -> & _)%fetch_json_runs. apply protocol_Got.
  - apply async_with_client_runs.
    exists 7%nat, [Got 7%nat DEX_SEARCH [("q", "doge")]%string HTTP_TIMEOUT
                     (raise TransportError "timed out")].
    split; [|reflexivity]. apply fetch_json_runs. by eexists.
Defined.
