(* ===== verification/Scan.v ===== *)
(** * Scan: [scan_geckoterminal]

    [scan_geckoterminal(kind)] (src/memecoin_bot.py, lines 79 to 90)
    fetches one listing, summarises every record of it, keeps the
    records [looks_like_memecoin] accepts, sorts them by transaction
    count and liquidity, both descending, and returns the texts of the
    first ten, or a placeholder when there is none.

    The scan is a coroutine of the network (Http.v): it opens a
    session, awaits one request in it and leaves the session.  What
    it then computes from the answer awaits nothing.

    The loop is modelled as written, with the list [results] as its
    state.  Its specification is the composition of list functions
    [report (ranked (survivors judged))]; [scan_loop_spec] is the
    refinement between the two.  [scan_geckoterminal_runs] gives the
    runs of the scan for every answer of the service, and the theorems
    on what the scan returns are stated in a [World]. *)

From stdpp Require Import sorting.
From S2P Require Import Prelude PyFloat FloatValid PyStr FloatParse FloatFormat PyValue.
From S2P Require Import Config Normalizer Dates Age Filter Summarizer Sorting.
From S2P Require Import Coroutine Http.

#[local] Open Scope Z_scope.

(** A pool that passed the filter: its metrics and its text. *)
Notation row := (metrics * string)%type.

(** ** The ranking order *)

(** The sort key [(x[0]["txs"], x[0]["liq"])], as the numbers its two
    components are.  A transaction count that is no number has no
    rank; such a pool never reaches the sort ([survivor_rank_ok]). *)
Definition rank_key (x : row) : xreal * xreal :=
  (default XNaN (num_val (txs x.1)), float_val (liq x.1)).

(** [a < b] on two keys, as Python compares tuples: by the first
    components unless they are equal, then by the second. *)
Definition tuple_lt (a b : xreal * xreal) : bool :=
  if xeqb a.1 b.1 then
    if xeqb a.2 b.2 then false else xltb a.2 b.2
  else xltb a.1 b.1.

Definition rank_ok (k : xreal * xreal) : Prop :=
  x_is_nan k.1 = false /\ x_is_nan k.2 = false.

(** [results.sort(key=..., reverse=True)] *)
Definition ranked (results : list row) : list row :=
  py_sort tuple_lt rank_key true results.

(** ** The report *)

Definition placeholder : string := "(no candidates found)".

(** [[t for _, t in results][:10] or ["(no candidates found)"]] *)
Definition report (results : list row) : list string :=
  let top := take 10 (snd <$> results) in
  if bool_decide (top = []) then [placeholder] else top.

Section scan.
Context `{World}.

(** ** The program *)

(** The body of the loop on the [i]-th record, [results] being the
    state. *)
Definition scan_step (i : nat) (results : list row) (item : pyval) : result (list row) :=
  tm ← summarize_pool (now_at i) item;
  keep ← looks_like_memecoin tm.2;
  Ok (if keep : bool then results ++ [(tm.2, tm.1)] else results).

Fixpoint scan_loop (i : nat) (results : list row) (items : list pyval)
    : result (list row) :=
  match items with
  | [] => Ok results
  | item :: rest =>
      results' ← scan_step i results item;
      scan_loop (S i) results' rest
  end.

Definition scan_geckoterminal (kind : string) : coro netE (list string) :=
  let url := if bool_decide (kind = "trending"%string) then GT_TRENDING else GT_NEW in
  data ← async_with_client (fun client =>
            fetch_json client url [("include", "base_token,quote_token")]%string);
  lift (pools ← py_get data "data" (PList []);
        items ← py_iter pools;
        results ← scan_loop 0 [] items;
        Ok (report (ranked results))).

(** ** The specification of the loop *)

(** The request of a scan: the endpoint of the kind of listing and the
    parameters. *)
Definition endpoint (kind : string) : string :=
  if bool_decide (kind = "trending"%string) then GT_TRENDING else GT_NEW.

Definition listing_params : list (string * string) :=
  [("include", "base_token,quote_token")]%string.

(** The records in the answer [a] of the service, in the order the
    loop meets them. *)
Definition listing_of (a : result response) : result (list pyval) :=
  data ← decoded a;
  pools ← py_get data "data" (PList []);
  py_iter pools.

(** What the scan makes of the answer [a]. *)
Definition scan_of (a : result response) : result (list string) :=
  items ← listing_of a;
  results ← scan_loop 0 [] items;
  Ok (report (ranked results)).

(** The records of the listing the world answers with. *)
Definition listing (kind : string) : result (list pyval) :=
  listing_of (http_get (endpoint kind) listing_params HTTP_TIMEOUT).

(** What the loop decides about the [i]-th record. *)
Definition judge (i : nat) (item : pyval) : result (bool * row) :=
  tm ← summarize_pool (now_at i) item;
  keep ← looks_like_memecoin tm.2;
  Ok (keep, (tm.2, tm.1)).

(** Every record with the index at which the loop reaches it, the
    first one being the [i]-th. *)
Definition stamped (i : nat) (items : list pyval) : list (nat * pyval) :=
  imap (fun k item => (i + k, item)%nat) items.

Definition judge_all (i : nat) (items : list pyval) : result (list (bool * row)) :=
  traverse (fun p => judge p.1 p.2) (stamped i items).

Definition survivors (js : list (bool * row)) : list row :=
  omap (fun j : bool * row => if j.1 then Some j.2 else None) js.

(** The rows behind the report: the pipeline as a composition. *)
Definition scan_rows (kind : string) : result (list row) :=
  items ← listing kind;
  js ← judge_all 0 items;
  Ok (ranked (survivors js)).

End scan.

(** ** A world for the examples *)

(** A record of a listing, as the service spells it. *)
Definition pool_record (symbol : string) (reserve : pyval) (buys sells : Z)
    (created : pyval) : pyval :=
  PDict [("id", PStr ("pulsechain_" +:+ symbol)); ("type", PStr "pool");
         ("attributes", PDict [
            ("base_token_name", PStr (symbol +:+ " Coin"));
            ("base_token_symbol", PStr symbol);
            ("quote_token_symbol", PStr "WPLS");
            ("price_in_usd", PStr "0.00012345");
            ("fdv_usd", PInt 1000000);
            ("reserve_in_usd", reserve);
            ("buys_1h", PInt buys);
            ("sells_1h", PInt sells);
            ("pool_created_at", created);
            ("url", PStr ("https://www.geckoterminal.com/pulsechain/pools/" +:+ symbol))])]%string.

(** 2024-05-01T12:30:00Z, in microseconds *)
Definition demo_now : Z := 1714566600000000.

Definition two_hours_ago : pyval := PStr "2024-05-01T10:30:00Z".

(** Five records: two eligible, one with too little liquidity, one too
    old, one without a date. *)
Definition demo_pools : list pyval :=
  [ pool_record "DOGE" (PStr "5000") 30 10 two_hours_ago;
    pool_record "THIN" (PStr "1000") 30 10 two_hours_ago;
    pool_record "PEPE" (PStr "8000.5") 60 45 (PStr "2024-04-30T18:00:00+02:00");
    pool_record "OLD" (PStr "90000") 70 70 (PStr "2024-04-28T12:00:00Z");
    pool_record "NODATE" (PStr "90000") 70 70 PNone ].

(** The service: the trending listing has the five records, the
    listing of new pools has none. *)
Definition demo_world : World :=
  static_world
    (fun url => Ok (ok_response
       (if bool_decide (url = GT_TRENDING) then PDict [("data", PList demo_pools)]
        else PDict [("data", PList [])])))
    demo_now.

(** The text of a record of the examples, from its printed fields. *)
Definition demo_text (symbol liq buys sells txs age : string) : string :=
  summary_text (symbol +:+ " Coin") symbol "WPLS" "0.00012345" liq "1,000,000"
    buys sells txs age ("https://www.geckoterminal.com/pulsechain/pools/" +:+ symbol).

Definition doge_text : string := demo_text "DOGE" "5,000" "30" "10" "40" "2.0".
Definition pepe_text : string := demo_text "PEPE" "8,000" "60" "45" "105" "20.5".

(** The texts the scan of the trending listing reports. *)
Definition demo_report : list string := [pepe_text; doge_text].

Definition doge_metrics : metrics :=
  Metrics (float_of_Z 1000000) (float_of_Z 5000) (PInt 40) (float_of_Z 2).

(** Fifteen eligible records, with 21 to 35 transactions. *)
Definition crowd_pools : list pyval :=
  (fun n => pool_record ("T" +:+ N_digits (Z.to_N n)) (PStr "5000") n 20 two_hours_ago)
    <$> seqZ 1 15.

Definition crowd_world : World :=
  static_world (fun _ => Ok (ok_response (PDict [("data", PList crowd_pools)]))) demo_now.

(** The row of the [n]-th of the fifteen. *)
Definition crowd_row (n : Z) : row :=
  (Metrics (float_of_Z 1000000) (float_of_Z 5000) (PInt (n + 20)) (float_of_Z 2),
   demo_text ("T" +:+ N_digits (Z.to_N n)) "5,000"
     (N_digits (Z.to_N n)) "20" (N_digits (Z.to_N (n + 20))) "2.0").

(** The fifteen rows, ranked. *)
Definition crowd_rows : list row := crowd_row <$> reverse (seqZ 1 15).

(** A world whose listing is [body], whatever is asked. *)
Definition body_world (body : pyval) : World :=
  static_world (fun _ => Ok (ok_response body)) demo_now.

(** The three rows of the example of the ranking: A with 50
    transactions and liquidity 100, B with 50 and 200, C with 10 and
    500. *)
Definition row_of (name : string) (txs liq : Z) : row :=
  (Metrics f_zero (float_of_Z liq) (PInt txs) f_zero, name).

(** ** The ranking order is a strict weak order on numbers *)

Section order.

#[export] Instance StrictWeak_xltb : StrictWeak xltb (fun x => x_is_nan x = false).
Proof. split; eauto using xltb_irrefl, xltb_trans, xltb_neg_trans. Qed.

(** On numbers, Python's comparison of pairs is the lexicographic
    order. *)
Lemma tuple_lt_lex a b : rank_ok a -> rank_ok b -> tuple_lt a b = lex xltb xltb a b.
Proof.
  intros [? ?] [? ?]. unfold tuple_lt, lex. rewrite !xeqb_xltb by done.
  by destruct (xltb a.1 b.1), (xltb b.1 a.1), (xltb a.2 b.2), (xltb b.2 a.2).
Qed.

#[export] Instance StrictWeak_tuple_lt : StrictWeak tuple_lt rank_ok.
Proof.
  apply (StrictWeak_ext (lex xltb xltb)); [apply tuple_lt_lex|].
  exact (StrictWeak_lex xltb xltb (fun x => x_is_nan x = false) (fun x => x_is_nan x = false)).
Qed.

(** A pool the filter accepts has a rank. *)
Lemma eligible_rank_ok m t : eligible m = true -> rank_ok (rank_key (m, t)).
Proof.
  unfold eligible, liq_ok, txs_ok, rank_key, rank_ok; simpl.
  intros [[[Hl Ht]%andb_true_iff _]%andb_true_iff _]%andb_true_iff.
  destruct (num_val (txs m)) as [x|]; [|done].
  apply xleb_not_nan in Hl, Ht. naive_solver.
Qed.

End order.

(** ** The report *)

Section report.
Implicit Types (l : list row) (t : string).

Lemma report_nil : report [] = [placeholder].
Proof. reflexivity. Qed.

Lemma report_cons x l : report (x :: l) = x.2 :: take 9 (snd <$> l).
Proof. reflexivity. Qed.

Lemma report_length l : length (report l) = Nat.max 1 (Nat.min 10 (length l)).
Proof.
  destruct l as [|x l]; [done|].
  rewrite report_cons; simpl length. rewrite length_take, length_fmap. lia.
Qed.

Lemma report_bounds l : (1 <= length (report l) <= 10)%nat.
Proof. rewrite report_length. lia. Qed.

(** The report is the placeholder, or the texts of the first ten
    rows. *)
Lemma report_cases l :
  l = [] /\ report l = [placeholder] \/ l <> [] /\ report l = snd <$> take 10 l.
Proof. destruct l as [|x l]; [by left | right]. by rewrite report_cons, fmap_take. Qed.

Lemma elem_of_report t l :
  t ∈ report l <-> l = [] /\ t = placeholder \/ exists m, (m, t) ∈ take 10 l.
Proof.
  destruct (report_cases l) as [[-> ->]|[Hl ->]].
  - rewrite list_elem_of_singleton, take_nil. set_solver.
  - rewrite list_elem_of_fmap. split.
    + intros ([m t'] & -> & ?). eauto.
    + intros [[? _]|[m ?]]; [done|]. by exists (m, t).
Qed.

End report.

(** ** The loop *)

Section loop.
Context `{World}.
Implicit Types (i k : nat) (results : list row) (items : list pyval).

Lemma stamped_cons i item items :
  stamped i (item :: items) = (i, item) :: stamped (S i) items.
Proof.
  unfold stamped; simpl. rewrite Nat.add_0_r. f_equal.
  apply imap_ext. intros k x _; simpl. f_equal. lia.
Qed.

Lemma stamped_lookup i items k :
  stamped i items !! k = (fun item => ((i + k)%nat, item)) <$> items !! k.
Proof. unfold stamped. by rewrite list_lookup_imap. Qed.

Lemma stamped_length i items : length (stamped i items) = length items.
Proof. apply length_imap. Qed.

Lemma scan_step_judge i results item :
  scan_step i results item =
  judge i item ≫= fun j : bool * row => Ok (if j.1 then results ++ [j.2] else results).
Proof.
  unfold scan_step, judge. destruct (summarize_pool _ _) as [[t m]|]; simpl; [|done].
  by destruct (looks_like_memecoin m) as [[]|].
Qed.

(** The loop of the program is the generic loop over the stamped
    records. *)
Lemma scan_loop_for_loop i results items :
  scan_loop i results items =
  for_loop (fun acc p => judge p.1 p.2 ≫= fun j : bool * row =>
              Ok (if j.1 then acc ++ [j.2] else acc))
    results (stamped i items).
Proof.
  revert i results. induction items as [|item rest IH]; intros i results; [done|].
  rewrite stamped_cons; simpl. rewrite scan_step_judge.
  destruct (judge i item) as [j|]; simpl; [apply IH | done].
Qed.

(** Refinement: the loop computes the survivors of the judged
    records, behind what it started with. *)
Lemma scan_loop_spec i results items :
  scan_loop i results items = js ← judge_all i items; Ok (results ++ survivors js).
Proof. rewrite scan_loop_for_loop. apply for_loop_append. Qed.

Lemma scan_of_decoded a :
  scan_of a =
  data ← decoded a;
  pools ← py_get data "data" (PList []);
  items ← py_iter pools;
  results ← scan_loop 0 [] items;
  Ok (report (ranked results)).
Proof.
  unfold scan_of, listing_of. destruct (decoded a) as [data|]; simpl; [|done].
  by destruct (py_get data _ _).
Qed.

(** The runs of a scan, whatever the service answers: one session,
    one request in it, with the timeout of 15 seconds, and the outcome
    is what the scan makes of the answer. *)
Lemma scan_geckoterminal_runs kind evs r :
  runs (scan_geckoterminal kind) evs r <->
  exists c a, evs = session c [Got c (endpoint kind) listing_params HTTP_TIMEOUT a] /\
              r = scan_of a.
Proof.
  unfold scan_geckoterminal. rewrite runs_bind.
  setoid_rewrite async_with_client_runs. setoid_rewrite fetch_json_runs.
  setoid_rewrite scan_of_decoded. split.
  - intros [(? & data & ? & (c & ? & (a & -> & Ha) & ->) & [-> ->] & ->)|
            (e & (c & ? & (a & -> & Ha) & ->) & ->)];
      exists c, a; by rewrite <- Ha, ?app_nil_r.
  - intros (c & a & -> & ->). destruct (decoded a) as [data|e] eqn:Ha; simpl.
    + left. exists (session c [Got c (endpoint kind) listing_params HTTP_TIMEOUT a]), data, [].
      rewrite app_nil_r. split_and!; [|done..]. exists c. eexists. split; [|done]. by exists a.
    + right. exists e. split; [|done]. exists c. eexists. split; [|done]. by exists a.
Qed.

Lemma scan_geckoterminal_within kind : within 3 (scan_geckoterminal kind).
Proof.
  unfold scan_geckoterminal. apply (within_bind 3 0); [|done].
  apply (async_with_client_within 1). auto with py.
Qed.

(** In a world the scan returns what it makes of the answer of the
    world. *)
Lemma scan_geckoterminal_returned kind :
  returned (scan_geckoterminal kind) =
  scan_of (http_get (endpoint kind) listing_params HTTP_TIMEOUT).
Proof.
  destruct (returned_runs (scan_geckoterminal kind))
    as (evs & (c & a & -> & ->)%scan_geckoterminal_runs & Ha).
  by rewrite (answered_by_session _ _ _ _ _ Ha).
Qed.

Lemma scan_geckoterminal_rows kind :
  returned (scan_geckoterminal kind) = report <$> scan_rows kind.
Proof.
  rewrite scan_geckoterminal_returned. unfold scan_of, scan_rows, listing.
  destruct (listing_of _) as [items|]; simpl; [|done].
  rewrite scan_loop_spec. by destruct (judge_all 0 items).
Qed.

(** *** The judgements *)

Lemma judge_Ok i item b m t :
  judge i item = Ok (b, (m, t)) <->
  summarize_pool (now_at i) item = Ok (t, m) /\ looks_like_memecoin m = Ok b.
Proof.
  unfold judge. destruct (summarize_pool _ _) as [[t' m']|]; simpl; [|naive_solver].
  split.
  - destruct (looks_like_memecoin m') eqn:E; [|done]. by intros [= <- <- <-].
  - by intros [[= <- <-] ->].
Qed.

Lemma judge_Raise i item e :
  judge i item = Raise e <->
  summarize_pool (now_at i) item = Raise e \/
  exists t m, summarize_pool (now_at i) item = Ok (t, m) /\ looks_like_memecoin m = Raise e.
Proof.
  unfold judge. destruct (summarize_pool _ _) as [[t' m']|]; simpl; [|naive_solver].
  split.
  - destruct (looks_like_memecoin m') eqn:E; [done|]. intros [= <-]. right. eauto.
  - intros [?|(t & m & [= <- <-] & ->)]; done.
Qed.

Lemma judge_all_lookup i items js k j :
  judge_all i items = Ok js -> js !! k = Some j ->
  exists item, items !! k = Some item /\ judge (i + k) item = Ok j.
Proof.
  intros Hjs%traverse_Ok_Forall2 Hj.
  destruct (Forall2_lookup_r _ _ _ _ _ Hjs Hj) as ([i' item] & Hk & Hji).
  rewrite stamped_lookup in Hk. destruct (items !! k) as [item'|]; simplify_eq/=. eauto.
Qed.

Lemma judge_all_lookup_item i items js k item :
  judge_all i items = Ok js -> items !! k = Some item ->
  exists j, js !! k = Some j /\ judge (i + k) item = Ok j.
Proof.
  intros Hjs%traverse_Ok_Forall2 Hk.
  destruct (Forall2_lookup_l _ _ _ k (i + k, item)%nat Hjs) as (j & ? & ?); [|by eauto].
  by rewrite stamped_lookup, Hk.
Qed.

Lemma elem_of_survivors js r : r ∈ survivors js <-> (true, r) ∈ js.
Proof.
  unfold survivors. rewrite list_elem_of_omap. split.
  - intros ([[] r'] & ? & ?); by simplify_eq/=.
  - intros ?. by exists (true, r).
Qed.

(** A survivor is a record of the listing that summarises and is
    eligible. *)
Lemma survivor_inv i items js m t :
  judge_all i items = Ok js -> (m, t) ∈ survivors js ->
  exists k item, items !! k = Some item /\
    summarize_pool (now_at (i + k)) item = Ok (t, m) /\ eligible m = true.
Proof.
  intros Hjs [k Hk]%elem_of_survivors%list_elem_of_lookup.
  destruct (judge_all_lookup _ _ _ _ _ Hjs Hk) as (item & ? & [? ?]%judge_Ok).
  exists k, item. eauto using accepted_eligible.
Qed.

Lemma survivor_intro i items js k item m t :
  judge_all i items = Ok js -> items !! k = Some item ->
  summarize_pool (now_at (i + k)) item = Ok (t, m) -> eligible m = true ->
  (m, t) ∈ survivors js.
Proof.
  intros Hjs Hk Hs He. apply elem_of_survivors.
  destruct (judge_all_lookup_item _ _ _ _ _ Hjs Hk) as (j & Hj & Hji).
  apply list_elem_of_lookup. exists k. rewrite Hj. f_equal. symmetry.
  assert (judge (i + k) item = Ok (true, (m, t))) by (apply judge_Ok; eauto using eligible_accepted).
  congruence.
Qed.

Lemma survivors_length js : (length (survivors js) <= length js)%nat.
Proof. unfold survivors. induction js as [|[[] r] js IH]; csimpl; lia. Qed.

Lemma survivors_oks i items js :
  judge_all i items = Ok js -> oks rank_key rank_ok (survivors js).
Proof.
  intros Hjs. apply Forall_forall. intros [m t] (k & item & _ & _ & He)%(survivor_inv i items).
  - by apply eligible_rank_ok.
  - done.
Qed.

End loop.

(** ** The ranking *)

Section ranked.
Implicit Types l : list row.

Lemma ranked_perm l : ranked l ≡ₚ l.
Proof. apply py_sort_perm. Qed.

Lemma ranked_sorted l :
  oks rank_key rank_ok l -> StronglySorted (desc tuple_lt rank_key) (ranked l).
Proof. apply (py_sort_sorted tuple_lt rank_key rank_ok true). Qed.

Lemma ranked_stable l :
  oks rank_key rank_ok l -> stable tuple_lt rank_key rank_ok (ranked l) l.
Proof. apply (py_sort_stable tuple_lt rank_key rank_ok true). Qed.

(** No row behind the tenth outranks one of the first ten. *)
Lemma ranked_top l x y :
  oks rank_key rank_ok l ->
  x ∈ take 10 (ranked l) -> y ∈ drop 10 (ranked l) -> desc tuple_lt rank_key x y.
Proof.
  intros Hl Hx Hy.
  apply (StronglySorted_app_1_elem_of _ (take 10 (ranked l)) (drop 10 (ranked l))); [|done..].
  rewrite take_drop. by apply ranked_sorted.
Qed.

(** C28: the ranking does not depend on the sorting algorithm: any
    rearrangement of the rows that is in descending order and keeps
    rows of equal rank in their original order is the result of
    [results.sort(key=..., reverse=True)]. *)
Theorem ranked_any_stable_sort l l' :
  oks rank_key rank_ok l -> l' ≡ₚ l ->
  StronglySorted (desc tuple_lt rank_key) l' ->
  stable tuple_lt rank_key rank_ok l' l ->
  l' = ranked l.
Proof. apply (py_sort_unique tuple_lt rank_key rank_ok true). Qed.

(** The ranking of the design's example: of A (50 transactions,
    liquidity 100), B (50, 200) and C (10, 500) the order is B, A,
    C. *)
Example ranked_example :
  ranked [row_of "A" 50 100; row_of "B" 50 200; row_of "C" 10 500] =
  [row_of "B" 50 200; row_of "A" 50 100; row_of "C" 10 500].
Proof. by vm_compute. Qed.

End ranked.

(** ** The scan *)

Section scan_facts.
Context `{World}.
Implicit Types (kind t : string) (ts : list string) (items : list pyval).

Lemma scan_Ok_inv kind ts :
  returned (scan_geckoterminal kind) = Ok ts <->
  exists items js, listing kind = Ok items /\ judge_all 0 items = Ok js /\
                   ts = report (ranked (survivors js)).
Proof.
  rewrite scan_geckoterminal_rows. unfold scan_rows.
  destruct (listing kind) as [items|]; simpl; [|split; [done | by intros (? & ? & ? & _)]].
  destruct (judge_all 0 items) as [js|] eqn:E; simpl.
  - split; [intros [= <-]; eauto | intros (? & ? & [= <-] & ? & ->); congruence].
  - split; [done | intros (? & ? & [= <-] & ? & _); congruence].
Qed.

Lemma judge_all_Raise i items e :
  judge_all i items = Raise e <->
  exists k item, items !! k = Some item /\ judge (i + k) item = Raise e /\
    forall j item', (j < k)%nat -> items !! j = Some item' ->
                    is_ok (judge (i + j) item') = true.
Proof.
  unfold judge_all. rewrite traverse_Raise_lookup. setoid_rewrite stamped_lookup. split.
  - intros (k & [i' item] & Hk & He & Hlt).
    destruct (items !! k) as [item'|] eqn:Hk'; simplify_eq/=.
    exists k, item. split_and!; [done..|]. intros j x Hj Hx.
    apply (Hlt j (i + j, x)%nat); [done|]. by rewrite Hx.
  - intros (k & item & Hk & He & Hlt). exists k, (i + k, item)%nat.
    rewrite Hk. split_and!; [done..|]. intros j [i' x] Hj Hx.
    destruct (items !! j) as [x'|] eqn:Hj'; simplify_eq/=. eauto.
Qed.

(** The envelope: the records are the elements of the field [data],
    and there are none when the field is absent. *)
Lemma listing_dict kind d :
  fetched (endpoint kind) listing_params = Ok (PDict d) ->
  listing kind = py_iter (default (PList []) (dict_lookup "data" d)).
Proof. unfold listing, listing_of, fetched. by intros ->. Qed.

(** The rows of a scan of well-formed records are well formed: the
    sort compares binary64 values. *)
Lemma scan_rows_wf kind items rows :
  listing kind = Ok items -> Forall wf_pyval items -> scan_rows kind = Ok rows ->
  Forall (fun r : row => wf_metrics r.1) rows.
Proof.
  unfold scan_rows. intros -> Hwf Hr. rewrite bind_Ok in Hr.
  apply bind_Ok_inv in Hr as (js & Hjs & [= <-]). rewrite ranked_perm.
  apply Forall_forall. intros [m t] (k & item & Hk & Hs & _)%(survivor_inv 0 items); [|done].
  eapply summarize_pool_keeps_wf; [|done]. by eapply Forall_lookup_1.
Qed.

End scan_facts.

(** The texts of a report are not empty, and there is at least one. *)
Section report_texts.
Context `{World}.

Lemma scan_texts_nonempty kind ts :
  returned (scan_geckoterminal kind) = Ok ts ->
  ts <> [] /\ Forall (fun t => t <> ""%string) ts.
Proof.
  intros (items & js & _ & Hjs & ->)%scan_Ok_inv. split.
  { intros Hnil. pose proof (report_bounds (ranked (survivors js))) as Hb.
    rewrite Hnil in Hb. simpl in Hb. lia. }
  apply Forall_forall. intros t [[_ ->]|[m Hm]]%elem_of_report; [done|].
  apply (subseteq_take 10) in Hm. rewrite ranked_perm in Hm.
  by destruct (survivor_inv _ _ _ _ _ Hjs Hm) as (k & item & _ & [r ->]%summarize_pool_bullet & _).
Qed.

End report_texts.

(** ** The contract of the scan *)

Section contract.
Context `{World}.
Implicit Types (kind t : string) (ts : list string) (items : list pyval).

(** C1: refinement: [scan_geckoterminal], with its loop that appends
    to [results], is the pipeline of list functions: judge every record
    of the listing in order, keep the accepted ones, rank them, report
    the first ten. *)
Theorem scan_geckoterminal_pipeline kind :
  returned (scan_geckoterminal kind) =
  items ← listing kind;
  js ← judge_all 0 items;
  Ok (report (ranked (survivors js))).
Proof.
  rewrite scan_geckoterminal_rows. unfold scan_rows.
  destruct (listing kind) as [items|]; simpl; [|done]. by destruct (judge_all 0 items).
Qed.

(** A scan that returns, returns between one and ten texts. *)
Theorem scan_length kind ts :
  returned (scan_geckoterminal kind) = Ok ts -> (1 <= length ts <= 10)%nat.
Proof. intros (items & js & _ & _ & ->)%scan_Ok_inv. apply report_bounds. Qed.

(** C2: soundness: every text of the report other than the
    placeholder is the text of a record of the listing that summarises
    and whose metrics pass all four thresholds. *)
Theorem scan_sound kind ts t :
  returned (scan_geckoterminal kind) = Ok ts -> t ∈ ts ->
  t = placeholder \/
  exists items k item m,
    listing kind = Ok items /\ items !! k = Some item /\
    summarize_pool (now_at k) item = Ok (t, m) /\ eligible m = true.
Proof.
  intros (items & js & Hl & Hjs & ->)%scan_Ok_inv [[_ ->]|[m Hm]]%elem_of_report; [by left|].
  right. apply (subseteq_take 10) in Hm. rewrite ranked_perm in Hm.
  destruct (survivor_inv _ _ _ _ _ Hjs Hm) as (k & item & ? & ? & ?).
  by exists items, k, item, m.
Qed.

(** C31: completeness: when the listing has at most ten records, the
    text of every record that summarises and is eligible is in the
    report. *)
Theorem scan_complete kind items ts k item t m :
  listing kind = Ok items -> returned (scan_geckoterminal kind) = Ok ts ->
  (length items <= 10)%nat -> items !! k = Some item ->
  summarize_pool (now_at k) item = Ok (t, m) -> eligible m = true ->
  t ∈ ts.
Proof.
  intros Hl (items' & js & Hl' & Hjs & ->)%scan_Ok_inv Hlen Hk Hs He.
  assert (items' = items) as -> by congruence.
  apply elem_of_report. right. exists m. rewrite take_ge.
  - rewrite ranked_perm. by eapply (survivor_intro 0).
  - rewrite ranked_perm. etrans; [apply survivors_length|].
    apply traverse_Ok_length in Hjs. rewrite stamped_length in Hjs. lia.
Qed.

End contract.

Section order_contract.
Context `{World}.
Implicit Types (kind t : string) (ts : list string) (items : list pyval).

(** C5: the rows behind the report are the accepted records sorted by
    transaction count, then liquidity, both descending, and records
    with the same two numbers stay in the order of the listing. *)
Theorem scan_ranked kind items js :
  listing kind = Ok items -> judge_all 0 items = Ok js ->
  let rows := ranked (survivors js) in
  returned (scan_geckoterminal kind) = Ok (report rows) /\
  rows ≡ₚ survivors js /\
  StronglySorted (desc tuple_lt rank_key) rows /\
  stable tuple_lt rank_key rank_ok rows (survivors js).
Proof.
  intros Hl Hjs rows. pose proof (survivors_oks _ _ _ Hjs) as Hok. split_and!.
  - apply scan_Ok_inv. eauto.
  - apply ranked_perm.
  - by apply ranked_sorted.
  - by apply ranked_stable.
Qed.

(** C15: the cut keeps the best: no accepted record left out of the
    report has more transactions, or as many and more liquidity, than
    a record that is in it. *)
Theorem scan_top_ten kind rows x y :
  scan_rows kind = Ok rows ->
  x ∈ take 10 rows -> y ∈ drop 10 rows ->
  tuple_lt (rank_key x) (rank_key y) = false.
Proof.
  unfold scan_rows. intros Hr Hx Hy.
  apply bind_Ok_inv in Hr as (items & _ & Hr).
  apply bind_Ok_inv in Hr as (js & Hjs & [= <-]).
  eapply ranked_top; eauto using survivors_oks.
Qed.

(** C8: a scan raises exactly when the request fails, the envelope is
    no dictionary or its [data] cannot be iterated, or some record
    cannot be summarised or judged; the exception is that of the first
    such record, and no later record is looked at. *)
Theorem scan_raise_iff kind e :
  returned (scan_geckoterminal kind) = Raise e <->
  listing kind = Raise e \/
  exists items k item,
    listing kind = Ok items /\ items !! k = Some item /\ judge k item = Raise e /\
    forall j item', (j < k)%nat -> items !! j = Some item' -> is_ok (judge j item') = true.
Proof.
  rewrite scan_geckoterminal_rows. unfold scan_rows.
  destruct (listing kind) as [items|e'] eqn:Hl; simpl.
  - destruct (judge_all 0 items) as [js|e'] eqn:Hjs; simpl.
    + split; [done|]. intros [?|(? & k & item & [= <-] & Hr)]; [done|].
      assert (judge_all 0 items = Raise e) by (apply judge_all_Raise; eauto). congruence.
    + split.
      * intros [= <-]. right. apply judge_all_Raise in Hjs as (k & item & ?). eauto.
      * intros [?|(? & k & item & [= <-] & Hr)]; [done|].
        assert (judge_all 0 items = Raise e) by (apply judge_all_Raise; eauto). congruence.
  - split; [intros [= <-]; by left | intros [[= <-]|(? & ? & ? & ? & _)]; done].
Qed.

(** C27: the scan answers with the placeholder exactly when the
    listing is read and judged without error and no record is
    accepted. *)
Theorem scan_placeholder_iff kind :
  returned (scan_geckoterminal kind) = Ok [placeholder] <->
  exists items js,
    listing kind = Ok items /\ judge_all 0 items = Ok js /\ survivors js = [].
Proof.
  rewrite scan_Ok_inv. split; intros (items & js & Hl & Hjs & Hr); exists items, js;
    (split_and!; [done..|]); [|by rewrite Hr].
  destruct (ranked (survivors js)) as [|[m t] rows] eqn:Hrows.
  { apply Permutation_nil. by rewrite <- Hrows, ranked_perm. }
  rewrite report_cons in Hr. injection Hr as Ht _.
  assert ((m, t) ∈ survivors js) as Hin by (rewrite <- ranked_perm, Hrows; left).
  destruct (survivor_inv _ _ _ _ _ Hjs Hin) as (k & item & _ & [r ->]%summarize_pool_bullet & _).
  done.
Qed.

(** Any string other than ["trending"] selects the listing of new
    pools. *)
Theorem scan_kind_other kind :
  kind <> "trending"%string -> scan_geckoterminal kind = scan_geckoterminal "new".
Proof. intros Hk. unfold scan_geckoterminal. by rewrite bool_decide_false. Qed.

(** An envelope without the field [data] is a listing without
    records: the scan answers with the placeholder. *)
Theorem scan_envelope_absent kind d :
  fetched (endpoint kind) listing_params = Ok (PDict d) ->
  dict_lookup "data" d = None ->
  returned (scan_geckoterminal kind) = Ok [placeholder].
Proof.
  intros Hf Hd. apply scan_Ok_inv. exists [], [].
  by rewrite (listing_dict _ d), Hd.
Qed.

(** C37: an envelope whose field [data] is [null] is an error, not an
    empty listing: the scan raises the [TypeError] of the loop. *)
Theorem scan_envelope_null kind d :
  fetched (endpoint kind) listing_params = Ok (PDict d) ->
  dict_lookup "data" d = Some PNone ->
  returned (scan_geckoterminal kind) = Raise (Exn TypeError "'NoneType' object is not iterable").
Proof.
  intros Hf Hd. rewrite scan_geckoterminal_rows. unfold scan_rows.
  by rewrite (listing_dict _ d), Hd.
Qed.

(** C16: the number of texts: as many as accepted records, at most
    ten, and one, the placeholder, when there is none. *)
Theorem scan_count kind items js :
  listing kind = Ok items -> judge_all 0 items = Ok js ->
  length <$> returned (scan_geckoterminal kind) =
  Ok (Nat.max 1 (Nat.min 10 (length (survivors js)))).
Proof.
  intros Hl Hjs. rewrite scan_geckoterminal_rows. unfold scan_rows. rewrite Hl; simpl.
  rewrite Hjs; simpl. by rewrite report_length, ranked_perm.
Qed.

End order_contract.

(** ** The contract, on the examples *)

Lemma demo_scan :
  returned (H := demo_world) (scan_geckoterminal (H := demo_world) "trending") = Ok demo_report.
Proof. by vm_compute. Qed.

Lemma demo_listing : listing (H := demo_world) "trending" = Ok demo_pools.
Proof. by vm_compute. Qed.

Lemma scan_length_witness : (1 <= length demo_report <= 10)%nat.
Proof. exact (scan_length (H := demo_world) "trending" demo_report demo_scan). Defined.

Lemma scan_sound_witness :
  doge_text = placeholder \/
  exists items k item m,
    listing (H := demo_world) "trending" = Ok items /\ items !! k = Some item /\
    summarize_pool (H := iso_extended) demo_now item = Ok (doge_text, m) /\
    eligible m = true.
Proof.
  apply (scan_sound (H := demo_world) "trending" demo_report); [exact demo_scan|].
  right; left.
Defined.

Lemma demo_doge :
  summarize_pool (H := iso_extended) demo_now
    (pool_record "DOGE" (PStr "5000") 30 10 two_hours_ago) = Ok (doge_text, doge_metrics).
Proof. by vm_compute. Qed.

Lemma scan_complete_witness : doge_text ∈ demo_report.
Proof.
  apply (scan_complete (H := demo_world) "trending" demo_pools demo_report 0
           (pool_record "DOGE" (PStr "5000") 30 10 two_hours_ago) doge_text doge_metrics);
    [exact demo_listing | exact demo_scan | simpl; lia | reflexivity | exact demo_doge
    | by vm_compute].
Defined.

Lemma crowd_scan_rows : scan_rows (H := crowd_world) "new" = Ok crowd_rows.
Proof. by vm_compute. Qed.

Lemma scan_top_ten_witness :
  tuple_lt (rank_key (crowd_row 15)) (rank_key (crowd_row 5)) = false.
Proof.
  apply (scan_top_ten (H := crowd_world) "new" crowd_rows);
    [exact crowd_scan_rows | vm_compute; left | vm_compute; left].
Defined.

Lemma scan_kind_other_witness :
  scan_geckoterminal (H := demo_world) "fresh" = scan_geckoterminal (H := demo_world) "new".
Proof. by apply (scan_kind_other (H := demo_world) "fresh"). Defined.

Lemma scan_envelope_absent_witness :
  let w := body_world (PDict [("meta", PNone)]) in
  returned (H := w) (scan_geckoterminal (H := w) "trending") = Ok [placeholder].
Proof.
  by apply (scan_envelope_absent (H := body_world (PDict [("meta", PNone)])) "trending"
              [("meta", PNone)]).
Defined.

Lemma scan_envelope_null_witness :
  let w := body_world (PDict [("data", PNone)]) in
  returned (H := w) (scan_geckoterminal (H := w) "trending") =
  Raise (Exn TypeError "'NoneType' object is not iterable").
Proof.
  by apply (scan_envelope_null (H := body_world (PDict [("data", PNone)])) "trending"
              [("data", PNone)]).
Defined.

Lemma demo_judged :
  exists js, judge_all (H := demo_world) 0 demo_pools = Ok js /\
             survivors js = [(doge_metrics, doge_text);
                             (Metrics (float_of_Z 1000000) (float_of_decimal false 80005 (-1))
                                      (PInt 105) (float_of_decimal false 205 (-1)), pepe_text)].
Proof. eexists. split; by vm_compute. Qed.

Lemma scan_ranked_witness :
  exists js, judge_all (H := demo_world) 0 demo_pools = Ok js /\
    let rows := ranked (survivors js) in
    returned (H := demo_world) (scan_geckoterminal (H := demo_world) "trending") = Ok (report rows) /\
    rows ≡ₚ survivors js /\
    StronglySorted (desc tuple_lt rank_key) rows /\
    stable tuple_lt rank_key rank_ok rows (survivors js).
Proof.
  destruct demo_judged as (js & Hjs & _). exists js. split; [done|].
  exact (scan_ranked (H := demo_world) "trending" demo_pools js demo_listing Hjs).
Defined.

Lemma crowd_judged :
  exists js, judge_all (H := crowd_world) 0 crowd_pools = Ok js /\
             length (survivors js) = 15%nat.
Proof. eexists. split; by vm_compute. Qed.

Lemma scan_count_witness :
  length <$> returned (H := crowd_world) (scan_geckoterminal (H := crowd_world) "new") = Ok 10%nat.
Proof.
  destruct crowd_judged as (js & Hjs & Hn).
  rewrite (scan_count (H := crowd_world) "new" crowd_pools js); [by rewrite Hn | by vm_compute | done].
Defined.

Lemma ranked_any_stable_sort_witness :
  [row_of "B" 50 200; row_of "A" 50 100] = ranked [row_of "B" 50 200; row_of "A" 50 100].
Proof.
  apply ranked_any_stable_sort; [|done| |done].
  - repeat constructor.
  - repeat constructor.
Defined.
