(* ===== verification/Chat.v ===== *)
(** * Chat: the replies of a command handler

    A handler of the program answers a command by awaiting
    [update.message.reply_text] one or more times, and may await the
    network in between.  A handler is a coroutine of both kinds of
    calls ([botE]).

    The answer to [reply_text] is that the text was delivered, or an
    exception of the telegram library: a text that is empty or too
    long, a network failure.  The class [Chat] is an environment in
    which the same text is always answered in the same way; with a
    [World] (Http.v) it answers every call of a handler, and [run] is
    the run of a handler against the two: the texts that were
    delivered, in order, and the outcome.

    [tidy] is the invariant of the handlers on sessions: in every run,
    whatever the answers, every session is closed and no request is
    made outside a session.  Every operation handlers are built from
    preserves it. *)

From S2P Require Import Prelude PyStr PyValue Coroutine Http.

(** ** The calls *)

(** What a handler is called with.  [update.message] is the message
    of the update, and [None] when the update is of another kind (the
    library also hands an edited message to the handler of its
    command, as [update.edited_message]); [message.text] is [None] for
    a message without text. *)
Record message : Type := Message {
  message_text : option string;
}.

Record update : Type := Update {
  update_message : option message;
}.

Inductive chat_call : Type :=
| ReplyText (text : string).

#[export] Instance chat_call_eq_dec : EqDecision chat_call.
Proof. solve_decision. Defined.

Definition chatE : effects := Effects chat_call (fun _ => result unit).

(** What a handler may await: the network and the chat. *)
Definition botE : effects := sum_effects netE chatE.

Notation handler := (coro botE).

#[export] Instance bot_call_eq_dec : EqDecision (call botE).
Proof. unfold botE, sum_effects; simpl. apply _. Defined.

(** The event of a reply and its answer. *)
Definition Replied (text : string) (a : result unit) : event botE :=
  Event (E := botE) (inr (ReplyText text)) a.

(** ** The program *)

(** [await message.reply_text(text)] *)
Definition reply_text (text : string) : handler unit :=
  Await (E := botE) (inr (ReplyText text)) Return.

(** The [AttributeError] of [None.attr] *)
Definition none_attribute (attr : string) : exn :=
  Exn AttributeError ("'NoneType' object has no attribute '" +:+ attr +:+ "'").

(** [update.message.text] *)
Definition update_message_text (u : update) : result (option string) :=
  match update_message u with
  | Some m => Ok (message_text m)
  | None => Raise (none_attribute "text")
  end.

(** [await update.message.reply_text(text)] *)
Definition message_reply_text (u : update) (text : string) : handler unit :=
  match update_message u with
  | Some _ => reply_text text
  | None => lift (Raise (none_attribute "reply_text"))
  end.

(** [await p] for a coroutine [p] of the network. *)
Definition net {A} (p : coro netE A) : handler A := embed_l p.

(** [f"⚠️ Error: {e}"] *)
Definition error_text (e : exn) : string := "⚠️ Error: " +:+ exn_msg e.

(** ** The specification *)

(** The text of a reply that was delivered. *)
Definition delivered_text (ev : event botE) : option string :=
  match event_call ev as c return answers botE c -> option string with
  | inl _ => fun _ => None
  | inr (ReplyText text) => fun a => if a is Ok _ then Some text else None
  end (event_answer ev).

(** The texts the chat shows after the events [evs]. *)
Definition delivered (evs : list (event botE)) : list string :=
  omap delivered_text evs.

(** The events of the network among [evs]. *)
Definition requests (evs : list (event botE)) : list (event netE) := events_l evs.

(** In every run of [h] the sessions are closed and every request is
    made in a session. *)
Definition tidy {A} (h : handler A) : Prop :=
  forall evs r, runs h evs r -> sessions_closed (requests evs).

(** ** The chat *)

Class Chat : Type := {
  (** the answer to [update.message.reply_text(text)] *)
  deliver : string -> result unit;
}.

Section chat.
Context `{World, Chat}.

Definition chat_oracle : oracle chatE := fun c =>
  match c with ReplyText text => deliver text end.

Definition bot_oracle : oracle botE := sum_oracle world_oracle chat_oracle.

(** The events of a handler in the world and the chat. *)
Definition events {A} (h : handler A) : list (event botE) := (interp bot_oracle h).1.

(** The texts a handler delivers and its outcome. *)
Definition run {A} (h : handler A) : list string * result A :=
  (delivered (events h), (interp bot_oracle h).2).

Definition replies {A} (h : handler A) : list string := (run h).1.

End chat.

Arguments run : simpl never.

(** ** The events *)

Section events.
Implicit Types (evs : list (event botE)) (text : string).

Lemma delivered_app evs1 evs2 : delivered (evs1 ++ evs2) = delivered evs1 ++ delivered evs2.
Proof. apply omap_app. Qed.

Lemma delivered_net (evs : list (event netE)) : delivered (event_l <$> evs) = [].
Proof. induction evs as [|[c x] evs IH]; csimpl; done. Qed.

Lemma delivered_Replied text a :
  delivered [Replied text a] = if a is Ok _ then [text] else [].
Proof. by destruct a. Qed.

Lemma requests_app evs1 evs2 : requests (evs1 ++ evs2) = requests evs1 ++ requests evs2.
Proof. apply events_l_app. Qed.

Lemma requests_net (evs : list (event netE)) : requests (event_l <$> evs) = evs.
Proof. apply events_l_event_l. Qed.

Lemma requests_Replied text a evs : requests (Replied text a :: evs) = requests evs.
Proof. reflexivity. Qed.

Lemma delivered_cons_Replied text a evs :
  delivered (Replied text a :: evs) = (if a is Ok _ then [text] else []) ++ delivered evs.
Proof. by destruct a. Qed.

(** The texts delivered never exceed the replies awaited. *)
Lemma delivered_length evs : (length (delivered evs) <= length evs)%nat.
Proof.
  unfold delivered. induction evs as [|ev evs IH]; csimpl; [done|].
  destruct (delivered_text ev); simpl; lia.
Qed.

End events.

(** ** The runs of the operations *)

Section runs.
Implicit Types (text : string) (evs : list (event botE)).

(** A reply is one call, and raises what the call raises. *)
Lemma reply_text_runs text evs r :
  runs (reply_text text) evs r <-> exists a, evs = [Replied text a] /\ r = a.
Proof.
  unfold reply_text; simpl. split.
  - intros (a & ? & -> & -> & ->). by exists a.
  - intros (a & -> & ->). by exists a, [].
Qed.

Lemma net_runs {A} (p : coro netE A) evs r :
  runs (net p) evs r <-> exists reqs, evs = event_l <$> reqs /\ runs p reqs r.
Proof. apply runs_embed_l. Qed.

(** A handler of the shape all but [/start] have: a progress line,
    then a block under [try] whose exception is reported.  It raises
    when the progress line is refused; otherwise the block runs, and
    if the block raises, the error line is the last reply and its
    answer the outcome. *)
Lemma guarded_runs text (body : handler unit) evs r :
  runs (reply_text text;; try_except body (fun e => reply_text (error_text e))) evs r <->
  (exists e, evs = [Replied text (Raise e)] /\ r = Raise e) \/
  (exists evs', evs = Replied text (Ok ()) :: evs' /\
     (runs body evs' (Ok ()) /\ r = Ok () \/
      exists evs1 e, runs body evs1 (Raise e) /\ evs' = evs1 ++ [Replied (error_text e) r])).
Proof.
  rewrite runs_bind. setoid_rewrite runs_try_except. setoid_rewrite reply_text_runs. split.
  - intros [(? & [] & ? & (? & -> & [= <-]) & Ht & ->)|(e & (? & -> & <-) & ->)]; [|by eauto].
    right. eexists. split; [done|].
    destruct Ht as [([] & ? & ->)|(evs1 & e & ? & ? & (? & -> & ->) & ->)]; by eauto.
  - intros [(e & -> & ->)|(evs' & -> & [[? ->]|(evs1 & e & ? & ->)])].
    + right. exists e. split; [by eexists | done].
    + left. eexists [_], (), _. split_and!; [by eexists | | done]. left. by exists ().
    + left. eexists [_], (), _. split_and!; [by eexists | | done].
      right. eexists evs1, e, [_]. split_and!; [done | by eexists | done].
Qed.

Lemma reply_text_within text : within 1 (reply_text text).
Proof. by intros a. Qed.

Lemma net_within {A} n (p : coro netE A) : within n p -> within n (net p).
Proof. apply within_embed_l. Qed.

End runs.

(** ** In a world and a chat *)

Section interp.
Context `{World, Chat}.
Implicit Types (text : string).

Lemma interp_reply_text text :
  interp bot_oracle (reply_text text) = ([Replied text (deliver text)], deliver text).
Proof. reflexivity. Qed.

Lemma interp_net {A} (p : coro netE A) :
  interp bot_oracle (net p) = (event_l <$> (interp world_oracle p).1, returned p).
Proof. apply interp_embed_l. Qed.

(** A handler that begins with a reply: the reply is delivered and
    the handler goes on, or the handler raises. *)
Lemma run_reply_Ok {A} text (k : unit -> handler A) :
  deliver text = Ok () ->
  run (reply_text text ≫= k) = (text :: (run (k ())).1, (run (k ())).2).
Proof.
  intros Hd. unfold run, events. by rewrite interp_bind, interp_reply_text, Hd.
Qed.

Lemma run_reply_Raise {A} text e (k : unit -> handler A) :
  deliver text = Raise e -> run (reply_text text ≫= k) = ([], Raise e).
Proof.
  intros Hd. unfold run, events. by rewrite interp_bind, interp_reply_text, Hd.
Qed.

Lemma run_lift {A} (r : result A) : run (lift r) = ([], r).
Proof. reflexivity. Qed.

Lemma run_reply_text text :
  run (reply_text text) = (if deliver text is Ok _ then [text] else [], deliver text).
Proof. unfold run, events. simpl. by destruct (deliver text). Qed.

(** Awaiting the network delivers nothing. *)
Lemma run_net {A B} (p : coro netE A) (k : A -> handler B) :
  run (net p ≫= k) =
  match returned p with
  | Ok a => run (k a)
  | Raise e => ([], Raise e)
  end.
Proof.
  unfold run, events. rewrite interp_bind, interp_net. simpl.
  destruct (returned p); simpl; by rewrite ?delivered_app, delivered_net.
Qed.

(** [try]/[except]: what the body delivered before raising stays
    delivered. *)
Lemma run_try_except {A} (body : handler A) handle :
  run (try_except body handle) =
  match (run body).2 with
  | Ok a => ((run body).1, Ok a)
  | Raise e => ((run body).1 ++ (run (handle e)).1, (run (handle e)).2)
  end.
Proof.
  unfold run, events. rewrite interp_try_except. simpl.
  destruct (interp bot_oracle body).2; simpl; by rewrite ?delivered_app.
Qed.

End interp.

(** ** The invariant on sessions *)

Section tidy.
Context {A : Type}.
Implicit Types (h : handler A) (text : string).

Lemma sessions_closed_app (evs1 evs2 : list (event netE)) :
  sessions_closed evs1 -> sessions_closed evs2 -> sessions_closed (evs1 ++ evs2).
Proof. unfold sessions_closed. intros H1 H2. by rewrite protocol_app, H1. Qed.

Lemma tidy_lift (r : result A) : tidy (lift r : handler A).
Proof. by intros evs r' [-> _]. Qed.

Lemma tidy_ret (a : A) : tidy (mret a : handler A).
Proof. by intros evs r' [-> _]. Qed.

Lemma tidy_net (p : coro netE A) :
  (forall evs r, runs p evs r -> sessions_closed evs) -> tidy (net p).
Proof. intros Hp evs r (reqs & -> & Hr)%net_runs. rewrite requests_net. eauto. Qed.

Lemma tidy_and_then {B} (p : handler B) (k : result B -> handler A) :
  tidy p -> (forall r, tidy (k r)) -> tidy (and_then k p).
Proof.
  intros Hp Hk evs r (evs1 & r1 & evs2 & H1 & H2 & ->)%runs_and_then.
  rewrite requests_app. apply sessions_closed_app; [by eapply Hp | by eapply Hk].
Qed.

Lemma tidy_bind {B} (p : handler B) (k : B -> handler A) :
  tidy p -> (forall b, tidy (k b)) -> tidy (p ≫= k).
Proof. intros Hp Hk. apply tidy_and_then; [done|]. intros [b|e]; [done | apply tidy_lift]. Qed.

Lemma tidy_try_except h handle :
  tidy h -> (forall e, tidy (handle e)) -> tidy (try_except h handle).
Proof. intros Hp Hk. apply tidy_and_then; [done|]. intros [b|e]; [apply tidy_ret | done]. Qed.

End tidy.

Lemma tidy_reply_text text : tidy (reply_text text).
Proof. by intros evs r (a & -> & _)%reply_text_runs. Qed.

(** ** Replies through the update *)

Section message.
Implicit Types (u : update) (msg : message) (text : string).

Lemma message_reply_text_None text evs r :
  runs (message_reply_text (Update None) text) evs r <->
  evs = [] /\ r = Raise (none_attribute "reply_text").
Proof. simpl. naive_solver. Qed.

Lemma tidy_message_reply_text u text : tidy (message_reply_text u text).
Proof. destruct u as [[msg|]]; [apply tidy_reply_text | apply tidy_lift]. Qed.

Lemma message_reply_text_within u text : within 1 (message_reply_text u text).
Proof. destruct u as [[msg|]]; [apply reply_text_within | done]. Qed.

End message.

#[export] Hint Resolve tidy_lift tidy_ret tidy_bind tidy_try_except tidy_reply_text : py.
#[export] Hint Resolve tidy_message_reply_text message_reply_text_within : py.
#[export] Hint Resolve reply_text_within net_within : py.

(** ** Chats for the examples *)

(** The chat that delivers every text. *)
Definition open_chat : Chat := {| deliver _ := Ok () |}.

(** The chat that refuses the texts longer than [limit] bytes, as the
    service refuses a message that is too long. *)
Definition limited_chat (limit : nat) : Chat :=
  {| deliver text :=
       if (limit <? String.length text)%nat
       then raise TelegramError "Message is too long"
       else Ok () |}.
