(* ===== verification/Handlers.v ===== *)
(** * Handlers: the commands [/start], [/trending] and [/new]

    [start], [trending] and [new] (src/memecoin_bot.py, lines 95 to
    119) are the handlers of three of the four commands.  [start]
    replies with the help text.  [trending] and [new] reply with a
    progress line, run a scan, and reply with the texts of the scan
    joined by blank lines; whatever the scan or the second reply
    raises is caught and reported in a third kind of reply.  Every
    reply goes through [update.message], which is [None] for an update
    that is no new message: the handler then raises [AttributeError]
    at its first statement.

    The handlers are coroutines of the network and the chat
    (Chat.v).  [scan_command_run] is the specification of the runs of
    a scanning command, for every answer of the service and of the
    chat; the theorems on what the chat shows are stated in a [World]
    and a [Chat]. *)

From S2P Require Import Prelude PyFloat PyStr FloatParse FloatFormat PyValue.
From S2P Require Import Config Normalizer Dates Age Filter Summarizer Sorting.
From S2P Require Import Coroutine Http Scan Chat.

(** The help text of [/start]. *)
Definition welcome : string :=
  "👋 Welcome to the PulseChain Memecoin Finder Bot!" +:+ nl +:+ nl +:+
  "Use these commands:" +:+ nl +:+
  "/trending – Top trending PulseChain meme-like tokens" +:+ nl +:+
  "/new – Newest PulseChain pools" +:+ nl +:+
  "/search <name> – Search for a token (e.g. /search doge)" +:+ nl +:+ nl +:+
  "⚠️ This bot only provides public data. Always DYOR!".

(** The separator ["\n\n"] of the joined texts. *)
Definition blank_line : string := nl +:+ nl.

Definition trending_progress : string := "Scanning trending PulseChain pools...".
Definition new_progress : string := "Scanning new PulseChain pools...".

Section handlers.
Context `{World}.

Definition start (u : update) : handler unit :=
  message_reply_text u welcome.

Definition trending (u : update) : handler unit :=
  message_reply_text u trending_progress;;
  try_except
    (picks ← net (scan_geckoterminal "trending");
     message_reply_text u (join blank_line picks))
    (fun e => message_reply_text u (error_text e)).

Definition new (u : update) : handler unit :=
  message_reply_text u new_progress;;
  try_except
    (picks ← net (scan_geckoterminal "new");
     message_reply_text u (join blank_line picks))
    (fun e => message_reply_text u (error_text e)).

(** ** The specification of a scanning command *)

(** The shape the two handlers share, for an update that carries a
    message. *)
Definition scan_command (kind progress : string) : handler unit :=
  reply_text progress;;
  try_except
    (picks ← net (scan_geckoterminal kind);
     reply_text (join blank_line picks))
    (fun e => reply_text (error_text e)).

(** What the command means to say after the progress line: the report
    of the scan, or the error of the scan. *)
Definition answer_of (scanned : result (list string)) : string :=
  match scanned with
  | Ok picks => join blank_line picks
  | Raise e => error_text e
  end.

Definition answer (kind : string) : string :=
  answer_of (returned (scan_geckoterminal kind)).

(** The events of the scan of a command: the session [c] with its one
    request, answered by [a]. *)
Definition scanned (kind : string) (c : client) (a : result response) : list (event botE) :=
  event_l <$> session c [Got c (endpoint kind) listing_params HTTP_TIMEOUT a].

(** The runs of a scanning command.  The progress line is refused and
    the command raises; or the scan is made and its report is
    delivered; or the report is refused and the refusal is reported; or
    the scan raises and the error is reported.  In the last two cases
    the command raises when the error line is refused in turn. *)
Inductive scan_command_run (kind progress : string) :
    list (event botE) -> result unit -> Prop :=
| run_progress_refused e :
    scan_command_run kind progress [Replied progress (Raise e)] (Raise e)
| run_reported c a picks :
    scan_of a = Ok picks ->
    scan_command_run kind progress
      (Replied progress (Ok ()) :: scanned kind c a ++
       [Replied (join blank_line picks) (Ok ())])
      (Ok ())
| run_report_refused c a picks e a' :
    scan_of a = Ok picks ->
    scan_command_run kind progress
      (Replied progress (Ok ()) :: scanned kind c a ++
       [Replied (join blank_line picks) (Raise e); Replied (error_text e) a'])
      a'
| run_scan_failed c a e a' :
    scan_of a = Raise e ->
    scan_command_run kind progress
      (Replied progress (Ok ()) :: scanned kind c a ++ [Replied (error_text e) a'])
      a'.

End handlers.

(** ** The handlers are scanning commands *)

Section facts.
Context `{World}.
Implicit Types (msg : message) (kind progress : string) (evs : list (event botE)).

Lemma trending_scan_command msg :
  trending (Update (Some msg)) = scan_command "trending" trending_progress.
Proof. reflexivity. Qed.

Lemma new_scan_command msg : new (Update (Some msg)) = scan_command "new" new_progress.
Proof. reflexivity. Qed.

(** Without a message the handlers raise before they await
    anything. *)
Lemma start_no_message : start (Update None) = lift (Raise (none_attribute "reply_text")).
Proof. reflexivity. Qed.

Lemma trending_no_message :
  trending (Update None) = lift (Raise (none_attribute "reply_text")).
Proof. reflexivity. Qed.

Lemma new_no_message : new (Update None) = lift (Raise (none_attribute "reply_text")).
Proof. reflexivity. Qed.

(** The runs of the block under [try]: the scan, then the report when
    the scan returned. *)
Lemma scan_report_runs kind evs r :
  runs (picks ← net (scan_geckoterminal kind); reply_text (join blank_line picks)) evs r <->
  exists c a,
    match scan_of a with
    | Ok picks => exists a', evs = scanned kind c a ++ [Replied (join blank_line picks) a'] /\
                             r = a'
    | Raise e => evs = scanned kind c a /\ r = Raise e
    end.
Proof.
  rewrite runs_bind. setoid_rewrite net_runs. setoid_rewrite scan_geckoterminal_runs.
  setoid_rewrite reply_text_runs. unfold scanned. split.
  - intros [(? & picks & ? & (? & -> & c & a & -> & Hs) & (a' & -> & ->) & ->)|
            (e & (? & -> & c & a & -> & Hs) & ->)]; exists c, a; rewrite <- Hs; by eauto.
  - intros (c & a & Hr). destruct (scan_of a) as [picks|e] eqn:Hs.
    + destruct Hr as (a' & -> & ->). left. eexists _, picks, _. split_and!; [|by eauto|done].
      eexists. split; [done|]. by exists c, a.
    + destruct Hr as [-> ->]. right. exists e. split; [|done].
      eexists. split; [done|]. by exists c, a.
Qed.

(** Refinement: the runs of a scanning command are those of its
    specification. *)
Lemma scan_command_runs kind progress evs r :
  runs (scan_command kind progress) evs r <-> scan_command_run kind progress evs r.
Proof.
  unfold scan_command. rewrite guarded_runs. setoid_rewrite scan_report_runs. split.
  - intros [(e & -> & ->)|(evs' & -> & [[(c & a & Hr) ->]|(evs1 & e & (c & a & Hr) & ->)])];
      [by constructor|..]; destruct (scan_of a) as [picks|e'] eqn:Hs.
    + destruct Hr as (? & -> & <-). by apply run_reported.
    + by destruct Hr as [_ [=]].
    + destruct Hr as (? & -> & <-). rewrite <- app_assoc. by apply run_report_refused.
    + destruct Hr as [-> [= <-]]. by apply run_scan_failed.
  - intros [e|c a picks Hs|c a picks e a' Hs|c a e a' Hs]; [left; by exists e|right..];
      (eexists; split; [done|]).
    + left. split; [|done]. exists c, a. rewrite Hs. by eexists.
    + right. exists (scanned kind c a ++ [Replied (join blank_line picks) (Raise e)]), e.
      rewrite <- app_assoc. split; [|done]. exists c, a. rewrite Hs. by eexists.
    + right. exists (scanned kind c a), e. split; [|done]. exists c, a. by rewrite Hs.
Qed.

Lemma scan_tidy kind : tidy (net (scan_geckoterminal kind)).
Proof.
  apply tidy_net. intros evs r (c & a & -> & _)%scan_geckoterminal_runs.
  apply protocol_session, protocol_Got.
Qed.

Lemma scan_command_tidy kind progress : tidy (scan_command kind progress).
Proof. unfold scan_command. auto 6 using scan_tidy with py. Qed.

(** A scanning command awaits at most six times: the progress line,
    the three calls of the scan, the report and the error line. *)
Lemma scan_command_within kind progress : within 6 (scan_command kind progress).
Proof.
  unfold scan_command. apply (within_bind 1 5); [auto with py|]. intros _.
  apply (within_try_except 4 1); [|auto with py].
  apply (within_bind 3 1); [|auto with py]. apply net_within, scan_geckoterminal_within.
Qed.

End facts.

(** ** In a world and a chat *)

Section delivery.
Context `{World, Chat}.
Implicit Types (msg : message) (kind progress : string).

(** When the progress line is refused the command raises and nothing
    else happens. *)
Lemma scan_command_refused kind progress e :
  deliver progress = Raise e -> run (scan_command kind progress) = ([], Raise e).
Proof. intros Hp. unfold scan_command. by rewrite (run_reply_Raise _ e). Qed.

(** When every text is delivered, the command replies twice. *)
Lemma scan_command_delivered kind progress :
  (forall text, deliver text = Ok ()) ->
  run (scan_command kind progress) = ([progress; answer kind], Ok ()).
Proof.
  intros Hd. unfold scan_command, answer. rewrite run_reply_Ok, run_try_except, run_net by done.
  destruct (returned (scan_geckoterminal kind)) as [picks|e]; cbn [fst snd app];
    by rewrite !run_reply_text, !Hd.
Qed.

(** When the report is refused, the error of the refusal is reported
    in its place. *)
Lemma scan_command_report_refused kind progress picks e :
  deliver progress = Ok () -> returned (scan_geckoterminal kind) = Ok picks ->
  deliver (join blank_line picks) = Raise e -> deliver (error_text e) = Ok () ->
  run (scan_command kind progress) = ([progress; error_text e], Ok ()).
Proof.
  intros Hp Hs Hr He. unfold scan_command.
  rewrite run_reply_Ok, run_try_except, run_net, Hs by done.
  rewrite !run_reply_text, Hr. cbn [fst snd app]. by rewrite run_reply_text, He.
Qed.

Lemma answer_not_empty kind : answer kind <> ""%string.
Proof.
  unfold answer. destruct (returned (scan_geckoterminal kind)) as [picks|e] eqn:Hs; [|done].
  destruct (scan_texts_nonempty _ _ Hs) as [Hne Hall].
  destruct picks as [|p ps]; [done|]. apply join_nonempty. by inversion Hall.
Qed.

End delivery.

(** ** The contract of the handlers *)

Section contract.
Context `{World, Chat}.
Implicit Types (msg : message) (e : exn).

(** C20: when the chat delivers every text, [/trending] and [/new]
    reply exactly twice: the progress line, then the texts of the scan
    joined by blank lines or, when the scan raised, the error line.
    The handler itself does not raise. *)
Theorem scan_handlers_reply msg :
  (forall text, deliver text = Ok ()) ->
  run (trending (Update (Some msg))) = ([trending_progress; answer "trending"], Ok ()) /\
  run (new (Update (Some msg))) = ([new_progress; answer "new"], Ok ()).
Proof. intros Hd. split; by apply scan_command_delivered. Qed.

(** A scan that fails is reported and nothing of the listing is
    shown: the replies are the progress line and the error line with
    the message of the exception. *)
Theorem trending_scan_error msg e :
  (forall text, deliver text = Ok ()) ->
  returned (scan_geckoterminal "trending") = Raise e ->
  run (trending (Update (Some msg))) = ([trending_progress; "⚠️ Error: " +:+ exn_msg e], Ok ()).
Proof.
  intros Hd He. rewrite trending_scan_command, scan_command_delivered by done.
  unfold answer. by rewrite He.
Qed.

(** C32: when the chat refuses the report (a text that is too long),
    the handler reports the refusal in place of the report. *)
Theorem trending_report_refused msg picks e :
  deliver trending_progress = Ok () -> returned (scan_geckoterminal "trending") = Ok picks ->
  deliver (join blank_line picks) = Raise e -> deliver (error_text e) = Ok () ->
  run (trending (Update (Some msg))) = ([trending_progress; error_text e], Ok ()).
Proof. apply scan_command_report_refused. Qed.

(** The text a scanning command means to send is never empty,
    so the chat does not refuse it for being empty. *)
Theorem answer_nonempty kind : (0 < String.length (answer kind))%nat.
Proof.
  pose proof (answer_not_empty kind) as Hne.
  destruct (answer kind); [done | simpl; lia].
Qed.

(** [/start] replies with the help text and does not look at the
    service. *)
Theorem start_replies msg :
  deliver welcome = Ok () -> run (start (Update (Some msg))) = ([welcome], Ok ()).
Proof. intros Hd. unfold start; simpl. by rewrite run_reply_text, Hd. Qed.

End contract.

(** ** The contract, for every answer of the service and the chat *)

Section runs_contract.
Context `{World}.
Implicit Types (msg : message) (e : exn) (evs : list (event botE)) (r : result unit).

(** What the chat shows after a run of a scanning command. *)
Lemma scan_command_delivers kind progress evs r :
  scan_command_run kind progress evs r ->
  delivered evs = [] \/ delivered evs = [progress] \/
  exists text, delivered evs = [progress; text].
Proof.
  intros [e|c a picks Hs|c a picks e a' Hs|c a e a' Hs];
    rewrite delivered_cons_Replied, ?delivered_app; unfold scanned;
    rewrite ?delivered_net, ?delivered_cons_Replied; simpl; try destruct a'; simpl; eauto.
Qed.

(** A command that raises raises the exception of its last reply. *)
Lemma scan_command_raises kind progress evs r e :
  scan_command_run kind progress evs r -> r = Raise e ->
  exists text evs', evs = evs' ++ [Replied text (Raise e)].
Proof.
  intros [e'|c a picks Hs|c a picks e' a' Hs|c a e' a' Hs] Hr; simplify_eq.
  - by exists progress, [].
  - exists (error_text e'),
      (Replied progress (Ok ()) :: scanned kind c a ++ [Replied (join blank_line picks) (Raise e')]).
    by rewrite <- app_comm_cons, <- app_assoc.
  - by exists (error_text e'), (Replied progress (Ok ()) :: scanned kind c a).
Qed.

(** The report is sent after the session of the scan is closed: the
    events of the network come between the progress line and the
    second reply. *)
Lemma scan_command_requests kind progress evs r :
  scan_command_run kind progress evs r ->
  requests evs = [] \/
  exists c a, requests evs = session c [Got c (endpoint kind) listing_params HTTP_TIMEOUT a].
Proof.
  intros [e|c a picks Hs|c a picks e a' Hs|c a e a' Hs]; [by left|right; exists c, a..];
    rewrite requests_Replied, requests_app; unfold scanned; by rewrite requests_net, app_nil_r.
Qed.

(** A scanning command asks the service once, for the listing of its
    kind, and does not try again. *)
Lemma scan_command_single kind progress evs r :
  runs (scan_command kind progress) evs r -> single_request [endpoint kind] (requests evs).
Proof.
  intros [->|(c & a & ->)]%scan_command_runs%scan_command_requests; [by left|right].
  exists c, (endpoint kind), listing_params, a. split; [set_solver | done].
Qed.

(** C9: refinement: the runs of [/trending] and [/new], whatever the
    service and the chat answer, are the four runs of the
    specification: the progress line is refused; or one session with
    one request is opened and closed, and then the report is
    delivered, or refused and the refusal reported, or the error of
    the scan is reported. *)
Theorem scan_handlers_runs msg evs r :
  (runs (trending (Update (Some msg))) evs r <-> scan_command_run "trending" trending_progress evs r) /\
  (runs (new (Update (Some msg))) evs r <-> scan_command_run "new" new_progress evs r).
Proof. split; apply scan_command_runs. Qed.

(** The chat shows at most two texts of [/trending] and of [/new],
    the progress line first, whatever the chat and the service do. *)
Theorem scan_handlers_replies msg evs r :
  runs (trending (Update (Some msg))) evs r ->
  delivered evs = [] \/ delivered evs = [trending_progress] \/
  exists text, delivered evs = [trending_progress; text].
Proof. intros Hr%scan_command_runs. by eapply scan_command_delivers. Qed.

(** C33: no exception of the service or of a record leaves a scanning
    command: when [/trending] raises, it raises what the chat answered
    to its last reply. *)
Theorem scan_handlers_raise msg evs e :
  runs (trending (Update (Some msg))) evs (Raise e) ->
  exists text evs', evs = evs' ++ [Replied text (Raise e)].
Proof. intros Hr%scan_command_runs. by eapply scan_command_raises. Qed.

End runs_contract.

(** ** The contract, on the examples *)

(** The service does not answer. *)
Definition silent_world : World :=
  static_world (fun _ => raise TransportError "timed out") demo_now.

(** The events of the demo scan: session [0], one request. *)
Definition demo_answer : result response :=
  Ok (ok_response (PDict [("data", PList demo_pools)])).

Lemma scan_handlers_reply_witness :
  run (H := demo_world) (H0 := open_chat)
      (trending (H := demo_world) (Update (Some (Message (Some "/trending"))))) =
    ([trending_progress; join blank_line demo_report], Ok ()) /\
  run (H := demo_world) (H0 := open_chat)
      (new (H := demo_world) (Update (Some (Message (Some "/trending"))))) =
    ([new_progress; placeholder], Ok ()).
Proof.
  destruct (scan_handlers_reply (H := demo_world) (H0 := open_chat) (Message (Some "/trending"))
              (fun _ => eq_refl)) as [-> ->].
  split; by vm_compute.
Defined.

Lemma trending_scan_error_witness :
  run (H := silent_world) (H0 := open_chat)
      (trending (H := silent_world) (Update (Some (Message (Some "/trending"))))) =
  ([trending_progress; "⚠️ Error: timed out"], Ok ()).
Proof.
  by apply (trending_scan_error (H := silent_world) (H0 := open_chat) _
              (Exn TransportError "timed out")).
Defined.

Lemma trending_report_refused_witness :
  run (H := demo_world) (H0 := limited_chat 100)
      (trending (H := demo_world) (Update (Some (Message (Some "/trending"))))) =
  ([trending_progress; "⚠️ Error: Message is too long"], Ok ()).
Proof.
  apply (trending_report_refused (H := demo_world) (H0 := limited_chat 100) _ demo_report
           (Exn TelegramError "Message is too long")); by vm_compute.
Defined.

Lemma start_replies_witness :
  run (H := demo_world) (H0 := open_chat) (start (Update (Some (Message (Some "/start"))))) = ([welcome], Ok ()).
Proof. by apply (start_replies (H := demo_world) (H0 := open_chat)). Defined.

(** The run of [/trending] in the demo world when the chat delivers. *)
Definition demo_run : list (event botE) :=
  Replied trending_progress (Ok ()) :: scanned "trending" 0 demo_answer ++
  [Replied (join blank_line demo_report) (Ok ())].

Lemma demo_run_runs :
  runs (trending (H := demo_world) (Update (Some (Message (Some "/trending"))))) demo_run (Ok ()).
Proof.
  rewrite trending_scan_command. apply scan_command_runs.
  apply (run_reported (H := demo_world)). by vm_compute.
Qed.

Lemma scan_handlers_replies_witness :
  delivered demo_run = [] \/ delivered demo_run = [trending_progress] \/
  exists text, delivered demo_run = [trending_progress; text].
Proof.
  exact (scan_handlers_replies (H := demo_world) (Message (Some "/trending")) demo_run (Ok ())
           demo_run_runs).
Defined.

(** A run in which the service answers and the chat refuses the
    report and then the error line. *)
Definition refused_run : list (event botE) :=
  Replied trending_progress (Ok ()) :: scanned "trending" 7 demo_answer ++
  [Replied (join blank_line demo_report) (raise TelegramError "Message is too long");
   Replied "⚠️ Error: Message is too long" (raise TelegramError "Flood control exceeded")].

Lemma refused_run_runs :
  runs (trending (H := demo_world) (Update (Some (Message (Some "/trending"))))) refused_run
    (raise TelegramError "Flood control exceeded").
Proof.
  rewrite trending_scan_command. apply scan_command_runs.
  apply (run_report_refused (H := demo_world) "trending" trending_progress 7 demo_answer
           demo_report (Exn TelegramError "Message is too long")).
  by vm_compute.
Qed.

Lemma scan_handlers_raise_witness :
  exists text evs', refused_run = evs' ++ [Replied text (raise TelegramError "Flood control exceeded")].
Proof.
  exact (scan_handlers_raise (H := demo_world) (Message (Some "/trending")) refused_run _
           refused_run_runs).
Defined.
