(* ===== verification/Search.v ===== *)
(** * Search: the command [/search]

    [search] (src/memecoin_bot.py, lines 121 to 149) takes the words
    after the command as a search term, asks DexScreener for the pairs
    that match it, keeps the pairs of the PulseChain network, and
    replies with one line for each of the first ten.  Unlike the scan
    it applies no threshold and does not sort.

    A pair is read less defensively than a pool of a listing: the two
    token symbols are subscripts ([p["baseToken"]["symbol"]]) and the
    price goes through [float], not [usd], so a pair without them
    raises; the exception ends the loop and is reported in the reply.

    [search_run] is the specification of the runs of the handler for
    every answer of the service and the chat; the theorems on what the
    chat shows are stated in a [World] and a [Chat]. *)

From S2P Require Import Prelude PyFloat PyStr FloatParse FloatFormat PyValue.
From S2P Require Import Config Normalizer Dates Age Filter Summarizer Sorting.
From S2P Require Import Coroutine Http Scan Chat Handlers.

Definition usage : string := "Usage: /search <token name>".

Definition no_results : string := "(no PulseChain results found)".

(** [f"Searching for '{term}' on PulseChain..."] *)
Definition search_progress (term : string) : string :=
  "Searching for '" +:+ term +:+ "' on PulseChain...".

(** The line of a pair, from its printed fields. *)
Definition search_text (base quote price liq tx url : string) : string :=
  "• " +:+ base +:+ "/" +:+ quote +:+ "  $" +:+ price +:+ "  Liq $" +:+ liq +:+
  "  tx/hr " +:+ tx +:+ nl +:+ "  " +:+ url.

(** [p.get(k1, {}).get(k2, {}).get(k3, 0)] *)
Definition get3 (p : pyval) (k1 k2 k3 : string) : result pyval :=
  a ← py_get p k1 (PDict []);
  b ← py_get a k2 (PDict []);
  py_get b k3 (PInt 0).

(** The body of the loop on the pair [p]: [None] is [continue], a line
    is what is appended to [lines]. *)
Definition search_line (p : pyval) : result (option string) :=
  chain ← py_get p "chainId" PNone;
  if negb (py_in_strs chain ["pulsechain"; "pulse"]) then Ok None
  else
    base ← py_getitem p "baseToken" ≫= fun t => py_getitem t "symbol";
    quote ← py_getitem p "quoteToken" ≫= fun t => py_getitem t "symbol";
    url ← py_get p "url" PNone;
    liq ← usd <$> (py_get p "liquidity" (PDict []) ≫= fun l => py_get l "usd" PNone);
    buys ← get3 p "txns" "h1" "buys";
    sells ← get3 p "txns" "h1" "sells";
    tx ← py_add buys sells;
    price ← py_get p "priceUsd" PNone;
    s_base ← py_str base;
    s_quote ← py_str quote;
    f_price ← py_float price;
    s_tx ← py_str tx;
    s_url ← py_str url;
    Ok (Some (search_text s_base s_quote (format_f true 8 f_price) (format_f true 0 liq)
                s_tx s_url)).

Definition search_step (lines : list string) (p : pyval) : result (list string) :=
  search_line p ≫= fun o : option string =>
  Ok (match o with Some line => lines ++ [line] | None => lines end).

(** ** The program *)

Definition search (u : update) : handler unit :=
  text ← lift (update_message_text u);
  match split_once (default "" text) with
  | _ :: term :: _ =>
      message_reply_text u (search_progress term);;
      try_except
        (js ← net (async_with_client (fun client =>
                     fetch_json client DEX_SEARCH [("q", term)]%string));
         lines ← lift (pairs ← py_get js "pairs" (PList []);
                       items ← py_iter pairs;
                       for_loop search_step [] items);
         if bool_decide (lines = []) then message_reply_text u no_results
         else message_reply_text u (join blank_line (take 10 lines)))
        (fun e => message_reply_text u (error_text e))
  | _ => message_reply_text u usage
  end.

(** ** The specification *)

(** The pairs in the answer [a] of the service, in its order. *)
Definition pairs_in (a : result response) : result (list pyval) :=
  js ← decoded a;
  pairs ← py_get js "pairs" (PList []);
  py_iter pairs.

(** The lines the loop makes of the answer [a]. *)
Definition lines_of (a : result response) : result (list string) :=
  items ← pairs_in a;
  for_loop search_step [] items.

(** The text of the second reply, from the lines. *)
Definition result_text (lines : list string) : string :=
  if bool_decide (lines = []) then no_results else join blank_line (take 10 lines).

(** The events of the search for [term]: the session [c] with its one
    request, answered by [a]. *)
Definition searched (term : string) (c : client) (a : result response)
    : list (event botE) :=
  event_l <$> session c [Got c DEX_SEARCH [("q", term)]%string HTTP_TIMEOUT a].

(** The runs of [/search term]: as those of a scanning command, with
    the lines of the pairs in place of the report. *)
Inductive search_run (term : string) : list (event botE) -> result unit -> Prop :=
| search_progress_refused e :
    search_run term [Replied (search_progress term) (Raise e)] (Raise e)
| search_answered c a lines :
    lines_of a = Ok lines ->
    search_run term
      (Replied (search_progress term) (Ok ()) :: searched term c a ++
       [Replied (result_text lines) (Ok ())])
      (Ok ())
| search_answer_refused c a lines e a' :
    lines_of a = Ok lines ->
    search_run term
      (Replied (search_progress term) (Ok ()) :: searched term c a ++
       [Replied (result_text lines) (Raise e); Replied (error_text e) a'])
      a'
| search_failed c a e a' :
    lines_of a = Raise e ->
    search_run term
      (Replied (search_progress term) (Ok ()) :: searched term c a ++
       [Replied (error_text e) a'])
      a'.

(** *** In a world *)

Section world.
Context `{World}.

(** The pairs the world returns for [term]. *)
Definition pairs_of (term : string) : result (list pyval) :=
  pairs_in (http_get DEX_SEARCH [("q", term)]%string HTTP_TIMEOUT).

Definition search_lines (term : string) : result (list string) :=
  lines_of (http_get DEX_SEARCH [("q", term)]%string HTTP_TIMEOUT).

(** What the command means to say after the progress line. *)
Definition search_answer (term : string) : string :=
  match search_lines term with
  | Ok lines => result_text lines
  | Raise e => error_text e
  end.

End world.

(** ** The loop *)

Section loop.
Implicit Types (term : string) (p : pyval) (lines : list string) (a : result response).

(** Refinement: the loop computes the lines of the pairs it does not
    skip, in the order of the answer. *)
Lemma lines_of_spec a :
  lines_of a =
  items ← pairs_in a;
  os ← traverse search_line items;
  Ok (omap (M := list) id os).
Proof.
  unfold lines_of. destruct (pairs_in a) as [items|]; simpl; [|done].
  apply (for_loop_collect search_line []).
Qed.

Lemma lines_of_decoded a :
  lines_of a =
  js ← decoded a;
  pairs ← py_get js "pairs" (PList []);
  items ← py_iter pairs;
  for_loop search_step [] items.
Proof.
  unfold lines_of, pairs_in. destruct (decoded a) as [js|]; simpl; [|done].
  by destruct (py_get js _ _).
Qed.

(** A pair of another network is skipped before any other field is
    read. *)
Lemma search_line_other_chain p chain :
  py_get p "chainId" PNone = Ok chain -> py_in_strs chain ["pulsechain"; "pulse"] = false ->
  search_line p = Ok None.
Proof. unfold search_line. intros -> Hc. by rewrite bind_Ok, Hc. Qed.

Lemma search_line_not_dict p :
  (forall d, p <> PDict d) -> search_line p = no_attribute p "get".
Proof.
  intros Hp. unfold search_line. rewrite (py_get_not_dict _ "chainId") by done. reflexivity.
Qed.

(** A line opens with the bullet. *)
Lemma search_line_bullet p line : search_line p = Ok (Some line) -> exists r, line = "• " +:+ r.
Proof.
  unfold search_line. intros Hs. apply bind_Ok_inv in Hs as (chain & _ & Hs).
  destruct (negb _); [done|].
  repeat (apply bind_Ok_inv in Hs as (? & _ & Hs)). injection Hs as <-.
  unfold search_text. eauto.
Qed.

End loop.

(** ** The handler *)

Section handler.
Implicit Types (msg : message) (term : string) (evs : list (event botE)) (r : result unit).

(** The block under [try], for the term [term]. *)
Definition search_block (term : string) : handler unit :=
  js ← net (async_with_client (fun client =>
               fetch_json client DEX_SEARCH [("q", term)]%string));
  lines ← lift (pairs ← py_get js "pairs" (PList []);
                items ← py_iter pairs;
                for_loop search_step [] items);
  if bool_decide (lines = []) then reply_text no_results
  else reply_text (join blank_line (take 10 lines)).

(** The handler, for an update whose message has the text [text]. *)
Definition search_message (text : option string) : handler unit :=
  match split_once (default "" text) with
  | _ :: term :: _ =>
      reply_text (search_progress term);;
      try_except (search_block term) (fun e => reply_text (error_text e))
  | _ => reply_text usage
  end.

Lemma search_Some msg : search (Update (Some msg)) = search_message (message_text msg).
Proof. reflexivity. Qed.

(** Without a message the handler raises before it awaits
    anything. *)
Lemma search_None : search (Update None) = lift (Raise (none_attribute "text")).
Proof. reflexivity. Qed.

(** Without a term the command replies with the usage line and asks
    the service nothing. *)
Lemma search_no_term msg :
  (length (split_once (default "" (message_text msg))) < 2)%nat ->
  search (Update (Some msg)) = reply_text usage.
Proof.
  rewrite search_Some. unfold search_message.
  destruct (split_once _) as [|? [|? ?]]; simpl; [done..|lia].
Qed.

Lemma search_term msg cmd term rest :
  split_once (default "" (message_text msg)) = cmd :: term :: rest ->
  search (Update (Some msg)) =
  (reply_text (search_progress term);;
   try_except (search_block term) (fun e => reply_text (error_text e))).
Proof. rewrite search_Some. unfold search_message. by intros ->. Qed.

Lemma search_block_runs term evs r :
  runs (search_block term) evs r <->
  exists c a,
    match lines_of a with
    | Ok lines => exists a', evs = searched term c a ++ [Replied (result_text lines) a'] /\
                             r = a'
    | Raise e => evs = searched term c a /\ r = Raise e
    end.
Proof.
  unfold search_block. rewrite runs_bind. setoid_rewrite net_runs.
  setoid_rewrite fetch_session_runs. setoid_rewrite runs_lift_bind. split.
  - intros [(? & js & ? & (? & -> & c & a & -> & Hd) & Hl & ->)|
            (e & (? & -> & c & a & -> & Hd) & ->)]; exists c, a; unfold searched;
      rewrite lines_of_decoded, <- Hd; simpl; [|done].
    destruct (py_get js _ _ ≫= _) as [lines|e]; [|by destruct Hl as [-> ->]].
    unfold result_text.
    destruct (bool_decide _); apply reply_text_runs in Hl as (a' & -> & ->); by exists a'.
  - intros (c & a & Hr). rewrite lines_of_decoded in Hr.
    destruct (decoded a) as [js|e] eqn:Hd; simpl in Hr.
    + left. destruct (py_get js _ _ ≫= _) as [lines|e] eqn:Hl.
      * destruct Hr as (a' & -> & ->).
        exists (searched term c a), js, [Replied (result_text lines) a'].
        split_and!; [eexists; split; [done|]; by exists c, a | | done].
        rewrite Hl. unfold result_text.
        destruct (bool_decide _); apply reply_text_runs; by exists a'.
      * destruct Hr as [-> ->]. exists (searched term c a), js, [].
        split_and!; [eexists; split; [done|]; by exists c, a | by rewrite Hl
                    | by rewrite app_nil_r].
    + destruct Hr as [-> ->]. right. exists e. split; [|done].
      eexists. split; [done|]. by exists c, a.
Qed.

(** Refinement: the runs of [/search term] are those of its
    specification. *)
Lemma search_term_runs msg cmd term rest evs r :
  split_once (default "" (message_text msg)) = cmd :: term :: rest ->
  runs (search (Update (Some msg))) evs r <-> search_run term evs r.
Proof.
  intros Hs. rewrite (search_term _ _ _ _ Hs), guarded_runs.
  setoid_rewrite search_block_runs. split.
  - intros [(e & -> & ->)|(evs' & -> & [[(c & a & Hr) ->]|(evs1 & e & (c & a & Hr) & ->)])];
      [by constructor|..]; destruct (lines_of a) as [lines|e'] eqn:Hl.
    + destruct Hr as (? & -> & <-). by apply search_answered.
    + by destruct Hr as [_ [=]].
    + destruct Hr as (? & -> & <-). rewrite <- app_assoc. by apply search_answer_refused.
    + destruct Hr as [-> [= <-]]. by apply search_failed.
  - intros [e|c a lines Hl|c a lines e a' Hl|c a e a' Hl]; [left; by exists e|right..];
      (eexists; split; [done|]).
    + left. split; [|done]. exists c, a. rewrite Hl. by eexists.
    + right. exists (searched term c a ++ [Replied (result_text lines) (Raise e)]), e.
      rewrite <- app_assoc. split; [|done]. exists c, a. rewrite Hl. by eexists.
    + right. exists (searched term c a), e. split; [|done]. exists c, a. by rewrite Hl.
Qed.

(** [/search] asks the service at most once, and only for a term. *)
Lemma search_single (u : update) evs r :
  runs (search u) evs r -> single_request [DEX_SEARCH] (requests evs).
Proof.
  destruct u as [[msg|]]; [|intros [-> _]; by left].
  destruct (split_once (default "" (message_text msg))) as [|cmd [|term rest]] eqn:Hs;
    [| |rewrite (search_term_runs msg cmd term rest) by done];
    [rewrite search_no_term by (rewrite Hs; simpl; lia);
     intros (a & -> & _)%reply_text_runs; by left..|].
  intros [e|c a lines Hl|c a lines e a' Hl|c a e a' Hl]; [by left|right..];
    exists c, DEX_SEARCH, [("q", term)]%string, a; (split; [set_solver|]);
    rewrite requests_Replied, requests_app; unfold searched; by rewrite requests_net, app_nil_r.
Qed.

Lemma search_block_tidy term : tidy (search_block term).
Proof.
  unfold search_block. apply tidy_bind.
  - apply tidy_net. intros evs r. apply fetch_session_closed.
  - intros js. apply tidy_bind; [apply tidy_lift|]. intros lines.
    destruct (bool_decide _); apply tidy_reply_text.
Qed.

Lemma search_tidy (u : update) : tidy (search u).
Proof.
  destruct u as [[msg|]]; [rewrite search_Some|apply tidy_lift].
  unfold search_message. destruct (split_once _) as [|cmd [|term rest]]; [auto with py..|].
  auto using search_block_tidy with py.
Qed.

(** [/search] awaits at most six times. *)
Lemma search_within (u : update) : within 6 (search u).
Proof.
  destruct u as [[msg|]]; [rewrite search_Some|done].
  unfold search_message. destruct (split_once _) as [|cmd [|term rest]];
    [apply (within_mono 1); [lia | auto with py]..|].
  apply (within_bind 1 5); [auto with py|]. intros _.
  apply (within_try_except 4 1); [|auto with py]. unfold search_block.
  apply (within_bind 3 1).
  { apply net_within, (async_with_client_within 1). auto with py. }
  intros js. apply (within_bind 0 1); [done|]. intros lines.
  destruct (bool_decide _); auto with py.
Qed.

End handler.

(** ** In a world and a chat *)

Section delivery.
Context `{World, Chat}.
Implicit Types (msg : message) (term : string).

Lemma search_block_returned term :
  run (search_block term) =
  match search_lines term with
  | Ok lines => run (reply_text (result_text lines))
  | Raise e => ([], Raise e)
  end.
Proof.
  unfold search_block, search_lines. rewrite run_net, fetch_session_returned.
  unfold fetched. rewrite lines_of_decoded.
  destruct (decoded _) as [js|]; [rewrite bind_Ok, lift_bind | done].
  destruct (py_get js _ _ ≫= _) as [lines|]; [|apply run_lift].
  unfold result_text. by destruct (bool_decide _).
Qed.

Lemma search_delivered msg cmd term rest :
  (forall text, deliver text = Ok ()) ->
  split_once (default "" (message_text msg)) = cmd :: term :: rest ->
  run (search (Update (Some msg))) = ([search_progress term; search_answer term], Ok ()).
Proof.
  intros Hd Hs. rewrite (search_term _ _ _ _ Hs).
  rewrite run_reply_Ok, run_try_except, search_block_returned by done. unfold search_answer.
  destruct (search_lines term) as [lines|e]; cbn [fst snd app];
    by rewrite !run_reply_text, !Hd.
Qed.

End delivery.

(** ** A world for the examples *)

(** A pair as the service spells it. *)
Definition pair_record (chain base : string) (price : pyval) : pyval :=
  PDict [("chainId", PStr chain);
         ("baseToken", PDict [("symbol", PStr base)]);
         ("quoteToken", PDict [("symbol", PStr "WPLS")]);
         ("priceUsd", price);
         ("liquidity", PDict [("usd", PFloat (float_of_Z 12500))]);
         ("txns", PDict [("h1", PDict [("buys", PInt 7); ("sells", PInt 5)])]);
         ("url", PStr ("https://dexscreener.com/pulsechain/" +:+ base))]%string.

Definition demo_pairs : list pyval :=
  [ pair_record "ethereum" "DOGE" (PStr "0.1");
    pair_record "pulsechain" "DOGE" (PStr "0.00012345");
    pair_record "pulse" "PDOGE" (PStr "2.5") ].

Definition search_world : World :=
  static_world (fun _ => Ok (ok_response (PDict [("pairs", PList demo_pairs)]))) demo_now.

Definition doge_line : string :=
  search_text "DOGE" "WPLS" "0.00012345" "12,500" "12" "https://dexscreener.com/pulsechain/DOGE".

Definition pdoge_line : string :=
  search_text "PDOGE" "WPLS" "2.50000000" "12,500" "12"
    "https://dexscreener.com/pulsechain/PDOGE".

(** ** The contract of the search *)

Section contract.
Context `{World, Chat}.
Implicit Types (msg : message) (term : string) (p : pyval).

(** C22: when the chat delivers every text, [/search term] replies
    twice: the progress line with the term, then the lines of the
    PulseChain pairs among the pairs the service returns, in its order
    and cut to ten, joined by blank lines; or the line "no results"
    when there is none; or the error line when the request or a pair
    raised. *)
Theorem search_replies msg cmd term rest :
  (forall text, deliver text = Ok ()) ->
  split_once (default "" (message_text msg)) = cmd :: term :: rest ->
  run (search (Update (Some msg))) =
  ([search_progress term;
    match items ← pairs_of term; traverse search_line items with
    | Ok os =>
        if bool_decide (omap id os = []) then no_results
        else join blank_line (take 10 (omap id os))
    | Raise e => error_text e
    end], Ok ()).
Proof.
  intros Hd Hs. rewrite (search_delivered _ _ _ _ Hd Hs). do 3 f_equal.
  unfold search_answer, search_lines, pairs_of. rewrite lines_of_spec.
  destruct (pairs_in _) as [items|]; simpl; [|done].
  by destruct (traverse search_line items) as [os|].
Qed.

(** Without a term ([/search] alone, or followed by white space
    only, or a message without text) the command replies with the usage
    line and nothing else. *)
Theorem search_usage msg :
  deliver usage = Ok () ->
  (length (split_once (default "" (message_text msg))) < 2)%nat ->
  run (search (Update (Some msg))) = ([usage], Ok ()).
Proof. intros Hd Hn. rewrite search_no_term by done. by rewrite run_reply_text, Hd. Qed.

End contract.

Section runs_contract.
Implicit Types (msg : message) (term : string) (p : pyval) (evs : list (event botE)).

(** [/search] either replies with the usage line or searches for
    a term that is not empty and does not begin with white space:
    everything that follows the first word of the message. *)
Theorem search_cases msg :
  search (Update (Some msg)) = reply_text usage \/
  exists term,
    (0 < String.length term)%nat /\ space_width (list_ascii_of_string term) = 0%nat /\
    search (Update (Some msg)) =
    (reply_text (search_progress term);;
     try_except (search_block term) (fun e => reply_text (error_text e))).
Proof.
  destruct (split_once (default "" (message_text msg))) as [|cmd [|term rest]] eqn:Hs.
  - left. apply search_no_term. rewrite Hs. simpl. lia.
  - left. apply search_no_term. rewrite Hs. simpl. lia.
  - right. exists term. destruct (split_once_second _ _ _ _ Hs) as (_ & Hne & Hsp).
    split_and!; [destruct term; [done | simpl; lia] | done | by eapply search_term].
Qed.

(** C21: refinement: the runs of [/search], whatever the service and the
    chat answer.  With a term they are the four runs of the
    specification: the progress line is refused; or one session with
    one request for the term is opened and closed, and then the lines
    are delivered, or refused and the refusal reported, or the error of
    the request or of a pair is reported.  Without a term the usage
    line is the only call: the service is not asked. *)
Theorem search_runs msg evs r :
  runs (search (Update (Some msg))) evs r <->
  match split_once (default "" (message_text msg)) with
  | _ :: term :: _ => search_run term evs r
  | _ => evs = [Replied usage r]
  end.
Proof.
  destruct (split_once (default "" (message_text msg))) as [|cmd [|term rest]] eqn:Hs;
    [| |by apply (search_term_runs msg cmd term rest)];
    (rewrite search_no_term by (rewrite Hs; simpl; lia)); rewrite reply_text_runs;
    naive_solver.
Qed.

(** A pair whose [chainId] is neither ["pulsechain"] nor ["pulse"]
    yields no line, whatever its other fields are. *)
Theorem search_other_chain_skipped p chain :
  py_get p "chainId" PNone = Ok chain ->
  py_in_strs chain ["pulsechain"; "pulse"] = false ->
  search_line p = Ok None.
Proof. apply search_line_other_chain. Qed.

End runs_contract.

Section required.
Implicit Types (d : pydict) (chain : pyval).

#[local] Ltac on_chain Hc Hin :=
  unfold search_line; rewrite (py_get_dict _ "chainId"), Hc; cbn [from_option id];
  rewrite bind_Ok, Hin; cbn [negb].

(** A pair of the network without the token [k] raises [KeyError]. *)
Lemma search_line_no_base d chain :
  dict_lookup "chainId" d = Some chain -> py_in_strs chain ["pulsechain"; "pulse"] = true ->
  dict_lookup "baseToken" d = None ->
  search_line (PDict d) = Raise (Exn KeyError "'baseToken'").
Proof.
  intros Hc Hin Hb. on_chain Hc Hin. cbn [py_getitem]. by rewrite Hb.
Qed.

Lemma search_line_no_quote d chain b :
  dict_lookup "chainId" d = Some chain -> py_in_strs chain ["pulsechain"; "pulse"] = true ->
  (py_getitem (PDict d) "baseToken" ≫= fun t => py_getitem t "symbol") = Ok b ->
  dict_lookup "quoteToken" d = None ->
  search_line (PDict d) = Raise (Exn KeyError "'quoteToken'").
Proof.
  intros Hc Hin Hb Hq. on_chain Hc Hin. rewrite Hb, bind_Ok. cbn [py_getitem]. by rewrite Hq.
Qed.

(** The line of a pair of the network is made or raises: the pair is
    not skipped. *)
Lemma search_line_on_chain d chain :
  dict_lookup "chainId" d = Some chain -> py_in_strs chain ["pulsechain"; "pulse"] = true ->
  search_line (PDict d) <> Ok None.
Proof.
  intros Hc Hin. on_chain Hc Hin. intros Hs.
  repeat (apply bind_Ok_inv in Hs as (? & _ & Hs)). done.
Qed.

(** What a pair has when its line is made. *)
Lemma search_line_fields d line :
  search_line (PDict d) = Ok (Some line) ->
  exists b q price (f : float),
    (py_getitem (PDict d) "baseToken" ≫= fun t => py_getitem t "symbol") = Ok b /\
    (py_getitem (PDict d) "quoteToken" ≫= fun t => py_getitem t "symbol") = Ok q /\
    dict_lookup "priceUsd" d = Some price /\ py_float price = Ok f.
Proof.
  unfold search_line. intros Hs. apply bind_Ok_inv in Hs as (chain & _ & Hs).
  destruct (negb _); [done|].
  apply bind_Ok_inv in Hs as (b & Hb & Hs). apply bind_Ok_inv in Hs as (q & Hq & Hs).
  do 5 (apply bind_Ok_inv in Hs as (? & _ & Hs)).
  apply bind_Ok_inv in Hs as (price & Hp & Hs). do 2 (apply bind_Ok_inv in Hs as (? & _ & Hs)).
  apply bind_Ok_inv in Hs as (f & Hf & _). exists b, q, price, f. split_and!; [done|done| |done].
  rewrite py_get_dict in Hp. injection Hp as <-.
  destruct (dict_lookup "priceUsd" d); [done | by simpl in Hf].
Qed.

(** A pair of the network whose price is absent or [None] gives no
    line. *)
Lemma search_line_no_price d chain :
  dict_lookup "chainId" d = Some chain -> py_in_strs chain ["pulsechain"; "pulse"] = true ->
  default PNone (dict_lookup "priceUsd" d) = PNone ->
  exists e, search_line (PDict d) = Raise e.
Proof.
  intros Hc Hin Hp. destruct (search_line (PDict d)) as [[line|]|e] eqn:Hs; [| |by eauto].
  - apply search_line_fields in Hs as (_ & _ & price & f & _ & _ & Hl & Hf).
    rewrite Hl in Hp. simpl in Hp. by subst.
  - by destruct (search_line_on_chain d chain Hc Hin).
Qed.

(** C34: the fields [/search] cannot do without.  For every pair of
    the PulseChain network: without [baseToken], and with it but
    without [quoteToken], the line raises [KeyError]; when the price
    is absent or [None] it raises too, whatever the other fields are;
    and whenever a line is made, its pair has both tokens with a
    symbol and a price that [float] accepts.  The scan would print
    [None] and [0.00000000] for such a pool. *)
Theorem search_line_required_fields d chain :
  dict_lookup "chainId" d = Some chain ->
  py_in_strs chain ["pulsechain"; "pulse"] = true ->
  (dict_lookup "baseToken" d = None ->
   search_line (PDict d) = Raise (Exn KeyError "'baseToken'")) /\
  (forall b, (py_getitem (PDict d) "baseToken" ≫= fun t => py_getitem t "symbol") = Ok b ->
             dict_lookup "quoteToken" d = None ->
             search_line (PDict d) = Raise (Exn KeyError "'quoteToken'")) /\
  (default PNone (dict_lookup "priceUsd" d) = PNone ->
   exists e, search_line (PDict d) = Raise e) /\
  (forall line, search_line (PDict d) = Ok (Some line) ->
     exists b q price (f : float),
       (py_getitem (PDict d) "baseToken" ≫= fun t => py_getitem t "symbol") = Ok b /\
       (py_getitem (PDict d) "quoteToken" ≫= fun t => py_getitem t "symbol") = Ok q /\
       dict_lookup "priceUsd" d = Some price /\ py_float price = Ok f).
Proof.
  intros Hc Hin. split_and!; eauto using search_line_no_base, search_line_no_quote,
    search_line_no_price, search_line_fields.
Qed.

End required.

(** ** The contract, on the examples *)

Lemma search_replies_witness :
  run (H := search_world) (H0 := open_chat) (search (Update (Some (Message (Some "/search doge"))))) =
  ([search_progress "doge"; join blank_line [doge_line; pdoge_line]], Ok ()).
Proof.
  rewrite (search_replies (H := search_world) (H0 := open_chat) _ "/search" "doge" []);
    by vm_compute.
Defined.

Lemma search_usage_witness :
  run (H := search_world) (H0 := open_chat) (search (Update (Some (Message (Some "/search   "))))) =
  ([usage], Ok ()).
Proof. apply (search_usage (H := search_world) (H0 := open_chat)); [done | vm_compute; lia]. Defined.

Lemma search_other_chain_skipped_witness :
  search_line (pair_record "ethereum" "DOGE" PNone) = Ok None.
Proof. by apply search_other_chain_skipped with (PStr "ethereum"). Defined.

Lemma search_line_required_fields_witness :
  search_line (PDict [("chainId", PStr "pulse")]) = Raise (Exn KeyError "'baseToken'").
Proof.
  by apply (search_line_required_fields [("chainId", PStr "pulse")] (PStr "pulse")).
Defined.
