(* ===== verification/App.v ===== *)
(** * App: the start of the program and the registration of the commands

    When the module is loaded it reads the token of the bot from the
    environment (src/memecoin_bot.py, line 10); a missing variable
    raises [KeyError] and nothing else happens.  [main] (lines 154 to
    160) builds the application, which the library refuses for an
    empty token, registers the four commands and prints a line; it
    then enters the polling loop of the telegram library (line 161),
    which is the subject of Polling.v.

    A handler reads the clock when it runs, so what is registered is a
    handler for every [World]: the polling loop calls it with the world
    of the moment.

    The theorems say which commands are registered, that a registered
    handler is found by its name, and what every registered handler
    guarantees: replies when the chat delivers, closed sessions, and a
    bound on the number of awaits. *)

From stdpp Require Import gmap.
From S2P Require Import Prelude PyFloat PyStr FloatParse FloatFormat PyValue.
From S2P Require Import Config Normalizer Dates Age Filter Summarizer Sorting.
From S2P Require Import Coroutine Http Scan Chat Handlers Search.

(** ** The environment of the process *)

Notation environ := (gmap string string).

(** [os.environ[key]] *)
Definition environ_getitem (env : environ) (key : string) : result string :=
  match env !! key with
  | Some value => Ok value
  | None => raise KeyError (str_repr key)
  end.

Definition BOT_TOKEN (env : environ) : result string :=
  environ_getitem env "TELEGRAM_BOT_TOKEN".

(** ** The application *)

(** What is registered for a command: the handler, called with the
    world of the moment and the update. *)
Definition callback : Type := World -> update -> handler unit.

Record application : Type := Application {
  app_token : string;
  app_handlers : list (string * callback);
}.

Definition invalid_token : string :=
  "You must pass the token you received from https://t.me/Botfather!".

(** [Application.builder().token(token).build()]: the library builds
    the bot of the application, and refuses an empty token. *)
Definition build (token : string) : result application :=
  if bool_decide (token = "") then raise InvalidToken invalid_token
  else Ok (Application token []).

(** [CommandHandler(name, callback)] *)
Definition CommandHandler (name : string) (h : callback) : string * callback := (name, h).

(** [app.add_handler(h)]: the handlers are kept in the order of their
    registration. *)
Definition add_handler (app : application) (h : string * callback) : application :=
  Application (app_token app) (app_handlers app ++ [h]).

Definition banner : string := "🤖 Bot is running...".

(** [main()] up to the call of [app.run_polling()]: the application
    that polls, and what was printed. *)
Definition main (token : string) : result (application * list string) :=
  app ← build token;
  let app := add_handler app (CommandHandler "start" (fun _ => start)) in
  let app := add_handler app (CommandHandler "trending" (fun w => trending (H := w))) in
  let app := add_handler app (CommandHandler "new" (fun w => new (H := w))) in
  let app := add_handler app (CommandHandler "search" (fun _ => search)) in
  Ok (app, [banner]).

(** The module run as a script: the token is read when the module is
    loaded, then [main] is called. *)
Definition program (env : environ) : result (application * list string) :=
  token ← BOT_TOKEN env;
  main token.

(** ** The specification *)

(** The addresses the bot asks. *)
Definition endpoints : list string := [GT_TRENDING; GT_NEW; DEX_SEARCH].

(** The four commands and their handlers. *)
Definition commands : list (string * callback) :=
  [("start", fun _ => start); ("trending", fun w => trending (H := w));
   ("new", fun w => new (H := w)); ("search", fun _ => search)]%string.

(** The handler the library calls for the command [name]: the first
    one registered under the name. *)
Definition handler_for (app : application) (name : string) : option callback :=
  (fun found => found.2.2) <$> list_find (fun h => h.1 = name) (app_handlers app).

(** ** The start *)

Section start.
Implicit Types (env : environ) (token name : string) (app : application).

Lemma main_commands token :
  token <> "" -> main token = Ok (Application token commands, [banner]).
Proof. intros Ht. unfold main, build. by rewrite bool_decide_false. Qed.

Lemma main_empty : main "" = Raise (Exn InvalidToken invalid_token).
Proof. reflexivity. Qed.

(** What [main] has built when it reaches the polling loop. *)
Lemma main_Ok token app out :
  main token = Ok (app, out) ->
  token <> "" /\ app = Application token commands /\ out = [banner].
Proof.
  destruct (decide (token = "")) as [->|Ht]; [done|].
  rewrite main_commands by done. by intros [= <- <-].
Qed.

(** The names of the commands are distinct, so the order of the
    registration does not matter: a handler is called for a name
    exactly when it was registered under it. *)
Lemma handler_for_commands token name :
  handler_for (Application token commands) name =
  if bool_decide (name = "start"%string) then Some (fun _ => start)
  else if bool_decide (name = "trending"%string) then Some (fun w => trending (H := w))
  else if bool_decide (name = "new"%string) then Some (fun w => new (H := w))
  else if bool_decide (name = "search"%string) then Some (fun _ => search)
  else None.
Proof.
  unfold handler_for; simpl. rewrite !(bool_decide_ext (name = _) (_ = name)) by done.
  repeat (case_bool_decide; [subst; by simpl|]).
  unfold list_find; simpl. repeat (rewrite decide_False by done; simpl). done.
Qed.

Lemma handler_for_elem_of token app out name h :
  main token = Ok (app, out) -> handler_for app name = Some h <-> (name, h) ∈ commands.
Proof.
  intros (_ & -> & _)%main_Ok. rewrite handler_for_commands. unfold commands. split.
  - repeat (case_bool_decide; [intros [= <-]; subst; set_solver|]). done.
  - intros Hin. repeat (apply elem_of_cons in Hin as [[= -> ->]|Hin]; [done|]).
    by apply elem_of_nil in Hin.
Qed.

(** C23: the program starts exactly when the environment holds a
    token that is not empty.  Then the application polls with the
    token, one line was printed, and the four commands are registered
    each under its own name: the handler the library finds for a name
    is the handler of that command, and no other name has a handler.
    Without the variable loading the module raises [KeyError], and
    with an empty one the library refuses to build the application
    ([InvalidToken]); no command is registered or served. *)
Theorem program_starts env :
  match env !! "TELEGRAM_BOT_TOKEN"%string with
  | Some token =>
      if bool_decide (token = "") then program env = Raise (Exn InvalidToken invalid_token)
      else
        exists app, program env = Ok (app, [banner]) /\ app_token app = token /\
                    app_handlers app = commands /\
                    forall name h, handler_for app name = Some h <-> (name, h) ∈ commands
  | None => program env = Raise (Exn KeyError "'TELEGRAM_BOT_TOKEN'")
  end.
Proof.
  unfold program, BOT_TOKEN, environ_getitem.
  destruct (env !! "TELEGRAM_BOT_TOKEN"%string) as [token|]; [|done]. rewrite bind_Ok.
  case_bool_decide as Ht; [by subst|].
  exists (Application token commands). split_and!; [by apply main_commands|done..|].
  intros name h. by apply (handler_for_elem_of token _ [banner]), main_commands.
Qed.

End start.

(** ** What every registered handler guarantees *)

Section commands.
Implicit Types (w : World) (u : update) (msg : message) (name : string) (h : callback).

(** The cases of a statement on all four commands. *)
Lemma commands_cases (P : callback -> Prop) name h :
  (name, h) ∈ commands ->
  P (fun _ => start) -> P (fun w => trending (H := w)) -> P (fun w => new (H := w)) ->
  P (fun _ => search) -> P h.
Proof.
  intros Hin. unfold commands in Hin.
  repeat (apply elem_of_cons in Hin as [[= -> ->]|Hin]; [done|]).
  by apply elem_of_nil in Hin.
Qed.

Lemma search_one_or_two `{Chat} w msg :
  (forall text, deliver text = Ok ()) ->
  exists trace, run (H := w) (search (Update (Some msg))) = (trace, Ok ()) /\
                (1 <= length trace <= 2)%nat.
Proof.
  intros Hd. destruct (split_once (default "" (message_text msg))) as [|cmd [|term rest]] eqn:Hs.
  - exists [usage]. rewrite search_no_term by (rewrite Hs; simpl; lia).
    rewrite run_reply_text, Hd. simpl. split; [done | lia].
  - exists [usage]. rewrite search_no_term by (rewrite Hs; simpl; lia).
    rewrite run_reply_text, Hd. simpl. split; [done | lia].
  - eexists. rewrite (search_delivered _ _ _ _ Hd Hs). split; [done | simpl; lia].
Qed.

(** An update without message makes every command raise
    [AttributeError] at its first statement: nothing is replied and the
    service is not asked. *)
Lemma commands_run_no_message `{Chat} w name h :
  (name, h) ∈ commands ->
  run (H := w) (h w (Update None)) =
  ([], Raise (none_attribute (if bool_decide (name = "search") then "text" else "reply_text"))).
Proof.
  intros Hin. unfold commands in Hin.
  repeat (apply elem_of_cons in Hin as [[= -> ->]|Hin]; [done|]).
  by apply elem_of_nil in Hin.
Qed.

(** C24: when the chat delivers every text, each of the four commands
    replies once or twice to an update that carries a message, and its
    handler returns: no exception of the service, of a record or of a
    pair reaches the dispatcher.  To an update without message (the
    library hands one to the handler when the user edits a command
    sent before) it replies nothing and raises [AttributeError]. *)
Theorem commands_reply `{Chat} w name h msg :
  (forall text, deliver text = Ok ()) -> (name, h) ∈ commands ->
  (exists trace, run (H := w) (h w (Update (Some msg))) = (trace, Ok ()) /\
                 (1 <= length trace <= 2)%nat) /\
  run (H := w) (h w (Update None)) =
  ([], Raise (none_attribute (if bool_decide (name = "search") then "text" else "reply_text"))).
Proof.
  intros Hd Hin. split; [|by apply commands_run_no_message].
  apply (commands_cases
           (fun h => exists trace, run (H := w) (h w (Update (Some msg))) = (trace, Ok ()) /\
                                   (1 <= length trace <= 2)%nat) name h Hin).
  - exists [welcome]. unfold start; simpl. rewrite run_reply_text, Hd. simpl. split; [done | lia].
  - eexists. rewrite trending_scan_command, scan_command_delivered by done.
    split; [done | simpl; lia].
  - eexists. rewrite new_scan_command, scan_command_delivered by done.
    split; [done | simpl; lia].
  - by apply search_one_or_two.
Qed.

(** Safety: in every run of a command, whatever the service and the
    chat answer and however the command ends, every session it opened
    is closed and every request was made in an open session. *)
Theorem commands_tidy w name h u : (name, h) ∈ commands -> tidy (h w u).
Proof.
  intros Hin. apply (commands_cases (fun h => tidy (h w u)) name h Hin).
  - apply tidy_message_reply_text.
  - destruct u as [[msg|]]; [rewrite trending_scan_command|apply tidy_lift].
    apply scan_command_tidy.
  - destruct u as [[msg|]]; [rewrite new_scan_command|apply tidy_lift].
    apply scan_command_tidy.
  - apply search_tidy.
Qed.

(** A command asks the service at most once: one session with one
    request to one of the three addresses, with the timeout of 15
    seconds; nothing is asked again, whatever the answer. *)
Theorem commands_requests w name h u evs r :
  (name, h) ∈ commands -> runs (h w u) evs r -> single_request endpoints (requests evs).
Proof.
  intros Hin.
  apply (commands_cases (fun h => runs (h w u) evs r -> single_request endpoints (requests evs))
           name h Hin).
  - destruct u as [[msg|]]; [|intros [-> _]; by left].
    intros (a & -> & _)%reply_text_runs. by left.
  - destruct u as [[msg|]]; [rewrite trending_scan_command|intros [-> _]; by left].
    intros Hr%scan_command_single. eapply single_request_mono; [|done]. set_solver.
  - destruct u as [[msg|]]; [rewrite new_scan_command|intros [-> _]; by left].
    intros Hr%scan_command_single.
    eapply single_request_mono; [|done]. unfold endpoints, endpoint; simpl. set_solver.
  - intros Hr%search_single. eapply single_request_mono; [|done]. set_solver.
Qed.

(** Termination: a command finishes after at most six awaits, whatever
    the answers: the progress line, the three calls of a session, the
    reply, and the error line when the reply was refused. *)
Theorem commands_within w name h u : (name, h) ∈ commands -> within 6 (h w u).
Proof.
  intros Hin. apply (commands_cases (fun h => within 6 (h w u)) name h Hin).
  - apply (within_mono 1); [lia | apply message_reply_text_within].
  - destruct u as [[msg|]]; [rewrite trending_scan_command|done].
    apply scan_command_within.
  - destruct u as [[msg|]]; [rewrite new_scan_command|done].
    apply scan_command_within.
  - apply search_within.
Qed.

(** The same of every run, whatever the world: an update without
    message stops a command before its first effect. *)
Theorem commands_no_message w name h evs r :
  (name, h) ∈ commands -> runs (h w (Update None)) evs r ->
  evs = [] /\
  r = Raise (none_attribute (if bool_decide (name = "search") then "text" else "reply_text")).
Proof.
  intros Hin. unfold commands in Hin.
  repeat (apply elem_of_cons in Hin as [[= -> ->]|Hin]; [by intros [-> ->]|]).
  by apply elem_of_nil in Hin.
Qed.

End commands.

(** ** On the examples *)

Lemma program_examples :
  program {[ "TELEGRAM_BOT_TOKEN" := "123:abc" ]}%string = main "123:abc" /\
  program {[ "TELEGRAM_BOT_TOKEN" := "" ]}%string = Raise (Exn InvalidToken invalid_token) /\
  program {[ "HOME" := "/root" ]}%string = Raise (Exn KeyError "'TELEGRAM_BOT_TOKEN'").
Proof.
  unfold program, BOT_TOKEN, environ_getitem.
  by rewrite !lookup_singleton_eq, lookup_singleton_ne.
Qed.

Lemma commands_reply_witness :
  (exists trace,
     run (H := search_world) (H0 := open_chat) (search (Update (Some (Message None)))) =
       (trace, Ok ()) /\
     (1 <= length trace <= 2)%nat) /\
  run (H := search_world) (H0 := open_chat) (search (Update None)) =
  ([], Raise (none_attribute "text")).
Proof.
  apply (commands_reply (H := open_chat) search_world "search" (fun _ => search)); [done|].
  unfold commands. do 3 right. left.
Defined.

Lemma commands_tidy_witness :
  tidy (trending (H := demo_world) (Update (Some (Message (Some "/trending"))))).
Proof.
  apply (commands_tidy demo_world "trending" (fun w => trending (H := w))).
  unfold commands. right. left.
Defined.

Lemma commands_within_witness :
  within 6 (search (Update (Some (Message (Some "/search doge"))))).
Proof.
  apply (commands_within demo_world "search" (fun _ => search)).
  unfold commands. do 3 right. left.
Defined.

Lemma commands_no_message_witness :
  ([] : list (event botE)) = [] /\
  (Raise (none_attribute "reply_text") : result unit) = Raise (none_attribute "reply_text").
Proof.
  apply (commands_no_message demo_world "trending" (fun w => trending (H := w)) [] _).
  - unfold commands. right. left.
  - done.
Defined.
