(* ===== verification/Polling.v ===== *)
(** * Polling: the commands in the event loop

    [app.run_polling()] (src/memecoin_bot.py, line 161) hands the
    updates the bot receives to the registered handlers and runs the
    handlers as coroutines: a handler runs until it awaits, and while
    it waits for the answer other handlers run.

    The loop is a transition system for the application [main] has
    built.  Its state is the pool of the
    tasks started so far, each the coroutine that is left of a handler.
    A step is an update that arrives, for which the handler of its
    command is started in the world of the moment or which is ignored
    when no handler is registered under the name, or a task that is
    resumed with the answer to the call it awaits.  The steps of
    different tasks come in any order: every interleaving the library
    may choose, running the handlers one after the other included, is
    an execution of [polls].

    A step is determined by its label, so the loop is also a function
    ([run_polling]); and the schedule that serves each update to the
    end before the next ([serve]) is one of its executions.

    The handlers share no state, so a task does not see the others:
    the events of a task in an execution are steps of its handler
    alone ([polls_isolated]).  What is proved of the runs of a handler
    therefore holds of every task of every execution: its sessions
    ([polls_sessions]), the number of its awaits ([polls_terminates]), and
    that it can always finish ([polls_can_finish]). *)

From S2P Require Import Prelude PyFloat PyStr FloatParse FloatFormat PyValue.
From S2P Require Import Config Normalizer Dates Age Filter Summarizer Sorting.
From S2P Require Import Coroutine Http Scan Chat Handlers Search App.

(** ** The transition system *)

(** What happens in the loop: an update recognised as the command
    [name] arrives when the world is [w], or the task [i] is resumed
    with the answer of [ev] to the call of [ev]. *)
Inductive label : Type :=
| Received (w : World) (name : string) (u : update)
| Resumed (i : nat) (ev : event botE).

Notation pool := (list (handler unit)).

(** The updates that arrived and the resumptions of tasks, counted. *)
Definition updates (ls : list label) : nat :=
  length (omap (fun l => if l is Received _ _ _ then Some () else None) ls).

Definition resumptions (ls : list label) : nat :=
  length (omap (fun l => if l is Resumed _ _ then Some () else None) ls).

Section polling.
Context (app : application).

Inductive step : pool -> label -> pool -> Prop :=
| step_received tasks w name u h :
    handler_for app name = Some h ->
    step tasks (Received w name u) (tasks ++ [h w u])
| step_ignored tasks w name u :
    handler_for app name = None ->
    step tasks (Received w name u) tasks
| step_resumed tasks i c k x :
    tasks !! i = Some (Await c k) ->
    step tasks (Resumed i (Event c x)) (<[i := k x]> tasks).

(** The executions: the steps labelled [ls] lead from one pool to
    another. *)
Inductive polls : pool -> list label -> pool -> Prop :=
| polls_nil tasks : polls tasks [] tasks
| polls_snoc tasks ls tasks' l tasks'' :
    polls tasks ls tasks' -> step tasks' l tasks'' -> polls tasks (ls ++ [l]) tasks''.

(** *** The loop as a function

    A step is determined by its label, so the loop is a partial
    function of the labels: [poll] makes a step, [run_polling] the
    steps of a list. *)
Definition poll (tasks : pool) (l : label) : option pool :=
  match l with
  | Received w name u =>
      Some (if handler_for app name is Some h then tasks ++ [h w u] else tasks)
  | Resumed i ev =>
      p ← tasks !! i;
      p' ← resume p ev;
      Some (<[i := p']> tasks)
  end.

Fixpoint run_polling (tasks : pool) (ls : list label) : option pool :=
  match ls with
  | [] => Some tasks
  | l :: ls => tasks' ← poll tasks l; run_polling tasks' ls
  end.

(** *** Serving the updates one after the other

    The simplest schedule serves an update to the end before it takes
    the next one, as the library does when concurrent updates are not
    enabled.  [serve n us] are the steps of that schedule for the
    updates [us], when [n] tasks were started before: each handler is
    started and resumed with the answers of the world and the chat of
    its update until it has finished. *)
Fixpoint serve `{Chat} (n : nat) (us : list (World * string * update)) : list label :=
  match us with
  | [] => []
  | (w, name, u) :: us =>
      match handler_for app name with
      | Some h =>
          Received w name u :: (Resumed n <$> events (H := w) (h w u)) ++ serve (S n) us
      | None => Received w name u :: serve n us
      end
  end.

(** What the chat shows of each update served, and how its handler
    ended. *)
Definition served `{Chat} (us : list (World * string * update))
    : list (list string * result unit) :=
  omap (fun '(w, name, u) => (fun h : callback => run (H := w) (h w u)) <$> handler_for app name)
       us.

(** ** What an execution did *)

(** The events of the task [i]. *)
Definition events_of (i : nat) (ls : list label) : list (event botE) :=
  omap (fun l => match l with
                 | Resumed j ev => if decide (j = i) then Some ev else None
                 | Received _ _ _ => None
                 end) ls.

(** The handlers started, in the order of the updates. *)
Definition started (ls : list label) : pool :=
  omap (fun l => match l with
                 | Received w name u => (fun h : callback => h w u) <$> handler_for app name
                 | Resumed _ _ => None
                 end) ls.

(** The number of events of the first [n] tasks. *)
Fixpoint load (n : nat) (ls : list label) : nat :=
  match n with
  | O => 0
  | S n => load n ls + length (events_of n ls)
  end.

(** The task has returned or raised. *)
Definition finished (p : handler unit) : Prop := if p is Return _ then True else False.

#[export] Instance finished_dec p : Decision (finished p).
Proof. destruct p; simpl; apply _. Defined.

(** The pool [tasks] is what the steps [ls] make of [tasks0]: its
    tasks are those of [tasks0] and the handlers started since, each
    advanced by its own events and by nothing else. *)
Record tracks (tasks0 : pool) (ls : list label) (tasks : pool) : Prop := Tracks {
  tracks_length : length tasks = length (tasks0 ++ started ls);
  tracks_steps i p0 p :
    (tasks0 ++ started ls) !! i = Some p0 -> tasks !! i = Some p ->
    steps p0 (events_of i ls) p;
  tracks_fresh i : (length tasks <= i)%nat -> events_of i ls = [];
}.

End polling.

(** ** The tasks do not interfere *)

Section isolation.
Context (app : application).
Implicit Types (tasks : pool) (ls : list label) (l : label) (i : nat).

Lemma events_of_app i ls1 ls2 :
  events_of i (ls1 ++ ls2) = events_of i ls1 ++ events_of i ls2.
Proof. apply omap_app. Qed.

Lemma started_app ls1 ls2 : started app (ls1 ++ ls2) = started app ls1 ++ started app ls2.
Proof. apply omap_app. Qed.

Lemma events_of_Received i ls w name u :
  events_of i (ls ++ [Received w name u]) = events_of i ls.
Proof. rewrite events_of_app. apply app_nil_r. Qed.

Lemma events_of_Resumed i ls j ev :
  events_of i (ls ++ [Resumed j ev]) =
  events_of i ls ++ (if decide (j = i) then [ev] else []).
Proof. rewrite events_of_app. unfold events_of at 2. simpl. by destruct (decide (j = i)). Qed.

Lemma started_Received ls w name u :
  started app (ls ++ [Received w name u]) =
  started app ls ++ (if handler_for app name is Some h then [h w u] else []).
Proof. rewrite started_app. unfold started at 2. simpl. by destruct (handler_for app name). Qed.

Lemma started_Resumed ls j ev : started app (ls ++ [Resumed j ev]) = started app ls.
Proof. rewrite started_app. apply app_nil_r. Qed.

Lemma tracks_nil tasks : tracks app tasks [] tasks.
Proof.
  split; simpl.
  - by rewrite app_nil_r.
  - intros i p0 p. rewrite app_nil_r. intros -> [= ->]. apply steps_nil.
  - done.
Qed.

(** Every step keeps the invariant: an update that starts a task, *)
Lemma tracks_received tasks0 ls tasks w name u h :
  tracks app tasks0 ls tasks -> handler_for app name = Some h ->
  tracks app tasks0 (ls ++ [Received w name u]) (tasks ++ [h w u]).
Proof.
  intros [Hlen Hsteps Hfresh] Hh. split.
  - rewrite started_Received, Hh, app_assoc, !(length_app _ [_]). by rewrite Hlen.
  - intros i p0 p. rewrite started_Received, Hh, app_assoc, events_of_Received.
    destruct (decide (i < length tasks)%nat) as [Hlt|Hge].
    + rewrite (lookup_app_l (tasks0 ++ _)), (lookup_app_l tasks) by (by rewrite <- ?Hlen).
      apply Hsteps.
    + rewrite (lookup_app_r (tasks0 ++ _)), (lookup_app_r tasks), <- Hlen, Hfresh
        by (rewrite <- ?Hlen; lia).
      destruct (i - length tasks)%nat; [|done]. intros [= <-] [= <-]. apply steps_nil.
  - intros i Hi. rewrite events_of_Received. apply Hfresh. rewrite length_app in Hi. lia.
Qed.

(** an update that is ignored, *)
Lemma tracks_ignored tasks0 ls tasks w name u :
  tracks app tasks0 ls tasks -> handler_for app name = None ->
  tracks app tasks0 (ls ++ [Received w name u]) tasks.
Proof.
  intros [Hlen Hsteps Hfresh] Hh. split.
  - by rewrite started_Received, Hh, app_nil_r.
  - intros i p0 p. rewrite started_Received, Hh, app_nil_r, events_of_Received. apply Hsteps.
  - intros i Hi. rewrite events_of_Received. by apply Hfresh.
Qed.

(** and a task that is resumed. *)
Lemma tracks_resumed tasks0 ls tasks i c k x :
  tracks app tasks0 ls tasks -> tasks !! i = Some (Await c k) ->
  tracks app tasks0 (ls ++ [Resumed i (Event c x)]) (<[i := k x]> tasks).
Proof.
  intros [Hlen Hsteps Hfresh] Hi. pose proof (lookup_lt_Some _ _ _ Hi) as Hlt. split.
  - by rewrite started_Resumed, length_insert.
  - intros j p0 p. rewrite started_Resumed, events_of_Resumed. intros Hp0.
    destruct (decide (i = j)) as [<-|Hne].
    + rewrite list_lookup_insert_eq by done. intros [= <-]. apply steps_snoc. eauto.
    + rewrite list_lookup_insert_ne, app_nil_r by done. eauto.
  - intros j Hj. rewrite length_insert in Hj.
    rewrite events_of_Resumed, decide_False, app_nil_r by lia. eauto.
Qed.

Lemma tracks_step tasks0 ls tasks l tasks' :
  tracks app tasks0 ls tasks -> step app tasks l tasks' ->
  tracks app tasks0 (ls ++ [l]) tasks'.
Proof.
  intros Ht Hstep. destruct Hstep as [tasks w name u h Hh|tasks w name u Hh|tasks i c k x Hi].
  - by apply tracks_received.
  - by apply tracks_ignored.
  - by apply tracks_resumed.
Qed.

Lemma polls_tracks tasks0 ls tasks : polls app tasks0 ls tasks -> tracks app tasks0 ls tasks.
Proof. induction 1; eauto using tracks_nil, tracks_step. Qed.

(** Isolation: in an execution from the empty pool, the [i]-th task
    is the [i]-th handler started, advanced by its own events: the
    other tasks and the order of the steps make no difference to it. *)
Lemma polls_isolated ls tasks i p :
  polls app [] ls tasks -> tasks !! i = Some p ->
  exists p0, started app ls !! i = Some p0 /\ steps p0 (events_of i ls) p.
Proof.
  intros [Hlen Hsteps _]%polls_tracks Hp. simpl in *.
  destruct (lookup_lt_is_Some_2 (started app ls) i) as [p0 Hp0].
  { rewrite <- Hlen. by eapply lookup_lt_Some. }
  eauto.
Qed.

(** What was started is a registered handler called with an update. *)
Lemma started_lookup ls i p0 :
  started app ls !! i = Some p0 ->
  exists w name u h, handler_for app name = Some h /\ p0 = h w u.
Proof.
  intros Hp0%list_elem_of_lookup_2.
  apply list_elem_of_omap in Hp0 as ([w name u|] & _ & Hl); [|done].
  destruct (handler_for app name) as [h|] eqn:Hh; simplify_eq/=. by exists w, name, u, h.
Qed.

(** ** Counting the steps *)

Lemma length_updates_resumptions ls : length ls = (updates ls + resumptions ls)%nat.
Proof.
  unfold updates, resumptions. induction ls as [|[w name u|j ev] ls IH]; csimpl in *; lia.
Qed.

Lemma updates_snoc ls l :
  updates (ls ++ [l]) = (updates ls + if l is Received _ _ _ then 1 else 0)%nat.
Proof. unfold updates. rewrite omap_app, length_app. by destruct l. Qed.

Lemma resumptions_snoc ls l :
  resumptions (ls ++ [l]) = (resumptions ls + if l is Resumed _ _ then 1 else 0)%nat.
Proof. unfold resumptions. rewrite omap_app, length_app. by destruct l. Qed.

Lemma load_nil n : load n [] = 0%nat.
Proof. induction n; simpl; lia. Qed.

Lemma load_Received n ls w name u : load n (ls ++ [Received w name u]) = load n ls.
Proof. induction n as [|n IH]; simpl; [done|]. by rewrite IH, events_of_Received. Qed.

Lemma load_Resumed n ls j ev :
  load n (ls ++ [Resumed j ev]) = (load n ls + if decide (j < n)%nat then 1 else 0)%nat.
Proof.
  induction n as [|n IH]; simpl; [done|].
  rewrite IH, events_of_Resumed, length_app.
  repeat case_decide; simpl; lia.
Qed.

(** Every resumption is an event of a task of the pool. *)
Lemma polls_load tasks0 ls tasks :
  polls app tasks0 ls tasks -> resumptions ls = load (length tasks) ls.
Proof.
  induction 1 as [tasks|tasks0 ls tasks l tasks'' Hp IH Hstep]; [by rewrite load_nil|].
  - rewrite resumptions_snoc. destruct Hstep as [tasks w name u h Hh|tasks w name u Hh|tasks i c k x Hi].
    + rewrite length_app, Nat.add_1_r, load_Received; simpl.
      rewrite (tracks_fresh _ _ _ _ (polls_tracks _ _ _ Hp)) by done. simpl. lia.
    + rewrite load_Received. lia.
    + rewrite length_insert, load_Resumed, decide_True by (by eapply lookup_lt_Some). lia.
Qed.

(** The tasks are the updates that were not ignored. *)
Lemma polls_length ls tasks : polls app [] ls tasks -> (length tasks <= updates ls)%nat.
Proof.
  intros [-> _ _]%polls_tracks. simpl. unfold started, updates.
  induction ls as [|[w name u|j ev] ls IH]; csimpl; [done| |done].
  destruct (handler_for app name); csimpl; lia.
Qed.

Lemma load_le n ls b :
  (forall i, (i < n)%nat -> (length (events_of i ls) <= b)%nat) -> (load n ls <= b * n)%nat.
Proof.
  induction n as [|n IH]; intros Hb; simpl; [lia|].
  specialize (Hb n) as Hn. specialize (IH (fun i Hi => Hb i (Nat.lt_lt_succ_r _ _ Hi))). lia.
Qed.

End isolation.

(** ** An execution of one task *)

Section single.
Context (app : application).
Implicit Types (tasks : pool) (i : nat) (evs : list (event botE)) (p : handler unit).
Implicit Types (ls : list label) (l : label).

Lemma polls_one tasks l tasks' : step app tasks l tasks' -> polls app tasks [l] tasks'.
Proof. apply (polls_snoc app tasks [] tasks), polls_nil. Qed.

Lemma polls_app tasks ls1 tasks' ls2 tasks'' :
  polls app tasks ls1 tasks' -> polls app tasks' ls2 tasks'' ->
  polls app tasks (ls1 ++ ls2) tasks''.
Proof.
  intros H1 H2. induction H2 as [|? ? ? ? ? _ IH Hst]; [by rewrite app_nil_r|].
  rewrite app_assoc. eapply polls_snoc; eauto.
Qed.

(** A task can take its steps whatever the other tasks are. *)
Lemma polls_steps tasks i p evs p' :
  tasks !! i = Some p -> steps p evs p' ->
  polls app tasks (Resumed i <$> evs) (<[i := p']> tasks).
Proof.
  intros Hi Hs. revert tasks Hi. induction Hs as [p|c k x evs p' _ IH]; intros tasks Hi.
  - rewrite list_insert_id by done. apply polls_nil.
  - rewrite <- (list_insert_insert_eq tasks i p' (k x)).
    apply (polls_app _ [_] (<[i := k x]> tasks)); [by apply polls_one, step_resumed|].
    apply IH, list_lookup_insert_eq. by eapply lookup_lt_Some.
Qed.

End single.

(** ** The loop as a function *)

Section function.
Context (app : application).
Implicit Types (tasks : pool) (i : nat) (ls : list label) (l : label).

Lemma step_poll tasks l tasks' : step app tasks l tasks' <-> poll app tasks l = Some tasks'.
Proof.
  split.
  - intros [? w name u h Hh|? w name u Hh|? i c k x Hi]; simpl; rewrite ?Hh; [done..|].
    rewrite Hi; simpl. by rewrite answer_to_Event.
  - destruct l as [w name u|i ev]; simpl.
    + destruct (handler_for app name) as [h|] eqn:Hh; intros [= <-];
        [by apply step_received | by apply step_ignored].
    + destruct (tasks !! i) as [p|] eqn:Hi; [|done]; simpl.
      destruct (resume p ev) as [p'|] eqn:Hr; [|done]. intros [= <-].
      apply resume_Some in Hr as (c & k & x & -> & -> & ->). by apply step_resumed.
Qed.

Lemma polls_cons tasks l tasks' ls tasks'' :
  step app tasks l tasks' -> polls app tasks' ls tasks'' -> polls app tasks (l :: ls) tasks''.
Proof. intros Hs Hp. apply (polls_app _ _ [l] tasks'); [by apply polls_one | done]. Qed.

Lemma polls_nil_inv tasks tasks' : polls app tasks [] tasks' -> tasks' = tasks.
Proof. inversion 1 as [|? ls ? ? ? ? ? Hl]; [done | by destruct ls]. Qed.

Lemma polls_cons_inv tasks l ls tasks'' :
  polls app tasks (l :: ls) tasks'' ->
  exists tasks', step app tasks l tasks' /\ polls app tasks' ls tasks''.
Proof.
  intros Hp. remember (l :: ls) as ls0 eqn:Heq. revert l ls Heq.
  induction Hp as [|tasks ls1 mid l1 tasks'' Hp IH Hs]; intros l ls Heq; [done|].
  destruct ls1 as [|l0 ls1]; simplify_eq/=.
  - apply polls_nil_inv in Hp as ->. exists tasks''. split; [done | apply polls_nil].
  - destruct (IH _ _ eq_refl) as (tasks' & Hs' & Hp'). exists tasks'.
    split; [done | by eapply polls_snoc].
Qed.

(** Equivalence: the executions of the loop are the computations of
    [run_polling]. *)
Lemma polls_run_polling tasks ls tasks' :
  polls app tasks ls tasks' <-> run_polling app tasks ls = Some tasks'.
Proof.
  revert tasks. induction ls as [|l ls IH]; intros tasks; simpl.
  - split; [by intros ->%polls_nil_inv | intros [= <-]; apply polls_nil].
  - split.
    + intros (mid & Hs%step_poll & Hp%IH)%polls_cons_inv. by rewrite Hs.
    + destruct (poll app tasks l) as [mid|] eqn:Hs; [|done]; simpl.
      intros Hp%IH. apply step_poll in Hs. by eapply polls_cons.
Qed.

(** The labels determine the execution. *)
Lemma polls_deterministic tasks ls tasks1 tasks2 :
  polls app tasks ls tasks1 -> polls app tasks ls tasks2 -> tasks1 = tasks2.
Proof. rewrite !polls_run_polling. congruence. Qed.

End function.

(** ** Serving the updates one after the other *)

Section serve.
Context (app : application) `{Chat}.
Implicit Types (tasks : pool) (i n : nat) (us : list (World * string * update)).

Lemma events_of_cons_Received i w name u ls :
  events_of i (Received w name u :: ls) = events_of i ls.
Proof. reflexivity. Qed.

Lemma events_of_resumed i n (evs : list (event botE)) :
  events_of i (Resumed n <$> evs) = if decide (n = i) then evs else [].
Proof.
  unfold events_of. induction evs as [|ev evs IH]; csimpl; [by case_decide|].
  rewrite IH. by case_decide.
Qed.

Lemma serve_cons n w name u us :
  serve app n ((w, name, u) :: us) =
  Received w name u ::
    match handler_for app name with
    | Some h => (Resumed n <$> events (H := w) (h w u)) ++ serve app (S n) us
    | None => serve app n us
    end.
Proof. simpl. by destruct (handler_for app name). Qed.

Lemma served_cons w name u us :
  served app ((w, name, u) :: us) =
  match handler_for app name with
  | Some h => run (H := w) (h w u) :: served app us
  | None => served app us
  end.
Proof. unfold served. csimpl. by destruct (handler_for app name). Qed.

(** The schedule resumes the tasks it starts and no other. *)
Lemma events_of_serve_lt i n us : (i < n)%nat -> events_of i (serve app n us) = [].
Proof.
  revert n. induction us as [|[[w name] u] us IH]; intros n Hi; [done|].
  rewrite serve_cons, events_of_cons_Received.
  destruct (handler_for app name) as [h|]; [|by apply IH].
  rewrite events_of_app, events_of_resumed, decide_False, IH by lia. done.
Qed.

(** The events of a task of the schedule are those of its handler in
    the world and the chat of its update. *)
Lemma events_of_serve n us j tr :
  served app us !! j = Some tr -> delivered (events_of (n + j) (serve app n us)) = tr.1.
Proof.
  revert n j. induction us as [|[[w name] u] us IH]; intros n j; [done|].
  rewrite serve_cons, served_cons, events_of_cons_Received.
  destruct (handler_for app name) as [h|]; [|apply IH].
  rewrite events_of_app, events_of_resumed.
  destruct j as [|j]; simpl.
  - intros [= <-]. by rewrite Nat.add_0_r, decide_True, events_of_serve_lt, app_nil_r by lia.
  - intros Hj. rewrite decide_False by lia. simpl. rewrite <- Nat.add_succ_comm. by apply IH.
Qed.

Lemma serve_polls_from tasks us :
  polls app tasks (serve app (length tasks) us)
    (tasks ++ ((fun tr => Return tr.2) <$> served app us)).
Proof.
  revert tasks. induction us as [|[[w name] u] us IH]; intros tasks.
  { simpl. rewrite app_nil_r. apply polls_nil. }
  rewrite serve_cons, served_cons. destruct (handler_for app name) as [h|] eqn:Hh.
  - eapply polls_cons; [by apply step_received|].
    apply (polls_app _ _ _ (tasks ++ [Return (run (H := w) (h w u)).2])).
    + replace (tasks ++ [Return (run (H := w) (h w u)).2])
        with (<[length tasks := Return (run (H := w) (h w u)).2]> (tasks ++ [h w u]))
        by (by rewrite insert_app_r_alt, Nat.sub_diag by done).
      apply (polls_steps _ _ _ (h w u)); [by apply list_lookup_middle|].
      apply runs_steps, interp_runs.
    + specialize (IH (tasks ++ [Return (run (H := w) (h w u)).2])).
      by rewrite length_app, Nat.add_1_r, <- app_assoc in IH.
  - eapply polls_cons; [by apply step_ignored | apply IH].
Qed.

End serve.

(** ** The registered commands in the loop *)

(** The loop polls for the application [main] has built: [app] is
    what [main] hands to [run_polling], [out] what it has printed. *)
Section commands.
Context (token : string) (app : application) (out : list string).
Hypothesis Hmain : main token = Ok (app, out).
Implicit Types (tasks : pool) (ls : list label) (i : nat) (p : handler unit).

(** A handler is found for a name exactly when it is a command. *)
Lemma registered name (h : callback) :
  handler_for app name = Some h <-> (name, h) ∈ commands.
Proof. exact (handler_for_elem_of token app out name h Hmain). Qed.

(** The environment in which the service does not answer and the chat
    delivers. *)
Definition silent : oracle botE :=
  sum_oracle (E := netE) (F := chatE)
    (fun c => match c with
              | AsyncClient => 0%nat
              | Get _ _ _ _ => raise TransportError "timed out"
              | Close _ => tt
              end)
    (fun _ => Ok ()).

(** A task is a command that was started. *)
Lemma task_command ls tasks i p :
  polls app [] ls tasks -> tasks !! i = Some p ->
  exists w name u h, (name, h) ∈ commands /\ steps (h w u) (events_of i ls) p.
Proof.
  intros Hp Hi. destruct (polls_isolated _ _ _ _ _ Hp Hi) as (p0 & Hp0 & Hs).
  apply started_lookup in Hp0 as (w & name & u & h & Hh%registered & ->).
  by exists w, name, u, h.
Qed.

(** C11: isolation: in every execution of the loop, whatever the
    order in which the tasks are resumed, a task that has finished
    made a complete run of its command: its events and its outcome are
    those of the handler run alone with the same answers. *)
Theorem polls_run ls tasks i r :
  polls app [] ls tasks -> tasks !! i = Some (Return r) ->
  exists w name u h, (name, h) ∈ commands /\ runs (h w u) (events_of i ls) r.
Proof.
  intros Hp Hi. destruct (task_command _ _ _ _ Hp Hi) as (w & name & u & h & Hin & Hs).
  exists w, name, u, h. by rewrite <- steps_runs.
Qed.

(** C17: safety: at every moment of every execution, every task has
    kept the discipline of sessions: at most one session is open and
    requests are made in it.  A task that has finished, however it
    ended, has asked the service at most once: one session, closed,
    with one request to one of the three addresses and the timeout of
    15 seconds, never repeated. *)
Theorem polls_sessions ls tasks i p :
  polls app [] ls tasks -> tasks !! i = Some p ->
  is_Some (protocol None (requests (events_of i ls))) /\
  (finished p ->
   sessions_closed (requests (events_of i ls)) /\
   single_request endpoints (requests (events_of i ls))).
Proof.
  intros Hp Hi. destruct (task_command _ _ _ _ Hp Hi) as (w & name & u & h & Hin & Hs).
  pose proof (commands_tidy w name h u Hin) as Htidy. split.
  - pose proof (steps_runs_app _ _ _ _ _ Hs (interp_runs silent p)) as Hr.
    apply Htidy in Hr. rewrite requests_app in Hr.
    apply (protocol_prefix _ _ (requests (interp silent p).1)). by rewrite Hr.
  - destruct p as [r|]; [intros _|done]. apply steps_runs in Hs.
    split; [by apply (Htidy _ r) | by apply (commands_requests w name h u _ r)].
Qed.

(** A task is resumed at most six times, and what is left of it
    finishes within the awaits that remain. *)
Lemma task_within ls tasks i p :
  polls app [] ls tasks -> tasks !! i = Some p ->
  (length (events_of i ls) <= 6)%nat /\ within (6 - length (events_of i ls)) p.
Proof.
  intros Hp Hi. destruct (task_command _ _ _ _ Hp Hi) as (w & name & u & h & Hin & Hs).
  eapply steps_within; [by apply (commands_within w name h u)|done].
Qed.

(** C18: termination: when no more updates arrive the loop comes to
    rest.  However the steps of the tasks are interleaved, the tasks
    are resumed at most six times each, so an execution in which [n]
    updates arrived has at most [7 * n] steps. *)
Theorem polls_terminates ls tasks :
  polls app [] ls tasks ->
  (resumptions ls <= 6 * length tasks)%nat /\ (length ls <= 7 * updates ls)%nat.
Proof.
  intros Hp. pose proof (polls_length _ _ _ Hp) as Hlen.
  assert (resumptions ls <= 6 * length tasks)%nat as Hres.
  { rewrite (polls_load _ _ _ _ Hp). apply load_le. intros i Hi.
    destruct (lookup_lt_is_Some_2 tasks i Hi) as [p Hi'].
    by destruct (task_within _ _ _ _ Hp Hi'). }
  rewrite length_updates_resumptions. lia.
Qed.

(** C25: the loop cannot block a task: a task that has not finished
    can be resumed, and resumed until it finishes, whatever the other
    tasks do. *)
Theorem polls_can_finish ls tasks i p :
  polls app [] ls tasks -> tasks !! i = Some p ->
  exists evs r, polls app tasks (Resumed i <$> evs) (<[i := Return r]> tasks) /\
                (length evs <= 6 - length (events_of i ls))%nat.
Proof.
  intros Hp Hi. destruct (task_within _ _ _ _ Hp Hi) as [_ Hw].
  exists (interp silent p).1, (interp silent p).2. split.
  - apply (polls_steps _ _ _ p); [done|]. apply runs_steps, interp_runs.
  - by destruct (steps_within _ _ _ _ Hw (runs_steps _ _ _ (interp_runs silent p))).
Qed.

(** C26: serving the updates one after the other is an execution of
    the loop in which every update is served to the end: each handler
    started has finished, the chat shows of each what the handler
    sends when it is run alone in the world and the chat of its
    update, and the handler is that of a registered command. *)
Theorem serve_polls `{Chat} us :
  polls app [] (serve app 0 us) ((fun tr => Return tr.2) <$> served app us) /\
  forall i tr,
    served app us !! i = Some tr ->
    delivered (events_of i (serve app 0 us)) = tr.1 /\
    exists w name u h, (name, h) ∈ commands /\ tr = run (H := w) (h w u).
Proof.
  split; [apply (serve_polls_from app [])|]. intros i tr Hi.
  split; [by apply (events_of_serve app 0)|].
  apply list_elem_of_lookup_2, list_elem_of_omap in Hi as ([[w name] u] & _ & Hi).
  destruct (handler_for app name) as [h|] eqn:Hh; simplify_eq/=.
  exists w, name, u, h. by apply registered in Hh.
Qed.

End commands.

(** ** On an example *)

(** Two commands whose steps are interleaved, and an update that is
    no command of the bot: [/trending] is started, then [/search]
    without a term; [/trending] sends its progress line, [/search]
    replies with the usage line and finishes, and [/trending] opens
    its session while the last update is ignored. *)
Definition demo_labels : list label :=
  [Received demo_world "trending" (Update (Some (Message (Some "/trending"))));
   Received search_world "search" (Update (Some (Message (Some "/search"))));
   Resumed 0 (Replied trending_progress (Ok ()));
   Resumed 1 (Replied usage (Ok ()));
   Received demo_world "stop" (Update (Some (Message (Some "/stop"))));
   Resumed 0 (event_l (Opened 4))].

(** The application of the token ["123:abc"] *)
Definition demo_app : application := Application "123:abc" commands.

Lemma demo_main : main "123:abc" = Ok (demo_app, [banner]).
Proof. reflexivity. Qed.

Lemma demo_polls :
  exists p, polls demo_app [] demo_labels [p; Return (Ok ())] /\
            ~ finished p.
Proof.
  eexists. split.
  - unfold demo_labels.
    eapply polls_cons; [by apply step_received|].
    eapply polls_cons; [by apply step_received|].
    eapply polls_cons; [by apply (step_resumed _ _ 0%nat)|].
    eapply polls_cons; [by apply (step_resumed _ _ 1%nat)|].
    eapply polls_cons; [by apply step_ignored|].
    eapply polls_cons; [by apply (step_resumed _ _ 0%nat)|].
    apply polls_nil.
  - intros Hf. exact Hf.
Qed.

Lemma polls_run_witness :
  exists w name u h, (name, h) ∈ commands /\ runs (h w u) (events_of 1 demo_labels) (Ok ()).
Proof.
  destruct demo_polls as (p & Hp & _).
  exact (polls_run "123:abc" _ _ demo_main demo_labels _ 1 (Ok ()) Hp eq_refl).
Defined.

Lemma polls_sessions_witness :
  is_Some (protocol None (requests (events_of 0 demo_labels))) /\
  (finished (Return (Ok ()) : handler unit) ->
   sessions_closed (requests (events_of 1 demo_labels)) /\
   single_request endpoints (requests (events_of 1 demo_labels))).
Proof.
  destruct demo_polls as (p & Hp & _). split.
  - exact (proj1 (polls_sessions "123:abc" _ _ demo_main demo_labels _ 0 p Hp eq_refl)).
  - exact (proj2 (polls_sessions "123:abc" _ _ demo_main demo_labels _ 1 _ Hp eq_refl)).
Defined.

Lemma polls_terminates_witness :
  (resumptions demo_labels <= 6 * 2)%nat /\ (length demo_labels <= 7 * updates demo_labels)%nat.
Proof.
  destruct demo_polls as (p & Hp & _).
  exact (polls_terminates "123:abc" _ _ demo_main demo_labels _ Hp).
Defined.

Lemma polls_can_finish_witness :
  exists p evs r,
    polls demo_app [p; Return (Ok ())] (Resumed 0 <$> evs)
      [Return r; Return (Ok ())] /\
    (length evs <= 6 - length (events_of 0 demo_labels))%nat.
Proof.
  destruct demo_polls as (p & Hp & _).
  destruct (polls_can_finish "123:abc" _ _ demo_main demo_labels _ 0 p Hp eq_refl) as (evs & r & ? & ?).
  by exists p, evs, r.
Defined.

(** Three updates served one after the other in a chat that delivers:
    [/trending], an update that is no command of the bot, and
    [/search] without a term. *)
Definition demo_updates : list (World * string * update) :=
  [(demo_world, "trending", Update (Some (Message (Some "/trending"))));
   (demo_world, "stop", Update (Some (Message (Some "/stop"))));
   (search_world, "search", Update (Some (Message (Some "/search"))))]%string.

Lemma demo_served :
  served (H := open_chat) demo_app demo_updates =
  [([trending_progress; join blank_line demo_report], Ok ()); ([usage], Ok ())].
Proof.
  unfold demo_updates, demo_app. rewrite !served_cons, !handler_for_commands; simpl.
  rewrite trending_scan_command, scan_command_delivered by done.
  rewrite search_usage by (simpl; done || lia).
  unfold answer. by rewrite demo_scan.
Qed.

Lemma serve_polls_witness :
  polls demo_app [] (serve (H := open_chat) demo_app 0 demo_updates)
    ((fun tr => Return tr.2) <$> served (H := open_chat) demo_app demo_updates) /\
  forall i tr,
    served (H := open_chat) demo_app demo_updates !! i = Some tr ->
    delivered (events_of i (serve (H := open_chat) demo_app 0 demo_updates)) = tr.1 /\
    exists w name u h, (name, h) ∈ commands /\ tr = run (H := w) (H0 := open_chat) (h w u).
Proof. exact (serve_polls "123:abc" demo_app [banner] demo_main (H := open_chat) demo_updates). Defined.
